(** * MapXchange map server: comparison, retrieval and preview protocol

    A shallow embedding of [src/lib/map_server_backend.py] (class
    [MapServer]) and of the tables of [src/map_server/map_database.py],
    together with the properties of the masking protocol.

    The SQLAlchemy session is modelled by a pair of databases (the
    committed one and the session's view of it), Python exceptions by an
    error monad over that session, and the Paillier library [phe] by an
    interface of an additively homomorphic cipher. *)

From Stdlib Require Import ZArith List String Bool Lia Znumtheory Zpow_facts.
From Stdlib Require Import DecimalString.
Import ListNotations.
Open Scope string_scope.
Open Scope Z_scope.

(** ** The additively homomorphic cipher

    [map_server_backend.py] uses python-paillier only through
    [paillier.EncryptedNumber(public_key, c)], [+]/[-] with an integer or
    another encrypted number, and [.ciphertext()]; the producers decrypt
    with the private key of the map.  The interface below names these
    capabilities; ciphertexts and plaintexts are integers, and a key pair
    is identified by its public modulus [n]. *)

Class Cipher : Type := {
  (** [c] is a ciphertext under the key with modulus [n] *)
  valid_ct : Z -> Z -> Prop;
  (** [r] is an admissible obfuscation nonce for modulus [n] *)
  good_nonce : Z -> Z -> Prop;
  (** [EncryptedNumber(pk, c) + k] for an integer [k], before obfuscation *)
  add_scalar : Z -> Z -> Z -> Z;
  (** [EncryptedNumber(pk, c1) + EncryptedNumber(pk, c2)], before obfuscation *)
  add_ct : Z -> Z -> Z -> Z;
  (** the re-randomisation done by [.ciphertext()] with nonce [r] *)
  obfuscate : Z -> Z -> Z -> Z;
  (** decryption with the private key that belongs to [n] *)
  decrypt : Z -> Z -> Z;

  valid_ct_nonzero : forall n c, valid_ct n c -> c <> 0;
  valid_add_scalar : forall n c k, valid_ct n c -> valid_ct n (add_scalar n c k);
  valid_obfuscate : forall n r c,
    valid_ct n c -> good_nonce n r -> valid_ct n (obfuscate n r c);
  decrypt_add_scalar : forall n c k,
    valid_ct n c -> (decrypt n (add_scalar n c k)) mod n = (decrypt n c + k) mod n;
  decrypt_obfuscate : forall n r c,
    valid_ct n c -> good_nonce n r -> decrypt n (obfuscate n r c) = decrypt n c;
  decrypt_range : forall n c, valid_ct n c -> - n < 2 * decrypt n c <= n
}.

(** ** Textbook Paillier with generator [n + 1]

    The arithmetic python-paillier performs on raw ciphertexts: encryption
    of [m] with nonce 1 is [n*m + 1 mod n^2], adding ciphertexts multiplies
    them modulo [n^2], obfuscation multiplies by [r^n mod n^2], and the
    decoded plaintext is the signed representative of
    [L(c^lambda mod n^2) * mu mod n]. *)
Module Paillier.

Record PrivateKey : Type := {
  n : Z;
  lambda : Z;
  mu : Z
}.

Definition nsquare (n : Z) : Z := n * n.

Definition raw_encrypt (n m : Z) : Z := (n * m + 1) mod nsquare n.

Definition raw_add (n a b : Z) : Z := (a * b) mod nsquare n.

Definition encode (n k : Z) : Z := k mod n.

Definition add_scalar (n c k : Z) : Z := raw_add n c (raw_encrypt n (encode n k)).

Definition obfuscate (n r c : Z) : Z := raw_add n c (r ^ n mod nsquare n).

Definition l_function (n x : Z) : Z := (x - 1) / n.

Definition raw_decrypt (sk : PrivateKey) (c : Z) : Z :=
  (l_function (n sk) (c ^ lambda sk mod nsquare (n sk)) * mu sk) mod n sk.

Definition decode (n m : Z) : Z := if 2 * m <=? n then m else m - n.

Definition decrypt (sk : PrivateKey) (c : Z) : Z := decode (n sk) (raw_decrypt sk c).

(** A ciphertext of [sk]: a residue modulo [n^2] whose [lambda]-th power
    is 1 modulo [n]. *)
Definition valid (sk : PrivateKey) (c : Z) : Prop :=
  0 < c < nsquare (n sk) /\ (c ^ lambda sk mod nsquare (n sk)) mod n sk = 1.

(** A nonce whose obfuscator [r^n] is in the kernel of the [lambda]-th
    power modulo [n^2]. *)
Definition good (sk : PrivateKey) (r : Z) : Prop :=
  ((r ^ n sk mod nsquare (n sk)) ^ lambda sk) mod nsquare (n sk) = 1.

Definition wf_key (sk : PrivateKey) : Prop :=
  1 < n sk /\ 0 < lambda sk /\ (lambda sk * mu sk) mod n sk = 1.

End Paillier.

(** ** Python values and exceptions *)

(** Exceptions raised in the backend.  [ValueErrorFrom msg cause] is
    [raise ValueError(msg) from cause]; with an empty message it is the
    bare [raise ValueError from e]. *)
Inductive Exn : Type :=
| ValueError (msg : string)
| ValueErrorFrom (msg : string) (cause : Exn)
| RuntimeError (msg : string)
| NoResultFound
| MultipleResultsFound
| IntegrityError
| TypeError
| IndexError
| AttributeError
| InvalidRequestError.

Inductive Res (A : Type) : Type :=
| Ok (a : A)
| Raise (e : Exn).
Arguments Ok {A} a.
Arguments Raise {A} e.

(** Truth value of an optional integer: [None] and [0] are false. *)
Definition truthy (x : option Z) : bool :=
  match x with
  | Some z => negb (z =? 0)
  | None => false
  end.

(** [==] on optional integers. *)
Definition opt_Z_eqb (x y : option Z) : bool :=
  match x, y with
  | Some a, Some b => a =? b
  | None, None => true
  | _, _ => false
  end.

(** A producer row is identified by its unique [username]. *)
Definition Producer : Type := string.

Definition opt_producer_eqb (x y : option Producer) : bool :=
  match x, y with
  | Some a, Some b => String.eqb a b
  | None, None => true
  | _, _ => false
  end.

(** [producer in lst] *)
Definition mem (u : Producer) (l : list Producer) : bool := existsb (String.eqb u) l.

(** [lst.remove(producer)]: drops the first occurrence, [ValueError] when
    there is none. *)
Fixpoint list_remove (u : Producer) (l : list Producer) : option (list Producer) :=
  match l with
  | [] => None
  | x :: r =>
      if String.eqb x u then Some r
      else match list_remove u r with
           | Some r' => Some (x :: r')
           | None => None
           end
  end.

(** ** Tables ([src/map_server/map_database.py]) *)

Module ReverseQuerist.
Record t : Type := {
  id : Z;
  producer : Producer;
  map_id : option Z;
  point_count : Z;
  offset : Z;
  tool : string
}.
End ReverseQuerist.

Module MapKey.
Record t : Type := {
  id : Z;
  map_id : Z;
  machine : string;
  material : string;
  tool : string;
  public_key_n : Z;
  first_provider : Producer;
  past_requests : list Producer
}.

Definition set_past_requests (v : list Producer) (m : t) : t :=
  {| id := id m; map_id := map_id m; machine := machine m; material := material m;
     tool := tool m; public_key_n := public_key_n m;
     first_provider := first_provider m; past_requests := v |}.
End MapKey.

Module StoredPoint.
Record t : Type := {
  id : Z;
  map_id : Z;
  ap : Z;
  ae : Z;
  usage_total : option Z;
  fz_optimal : option Z;
  provider_optimal : option Producer;
  fz_pending : option Z;
  provider_pending : option Producer;
  fz_unknown : option Z;
  provider_unknown : option Producer;
  open_requests : list Producer;
  current_offset : option Z;
  current_comparators : list Producer;
  last_comparator : option Producer;
  point_vendees : list Producer
}.

Definition set_usage_total (v : option Z) (p : t) : t :=
  {| id := id p; map_id := map_id p; ap := ap p; ae := ae p;
     usage_total := v;
     fz_optimal := fz_optimal p; provider_optimal := provider_optimal p;
     fz_pending := fz_pending p; provider_pending := provider_pending p;
     fz_unknown := fz_unknown p; provider_unknown := provider_unknown p;
     open_requests := open_requests p; current_offset := current_offset p;
     current_comparators := current_comparators p;
     last_comparator := last_comparator p; point_vendees := point_vendees p |}.

Definition set_optimal (fz : option Z) (prov : option Producer) (p : t) : t :=
  {| id := id p; map_id := map_id p; ap := ap p; ae := ae p;
     usage_total := usage_total p;
     fz_optimal := fz; provider_optimal := prov;
     fz_pending := fz_pending p; provider_pending := provider_pending p;
     fz_unknown := fz_unknown p; provider_unknown := provider_unknown p;
     open_requests := open_requests p; current_offset := current_offset p;
     current_comparators := current_comparators p;
     last_comparator := last_comparator p; point_vendees := point_vendees p |}.

Definition set_pending (fz : option Z) (prov : option Producer) (p : t) : t :=
  {| id := id p; map_id := map_id p; ap := ap p; ae := ae p;
     usage_total := usage_total p;
     fz_optimal := fz_optimal p; provider_optimal := provider_optimal p;
     fz_pending := fz; provider_pending := prov;
     fz_unknown := fz_unknown p; provider_unknown := provider_unknown p;
     open_requests := open_requests p; current_offset := current_offset p;
     current_comparators := current_comparators p;
     last_comparator := last_comparator p; point_vendees := point_vendees p |}.

Definition set_unknown (fz : option Z) (prov : option Producer) (p : t) : t :=
  {| id := id p; map_id := map_id p; ap := ap p; ae := ae p;
     usage_total := usage_total p;
     fz_optimal := fz_optimal p; provider_optimal := provider_optimal p;
     fz_pending := fz_pending p; provider_pending := provider_pending p;
     fz_unknown := fz; provider_unknown := prov;
     open_requests := open_requests p; current_offset := current_offset p;
     current_comparators := current_comparators p;
     last_comparator := last_comparator p; point_vendees := point_vendees p |}.

Definition set_open_requests (v : list Producer) (p : t) : t :=
  {| id := id p; map_id := map_id p; ap := ap p; ae := ae p;
     usage_total := usage_total p;
     fz_optimal := fz_optimal p; provider_optimal := provider_optimal p;
     fz_pending := fz_pending p; provider_pending := provider_pending p;
     fz_unknown := fz_unknown p; provider_unknown := provider_unknown p;
     open_requests := v; current_offset := current_offset p;
     current_comparators := current_comparators p;
     last_comparator := last_comparator p; point_vendees := point_vendees p |}.

Definition set_current_offset (v : option Z) (p : t) : t :=
  {| id := id p; map_id := map_id p; ap := ap p; ae := ae p;
     usage_total := usage_total p;
     fz_optimal := fz_optimal p; provider_optimal := provider_optimal p;
     fz_pending := fz_pending p; provider_pending := provider_pending p;
     fz_unknown := fz_unknown p; provider_unknown := provider_unknown p;
     open_requests := open_requests p; current_offset := v;
     current_comparators := current_comparators p;
     last_comparator := last_comparator p; point_vendees := point_vendees p |}.

Definition set_current_comparators (v : list Producer) (p : t) : t :=
  {| id := id p; map_id := map_id p; ap := ap p; ae := ae p;
     usage_total := usage_total p;
     fz_optimal := fz_optimal p; provider_optimal := provider_optimal p;
     fz_pending := fz_pending p; provider_pending := provider_pending p;
     fz_unknown := fz_unknown p; provider_unknown := provider_unknown p;
     open_requests := open_requests p; current_offset := current_offset p;
     current_comparators := v;
     last_comparator := last_comparator p; point_vendees := point_vendees p |}.

Definition set_last_comparator (v : option Producer) (p : t) : t :=
  {| id := id p; map_id := map_id p; ap := ap p; ae := ae p;
     usage_total := usage_total p;
     fz_optimal := fz_optimal p; provider_optimal := provider_optimal p;
     fz_pending := fz_pending p; provider_pending := provider_pending p;
     fz_unknown := fz_unknown p; provider_unknown := provider_unknown p;
     open_requests := open_requests p; current_offset := current_offset p;
     current_comparators := current_comparators p;
     last_comparator := v; point_vendees := point_vendees p |}.

Definition set_point_vendees (v : list Producer) (p : t) : t :=
  {| id := id p; map_id := map_id p; ap := ap p; ae := ae p;
     usage_total := usage_total p;
     fz_optimal := fz_optimal p; provider_optimal := provider_optimal p;
     fz_pending := fz_pending p; provider_pending := provider_pending p;
     fz_unknown := fz_unknown p; provider_unknown := provider_unknown p;
     open_requests := open_requests p; current_offset := current_offset p;
     current_comparators := current_comparators p;
     last_comparator := last_comparator p; point_vendees := v |}.
End StoredPoint.

Module MapUsage.
Record t : Type := {
  id : Z;
  map_id : Z;
  provider : Producer;
  usage_provider : option Z
}.

Definition set_usage_provider (v : option Z) (u : t) : t :=
  {| id := id u; map_id := map_id u; provider := provider u; usage_provider := v |}.
End MapUsage.

Module RetrievalProducer.
Record t : Type := {
  id : Z;
  client : Producer;
  point_count : Z
}.
End RetrievalProducer.

Module BillingProducer.
Record t : Type := {
  id : Z;
  client : Producer;
  provider : Producer;
  count_provider : Z;
  retrieval_id : Z
}.
End BillingProducer.

Module PreviewBilling.
Record t : Type := {
  id : Z;
  client : Producer;
  map_id : Z
}.
End PreviewBilling.

Module OffsetBilling.
Record t : Type := {
  id : Z;
  client : Producer;
  point_count : Z
}.
End OffsetBilling.

(** The database: one list of rows per table, in insertion order. *)
Record DB : Type := {
  producers : list Producer;
  map_keys : list MapKey.t;
  reverse_querists : list ReverseQuerist.t;
  points : list StoredPoint.t;
  map_usage : list MapUsage.t;
  retrievals_producer : list RetrievalProducer.t;
  billing_information_producer : list BillingProducer.t;
  preview_billing : list PreviewBilling.t;
  offset_billing : list OffsetBilling.t
}.

Definition set_map_keys (v : list MapKey.t) (d : DB) : DB :=
  {| producers := producers d; map_keys := v; reverse_querists := reverse_querists d;
     points := points d; map_usage := map_usage d;
     retrievals_producer := retrievals_producer d;
     billing_information_producer := billing_information_producer d;
     preview_billing := preview_billing d; offset_billing := offset_billing d |}.

Definition set_reverse_querists (v : list ReverseQuerist.t) (d : DB) : DB :=
  {| producers := producers d; map_keys := map_keys d; reverse_querists := v;
     points := points d; map_usage := map_usage d;
     retrievals_producer := retrievals_producer d;
     billing_information_producer := billing_information_producer d;
     preview_billing := preview_billing d; offset_billing := offset_billing d |}.

Definition set_points (v : list StoredPoint.t) (d : DB) : DB :=
  {| producers := producers d; map_keys := map_keys d;
     reverse_querists := reverse_querists d;
     points := v; map_usage := map_usage d;
     retrievals_producer := retrievals_producer d;
     billing_information_producer := billing_information_producer d;
     preview_billing := preview_billing d; offset_billing := offset_billing d |}.

Definition set_map_usage (v : list MapUsage.t) (d : DB) : DB :=
  {| producers := producers d; map_keys := map_keys d;
     reverse_querists := reverse_querists d;
     points := points d; map_usage := v;
     retrievals_producer := retrievals_producer d;
     billing_information_producer := billing_information_producer d;
     preview_billing := preview_billing d; offset_billing := offset_billing d |}.

Definition set_retrievals_producer (v : list RetrievalProducer.t) (d : DB) : DB :=
  {| producers := producers d; map_keys := map_keys d;
     reverse_querists := reverse_querists d;
     points := points d; map_usage := map_usage d;
     retrievals_producer := v;
     billing_information_producer := billing_information_producer d;
     preview_billing := preview_billing d; offset_billing := offset_billing d |}.

Definition set_billing_information_producer (v : list BillingProducer.t) (d : DB) : DB :=
  {| producers := producers d; map_keys := map_keys d;
     reverse_querists := reverse_querists d;
     points := points d; map_usage := map_usage d;
     retrievals_producer := retrievals_producer d;
     billing_information_producer := v;
     preview_billing := preview_billing d; offset_billing := offset_billing d |}.

Definition set_preview_billing (v : list PreviewBilling.t) (d : DB) : DB :=
  {| producers := producers d; map_keys := map_keys d;
     reverse_querists := reverse_querists d;
     points := points d; map_usage := map_usage d;
     retrievals_producer := retrievals_producer d;
     billing_information_producer := billing_information_producer d;
     preview_billing := v; offset_billing := offset_billing d |}.

Definition set_offset_billing (v : list OffsetBilling.t) (d : DB) : DB :=
  {| producers := producers d; map_keys := map_keys d;
     reverse_querists := reverse_querists d;
     points := points d; map_usage := map_usage d;
     retrievals_producer := retrievals_producer d;
     billing_information_producer := billing_information_producer d;
     preview_billing := preview_billing d; offset_billing := v |}.

(** ** The SQLAlchemy session

    [stored] is the committed database, [pending] the session's view of it
    (the committed rows with the uncommitted changes applied; queries
    autoflush, so they read [pending]).  [draws] counts the random numbers
    taken so far. *)
Record Session : Type := {
  stored : DB;
  pending : DB;
  draws : nat
}.

(** Computations of the backend: they read and change the session, and
    return a value or raise. *)
Definition M (A : Type) : Type := Session -> Res A * Session.

Definition ret {A : Type} (a : A) : M A := fun s => (Ok a, s).

Definition bind {A B : Type} (m : M A) (k : A -> M B) : M B :=
  fun s =>
    match m s with
    | (Ok a, s') => k a s'
    | (Raise e, s') => (Raise e, s')
    end.

Definition raise {A : Type} (e : Exn) : M A := fun s => (Raise e, s).

(** [try: m except Exception as e: h e] *)
Definition try_except {A : Type} (m : M A) (h : Exn -> M A) : M A :=
  fun s =>
    match m s with
    | (Ok a, s') => (Ok a, s')
    | (Raise e, s') => h e s'
    end.

Declare Scope monad_scope.
Delimit Scope monad_scope with monad.
Notation "x <- m ;; k" := (bind m (fun x => k))
  (at level 100, m at next level, right associativity) : monad_scope.
Notation "' pat <- m ;; k" := (bind m (fun x => match x with pat => k end))
  (at level 100, pat pattern, m at next level, right associativity) : monad_scope.
Notation "m ;; k" := (bind m (fun _ => k))
  (at level 100, right associativity) : monad_scope.
Open Scope monad_scope.

Definition lift {A : Type} (r : Res A) : M A := fun s => (r, s).

Definition get_db : M DB := fun s => (Ok (pending s), s).

Definition modify_db (f : DB -> DB) : M unit :=
  fun s => (Ok tt, {| stored := stored s; pending := f (pending s); draws := draws s |}).

(** [db.session.commit()] *)
Definition commit : M unit :=
  fun s => (Ok tt, {| stored := pending s; pending := pending s; draws := draws s |}).

(** [db.session.rollback()] *)
Definition rollback : M unit :=
  fun s => (Ok tt, {| stored := stored s; pending := stored s; draws := draws s |}).

(** ** Queries *)

(** [Query.one()] *)
Definition one {A : Type} (rows : list A) : Res A :=
  match rows with
  | [x] => Ok x
  | [] => Raise NoResultFound
  | _ :: _ :: _ => Raise MultipleResultsFound
  end.

(** [Query.one_or_none()] *)
Definition one_or_none {A : Type} (rows : list A) : Res (option A) :=
  match rows with
  | [] => Ok None
  | [x] => Ok (Some x)
  | _ :: _ :: _ => Raise MultipleResultsFound
  end.

(** The next value of an integer primary key. *)
Definition next_id (ids : list Z) : Z := 1 + fold_right Z.max 0 ids.

(** [get_user(UserType.Producer, username)] of [src/lib/user_database.py] *)
Definition get_user (username : string) : M Producer :=
  d <- get_db;;
  match filter (String.eqb username) (producers d) with
  | c :: _ => ret c
  | [] => raise (ValueError ("Producer '" ++ username ++ "' does not exist!"))
  end.

(** The point objects a function holds are references into the session:
    they are kept as primary keys and read through [pending]. *)
Definition get_point (point_id : Z) : M StoredPoint.t :=
  d <- get_db;;
  match filter (fun p => StoredPoint.id p =? point_id) (points d) with
  | p :: _ => ret p
  | [] => raise InvalidRequestError
  end.

Definition update_point (point_id : Z) (f : StoredPoint.t -> StoredPoint.t) : M unit :=
  modify_db (fun d =>
    set_points (map (fun p => if StoredPoint.id p =? point_id then f p else p) (points d)) d).

Definition update_map_key (map_id : Z) (f : MapKey.t -> MapKey.t) : M unit :=
  modify_db (fun d =>
    set_map_keys (map (fun m => if MapKey.map_id m =? map_id then f m else m) (map_keys d)) d).

Definition update_map_usage (usage_id : Z) (f : MapUsage.t -> MapUsage.t) : M unit :=
  modify_db (fun d =>
    set_map_usage (map (fun u => if MapUsage.id u =? usage_id then f u else u) (map_usage d)) d).

(** [MapKey.query.filter(MapKey.map_id == map_id)] *)
Definition query_map_key (map_id : Z) : M (list MapKey.t) :=
  d <- get_db;;
  ret (filter (fun m => MapKey.map_id m =? map_id) (map_keys d)).

(** [point.map]: the map row the foreign key [map_id] points to *)
Definition point_map (point : StoredPoint.t) : M MapKey.t :=
  rows <- query_map_key (StoredPoint.map_id point);;
  match rows with
  | m :: _ => ret m
  | [] => raise AttributeError
  end.

(** [map_key.reverse_querists] *)
Definition map_reverse_querists (map_key : MapKey.t) : M (list ReverseQuerist.t) :=
  d <- get_db;;
  ret (filter (fun q =>
                 match ReverseQuerist.map_id q with
                 | Some i => i =? MapKey.map_id map_key
                 | None => false
                 end) (reverse_querists d)).

(** [any(querist.producer == client for querist in map_key.reverse_querists)] *)
Definition reverse_queried (map_key : MapKey.t) (client : Producer) : M bool :=
  qs <- map_reverse_querists map_key;;
  ret (existsb (fun q => String.eqb (ReverseQuerist.producer q) client) qs).

(** The point queries carry no ORDER BY.  Each of them fixes [map_id], so
    SQLite answers it through the index of the unique constraint on
    [(map_id, ap, ae)] and the rows come back in the order of that index;
    rows the index does not tell apart keep the order of the table. *)
Definition index_leb (p q : StoredPoint.t) : bool :=
  (StoredPoint.map_id p <? StoredPoint.map_id q)
  || ((StoredPoint.map_id p =? StoredPoint.map_id q)
      && ((StoredPoint.ap p <? StoredPoint.ap q)
          || ((StoredPoint.ap p =? StoredPoint.ap q)
              && (StoredPoint.ae p <=? StoredPoint.ae q)))).

Fixpoint index_insert (p : StoredPoint.t) (rows : list StoredPoint.t)
  : list StoredPoint.t :=
  match rows with
  | [] => [p]
  | q :: rest => if index_leb p q then p :: q :: rest else q :: index_insert p rest
  end.

Definition index_order (rows : list StoredPoint.t) : list StoredPoint.t :=
  fold_right index_insert [] rows.

(** [(ap, ae) in ap_ae] *)
Definition in_ap_ae (ap ae : Z) (ap_ae : list (Z * Z)) : bool :=
  existsb (fun c => (fst c =? ap) && (snd c =? ae)) ap_ae.

(** ** Scalars of [phe]

    [public_key.max_int] is [n // 3 - 1]; encoding an integer beyond it
    raises [ValueError('Integer needs to be within +/- %d but got %d')]. *)
Definition max_int (n : Z) : Z := n / 3 - 1.

Definition decimal (k : Z) : string := NilZero.string_of_int (Z.to_int k).

Definition range_message (n k : Z) : string :=
  "Integer needs to be within +/- " ++ decimal (max_int n) ++ " but got " ++ decimal k.

Definition out_of_range (n k : Z) : Exn := ValueError (range_message n k).

(** ** Configuration ([src/lib/config.py]) *)

Record Config : Type := {
  USE_PAILLIER : bool;
  EVAL : bool;
  VALID : bool;
  FZ_PRECISION : Z
}.

(** The values [config.py] sets. *)
Definition default_config : Config :=
  {| USE_PAILLIER := false; EVAL := false; VALID := true; FZ_PRECISION := 3000 |}.

(** ** The map server ([src/lib/map_server_backend.py]) *)

Section MapServer.

Context {cipher : Cipher}.

Variable config : Config.

(** The outcomes of [random.randint(-config.FZ_PRECISION,
    config.FZ_PRECISION)] and the obfuscation nonces of [.ciphertext()],
    indexed by the number of draws made before. *)
Variable randint : nat -> Z.
Variable nonce : nat -> Z.

Definition randint_in_range : Prop :=
  forall i, - FZ_PRECISION config <= randint i <= FZ_PRECISION config.

Definition draw (oracle : nat -> Z) : M Z :=
  fun s => (Ok (oracle (draws s)),
            {| stored := stored s; pending := pending s; draws := S (draws s) |}).

(** [random.randint(-config.FZ_PRECISION, config.FZ_PRECISION)] *)
Definition random_offset : M Z := draw randint.

(** [enc.ciphertext()] of a number that is not obfuscated yet *)
Definition ciphertext (n c : Z) : M Z :=
  r <- draw nonce;;
  ret (obfuscate n r c).

(** [EncodedNumber.encode(public_key, k)] of an integer: [phe] refuses a
    scalar beyond [public_key.max_int]. *)
Definition encode (n k : Z) : M Z :=
  if Z.abs k <=? max_int n then ret k else raise (out_of_range n k).

(** [EncryptedNumber(public_key, c) + k]: the scalar is encoded first, the
    ciphertext is used after that; [c] or [k] being [None] is a
    [TypeError]. *)
Definition enc_add (n : Z) (c k : option Z) : M Z :=
  match k with
  | None => raise TypeError
  | Some k =>
      k <- encode n k;;
      match c with
      | Some c => ret (add_scalar n c k)
      | None => raise TypeError
      end
  end.

(** [EncryptedNumber(public_key, c) - k], that is [enc + (k * -1)] *)
Definition enc_sub (n : Z) (c k : option Z) : M Z :=
  match k with
  | None => raise TypeError
  | Some k => enc_add n c (Some (- k))
  end.

Definition Comparison : Type := Z * option Z * option Z * option Z.
Definition ComparisonResult : Type := Z * option Z * option Z.

(** *** [_prepare_comparisons] *)

Fixpoint _prepare_comparisons_loop (points : list Z) (producer : Producer)
  : M (list Comparison) :=
  match points with
  | [] => ret []
  | point_id :: rest =>
      point <- get_point point_id;;
      let comparison :=
        if negb (opt_producer_eqb (StoredPoint.last_comparator point) (Some producer))
           || EVAL config
        then (StoredPoint.id point, StoredPoint.fz_optimal point,
              StoredPoint.fz_pending point, StoredPoint.fz_unknown point)
        else (StoredPoint.id point, None, None, None) in
      (if negb (mem producer (StoredPoint.open_requests point))
       then update_point point_id
              (fun p => StoredPoint.set_open_requests
                          (StoredPoint.open_requests p ++ [producer]) p)
       else ret tt);;
      (if negb (mem producer (StoredPoint.current_comparators point))
       then update_point point_id
              (fun p => StoredPoint.set_current_comparators
                          (StoredPoint.current_comparators p ++ [producer]) p)
       else ret tt);;
      comparisons <- _prepare_comparisons_loop rest producer;;
      ret (comparison :: comparisons)
  end.

Definition _prepare_comparisons (points : list Z) (producer : Producer)
  : M (list Comparison) :=
  comparisons <- _prepare_comparisons_loop points producer;;
  commit;;
  ret comparisons.

(** *** [_store_comparison]

    The body of the active path works on the point object; it is written
    in three parts on the point record: the pending result (lines 89-98),
    the unknown result (lines 100-121) and the rotation of the offset
    (lines 123-139).  The record is written back to the session before
    the commit; any exception in between rolls the session back. *)

Definition resolve_pending (point : StoredPoint.t) (result_optimal_pending : option Z)
  : Res StoredPoint.t :=
  if truthy result_optimal_pending then
    if negb (truthy (StoredPoint.fz_pending point)) then
      Raise (ValueError "Comparison was unasked for.")
    else if negb (opt_Z_eqb result_optimal_pending (StoredPoint.fz_optimal point)) then
      Raise (ValueError
        "Latest comparison could not be verified, please contact platform operators.")
    else Ok (StoredPoint.set_pending None None point)
  else if truthy (StoredPoint.fz_pending point) then
    Raise (ValueError "Comparison was not verified.")
  else Ok point.

Definition resolve_unknown (point : StoredPoint.t) (result_optimal_unknown : option Z)
  : Res StoredPoint.t :=
  if truthy result_optimal_unknown then
    if negb (truthy (StoredPoint.fz_unknown point)) then
      Raise (ValueError "Comparison was unasked for.")
    else
      let clear_unknown (p : StoredPoint.t) :=
        if negb (EVAL config) then StoredPoint.set_unknown None None p else p in
      if opt_Z_eqb result_optimal_unknown (StoredPoint.fz_unknown point) then
        Ok (clear_unknown
              (StoredPoint.set_point_vendees []
                 (StoredPoint.set_optimal result_optimal_unknown
                    (StoredPoint.provider_unknown point)
                    (StoredPoint.set_pending (StoredPoint.fz_optimal point)
                       (StoredPoint.provider_optimal point) point))))
      else if negb (opt_Z_eqb result_optimal_unknown (StoredPoint.fz_optimal point)) then
        Raise (ValueError "Comparison result is not valid.")
      else if opt_producer_eqb (StoredPoint.provider_optimal point)
                (StoredPoint.provider_unknown point) then
        Raise (ValueError
          "Last provider provided sub-optimal value, please contact platform operators.")
      else
        Ok (clear_unknown
              (StoredPoint.set_pending (StoredPoint.fz_unknown point)
                 (StoredPoint.provider_unknown point) point))
  else if truthy (StoredPoint.fz_unknown point) then
    Raise (ValueError "Comparison was not performed.")
  else Ok point.

(** [(EncryptedNumber(public_key, c) - old_offset + new_offset).ciphertext()] *)
Definition remask (n : Z) (c old_offset : option Z) (new_offset : Z) : M Z :=
  c1 <- enc_sub n c old_offset;;
  c2 <- enc_add n (Some c1) (Some new_offset);;
  ciphertext n c2.

Definition rotate_offset (n : Z) (producer : Producer) (point : StoredPoint.t)
  : M StoredPoint.t :=
  let point := StoredPoint.set_last_comparator (Some producer) point in
  let point := StoredPoint.set_current_comparators [] point in
  let old_offset := StoredPoint.current_offset point in
  new_offset <- random_offset;;
  let point := StoredPoint.set_current_offset (Some new_offset) point in
  point <- (if truthy (StoredPoint.fz_optimal point) then
              fz_optimal_ct <- remask n (StoredPoint.fz_optimal point) old_offset new_offset;;
              let fz_optimal_ct :=
                if EVAL config then StoredPoint.fz_optimal point else Some fz_optimal_ct in
              ret (StoredPoint.set_optimal fz_optimal_ct
                     (StoredPoint.provider_optimal point) point)
            else ret point);;
  (if truthy (StoredPoint.fz_pending point) then
     fz_pending_ct <- remask n (StoredPoint.fz_pending point) old_offset new_offset;;
     let fz_pending_ct :=
       if EVAL config then StoredPoint.fz_pending point else Some fz_pending_ct in
     ret (StoredPoint.set_pending fz_pending_ct
            (StoredPoint.provider_pending point) point)
   else ret point).

(** Lines 78-83: the point with the given primary key and the modulus
    of its map. *)
Definition load_point (point_id : Z) : M (StoredPoint.t * Z) :=
  try_except
    (d <- get_db;;
     point <- lift (one (filter (fun p => StoredPoint.id p =? point_id) (points d)));;
     map_key <- point_map point;;
     ret (point, MapKey.public_key_n map_key))
    (fun e =>
       match e with
       | NoResultFound => raise (ValueErrorFrom "" e)
       | _ => raise e
       end).

Definition _store_comparison (comparison_result : ComparisonResult) (producer : Producer)
  : M Z :=
  let '(point_id, result_optimal_pending, result_optimal_unknown) := comparison_result in
  '(point, public_key) <- load_point point_id;;
  if negb (mem producer (StoredPoint.open_requests point)) then
    raise (ValueError "Producer did not properly request comparison.")
  else
    (if mem producer (StoredPoint.current_comparators point) then
       try_except
         ((if negb (opt_producer_eqb (StoredPoint.last_comparator point) (Some producer))
              || EVAL config
           then
             point1 <- lift (resolve_pending point result_optimal_pending);;
             point2 <- lift (resolve_unknown point1 result_optimal_unknown);;
             point3 <- rotate_offset public_key producer point2;;
             update_point point_id (fun _ => point3)
           else
             if truthy result_optimal_pending || truthy result_optimal_unknown then
               raise (ValueError "Comparison was unasked for.")
             else
               match list_remove producer (StoredPoint.current_comparators point) with
               | Some l => update_point point_id (StoredPoint.set_current_comparators l)
               | None => raise (ValueError "list.remove(x): x not in list")
               end);;
          commit)
         (fun e => rollback;; raise (ValueErrorFrom "" e))
     else ret tt);;
    ret point_id.

(** *** Retrieval and billing records *)

Definition _add_to_retrieval_db_producer (points : list Z) (client : Producer) : M Z :=
  try_except
    (d <- get_db;;
     let t := {| RetrievalProducer.id :=
                   next_id (map RetrievalProducer.id (retrievals_producer d));
                 RetrievalProducer.client := client;
                 RetrievalProducer.point_count := Z.of_nat (List.length points) |} in
     modify_db (fun d => set_retrievals_producer (retrievals_producer d ++ [t]) d);;
     commit;;
     ret (RetrievalProducer.id t))
    (fun e => rollback;; raise (ValueErrorFrom "" e)).

(** The dictionary [providers]: one entry per provider, in the order of
    first occurrence. *)
Fixpoint count_provider (provider : option Producer)
  (providers : list (option Producer * Z)) : list (option Producer * Z) :=
  match providers with
  | [] => [(provider, 1)]
  | (p, c) :: rest =>
      if opt_producer_eqb p provider then (p, c + 1) :: rest
      else (p, c) :: count_provider provider rest
  end.

Fixpoint count_providers (points : list StoredPoint.t)
  (providers : list (option Producer * Z)) : list (option Producer * Z) :=
  match points with
  | [] => providers
  | point :: rest =>
      count_providers rest (count_provider (StoredPoint.provider_optimal point) providers)
  end.

(** [db.session.add_all(billing)]; the column [provider_id] is not
    nullable. *)
Fixpoint add_all_billing (providers : list (option Producer * Z)) (client : Producer)
  (retrieval : Z) : M unit :=
  match providers with
  | [] => ret tt
  | (Some provider, count) :: rest =>
      d <- get_db;;
      let t := {| BillingProducer.id :=
                    next_id (map BillingProducer.id (billing_information_producer d));
                  BillingProducer.client := client;
                  BillingProducer.provider := provider;
                  BillingProducer.count_provider := count;
                  BillingProducer.retrieval_id := retrieval |} in
      modify_db (fun d =>
        set_billing_information_producer (billing_information_producer d ++ [t]) d);;
      add_all_billing rest client retrieval
  | (None, _) :: _ => raise IntegrityError
  end.

Fixpoint get_point_list (points : list Z) : M (list StoredPoint.t) :=
  match points with
  | [] => ret []
  | point_id :: rest =>
      point <- get_point point_id;;
      l <- get_point_list rest;;
      ret (point :: l)
  end.

Definition _add_to_billing_db_producer (points : list Z) (client : Producer)
  (retrieval : Z) : M unit :=
  rows <- get_point_list points;;
  let providers := count_providers rows [] in
  try_except
    (add_all_billing providers client retrieval;;
     commit)
    (fun e => rollback;; raise (ValueErrorFrom "" e)).

(** *** [get_comparisons_client] *)

(** The filter of the point query; [!=] on a producer column also holds
    when the column is NULL. *)
Definition client_filter (map_id : Z) (ap_ae : list (Z * Z)) (client : Producer)
  (producer : string) (p : StoredPoint.t) : bool :=
  (StoredPoint.map_id p =? map_id)
  && in_ap_ae (StoredPoint.ap p) (StoredPoint.ae p) ap_ae
  && (match StoredPoint.fz_optimal p with Some _ => true | None => false end)
  && negb (opt_producer_eqb (StoredPoint.provider_optimal p) (Some client))
  && negb (opt_producer_eqb (StoredPoint.provider_unknown p) (Some client))
  && negb (existsb (fun v => String.eqb v producer) (StoredPoint.point_vendees p)).

Definition get_comparisons_client (map_id : Z) (ap_ae : list (Z * Z)) (producer : string)
  : M (list Comparison) :=
  client <- get_user producer;;
  map_key <-
    try_except
      (rows <- query_map_key map_id;; lift (one rows))
      (fun e =>
         match e with
         | NoResultFound => raise (ValueErrorFrom "" e)
         | _ => raise e
         end);;
  queried <- reverse_queried map_key client;;
  if queried then
    raise (ValueError "Producer already reverse-queried given map.")
  else
    d <- get_db;;
    let points :=
      index_order (filter (client_filter map_id ap_ae client producer) (points d)) in
    match points with
    | [] => raise (ValueError "No relevant points stored.")
    | _ :: _ =>
        (if negb (mem client (MapKey.past_requests map_key))
         then update_map_key (MapKey.map_id map_key)
                (fun m => MapKey.set_past_requests (MapKey.past_requests m ++ [client]) m)
         else ret tt);;
        _prepare_comparisons (map StoredPoint.id points) client
    end.

(** *** [get_points] *)

(** [point.open_requests.remove(client)] *)
Definition remove_open_request (point_id : Z) (client : Producer) : M unit :=
  point <- get_point point_id;;
  match list_remove client (StoredPoint.open_requests point) with
  | Some l => update_point point_id (StoredPoint.set_open_requests l)
  | None => raise (ValueError "list.remove(x): x not in list")
  end.

(** [point.point_vendees.append(client)] *)
Definition append_vendee (point_id : Z) (client : Producer) : M unit :=
  update_point point_id
    (fun p => StoredPoint.set_point_vendees (StoredPoint.point_vendees p ++ [client]) p).

Fixpoint get_points_loop (comparison_results : list ComparisonResult) (client : Producer)
  : M (list Z) :=
  match comparison_results with
  | [] => ret []
  | result :: rest =>
      point <- _store_comparison result client;;
      remove_open_request point client;;
      (if negb (EVAL config) then append_vendee point client else ret tt);;
      points <- get_points_loop rest client;;
      ret (point :: points)
  end.

(** One entry of the list returned by [get_points]: the optimal value with
    the point's offset taken out. *)
Definition unmasked_point (public_key : Z) (point_id : Z) : M (Z * Z * Z * option Z) :=
  point <- get_point point_id;;
  c <- enc_sub public_key (StoredPoint.fz_optimal point) (StoredPoint.current_offset point);;
  ct <- ciphertext public_key c;;
  ret (StoredPoint.ap point, StoredPoint.ae point, ct, StoredPoint.usage_total point).

Fixpoint unmasked_points (public_key : Z) (points : list Z)
  : M (list (Z * Z * Z * option Z)) :=
  match points with
  | [] => ret []
  | point_id :: rest =>
      x <- unmasked_point public_key point_id;;
      l <- unmasked_points public_key rest;;
      ret (x :: l)
  end.

Definition get_points (comparison_results : list ComparisonResult) (producer : string)
  : M (list (Z * Z * Z * option Z)) :=
  client <- get_user producer;;
  points <-
    try_except
      (points <- get_points_loop comparison_results client;;
       commit;;
       ret points)
      (fun e => rollback;; raise (ValueErrorFrom "" e));;
  t <- _add_to_retrieval_db_producer points client;;
  _add_to_billing_db_producer points client t;;
  match points with
  | [] => raise IndexError
  | point0 :: _ =>
      point <- get_point point0;;
      map_key <- point_map point;;
      unmasked_points (MapKey.public_key_n map_key) points
  end.

(** *** [get_points_plaintext] *)

Definition plaintext_filter (map_id : Z) (ap_ae : list (Z * Z)) (client : Producer)
  (producer : string) (p : StoredPoint.t) : bool :=
  (StoredPoint.map_id p =? map_id)
  && in_ap_ae (StoredPoint.ap p) (StoredPoint.ae p) ap_ae
  && truthy (StoredPoint.fz_optimal p)
  && negb (opt_producer_eqb (StoredPoint.provider_optimal p) (Some client))
  && negb (opt_producer_eqb (StoredPoint.provider_unknown p) (Some client))
  && negb (existsb (fun v => String.eqb v producer) (StoredPoint.point_vendees p)).

Fixpoint append_vendees (points : list Z) (client : Producer) : M unit :=
  match points with
  | [] => ret tt
  | point_id :: rest =>
      (if negb (EVAL config) then append_vendee point_id client else ret tt);;
      append_vendees rest client
  end.

Definition get_points_plaintext (map_id : Z) (ap_ae : list (Z * Z)) (producer : string)
  : M (list (Z * Z * option Z * option Z)) :=
  if USE_PAILLIER config && VALID config then
    raise (RuntimeError "Plaintext retrieval not allowed for secure scheme!")
  else
    client <- get_user producer;;
    d <- get_db;;
    let points :=
      map StoredPoint.id
        (index_order (filter (plaintext_filter map_id ap_ae client producer) (points d))) in
    match points with
    | [] => raise (ValueError "No relevant points stored.")
    | _ :: _ =>
        append_vendees points client;;
        t <- _add_to_retrieval_db_producer points client;;
        _add_to_billing_db_producer points client t;;
        rows <- get_point_list points;;
        ret (map (fun point => (StoredPoint.ap point, StoredPoint.ae point,
                                StoredPoint.fz_optimal point,
                                StoredPoint.usage_total point)) rows)
    end.

(** *** [get_previews] *)

Definition PreviewPoint : Type := (Z * Z * Z * option Z)%type.

(** The loop over the points of one map.  It returns the preview points
    and the value the variable [offset] holds when the loop ends. *)
Fixpoint shift_points (public_key preview_offset : Z) (points : list StoredPoint.t)
  (offset : option Z) : M (list PreviewPoint * option Z) :=
  match points with
  | [] => ret ([], offset)
  | point :: rest =>
      offset <- match StoredPoint.current_offset point with
                | Some o => ret (preview_offset - o)
                | None => raise TypeError
                end;;
      shifted_fz <- enc_add public_key (StoredPoint.fz_optimal point) (Some offset);;
      ct <- ciphertext public_key shifted_fz;;
      '(preview_points, last) <- shift_points public_key preview_offset rest (Some offset);;
      ret ((StoredPoint.ap point, StoredPoint.ae point, ct, StoredPoint.usage_total point)
             :: preview_points, last)
  end.

(** [ReverseQuerist(producer=client, point_count=..., offset=..., tool=...)]
    entering the session, attached to the map [map_id] or to none. *)
Definition insert_reverse_querist (client : Producer) (map_id : option Z)
  (point_count offset : Z) (tool : string) : M unit :=
  modify_db (fun d =>
    set_reverse_querists
      (reverse_querists d ++
         [{| ReverseQuerist.id := next_id (map ReverseQuerist.id (reverse_querists d));
             ReverseQuerist.producer := client;
             ReverseQuerist.map_id := map_id;
             ReverseQuerist.point_count := point_count;
             ReverseQuerist.offset := offset;
             ReverseQuerist.tool := tool |}]) d).

Definition insert_preview_billing (client : Producer) (map_id : Z) : M unit :=
  modify_db (fun d =>
    set_preview_billing
      (preview_billing d ++
         [{| PreviewBilling.id := next_id (map PreviewBilling.id (preview_billing d));
             PreviewBilling.client := client;
             PreviewBilling.map_id := map_id |}]) d).

(** The querists and billing entries created in the loop and handed to
    [add_all] after it: a querist as (point_count, offset, tool), a
    billing entry as the map id. *)
Definition NewQuerist : Type := (Z * Z * string)%type.

(** The body of the loop over [map_ids] for one map: [None] is
    [continue]. *)
Definition preview_map (map_id : Z) (client : Producer)
  : M (option ((Z * list PreviewPoint) * NewQuerist * Z)) :=
  rows <- query_map_key map_id;;
  map_key <- lift (one_or_none rows);;
  match map_key with
  | None => raise (ValueError "Requested map not stored.")
  | Some map_key =>
      queried <- reverse_queried map_key client;;
      if queried then
        raise (ValueError "Producer already reverse-queried given map.")
      else if mem client (MapKey.past_requests map_key) then
        raise (ValueError "Producer already regular-queried given map.")
      else
        d <- get_db;;
        let points :=
          index_order
            (filter (fun p => (StoredPoint.map_id p =? map_id)
                              && match StoredPoint.fz_optimal p with
                                 | Some _ => true
                                 | None => false
                                 end) (points d)) in
        let point_count := Z.of_nat (List.length points) in
        match points with
        | [] => ret None
        | _ :: _ =>
            preview_offset <- random_offset;;
            let public_key := MapKey.public_key_n map_key in
            '(preview_points, offset) <-
              shift_points public_key preview_offset points None;;
            match offset with
            | None => raise TypeError
            | Some offset =>
                (if negb (EVAL config)
                 then insert_reverse_querist client (Some (MapKey.map_id map_key))
                        point_count offset (MapKey.tool map_key)
                 else ret tt);;
                ret (Some ((MapKey.map_id map_key, preview_points),
                           (point_count, offset, MapKey.tool map_key),
                           MapKey.map_id map_key))
            end
        end
  end.

Fixpoint get_previews_loop (map_ids : list Z) (client : Producer)
  : M (list (Z * list PreviewPoint) * list NewQuerist * list Z) :=
  match map_ids with
  | [] => ret ([], [], [])
  | map_id :: rest =>
      entry <- preview_map map_id client;;
      '(previews, querists, billing) <- get_previews_loop rest client;;
      match entry with
      | None => ret (previews, querists, billing)
      | Some (preview, querist, t) =>
          ret (preview :: previews, querist :: querists, t :: billing)
      end
  end.

(** [db.session.add_all(querists)]: the querists attached to a map are in
    the session already. *)
Fixpoint add_all_querists (querists : list NewQuerist) (client : Producer) : M unit :=
  match querists with
  | [] => ret tt
  | (point_count, offset, tool) :: rest =>
      (if EVAL config
       then insert_reverse_querist client None point_count offset tool
       else ret tt);;
      add_all_querists rest client
  end.

Fixpoint add_all_preview_billing (billing : list Z) (client : Producer) : M unit :=
  match billing with
  | [] => ret tt
  | map_id :: rest =>
      insert_preview_billing client map_id;;
      add_all_preview_billing rest client
  end.

Definition get_previews (map_ids : list Z) (producer : string)
  : M (list (Z * list PreviewPoint)) :=
  client <- get_user producer;;
  '(previews, querists, billing) <- get_previews_loop map_ids client;;
  match previews with
  | [] => raise (ValueError "No relevant points stored.")
  | _ :: _ =>
      try_except
        (add_all_querists querists client;;
         add_all_preview_billing billing client;;
         commit)
        (fun e => rollback;; raise (ValueErrorFrom "" e));;
      ret previews
  end.

(** *** [get_previews_plaintext] *)

Definition PlainPreviewPoint : Type := (Z * Z * Z * option Z)%type.

Fixpoint shift_points_plaintext (offset : Z) (points : list StoredPoint.t)
  : M (list PlainPreviewPoint) :=
  match points with
  | [] => ret []
  | point :: rest =>
      shifted_fz <- match StoredPoint.fz_optimal point with
                    | Some fz => ret (fz + offset)
                    | None => raise TypeError
                    end;;
      preview_points <- shift_points_plaintext offset rest;;
      ret ((StoredPoint.ap point, StoredPoint.ae point, shifted_fz,
            StoredPoint.usage_total point) :: preview_points)
  end.

Definition preview_map_plaintext (map_id : Z) (client : Producer)
  : M (option ((Z * list PlainPreviewPoint) * NewQuerist * Z)) :=
  rows <- query_map_key map_id;;
  map_key <- lift (one_or_none rows);;
  match map_key with
  | None => raise (ValueError "Requested map not stored.")
  | Some map_key =>
      queried <- reverse_queried map_key client;;
      if queried then
        raise (ValueError "Producer already reverse-queried given map.")
      else if mem client (MapKey.past_requests map_key) then
        raise (ValueError "Producer already regular-queried given map.")
      else
        d <- get_db;;
        let points :=
          index_order
            (filter (fun p => (StoredPoint.map_id p =? map_id)
                              && truthy (StoredPoint.fz_optimal p)) (points d)) in
        let point_count := Z.of_nat (List.length points) in
        match points with
        | [] => ret None
        | _ :: _ =>
            offset <- random_offset;;
            preview_points <- shift_points_plaintext offset points;;
            (if negb (EVAL config)
             then insert_reverse_querist client (Some (MapKey.map_id map_key))
                    point_count offset (MapKey.tool map_key)
             else ret tt);;
            ret (Some ((MapKey.map_id map_key, preview_points),
                       (point_count, offset, MapKey.tool map_key),
                       MapKey.map_id map_key))
        end
  end.

Fixpoint get_previews_plaintext_loop (map_ids : list Z) (client : Producer)
  : M (list (Z * list PlainPreviewPoint) * list NewQuerist * list Z) :=
  match map_ids with
  | [] => ret ([], [], [])
  | map_id :: rest =>
      entry <- preview_map_plaintext map_id client;;
      '(previews, querists, billing) <- get_previews_plaintext_loop rest client;;
      match entry with
      | None => ret (previews, querists, billing)
      | Some (preview, querist, t) =>
          ret (preview :: previews, querist :: querists, t :: billing)
      end
  end.

Definition get_previews_plaintext (map_ids : list Z) (producer : string)
  : M (list (Z * list PlainPreviewPoint)) :=
  if USE_PAILLIER config then
    raise (RuntimeError "Plaintext retrieval not allowed for secure scheme!")
  else
    client <- get_user producer;;
    '(previews, querists, billing) <- get_previews_plaintext_loop map_ids client;;
    match previews with
    | [] => raise (ValueError "No relevant points stored.")
    | _ :: _ =>
        try_except
          (add_all_querists querists client;;
           add_all_preview_billing billing client;;
           commit)
          (fun e => rollback;; raise (ValueErrorFrom "" e));;
        ret previews
    end.

(** *** [get_preview_info] *)

Definition get_preview_info (map_id : Z) (producer : string) : M (Z * string) :=
  client <- get_user producer;;
  rows <- query_map_key map_id;;
  map_key <- lift (one_or_none rows);;
  match map_key with
  | None => raise (ValueError "Requested map not stored.")
  | Some map_key =>
      d <- get_db;;
      reverse_querist <-
        lift (one_or_none
                (filter (fun q =>
                           match ReverseQuerist.map_id q with
                           | Some i => i =? MapKey.map_id map_key
                           | None => false
                           end && String.eqb (ReverseQuerist.producer q) client)
                   (reverse_querists d)));;
      match reverse_querist with
      | None => raise (ValueError "Producer never reverse-queried given map.")
      | Some reverse_querist =>
          let point_count := ReverseQuerist.point_count reverse_querist in
          let offset := ReverseQuerist.offset reverse_querist in
          let tool := ReverseQuerist.tool reverse_querist in
          modify_db (fun d =>
            set_reverse_querists
              (filter (fun q => negb (ReverseQuerist.id q =? ReverseQuerist.id reverse_querist))
                 (reverse_querists d)) d);;
          update_map_key (MapKey.map_id map_key)
            (fun m => MapKey.set_past_requests (MapKey.past_requests m ++ [client]) m);;
          commit;;
          try_except
            (modify_db (fun d =>
               set_offset_billing
                 (offset_billing d ++
                    [{| OffsetBilling.id := next_id (map OffsetBilling.id (offset_billing d));
                        OffsetBilling.client := client;
                        OffsetBilling.point_count := point_count |}]) d);;
             commit)
            (fun e => rollback;; raise (ValueErrorFrom "" e));;
          ret (offset, tool)
      end
  end.

(** *** [get_comparisons_provider] *)

(** [MapKey.query.filter(MapKey.map_id == map_id, MapKey.machine == machine,
    MapKey.material == material, MapKey.tool == tool)] *)
Definition query_map_key_named (map_id : Z) (map_name : string * string * string)
  : M (list MapKey.t) :=
  let '(machine, material, tool) := map_name in
  d <- get_db;;
  ret (filter (fun m => (MapKey.map_id m =? map_id)
                        && String.eqb (MapKey.machine m) machine
                        && String.eqb (MapKey.material m) material
                        && String.eqb (MapKey.tool m) tool) (map_keys d)).

(** [db.session.add(MapKey(...))] followed by the flush: [map_id] is
    unique, and so is (material, machine, tool). *)
Definition insert_map_key (map_id : Z) (map_name : string * string * string) (n : Z)
  (provider : Producer) : M MapKey.t :=
  let '(machine, material, tool) := map_name in
  d <- get_db;;
  if existsb (fun m => (MapKey.map_id m =? map_id)
                       || (String.eqb (MapKey.material m) material
                           && String.eqb (MapKey.machine m) machine
                           && String.eqb (MapKey.tool m) tool)) (map_keys d)
  then raise IntegrityError
  else
    let map_key := {| MapKey.id := next_id (map MapKey.id (map_keys d));
                      MapKey.map_id := map_id;
                      MapKey.machine := machine;
                      MapKey.material := material;
                      MapKey.tool := tool;
                      MapKey.public_key_n := n;
                      MapKey.first_provider := provider;
                      MapKey.past_requests := [] |} in
    modify_db (fun d => set_map_keys (map_keys d ++ [map_key]) d);;
    ret map_key.

(** [MapUsage.query.filter(MapUsage.map_id == map_id,
    MapUsage.provider == provider)] *)
Definition query_map_usage (map_id : Z) (provider : Producer) : M (list MapUsage.t) :=
  d <- get_db;;
  ret (filter (fun u => (MapUsage.map_id u =? map_id)
                        && String.eqb (MapUsage.provider u) provider) (map_usage d)).

Definition insert_map_usage (map_id : Z) (provider : Producer) (usage_provider : option Z)
  : M MapUsage.t :=
  d <- get_db;;
  let row := {| MapUsage.id := next_id (map MapUsage.id (map_usage d));
                      MapUsage.map_id := map_id;
                      MapUsage.provider := provider;
                      MapUsage.usage_provider := usage_provider |} in
  modify_db (fun d => set_map_usage (map_usage d ++ [row]) d);;
  ret row.

(** [StoredPoint.query.filter(StoredPoint.map_id == map_id,
    StoredPoint.ap == ap, StoredPoint.ae == ae)] *)
Definition query_point_at (map_id ap ae : Z) : M (list StoredPoint.t) :=
  d <- get_db;;
  ret (filter (fun p => (StoredPoint.map_id p =? map_id)
                        && (StoredPoint.ap p =? ap)
                        && (StoredPoint.ae p =? ae)) (points d)).

Definition insert_point (point : StoredPoint.t) : M unit :=
  modify_db (fun d => set_points (points d ++ [point]) d).

(** The primary key the flush gives the next point. *)
Definition next_point_id : M Z :=
  d <- get_db;;
  ret (next_id (map StoredPoint.id (points d))).

(** A new row of [points]; the columns not given are NULL. *)
Definition new_point (id map_id ap ae : Z) (usage_total fz_optimal : option Z)
  (provider_optimal : option Producer) (current_offset : option Z) : StoredPoint.t :=
  {| StoredPoint.id := id; StoredPoint.map_id := map_id;
     StoredPoint.ap := ap; StoredPoint.ae := ae;
     StoredPoint.usage_total := usage_total;
     StoredPoint.fz_optimal := fz_optimal;
     StoredPoint.provider_optimal := provider_optimal;
     StoredPoint.fz_pending := None; StoredPoint.provider_pending := None;
     StoredPoint.fz_unknown := None; StoredPoint.provider_unknown := None;
     StoredPoint.open_requests := [];
     StoredPoint.current_offset := current_offset;
     StoredPoint.current_comparators := [];
     StoredPoint.last_comparator := None;
     StoredPoint.point_vendees := [] |}.

Fixpoint provider_points_loop (map_key : MapKey.t) (map_id : Z) (ap_ae : list (Z * Z))
  : M (list Z) :=
  match ap_ae with
  | [] => ret []
  | (ap, ae) :: rest =>
      rows <- query_point_at map_id ap ae;;
      point <- lift (one_or_none rows);;
      point_id <-
        match point with
        | Some point => ret (StoredPoint.id point)
        | None =>
            offset <- random_offset;;
            id <- next_point_id;;
            insert_point (new_point id (MapKey.map_id map_key) ap ae None None None
                            (Some offset));;
            ret id
        end;;
      points <- provider_points_loop map_key map_id rest;;
      ret (point_id :: points)
  end.

Definition get_comparisons_provider (map_id : Z) (map_name : string * string * string)
  (n : Z) (ap_ae : list (Z * Z)) (producer : string) : M (list Comparison) :=
  provider <- get_user producer;;
  map_key <-
    try_except
      (rows <- query_map_key_named map_id map_name;; lift (one_or_none rows))
      (fun e =>
         match e with
         | MultipleResultsFound => raise (ValueErrorFrom "" e)
         | _ => raise e
         end);;
  map_key <-
    match map_key with
    | None =>
        try_except
          (map_key <- insert_map_key map_id map_name n provider;;
           commit;;
           ret map_key)
          (fun e =>
             rollback;;
             raise (ValueErrorFrom
               "Non-unique combination of map id and map name, please contact platform operators."
               e))
    | Some map_key =>
        if negb (MapKey.public_key_n map_key =? n) then
          raise (ValueError
            "Public key could not be confirmed, please contact platform operators.")
        else ret map_key
    end;;
  queried <- reverse_queried map_key provider;;
  if queried then
    raise (ValueError "Producer reverse-queried given map but never retrieved offset.")
  else
    points <-
      try_except
        (rows <- query_map_usage map_id provider;;
         map_usage <- lift (one_or_none rows);;
         match map_usage with
         | None => insert_map_usage (MapKey.map_id map_key) provider None;; ret tt
         | Some _ => ret tt
         end;;
         points <- provider_points_loop map_key map_id ap_ae;;
         commit;;
         ret points)
        (fun e => rollback;; raise (ValueErrorFrom "" e));;
    (if negb (mem provider (MapKey.past_requests map_key))
     then update_map_key (MapKey.map_id map_key)
            (fun m => MapKey.set_past_requests (MapKey.past_requests m ++ [provider]) m)
     else ret tt);;
    _prepare_comparisons points provider.

(** *** [store_records] *)

(** [EncryptedNumber(public_key, a) + EncryptedNumber(public_key, b)];
    a [None] operand is a [TypeError]. *)
Definition enc_add_ct (n : Z) (a b : option Z) : M Z :=
  match a, b with
  | Some a, Some b => ret (add_ct n a b)
  | _, _ => raise TypeError
  end.

(** The usage part of one record.  [usage] is one [EncryptedNumber]
    object: when the point has no usage yet, [stored_usage_total] is that
    object, and [.ciphertext()] obfuscates it in place, so the provider's
    total is computed from the obfuscated ciphertext. *)
Definition store_usage (public_key : Z) (point_id usage_id : Z) (usage : Z) : M unit :=
  point <- get_point point_id;;
  d <- get_db;;
  map_usage <- lift (one (filter (fun u => MapUsage.id u =? usage_id) (map_usage d)));;
  let stored_usage_total := StoredPoint.usage_total point in
  let stored_usage_provider := MapUsage.usage_provider map_usage in
  '(usage, obfuscated) <-
    (if truthy stored_usage_total then
       total <- enc_add_ct public_key stored_usage_total (Some usage);;
       ct <- ciphertext public_key total;;
       update_point point_id (StoredPoint.set_usage_total (Some ct));;
       ret (usage, false)
     else
       ct <- ciphertext public_key usage;;
       update_point point_id (StoredPoint.set_usage_total (Some ct));;
       ret (ct, true));;
  if truthy stored_usage_provider then
    total <- enc_add_ct public_key stored_usage_provider (Some usage);;
    ct <- ciphertext public_key total;;
    update_map_usage usage_id (MapUsage.set_usage_provider (Some ct))
  else
    ct <- (if obfuscated : bool then ret usage else ciphertext public_key usage);;
    update_map_usage usage_id (MapUsage.set_usage_provider (Some ct)).

Definition RecordWithResult : Type := (Z * option Z * option Z * Z * Z)%type.

Fixpoint store_records_loop (comparison_results_with_values : list RecordWithResult)
  (provider : Producer) : M unit :=
  match comparison_results_with_values with
  | [] => ret tt
  | (point_id, result_optimal_pending, result_optimal_unknown, fz, usage) :: rest =>
      point_id <- _store_comparison
                    (point_id, result_optimal_pending, result_optimal_unknown) provider;;
      remove_open_request point_id provider;;
      point <- get_point point_id;;
      let map_id := StoredPoint.map_id point in
      rows <- query_map_key map_id;;
      map_key <- lift (one rows);;
      let public_key := MapKey.public_key_n map_key in
      rows <- query_map_usage map_id provider;;
      map_usage <- lift (one rows);;
      (if negb (fz =? 0) then
         c <- enc_add public_key (Some fz) (StoredPoint.current_offset point);;
         fz <- ciphertext public_key c;;
         if truthy (StoredPoint.fz_optimal point)
         then update_point point_id (StoredPoint.set_unknown (Some fz) (Some provider))
         else update_point point_id (StoredPoint.set_optimal (Some fz) (Some provider))
       else ret tt);;
      (if negb (usage =? 0)
       then store_usage public_key point_id (MapUsage.id map_usage) usage
       else ret tt);;
      store_records_loop rest provider
  end.

Definition store_records (comparison_results_with_values : list RecordWithResult)
  (producer : string) : M unit :=
  provider <- get_user producer;;
  try_except
    (store_records_loop comparison_results_with_values provider;;
     commit)
    (fun e => rollback;; raise (ValueErrorFrom "" e)).

(** *** [store_records_plaintext] *)

(** [a + b] on stored integers; a [None] operand is a [TypeError]. *)
Definition int_add (a : option Z) (b : Z) : M Z :=
  match a with
  | Some a => ret (a + b)
  | None => raise TypeError
  end.

Fixpoint store_records_plaintext_loop (map_key : MapKey.t) (map_id : Z) (usage_id : Z)
  (points : list (Z * Z * Z * Z)) (provider : Producer) : M unit :=
  match points with
  | [] => ret tt
  | (ap, ae, fz, usage) :: rest =>
      rows <- query_point_at map_id ap ae;;
      point <- lift (one_or_none rows);;
      match point with
      | None =>
          id <- next_point_id;;
          insert_point (new_point id (MapKey.map_id map_key) ap ae (Some usage) (Some fz)
                          (Some provider) (Some 0))
      | Some point =>
          let point_id := StoredPoint.id point in
          (if negb (fz =? 0) then
             if USE_PAILLIER config then
               update_point point_id (StoredPoint.set_unknown (Some fz) (Some provider))
             else
               match StoredPoint.fz_optimal point with
               | None => raise TypeError
               | Some fz_optimal =>
                   if fz >? fz_optimal
                   then update_point point_id
                          (StoredPoint.set_optimal (Some fz) (Some provider))
                   else ret tt
               end
           else ret tt);;
          (if negb (usage =? 0) then
             d <- get_db;;
             map_usage <- lift (one (filter (fun u => MapUsage.id u =? usage_id)
                                       (map_usage d)));;
             let stored_usage_total := StoredPoint.usage_total point in
             let stored_usage_provider := MapUsage.usage_provider map_usage in
             if USE_PAILLIER config then
               let public_key := MapKey.public_key_n map_key in
               total <- enc_add_ct public_key stored_usage_total (Some usage);;
               ct <- ciphertext public_key total;;
               update_point point_id (StoredPoint.set_usage_total (Some ct));;
               total <- enc_add_ct public_key stored_usage_provider (Some usage);;
               ct <- ciphertext public_key total;;
               update_map_usage usage_id (MapUsage.set_usage_provider (Some ct))
             else
               total <- int_add stored_usage_total usage;;
               update_point point_id (StoredPoint.set_usage_total (Some total));;
               total <- int_add stored_usage_provider usage;;
               update_map_usage usage_id (MapUsage.set_usage_provider (Some total))
           else ret tt)
      end;;
      store_records_plaintext_loop map_key map_id usage_id rest provider
  end.

Definition store_records_plaintext (map_id : Z) (map_name : string * string * string)
  (n : Z) (points : list (Z * Z * Z * Z)) (producer : string) : M unit :=
  if USE_PAILLIER config && VALID config then
    raise (RuntimeError "Plaintext storing not allowed for secure scheme!")
  else
    provider <- get_user producer;;
    '(map_key, map_usage) <-
      try_except
        (rows <- query_map_key_named map_id map_name;;
         map_key <- lift (one_or_none rows);;
         rows <- query_map_usage map_id provider;;
         map_usage <- lift (one_or_none rows);;
         ret (map_key, map_usage))
        (fun e =>
           match e with
           | MultipleResultsFound => raise (ValueErrorFrom "" e)
           | _ => raise e
           end);;
    map_key <-
      match map_key with
      | None =>
          try_except
            (map_key <- insert_map_key map_id map_name n provider;;
             commit;;
             ret map_key)
            (fun e =>
               rollback;;
               raise (ValueErrorFrom
                 "Non-unique combination of map id and map name, please contact platform operators."
                 e))
      | Some map_key => ret map_key
      end;;
    map_usage <-
      match map_usage with
      | None =>
          map_usage <- insert_map_usage (MapKey.map_id map_key) provider (Some 0);;
          commit;;
          ret map_usage
      | Some map_usage => ret map_usage
      end;;
    try_except
      (store_records_plaintext_loop map_key map_id (MapUsage.id map_usage) points provider;;
       commit)
      (fun e =>
         match e with
         | MultipleResultsFound => raise (ValueErrorFrom "" e)
         | _ => rollback;; raise (ValueErrorFrom "" e)
         end).

End MapServer.

(** ** Vocabulary of the statements *)

(** The table [points] of [d] holds exactly one row with primary key
    [point_id], and it is [p]. *)
Definition point_at (d : DB) (point_id : Z) (p : StoredPoint.t) : Prop :=
  filter (fun q => StoredPoint.id q =? point_id) (points d) = [p].

(** [m] is the row of [map_keys] that the query for [map_id] finds first:
    the map a point with that foreign key belongs to. *)
Definition map_at (d : DB) (map_id : Z) (m : MapKey.t) : Prop :=
  exists rest, filter (fun q => MapKey.map_id q =? map_id) (map_keys d) = m :: rest.

(** The session after [db.session.rollback()]. *)
Definition rolled_back (s : Session) : Session :=
  {| stored := stored s; pending := stored s; draws := draws s |}.

(** The database with the rows of primary key [point_id] replaced by [p]. *)
Definition put_point (point_id : Z) (p : StoredPoint.t) (d : DB) : DB :=
  set_points (map (fun q => if StoredPoint.id q =? point_id then p else q) (points d)) d.

(** The result names the unknown value of [p] as the winner. *)
Definition promotes (p : StoredPoint.t) (result_optimal_unknown : option Z) : bool :=
  truthy result_optimal_unknown
  && opt_Z_eqb result_optimal_unknown (StoredPoint.fz_unknown p).

(** The check of the pending result passes (lines 89-98). *)
Definition pending_verified (p : StoredPoint.t) (result_optimal_pending : option Z) : Prop :=
  (truthy result_optimal_pending = false /\ truthy (StoredPoint.fz_pending p) = false)
  \/ (truthy result_optimal_pending = true /\ truthy (StoredPoint.fz_pending p) = true
      /\ opt_Z_eqb result_optimal_pending (StoredPoint.fz_optimal p) = true).

(** [producer] holds a voucher on the map [map_id]. *)
Definition holds_voucher (d : DB) (map_id : Z) (producer : Producer) : Prop :=
  exists q, In q (reverse_querists d)
            /\ ReverseQuerist.map_id q = Some map_id
            /\ ReverseQuerist.producer q = producer.

(** [producer] is in the [past_requests] of the map [map_id]. *)
Definition regular_queried (d : DB) (map_id : Z) (producer : Producer) : Prop :=
  exists m, In m (map_keys d)
            /\ MapKey.map_id m = map_id
            /\ mem producer (MapKey.past_requests m) = true.

(** The map [map_id] is stored, and its modulus is [n]. *)
Definition key_kept (map_id n : Z) (d : DB) : Prop :=
  (exists m, In m (map_keys d) /\ MapKey.map_id m = map_id)
  /\ (forall m, In m (map_keys d) -> MapKey.map_id m = map_id -> MapKey.public_key_n m = n).

(** A property of the database that holds of the committed rows and of
    the session's view. *)
Definition both (P : DB -> Prop) (s : Session) : Prop := P (stored s) /\ P (pending s).

(** [m] keeps the invariant [I] of the session, whether it returns or
    raises. *)
Definition preserves {A : Type} (I : Session -> Prop) (m : M A) : Prop :=
  forall s r s', I s -> m s = (r, s') -> I s'.

(** The errors the statements name. *)
Definition not_requested : Exn :=
  ValueError "Producer did not properly request comparison.".

Definition sub_optimal : Exn :=
  ValueError "Last provider provided sub-optimal value, please contact platform operators.".

Definition not_verified : Exn := ValueError "Comparison was not verified.".

Definition key_not_confirmed : Exn :=
  ValueError "Public key could not be confirmed, please contact platform operators.".

Definition non_unique_map : Exn :=
  ValueErrorFrom
    "Non-unique combination of map id and map name, please contact platform operators."
    IntegrityError.

Definition never_retrieved_offset : Exn :=
  ValueError "Producer reverse-queried given map but never retrieved offset.".

(** Every row of [points] with primary key [point_id] satisfies [P], and
    there is such a row. *)
Definition rows_sat (point_id : Z) (P : StoredPoint.t -> Prop) (d : DB) : Prop :=
  (exists p, In p (points d) /\ StoredPoint.id p = point_id)
  /\ (forall p, In p (points d) -> StoredPoint.id p = point_id -> P p).

(** [producer] is in the [point_vendees] of [p]. *)
Definition vendee (producer : Producer) (p : StoredPoint.t) : Prop :=
  mem producer (StoredPoint.point_vendees p) = true.

(** [producer] is a vendee of the stored point [point_id]. *)
Definition is_vendee (point_id : Z) (producer : Producer) : DB -> Prop :=
  rows_sat point_id (vendee producer).

(** [P] holds of the committed rows and [Q] of the session's view. *)
Definition split_inv (P Q : DB -> Prop) (s : Session) : Prop :=
  P (stored s) /\ Q (pending s).

(** From a session that satisfies [P], [m] ends in one that satisfies
    [Q], whether it returns or raises. *)
Definition leads {A : Type} (P Q : Session -> Prop) (m : M A) : Prop :=
  forall s r s', P s -> m s = (r, s') -> Q s'.

(** The comparison result a record of [store_records] carries. *)
Definition record_result (x : RecordWithResult) : ComparisonResult :=
  let '(point_id, rp, ru, _, _) := x in (point_id, rp, ru).

(** The point a comparison is about. *)
Definition comparison_point (c : Comparison) : Z := let '(point_id, _, _, _) := c in point_id.

(** The calls of the backend that the routes of the map server make;
    [Teardown] is the end of a request, where the session is removed and
    what it has not committed is lost. *)
Inductive Call : Type :=
| GetComparisonsClient (map_id : Z) (ap_ae : list (Z * Z)) (producer : string)
| GetPoints (comparison_results : list ComparisonResult) (producer : string)
| GetPointsPlaintext (map_id : Z) (ap_ae : list (Z * Z)) (producer : string)
| GetPreviews (map_ids : list Z) (producer : string)
| GetPreviewsPlaintext (map_ids : list Z) (producer : string)
| GetPreviewInfo (map_id : Z) (producer : string)
| GetComparisonsProvider (map_id : Z) (map_name : string * string * string) (n : Z)
    (ap_ae : list (Z * Z)) (producer : string)
| StoreRecords (comparison_results_with_values : list RecordWithResult) (producer : string)
| StoreRecordsPlaintext (map_id : Z) (map_name : string * string * string) (n : Z)
    (points : list (Z * Z * Z * Z)) (producer : string)
| Teardown.

Section Calls.
Context {cipher : Cipher}.
Variable config : Config.
Variables randint nonce : nat -> Z.

(** The session a call leaves. *)
Definition call (c : Call) (s : Session) : Session :=
  match c with
  | GetComparisonsClient map_id ap_ae producer =>
      snd (get_comparisons_client config map_id ap_ae producer s)
  | GetPoints comparison_results producer =>
      snd (get_points config randint nonce comparison_results producer s)
  | GetPointsPlaintext map_id ap_ae producer =>
      snd (get_points_plaintext config map_id ap_ae producer s)
  | GetPreviews map_ids producer =>
      snd (get_previews config randint nonce map_ids producer s)
  | GetPreviewsPlaintext map_ids producer =>
      snd (get_previews_plaintext config randint map_ids producer s)
  | GetPreviewInfo map_id producer =>
      snd (get_preview_info map_id producer s)
  | GetComparisonsProvider map_id map_name n ap_ae producer =>
      snd (get_comparisons_provider config randint map_id map_name n ap_ae producer s)
  | StoreRecords comparison_results_with_values producer =>
      snd (store_records config randint nonce comparison_results_with_values producer s)
  | StoreRecordsPlaintext map_id map_name n points producer =>
      snd (store_records_plaintext config nonce map_id map_name n points producer s)
  | Teardown => rolled_back s
  end.

Fixpoint calls (cs : list Call) (s : Session) : Session :=
  match cs with
  | [] => s
  | c :: rest => calls rest (call c s)
  end.

(** The result, submitted by [who] in the session [s], promotes the
    unknown value of the point: the point is on the active path for
    [who], the result names the unknown value of the point as the winner,
    and [_store_comparison] accepts it, which commits it. *)
Definition commits_promotion (point_id : Z) (result : ComparisonResult) (who : Producer)
  (s : Session) : Prop :=
  exists rp ru p x s',
    result = (point_id, rp, ru)
    /\ point_at (pending s) point_id p
    /\ mem who (StoredPoint.current_comparators p) = true
    /\ negb (opt_producer_eqb (StoredPoint.last_comparator p) (Some who)) || EVAL config = true
    /\ promotes p ru = true
    /\ _store_comparison config randint nonce result who s = (Ok x, s').

(** The call promotes the unknown value of the point: one of the results
    of its batch does, in the session in which the loop of the call
    reaches it, the results before it having been accepted.  The other
    calls store no comparison result. *)
Definition promotion_in (point_id : Z) (c : Call) (s : Session) : Prop :=
  match c with
  | GetPoints comparison_results producer =>
      exists client s0 before result after points s1,
        get_user producer s = (Ok client, s0)
        /\ comparison_results = (before ++ result :: after)%list
        /\ get_points_loop config randint nonce before client s0 = (Ok points, s1)
        /\ commits_promotion point_id result client s1
  | StoreRecords comparison_results_with_values producer =>
      exists provider s0 before record after s1,
        get_user producer s = (Ok provider, s0)
        /\ comparison_results_with_values = (before ++ record :: after)%list
        /\ store_records_loop config randint nonce before provider s0 = (Ok tt, s1)
        /\ commits_promotion point_id (record_result record) provider s1
  | _ => False
  end.

(** None of the calls, each taken in the session the calls before it have
    left, commits a promotion of the unknown value of the point. *)
Fixpoint no_promotion_committed (point_id : Z) (cs : list Call) (s : Session) : Prop :=
  match cs with
  | [] => True
  | c :: rest =>
      ~ promotion_in point_id c s /\ no_promotion_committed point_id rest (call c s)
  end.

End Calls.

Section CipherVocabulary.
Context {cipher : Cipher}.

(** [slot] holds a ciphertext of [v] masked with [offset]. *)
Definition slot_value (n : Z) (slot : option Z) (offset v : Z) : Prop :=
  exists c, slot = Some c /\ valid_ct n c /\ decrypt n c - offset = v.

(** The ciphertext [remask] stores for [c] with nonce [r]. *)
Definition remasked (n r c o1 o2 : Z) : Z :=
  obfuscate n r (add_scalar n (add_scalar n c (- o1)) o2).

(** The value a slot unmasks to with the private key of [n]; [None] when
    the slot or the offset is absent. *)
Definition unmask (n : Z) (slot offset : option Z) : option Z :=
  match slot, offset with
  | Some c, Some o => Some (decrypt n c - o)
  | _, _ => None
  end.

End CipherVocabulary.

(** ** Example data

    A map with the key modulus [143 = 11 * 13], three producers, and
    points whose slots hold Paillier ciphertexts of small values. *)

Definition ex_n : Z := 143.

(** The ciphertext of [m] with nonce 1. *)
Definition ex_enc (m : Z) : Z := Paillier.raw_encrypt ex_n m.

Definition ex_map_name : string * string * string := ("mill", "steel", "end mill 4").

Definition ex_map (past_requests : list Producer) : MapKey.t :=
  {| MapKey.id := 1; MapKey.map_id := 1;
     MapKey.machine := "mill"; MapKey.material := "steel"; MapKey.tool := "end mill 4";
     MapKey.public_key_n := ex_n; MapKey.first_provider := "alice";
     MapKey.past_requests := past_requests |}.

(** A point of map 1 at (ap, ae) = (id, id). *)
Definition ex_point (id : Z) (fz_optimal : option Z) (provider_optimal : option Producer)
  (fz_pending : option Z) (provider_pending : option Producer)
  (fz_unknown : option Z) (provider_unknown : option Producer)
  (current_offset : Z) (requests comparators vendees : list Producer) : StoredPoint.t :=
  {| StoredPoint.id := id; StoredPoint.map_id := 1;
     StoredPoint.ap := id; StoredPoint.ae := id;
     StoredPoint.usage_total := None;
     StoredPoint.fz_optimal := fz_optimal; StoredPoint.provider_optimal := provider_optimal;
     StoredPoint.fz_pending := fz_pending; StoredPoint.provider_pending := provider_pending;
     StoredPoint.fz_unknown := fz_unknown; StoredPoint.provider_unknown := provider_unknown;
     StoredPoint.open_requests := requests;
     StoredPoint.current_offset := Some current_offset;
     StoredPoint.current_comparators := comparators;
     StoredPoint.last_comparator := None;
     StoredPoint.point_vendees := vendees |}.

Definition ex_db (past_requests : list Producer) (querists : list ReverseQuerist.t)
  (points : list StoredPoint.t) (usage : list MapUsage.t) : DB :=
  {| producers := ["alice"; "bob"; "carol"];
     map_keys := [ex_map past_requests];
     reverse_querists := querists;
     points := points;
     map_usage := usage;
     retrievals_producer := [];
     billing_information_producer := [];
     preview_billing := [];
     offset_billing := [] |}.

(** A session with nothing uncommitted. *)
Definition ex_session (d : DB) : Session := {| stored := d; pending := d; draws := 0 |}.

(** Every offset drawn is 7, every obfuscation nonce is 2. *)
Definition ex_randint (i : nat) : Z := 7.
Definition ex_nonce (i : nat) : Z := 2.

(** The optimal value 20 of alice, masked with the offset 5. *)
Definition ex_optimal : Z := ex_enc 25.

(** A value 30 of carol and a value 10 of alice, masked with the offset 5. *)
Definition ex_higher : Z := ex_enc 35.
Definition ex_lower : Z := ex_enc 15.

(** ** Vocabulary of the further properties *)

(** The number of rows whose optimal value [provider] has provided. *)
Definition provided_by (provider : Producer) (rows : list StoredPoint.t) : Z :=
  Z.of_nat (List.length
              (filter (fun p => opt_producer_eqb (StoredPoint.provider_optimal p)
                                  (Some provider)) rows)).

(** The points billed to [provider] in the billing rows. *)
Definition billed (provider : Producer) (billing : list BillingProducer.t) : Z :=
  fold_right Z.add 0
    (map BillingProducer.count_provider
       (filter (fun b => String.eqb (BillingProducer.provider b) provider) billing)).

(** The count the dictionary [providers] holds for [provider]. *)
Definition count_of (provider : option Producer) (providers : list (option Producer * Z))
  : Z :=
  fold_right Z.add 0
    (map snd (filter (fun x => opt_producer_eqb (fst x) provider) providers)).

(** The vouchers of [who] on the map [map_id]. *)
Definition voucher_rows (d : DB) (map_id : Z) (who : Producer) : list ReverseQuerist.t :=
  filter (fun q => match ReverseQuerist.map_id q with
                   | Some i => i =? map_id
                   | None => false
                   end && String.eqb (ReverseQuerist.producer q) who)
    (reverse_querists d).

Definition never_reverse_queried : Exn :=
  ValueError "Producer never reverse-queried given map.".

(** No optimal value of [d] is negative.  On such tables the condition
    [fz_optimal > 0] of the plaintext queries selects the rows whose
    [fz_optimal] is true, which is what the functions test. *)
Definition nonnegative_values (d : DB) : Prop :=
  Forall (fun p => forall v, StoredPoint.fz_optimal p = Some v -> 0 <= v) (points d).

(** The points of the map [map_id] that hold an optimal value: those
    [fz_optimal > 0] selects when no value is negative, in the order of
    the index on [(map_id, ap, ae)], in which the query returns them. *)
Definition priced_points (d : DB) (map_id : Z) : list StoredPoint.t :=
  index_order
    (filter (fun p => (StoredPoint.map_id p =? map_id) && truthy (StoredPoint.fz_optimal p))
       (points d)).

(** The preview point [pp] is the point [p] with its optimal value
    shifted by [offset]. *)
Definition unshifts (offset : Z) (p : StoredPoint.t) (pp : PlainPreviewPoint) : Prop :=
  let '(ap, ae, shifted, usage) := pp in
  ap = StoredPoint.ap p /\ ae = StoredPoint.ae p /\ usage = StoredPoint.usage_total p
  /\ StoredPoint.fz_optimal p = Some (shifted - offset).
(** Map 1 with the plaintext values 20 and 33 of alice. *)
Definition ex_plaintext_points : list StoredPoint.t :=
  [ex_point 1 (Some 20) (Some "alice") None None None None 0 [] [] [];
   ex_point 2 (Some 33) (Some "alice") None None None None 0 [] [] []].

Definition ex_plaintext_map : Session := ex_session (ex_db [] [] ex_plaintext_points []).

(** The same map, the point at (2, 2) having been stored before the point
    at (1, 1). *)
Definition ex_plaintext_unordered : Session :=
  ex_session (ex_db [] [] (rev ex_plaintext_points) []).

(** The points of the map [map_id] whose optimal value is not NULL, in
    the order of the index on [(map_id, ap, ae)], in which the query
    returns them. *)
Definition previewed_points (d : DB) (map_id : Z) : list StoredPoint.t :=
  index_order
    (filter (fun p => (StoredPoint.map_id p =? map_id)
                      && match StoredPoint.fz_optimal p with
                         | Some _ => true
                         | None => false
                         end) (points d)).

(** The scalar [get_previews] adds to the optimal value of [p], the
    preview offset minus the current offset of [p], is one that [phe]
    encodes. *)
Definition shift_encodable (n preview_offset : Z) (p : StoredPoint.t) : Prop :=
  forall o, StoredPoint.current_offset p = Some o -> Z.abs (preview_offset - o) <= max_int n.

Section PreviewVocabulary.
Context {cipher : Cipher}.

(** The optimal slot of [p] holds a ciphertext and [p] has an offset. *)
Definition masked_slot (n : Z) (p : StoredPoint.t) : Prop :=
  exists c o, StoredPoint.fz_optimal p = Some c /\ StoredPoint.current_offset p = Some o
              /\ valid_ct n c.

(** The optimal value of [p]: what its optimal slot unmasks to. *)
Definition optimal_value (n : Z) (p : StoredPoint.t) (v : Z) : Prop :=
  exists o, StoredPoint.current_offset p = Some o
            /\ slot_value n (StoredPoint.fz_optimal p) o v.

(** The preview point [pp] is the point [p] with a ciphertext of its
    optimal value plus [shift]. *)
Definition shifted_preview (n shift : Z) (p : StoredPoint.t) (pp : PreviewPoint) : Prop :=
  let '(ap, ae, ct, usage) := pp in
  ap = StoredPoint.ap p /\ ae = StoredPoint.ae p /\ usage = StoredPoint.usage_total p
  /\ valid_ct n ct
  /\ (forall v, optimal_value n p v -> - n < 2 * (v + shift) <= n ->
                decrypt n ct = v + shift).

End PreviewVocabulary.

(** What the loop variable [offset] of [get_previews] holds after the
    points [pts], starting from [acc]. *)
Definition last_shift (preview_offset : Z) (acc : option Z) (pts : list StoredPoint.t)
  : option Z :=
  fold_left (fun _ p => option_map (fun o => preview_offset - o)
                          (StoredPoint.current_offset p)) pts acc.

(** The row a point object with primary key [point_id] stands for. *)
Definition first_row (d : DB) (point_id : Z) : option StoredPoint.t :=
  hd_error (filter (fun p => StoredPoint.id p =? point_id) (points d)).

(** The point a comparison result is about. *)
Definition result_point (r : ComparisonResult) : Z := let '(point_id, _, _) := r in point_id.

Section RetrievalVocabulary.
Context {cipher : Cipher}.
Variable nonce : nat -> Z.

(** [out] is what [get_points] returns for the point [point_id] of [d]:
    its coordinates and usage, and the ciphertext of its optimal slot with
    the offset of the point taken out, obfuscated; the ciphertext
    decrypts to the optimal value of the point. *)
Definition retrieved (n : Z) (d : DB) (point_id : Z) (out : Z * Z * Z * option Z) : Prop :=
  exists p,
    first_row d point_id = Some p
    /\ let '(ap, ae, ct, usage) := out in
       ap = StoredPoint.ap p /\ ae = StoredPoint.ae p /\ usage = StoredPoint.usage_total p
       /\ (exists c o k,
             StoredPoint.fz_optimal p = Some c /\ StoredPoint.current_offset p = Some o
             /\ ct = obfuscate n (nonce k) (add_scalar n c (- o)))
       /\ (forall v,
             (forall i, good_nonce n (nonce i)) ->
             optimal_value n p v -> - n < 2 * v <= n ->
             valid_ct n ct /\ decrypt n ct = v).

End RetrievalVocabulary.

(** The row [p] without its request lists. *)
Definition without_requests (p : StoredPoint.t) : StoredPoint.t :=
  StoredPoint.set_open_requests [] (StoredPoint.set_current_comparators [] p).

(** [who] may submit a comparison result for [p]. *)
Definition standing (who : Producer) (p : StoredPoint.t) : Prop :=
  mem who (StoredPoint.open_requests p) = true
  /\ mem who (StoredPoint.current_comparators p) = true.

(** The comparison [_prepare_comparisons] hands out for [p] (lines
    51-55): the three slots, or nothing for the last comparator. *)
Definition shown (config : Config) (who : Producer) (p : StoredPoint.t) : Comparison :=
  if negb (opt_producer_eqb (StoredPoint.last_comparator p) (Some who)) || EVAL config
  then (StoredPoint.id p, StoredPoint.fz_optimal p, StoredPoint.fz_pending p,
        StoredPoint.fz_unknown p)
  else (StoredPoint.id p, None, None, None).

(** The primary keys of the points are pairwise different. *)
Definition unique_point_ids (d : DB) : Prop := NoDup (map StoredPoint.id (points d)).
(** The row [p'] is [p] with requests added. *)
Definition more_requests (p p' : StoredPoint.t) : Prop :=
  without_requests p' = without_requests p
  /\ (forall x, mem x (StoredPoint.open_requests p) = true ->
                mem x (StoredPoint.open_requests p') = true)
  /\ (forall x, mem x (StoredPoint.current_comparators p) = true ->
                mem x (StoredPoint.current_comparators p') = true).

(** The session [s'] is [s] with requests added to points, nothing being
    committed. *)
Definition requests_added (s s' : Session) : Prop :=
  stored s' = stored s
  /\ set_points [] (pending s') = set_points [] (pending s)
  /\ (forall pid p, first_row (pending s) pid = Some p ->
        exists p', first_row (pending s') pid = Some p' /\ more_requests p p')
  /\ (forall pid, first_row (pending s) pid = None -> first_row (pending s') pid = None).

(** The point [rotate_offset] makes of [q] for the comparator [who]: the
    new offset [o], and the optimal and pending slots [fo] and [fp]. *)
Definition rotated (who : Producer) (o : Z) (fo fp : option Z) (q : StoredPoint.t)
  : StoredPoint.t :=
  StoredPoint.set_pending fp (StoredPoint.provider_pending q)
    (StoredPoint.set_optimal fo (StoredPoint.provider_optimal q)
       (StoredPoint.set_current_offset (Some o)
          (StoredPoint.set_current_comparators []
             (StoredPoint.set_last_comparator (Some who) q)))).

(** Lines 640-649 of [store_records]: the provided ciphertext [c] goes to
    the unknown slot of a point that has an optimal value, and to the
    optimal slot of a point that has none. *)
Definition placed (who : Producer) (c : Z) (q : StoredPoint.t) : StoredPoint.t :=
  if truthy (StoredPoint.fz_optimal q)
  then StoredPoint.set_unknown (Some c) (Some who) q
  else StoredPoint.set_optimal (Some c) (Some who) q.

(** The rows of [map_usage] of [d] for the map and the provider, and
    the rows with a primary key. *)
Definition usage_rows (d : DB) (map_id : Z) (provider : Producer) : list MapUsage.t :=
  filter (fun u => (MapUsage.map_id u =? map_id) && String.eqb (MapUsage.provider u) provider)
    (map_usage d).

Definition usage_at (d : DB) (usage_id : Z) : list MapUsage.t :=
  filter (fun u => MapUsage.id u =? usage_id) (map_usage d).

(** ** The producer client ([src/producer.py]) *)

(** What the comparisons of the client raise. *)
Inductive ClientError : Type :=
| UnboundLocalError
| OverflowError.

Section Client.
Context {cipher : Cipher}.

(** [private_key.decrypt(paillier.EncryptedNumber(public_key, ct))]: the
    integer python-paillier decodes, which it refuses outside of
    [-max_int, max_int] for [max_int = n // 3 - 1]. *)
Definition private_decrypt (n ct : Z) : ClientError + Z :=
  let v := decrypt n ct in
  if Z.abs v <=? n / 3 - 1 then inr v else inl OverflowError.

(** Lines 160-166 and 168-174 of [_perform_comparisons]: the result for
    the pending and for the unknown ciphertext.  The local variable
    [fz_optimal_pt] is read after the decryption; it is unbound as long
    as no comparison had an optimal ciphertext. *)
Definition compare_optimal (n : Z) (fz_optimal_pt : option Z)
  (fz_optimal_ct other_ct : option Z) : ClientError + option Z :=
  if truthy other_ct then
    match other_ct with
    | Some c =>
        match private_decrypt n c with
        | inl e => inl e
        | inr other_pt =>
            match fz_optimal_pt with
            | None => inl UnboundLocalError
            | Some optimal_pt =>
                inr (if optimal_pt <? other_pt then other_ct else fz_optimal_ct)
            end
        end
    | None => inr None
    end
  else inr None.

(** The loop of [_perform_comparisons] (lines 151-177).  [fz_optimal_pt]
    is assigned only for a comparison with an optimal ciphertext (lines
    156-158), and keeps its value from one comparison to the next. *)
Fixpoint _perform_comparisons_loop (n : Z) (fz_optimal_pt : option Z)
  (comparisons : list Comparison) : ClientError + list ComparisonResult :=
  match comparisons with
  | [] => inr []
  | (point_id, fz_optimal_ct, fz_pending_ct, fz_unknown_ct) :: rest =>
      match (if truthy fz_optimal_ct then
               match fz_optimal_ct with
               | Some c =>
                   match private_decrypt n c with
                   | inl e => inl e
                   | inr v => inr (Some v)
                   end
               | None => inr fz_optimal_pt
               end
             else inr fz_optimal_pt) with
      | inl e => inl e
      | inr fz_optimal_pt =>
          match compare_optimal n fz_optimal_pt fz_optimal_ct fz_pending_ct with
          | inl e => inl e
          | inr result_optimal_pending =>
              match compare_optimal n fz_optimal_pt fz_optimal_ct fz_unknown_ct with
              | inl e => inl e
              | inr result_optimal_unknown =>
                  match _perform_comparisons_loop n fz_optimal_pt rest with
                  | inl e => inl e
                  | inr comparison_results =>
                      inr ((point_id, result_optimal_pending, result_optimal_unknown)
                           :: comparison_results)
                  end
              end
          end
      end
  end.

Definition _perform_comparisons (n : Z) (comparisons : list Comparison)
  : ClientError + list ComparisonResult :=
  _perform_comparisons_loop n None comparisons.

(** The plaintext [v] is one python-paillier decodes for the modulus [n]. *)
Definition decodable (n v : Z) : Prop := Z.abs v <= n / 3 - 1.

End Client.

(** ** Vocabulary of the further properties, continued *)

(** The row [p] after the loop of [get_points_plaintext] over the points
    [ids]: the client is appended to its vendees once for every
    occurrence of its primary key. *)
Fixpoint add_vendees (client : Producer) (ids : list Z) (p : StoredPoint.t)
  : StoredPoint.t :=
  match ids with
  | [] => p
  | point_id :: rest =>
      add_vendees client rest
        (if StoredPoint.id p =? point_id
         then StoredPoint.set_point_vendees (StoredPoint.point_vendees p ++ [client]) p
         else p)
  end.

(** Every coordinate of [ap_ae'] is one of [ap_ae]. *)
Definition covered (ap_ae' ap_ae : list (Z * Z)) : Prop :=
  forall ap ae, in_ap_ae ap ae ap_ae' = true -> in_ap_ae ap ae ap_ae = true.

(** The row [p'] is the row [p] with an optimal value that is not lower. *)
Definition not_lowered (p p' : StoredPoint.t) : Prop :=
  StoredPoint.id p' = StoredPoint.id p
  /\ StoredPoint.map_id p' = StoredPoint.map_id p
  /\ StoredPoint.ap p' = StoredPoint.ap p
  /\ StoredPoint.ae p' = StoredPoint.ae p
  /\ forall v, StoredPoint.fz_optimal p = Some v ->
               exists v', StoredPoint.fz_optimal p' = Some v' /\ v <= v'.

(** Every point of [d] is a point of [d'], with an optimal value that is
    not lower. *)
Definition never_lowered (d d' : DB) : Prop :=
  forall p, In p (points d) -> exists p', In p' (points d') /\ not_lowered p p'.

(** [d] holds a point of the map at the coordinates whose optimal value
    is at least [fz]. *)
Definition dominated (d : DB) (map_id ap ae fz : Z) : Prop :=
  exists p v,
    In p (points d)
    /\ StoredPoint.map_id p = map_id /\ StoredPoint.ap p = ap /\ StoredPoint.ae p = ae
    /\ StoredPoint.fz_optimal p = Some v /\ fz <= v.


(** [p] is a point of the map [map_id] at the coordinates [c]. *)
Definition located (map_id : Z) (c : Z * Z) (p : StoredPoint.t) : Prop :=
  StoredPoint.map_id p = map_id /\ StoredPoint.ap p = fst c /\ StoredPoint.ae p = snd c.

(** ** The routes of the map server ([src/map_server/producer.py]) *)

(** The answer of a route: the JSON with ['success': True], the JSON with
    ['success': False] and the message of the [ValueError] caught, or an
    exception that leaves the view function. *)
Inductive Response (A : Type) : Type :=
| Success (a : A)
| Failure (msg : string)
| Unhandled (e : Exn).
Arguments Success {A} a.
Arguments Failure {A} msg.
Arguments Unhandled {A} e.

(** [try: ... except ValueError as e: return jsonify({'success': False,
    'msg': str(e)})] around a call of the backend.  Only a [ValueError] is
    caught; [str(e)] is its message, the empty string for
    [raise ValueError from e]. *)
Definition answer {A : Type} (m : M A) : Session -> Response A * Session :=
  fun s =>
    match m s with
    | (Ok a, s') => (Success a, s')
    | (Raise (ValueError msg), s') => (Failure msg, s')
    | (Raise (ValueErrorFrom msg _), s') => (Failure msg, s')
    | (Raise e, s') => (Unhandled e, s')
    end.

Section Routes.
Context {cipher : Cipher}.
Variable config : Config.
Variables randint nonce : nat -> Z.

(** [retrieve_points] (lines 106-124), for the user name of the
    authenticated producer *)
Definition retrieve_points (comparison_results : list ComparisonResult) (username : string)
  : Session -> Response (list (Z * Z * Z * option Z)) * Session :=
  answer (get_points config randint nonce comparison_results username).

(** [provide_records] (lines 215-231) *)
Definition provide_records (comparison_results_with_values : list RecordWithResult)
  (username : string) : Session -> Response unit * Session :=
  answer (store_records config randint nonce comparison_results_with_values username).

End Routes.

(** An exception the routes do not catch. *)
Definition uncaught (e : Exn) : Prop :=
  match e with
  | ValueError _ | ValueErrorFrom _ _ => False
  | _ => True
  end.

(** The [ValueError] of [phe] for a scalar it does not encode. *)
Definition range_error (e : Exn) : Prop :=
  exists n k, max_int n < Z.abs k /\ e = out_of_range n k.

(** The error of a batch that was rolled back: a [ValueError] without a
    message. *)
Definition rolled_back_error (e : Exn) (s : Session) : Prop :=
  (exists cause, e = ValueErrorFrom "" cause) /\ stored s = pending s.

(** * Properties *)

(** ** Modular arithmetic *)

(** Two plaintexts in the signed window of width [n] that agree modulo
    [n] are equal. *)
Lemma signed_window_eq (n a b : Z) :
  - n < 2 * a <= n -> - n < 2 * b <= n -> a mod n = b mod n -> a = b.
Proof.
  intros Ha Hb Hab.
  assert (Hn : 0 < n) by lia.
  assert (Hd : (a - b) mod n = 0).
  { rewrite Zminus_mod, Hab, Z.sub_diag. apply Zmod_0_l. }
  apply Z.mod_divide in Hd; [| lia].
  destruct Hd as [k Hk].
  assert (k = 0) by nia.
  subst k. lia.
Qed.

(** Arithmetic modulo [n^2] of numbers of the form [1 + n*m]. *)
Lemma one_plus_mod_sq (n m : Z) : 1 < n -> (1 + n * m) mod (n * n) = 1 + n * (m mod n).
Proof.
  intros Hn.
  symmetry. apply Zmod_unique with (q := m / n).
  - pose proof (Z.mod_pos_bound m n ltac:(lia)). nia.
  - pose proof (Z_div_mod_eq_full m n). nia.
Qed.

Lemma pow_one_plus (n k l : Z) : 0 <= l -> 1 < n ->
  ((1 + n * k) ^ l) mod (n * n) = (1 + n * (k * l)) mod (n * n).
Proof.
  intros Hl Hn. revert l Hl.
  apply natlike_ind.
  - rewrite Z.pow_0_r. f_equal. ring.
  - intros l Hl IH.
    rewrite Z.pow_succ_r by lia.
    rewrite Z.mul_mod by lia. rewrite IH.
    rewrite <- Z.mul_mod by lia.
    replace ((1 + n * k) * (1 + n * (k * l))) with ((1 + n * (k * Z.succ l)) + (k * k * l) * (n * n)) by lia.
    apply Z_mod_plus_full.
Qed.

(** ** The homomorphic laws of Paillier, for a well-formed key *)

Section PaillierLaws.
Import Paillier.
Variable sk : PrivateKey.
Hypothesis Hwf : wf_key sk.

Let N := n sk.
Let L := lambda sk.

Lemma paillier_N_gt_1 : 1 < N.
Proof. apply Hwf. Qed.

Lemma paillier_power_residue_form (c : Z) :
  (c ^ L mod nsquare N) mod N = 1 ->
  c ^ L mod nsquare N = 1 + N * l_function N (c ^ L mod nsquare N).
Proof.
  intros H. unfold l_function.
  pose proof paillier_N_gt_1.
  set (x := c ^ L mod nsquare N) in *.
  pose proof (Z_div_mod_eq_full (x - 1) N) as E.
  assert ((x - 1) mod N = 0).
  { rewrite Zminus_mod, H. rewrite (Z.mod_small 1 N) by lia. reflexivity. }
  lia.
Qed.

Lemma paillier_pow_add_scalar (c k : Z) :
  (c ^ L mod nsquare N) mod N = 1 ->
  (add_scalar N c k) ^ L mod nsquare N =
  1 + N * ((l_function N (c ^ L mod nsquare N) + encode N k * L) mod N).
Proof.
  intros H. pose proof paillier_N_gt_1 as HN.
  assert (HL : 0 < L) by apply Hwf.
  assert (Hsq : 0 < nsquare N) by (unfold nsquare; nia).
  unfold add_scalar, raw_add, raw_encrypt.
  rewrite <- Zpower_mod by exact Hsq.
  rewrite Z.pow_mul_l.
  rewrite Z.mul_mod by lia.
  rewrite <- (Zpower_mod (N * encode N k + 1)) by exact Hsq.
  replace (N * encode N k + 1) with (1 + N * encode N k) by ring.
  unfold nsquare at 3. rewrite pow_one_plus by lia.
  fold (nsquare N).
  rewrite (paillier_power_residue_form c H) at 1.
  rewrite Z.mul_mod_idemp_r by lia.
  set (a := l_function N (c ^ L mod nsquare N)).
  replace ((1 + N * a) * (1 + N * (encode N k * L)))
    with ((1 + N * (a + encode N k * L)) + (a * (encode N k * L)) * (N * N)) by ring.
  unfold nsquare. rewrite Z_mod_plus_full.
  apply one_plus_mod_sq; lia.
Qed.

Lemma paillier_valid_add_scalar (c k : Z) : valid sk c -> valid sk (add_scalar N c k).
Proof.
  intros [Hc Hp]. pose proof paillier_N_gt_1 as HN.
  assert (HL : 0 < L) by apply Hwf.
  assert (Hsq : 0 < nsquare N) by (unfold nsquare; nia).
  assert (Hpow : (add_scalar N c k ^ L mod nsquare N) mod N = 1).
  { fold N L in Hp. rewrite (paillier_pow_add_scalar c k Hp).
    rewrite (Z.mul_comm N), Z_mod_plus_full. apply Z.mod_small. lia. }
  split; [| exact Hpow].
  assert (0 <= add_scalar N c k < nsquare N) by (apply Z.mod_pos_bound; exact Hsq).
  assert (add_scalar N c k <> 0).
  { intros E. fold N L in Hpow. rewrite E in Hpow.
    rewrite Z.pow_0_l in Hpow by lia.
    discriminate Hpow. }
  fold N. lia.
Qed.

Lemma paillier_raw_decrypt_add_scalar (c k : Z) :
  valid sk c -> raw_decrypt sk (add_scalar N c k) = (raw_decrypt sk c + k) mod N.
Proof.
  intros [Hc Hp]. pose proof paillier_N_gt_1 as HN.
  destruct Hwf as (_ & HL & Hmu). fold N L in Hmu, Hp.
  unfold raw_decrypt. fold N L.
  rewrite (paillier_pow_add_scalar c k Hp).
  set (a := l_function N (c ^ L mod nsquare N)).
  assert (El : l_function N (1 + N * ((a + encode N k * L) mod N)) = (a + encode N k * L) mod N).
  { unfold l_function.
    replace (1 + N * ((a + encode N k * L) mod N) - 1) with (((a + encode N k * L) mod N) * N) by ring.
    apply Z_div_mult_full. lia. }
  rewrite El.
  rewrite Z.mul_mod_idemp_l by lia.
  rewrite Z.add_mod_idemp_l by lia.
  unfold encode.
  replace ((a + k mod N * L) * mu sk) with (a * mu sk + (k mod N) * (L * mu sk)) by ring.
  rewrite (Z.add_mod (a * mu sk) k) by lia.
  rewrite (Z.add_mod (a * mu sk)) by lia.
  f_equal. f_equal.
  rewrite Z.mul_mod by lia. rewrite Hmu.
  rewrite Z.mod_mod by lia. rewrite Z.mul_1_r. apply Z.mod_mod. lia.
Qed.

Lemma paillier_decode_mod (m : Z) : decode N m mod N = m mod N.
Proof.
  unfold decode. destruct (2 * m <=? N); [reflexivity |].
  replace (m - N) with (m + (-1) * N) by ring. apply Z_mod_plus_full.
Qed.

Lemma paillier_decode_range (m : Z) : 0 <= m < N -> - N < 2 * decode N m <= N.
Proof.
  intros Hm. unfold decode. destruct (2 * m <=? N) eqn:E.
  - apply Z.leb_le in E. lia.
  - apply Z.leb_gt in E. lia.
Qed.

Lemma paillier_decrypt_add_scalar (c k : Z) :
  valid sk c -> decrypt sk (add_scalar N c k) mod N = (decrypt sk c + k) mod N.
Proof.
  intros Hv. pose proof paillier_N_gt_1 as HN. unfold decrypt. fold N.
  rewrite paillier_decode_mod, (paillier_raw_decrypt_add_scalar c k Hv).
  rewrite Z.mod_mod by lia.
  rewrite (Z.add_mod (decode N (raw_decrypt sk c)) k) by lia.
  rewrite paillier_decode_mod. rewrite <- Z.add_mod by lia. reflexivity.
Qed.

Lemma paillier_decrypt_range (c : Z) : - N < 2 * decrypt sk c <= N.
Proof.
  pose proof paillier_N_gt_1 as HN. unfold decrypt. fold N.
  apply paillier_decode_range. unfold raw_decrypt. fold N. apply Z.mod_pos_bound. lia.
Qed.

Lemma paillier_pow_obfuscate (r c : Z) :
  good sk r -> obfuscate N r c ^ L mod nsquare N = c ^ L mod nsquare N.
Proof.
  intros Hr. pose proof paillier_N_gt_1 as HN.
  assert (Hsq : 0 < nsquare N) by (unfold nsquare; nia).
  unfold obfuscate, raw_add.
  rewrite <- Zpower_mod by exact Hsq.
  rewrite Z.pow_mul_l, Z.mul_mod by lia.
  unfold good in Hr. fold N L in Hr. rewrite Hr.
  rewrite Z.mul_1_r. apply Z.mod_mod. lia.
Qed.

Lemma paillier_valid_obfuscate (r c : Z) : valid sk c -> good sk r -> valid sk (obfuscate N r c).
Proof.
  intros [Hc Hp] Hr. pose proof paillier_N_gt_1 as HN.
  assert (HL : 0 < L) by apply Hwf.
  assert (Hsq : 0 < nsquare N) by (unfold nsquare; nia).
  fold N L in Hp.
  assert (Hpow : (obfuscate N r c ^ L mod nsquare N) mod N = 1).
  { rewrite (paillier_pow_obfuscate r c Hr). exact Hp. }
  split; [| exact Hpow].
  assert (0 <= obfuscate N r c < nsquare N) by (apply Z.mod_pos_bound; exact Hsq).
  assert (obfuscate N r c <> 0).
  { intros E. rewrite E in Hpow.
    rewrite Z.pow_0_l in Hpow by lia.
    discriminate Hpow. }
  fold N. lia.
Qed.

Lemma paillier_decrypt_obfuscate (r c : Z) : good sk r -> decrypt sk (obfuscate N r c) = decrypt sk c.
Proof.
  intros Hr. unfold decrypt, raw_decrypt. fold N L.
  rewrite (paillier_pow_obfuscate r c Hr). reflexivity.
Qed.

End PaillierLaws.

(** The Paillier scheme of one key pair as a [Cipher]: the operations are
    those of any modulus, the private key decrypts ciphertexts of its own
    modulus. *)
Definition paillier_cipher (sk : Paillier.PrivateKey) (Hwf : Paillier.wf_key sk) : Cipher.
Proof.
  refine {|
    valid_ct := fun n c => n = Paillier.n sk /\ Paillier.valid sk c;
    good_nonce := fun n r => n = Paillier.n sk /\ Paillier.good sk r;
    add_scalar := Paillier.add_scalar;
    add_ct := Paillier.raw_add;
    obfuscate := Paillier.obfuscate;
    decrypt := fun _ c => Paillier.decrypt sk c
  |}.
  - intros n c [_ [H _]]. lia.
  - intros n c k [-> H]. split; [reflexivity | now apply paillier_valid_add_scalar].
  - intros n r c [-> H] [_ Hr]. split; [reflexivity | now apply paillier_valid_obfuscate].
  - intros n c k [-> H]. now apply paillier_decrypt_add_scalar.
  - intros n r c [-> H] [_ Hr]. now apply paillier_decrypt_obfuscate.
  - intros n c [-> H]. now apply paillier_decrypt_range.
Defined.

(** A small key pair for examples: [p = 11], [q = 13], [n = 143],
    [lambda = lcm(10, 12) = 60] and [mu = 60^-1 mod 143 = 31]. *)
Definition toy_key : Paillier.PrivateKey :=
  {| Paillier.n := 143; Paillier.lambda := 60; Paillier.mu := 31 |}.

Lemma toy_key_wf : Paillier.wf_key toy_key.
Proof. unfold Paillier.wf_key; simpl. repeat split; try lia. Qed.

Definition toy_cipher : Cipher := paillier_cipher toy_key toy_key_wf.


(** ** Queries and references *)

Lemma get_user_eq (username : string) (s : Session) (r : Res Producer) (s' : Session) :
  get_user username s = (r, s') ->
  s' = s /\ (forall c, r = Ok c -> c = username /\ In username (producers (pending s))).
Proof.
  unfold get_user, bind, get_db.
  destruct (filter (String.eqb username) (producers (pending s))) as [| c l] eqn:E;
    intros H; injection H as Hr Hs; subst r s'; (split; [reflexivity |]);
    intros c' Hc; [discriminate |].
  injection Hc as ->.
  assert (Hin : In c' (filter (String.eqb username) (producers (pending s))))
    by (rewrite E; left; reflexivity).
  apply filter_In in Hin. destruct Hin as [Hin Heq].
  apply String.eqb_eq in Heq. subst. split; [reflexivity | exact Hin].
Qed.

Lemma get_user_ok (username : string) (s : Session) :
  In username (producers (pending s)) -> get_user username s = (Ok username, s).
Proof.
  intros Hin. unfold get_user, bind, get_db.
  destruct (filter (String.eqb username) (producers (pending s))) as [| c l] eqn:E.
  - exfalso.
    assert (H : In username (filter (String.eqb username) (producers (pending s)))).
    { apply filter_In. split; [exact Hin | apply String.eqb_refl]. }
    rewrite E in H. destruct H.
  - assert (H : In c (filter (String.eqb username) (producers (pending s))))
      by (rewrite E; left; reflexivity).
    apply filter_In in H. destruct H as [_ H]. apply String.eqb_eq in H. subst c.
    reflexivity.
Qed.

Lemma query_map_key_run (map_id : Z) (s : Session) :
  query_map_key map_id s
  = (Ok (filter (fun m => MapKey.map_id m =? map_id) (map_keys (pending s))), s).
Proof. reflexivity. Qed.

Lemma query_map_key_named_run (map_id : Z) (machine material tool : string) (s : Session) :
  query_map_key_named map_id (machine, material, tool) s
  = (Ok (filter (fun q => (MapKey.map_id q =? map_id)
                          && String.eqb (MapKey.machine q) machine
                          && String.eqb (MapKey.material q) material
                          && String.eqb (MapKey.tool q) tool) (map_keys (pending s))), s).
Proof. reflexivity. Qed.

Lemma load_point_ok (s : Session) (point_id : Z) (p : StoredPoint.t) (m : MapKey.t) :
  point_at (pending s) point_id p ->
  map_at (pending s) (StoredPoint.map_id p) m ->
  load_point point_id s = (Ok (p, MapKey.public_key_n m), s).
Proof.
  intros Hp [rest Hm].
  unfold load_point, try_except, bind, get_db, lift, point_map, query_map_key, ret.
  unfold point_at in Hp. cbn. rewrite Hp. cbn. rewrite Hm. reflexivity.
Qed.

Lemma point_at_id (d : DB) (point_id : Z) (p : StoredPoint.t) :
  point_at d point_id p -> StoredPoint.id p = point_id.
Proof.
  unfold point_at. intros H.
  assert (Hin : In p (filter (fun q => StoredPoint.id q =? point_id) (points d)))
    by (rewrite H; left; reflexivity).
  apply filter_In in Hin. destruct Hin as [_ E]. apply Z.eqb_eq in E. exact E.
Qed.

Lemma filter_update_id (point_id : Z) (p' : StoredPoint.t) (l : list StoredPoint.t) :
  StoredPoint.id p' = point_id ->
  filter (fun q => StoredPoint.id q =? point_id)
    (map (fun q => if StoredPoint.id q =? point_id then p' else q) l)
  = map (fun _ => p') (filter (fun q => StoredPoint.id q =? point_id) l).
Proof.
  intros Hid. induction l as [| q l IH]; [reflexivity |].
  cbn. destruct (StoredPoint.id q =? point_id) eqn:E.
  - cbn. rewrite Hid, Z.eqb_refl. cbn. f_equal. exact IH.
  - cbn. rewrite E. exact IH.
Qed.

Lemma point_at_put_point (d : DB) (point_id : Z) (p p' : StoredPoint.t) :
  point_at d point_id p ->
  StoredPoint.id p' = point_id ->
  point_at (put_point point_id p' d) point_id p'.
Proof.
  unfold point_at, put_point. intros Hp Hid. cbn.
  rewrite filter_update_id by exact Hid. rewrite Hp. reflexivity.
Qed.

Lemma opt_Z_eqb_eq (x y : option Z) : opt_Z_eqb x y = true -> x = y.
Proof.
  destruct x, y; cbn; intros H; try discriminate; [| reflexivity].
  apply Z.eqb_eq in H. now subst.
Qed.

Lemma filter_andb {A : Type} (f g : A -> bool) (l : list A) :
  filter (fun x => f x && g x) l = filter g (filter f l).
Proof.
  induction l as [| x l IH]; [reflexivity |]. cbn.
  destruct (f x); cbn; [destruct (g x); rewrite IH; reflexivity | exact IH].
Qed.

(** The order of the index keeps the rows. *)
Lemma index_insert_in (x p : StoredPoint.t) (l : list StoredPoint.t) :
  In x (index_insert p l) <-> x = p \/ In x l.
Proof.
  induction l as [| q l IH]; cbn.
  - split; [intros [H | []]; left; now symmetry | intros [H | []]; left; now symmetry].
  - destruct (index_leb p q); cbn.
    + split; [intros [H | H]; [left; now symmetry | right; exact H]
             | intros [H | H]; [left; now symmetry | right; exact H]].
    + rewrite IH. tauto.
Qed.

Lemma index_order_in (x : StoredPoint.t) (l : list StoredPoint.t) :
  In x (index_order l) <-> In x l.
Proof.
  unfold index_order. induction l as [| p l IH]; cbn; [tauto |].
  rewrite index_insert_in, IH.
  split; (intros [H | H]; [left; now symmetry | right; exact H]).
Qed.

Lemma index_insert_length (p : StoredPoint.t) (l : list StoredPoint.t) :
  List.length (index_insert p l) = S (List.length l).
Proof.
  induction l as [| q l IH]; cbn; [reflexivity |].
  destruct (index_leb p q); cbn; [reflexivity | now rewrite IH].
Qed.

Lemma index_order_length (l : list StoredPoint.t) :
  List.length (index_order l) = List.length l.
Proof.
  induction l as [| p l IH]; [reflexivity |].
  unfold index_order in *. cbn. now rewrite index_insert_length, IH.
Qed.

Lemma index_order_nil (l : list StoredPoint.t) : index_order l = [] -> l = [].
Proof.
  intros H. apply length_zero_iff_nil. rewrite <- index_order_length, H. reflexivity.
Qed.

Lemma index_order_Forall (P : StoredPoint.t -> Prop) (l : list StoredPoint.t) :
  Forall P l -> Forall P (index_order l).
Proof.
  intros H. rewrite Forall_forall in *. intros x Hx. apply H, index_order_in, Hx.
Qed.

Lemma bind_ext_at {A B : Type} (m : M A) (k k' : A -> M B) (s : Session) :
  (forall a s', m s = (Ok a, s') -> k a s' = k' a s') -> bind m k s = bind m k' s.
Proof.
  intros H. unfold bind. destruct (m s) as [[a | e] s']; [now apply H | reflexivity].
Qed.

(** ** Invariants of computations *)

Lemma preserves_ret {A : Type} (I : Session -> Prop) (a : A) : preserves I (ret a).
Proof. intros s r s' H E. injection E as _ <-. exact H. Qed.

Lemma preserves_raise {A : Type} (I : Session -> Prop) (e : Exn) : preserves I (@raise A e).
Proof. intros s r s' H E. injection E as _ <-. exact H. Qed.

Lemma preserves_lift {A : Type} (I : Session -> Prop) (x : Res A) : preserves I (lift x).
Proof. intros s r s' H E. injection E as _ <-. exact H. Qed.

Lemma preserves_get_db (I : Session -> Prop) : preserves I get_db.
Proof. intros s r s' H E. injection E as _ <-. exact H. Qed.

Lemma preserves_bind {A B : Type} (I : Session -> Prop) (m : M A) (k : A -> M B) :
  preserves I m -> (forall a, preserves I (k a)) -> preserves I (bind m k).
Proof.
  intros Hm Hk s r s' H E. unfold bind in E.
  destruct (m s) as [[a | e] s1] eqn:Em.
  - eapply Hk; [eapply Hm; eassumption | exact E].
  - injection E as _ <-. eapply Hm; eassumption.
Qed.

Lemma preserves_try {A : Type} (I : Session -> Prop) (m : M A) (h : Exn -> M A) :
  preserves I m -> (forall e, preserves I (h e)) -> preserves I (try_except m h).
Proof.
  intros Hm Hh s r s' H E. unfold try_except in E.
  destruct (m s) as [[a | e] s1] eqn:Em.
  - injection E as _ <-. eapply Hm; eassumption.
  - eapply Hh; [eapply Hm; eassumption | exact E].
Qed.

Lemma preserves_commit (P : DB -> Prop) : preserves (both P) commit.
Proof. intros s r s' [_ H] E. injection E as _ <-. split; exact H. Qed.

Lemma preserves_rollback (P : DB -> Prop) : preserves (both P) rollback.
Proof. intros s r s' [H _] E. injection E as _ <-. split; exact H. Qed.

Lemma preserves_draw (P : DB -> Prop) (oracle : nat -> Z) : preserves (both P) (draw oracle).
Proof. intros s r s' H E. injection E as _ <-. exact H. Qed.

Lemma preserves_modify_db (P : DB -> Prop) (f : DB -> DB) :
  (forall d, P d -> P (f d)) -> preserves (both P) (modify_db f).
Proof.
  intros Hf s r s' [Hs Hp] E. injection E as _ <-. split; [exact Hs | apply Hf, Hp].
Qed.

Create HintDb pres.

#[global] Hint Resolve preserves_ret preserves_raise preserves_lift preserves_get_db
  preserves_commit preserves_rollback preserves_draw : pres.

(** The helpers that are sequences of session primitives. *)
Create HintDb mapserver.

#[global] Hint Unfold get_user get_point update_point update_map_usage query_map_key
  point_map map_reverse_querists reverse_queried query_map_key_named query_map_usage
  query_point_at insert_point next_point_id insert_map_usage random_offset ciphertext
  encode enc_add enc_sub enc_add_ct int_add remask insert_reverse_querist insert_preview_billing
  remove_open_request append_vendee load_point : mapserver.

(** Structural decomposition of a computation. *)
Ltac pres_struct :=
  match goal with
  | |- preserves _ (bind _ _) => apply preserves_bind; [| intros ?]
  | |- preserves _ (try_except _ _) => apply preserves_try; [| intros ?]
  | |- preserves _ (ret _) => apply preserves_ret
  | |- preserves _ (raise _) => apply preserves_raise
  | |- preserves _ (lift _) => apply preserves_lift
  | |- preserves _ get_db => apply preserves_get_db
  | |- preserves _ commit => apply preserves_commit
  | |- preserves _ rollback => apply preserves_rollback
  | |- preserves _ (draw _) => apply preserves_draw
  | |- preserves _ (match ?x with _ => _ end) => destruct x
  end.

Lemma preserves_enc_add {cipher : Cipher} (I : Session -> Prop) (n : Z) (c k : option Z) :
  preserves I (enc_add n c k).
Proof. unfold enc_add, encode. repeat pres_struct. Qed.

Lemma preserves_enc_sub {cipher : Cipher} (I : Session -> Prop) (n : Z) (c k : option Z) :
  preserves I (enc_sub n c k).
Proof. unfold enc_sub. destruct k; [apply preserves_enc_add | apply preserves_raise]. Qed.

(** ** Standing to submit a comparison *)

Section Standing.
Context {cipher : Cipher}.
Variable config : Config.
Variables randint nonce : nat -> Z.

(** C5.  A producer who is not in the [open_requests] of a stored point
    cannot submit a comparison result for it: [_store_comparison] raises
    the validation error "Producer did not properly request comparison."
    and the session, hence the point, is left as it was. *)
Theorem store_comparison_open_request_gate
  (s : Session) (point_id : Z) (rp ru : option Z) (producer : Producer)
  (p : StoredPoint.t) (m : MapKey.t) :
  point_at (pending s) point_id p ->
  map_at (pending s) (StoredPoint.map_id p) m ->
  mem producer (StoredPoint.open_requests p) = false ->
  _store_comparison config randint nonce (point_id, rp, ru) producer s
  = (Raise not_requested, s).
Proof.
  intros Hp Hm Hreq.
  unfold _store_comparison, bind.
  rewrite (load_point_ok s point_id p m Hp Hm).
  rewrite Hreq. reflexivity.
Qed.

(** A request whose epoch is over: the producer is in [open_requests] and
    not in [current_comparators]. *)
Lemma store_comparison_stale (s : Session) (point_id : Z) (rp ru : option Z)
  (producer : Producer) (p : StoredPoint.t) (m : MapKey.t) :
  point_at (pending s) point_id p ->
  map_at (pending s) (StoredPoint.map_id p) m ->
  mem producer (StoredPoint.open_requests p) = true ->
  mem producer (StoredPoint.current_comparators p) = false ->
  _store_comparison config randint nonce (point_id, rp, ru) producer s = (Ok point_id, s).
Proof.
  intros Hp Hm Hreq Hcc.
  unfold _store_comparison, bind.
  rewrite (load_point_ok s point_id p m Hp Hm).
  rewrite Hreq, Hcc. reflexivity.
Qed.

(** C10.  When the producer is in the [open_requests] of a point and not
    in its [current_comparators], [_store_comparison] returns the point
    for every pair of submitted results, without raising, and leaves the
    whole session as it was; the results are not looked at, so
    [get_points] and [store_records] do with such a submission what they
    do with the empty one. *)
Theorem stale_request_accepted_unvalidated
  (s : Session) (point_id : Z) (producer : Producer)
  (p : StoredPoint.t) (m : MapKey.t) :
  point_at (pending s) point_id p ->
  map_at (pending s) (StoredPoint.map_id p) m ->
  mem producer (StoredPoint.open_requests p) = true ->
  mem producer (StoredPoint.current_comparators p) = false ->
  (forall rp ru,
     _store_comparison config randint nonce (point_id, rp, ru) producer s = (Ok point_id, s))
  /\ (forall rp ru rest,
        get_points config randint nonce ((point_id, rp, ru) :: rest) producer s
        = get_points config randint nonce ((point_id, None, None) :: rest) producer s)
  /\ (forall rp ru fz usage rest,
        store_records config randint nonce ((point_id, rp, ru, fz, usage) :: rest) producer s
        = store_records config randint nonce
            ((point_id, None, None, fz, usage) :: rest) producer s).
Proof.
  intros Hp Hm Hreq Hcc.
  assert (Hstale : forall rp ru,
    _store_comparison config randint nonce (point_id, rp, ru) producer s = (Ok point_id, s)).
  { intros. eapply store_comparison_stale; eauto. }
  split; [exact Hstale |]. split.
  - intros rp ru rest. unfold get_points, bind.
    destruct (get_user producer s) as [[c |e] s1] eqn:Eu; [| reflexivity].
    destruct (get_user_eq _ _ _ _ Eu) as [-> Hc].
    destruct (Hc c eq_refl) as [-> _].
    unfold try_except, bind. cbn [get_points_loop]. unfold bind.
    rewrite (Hstale rp ru), (Hstale None None). reflexivity.
  - intros rp ru fz usage rest. unfold store_records, bind.
    destruct (get_user producer s) as [[c |e] s1] eqn:Eu; [| reflexivity].
    destruct (get_user_eq _ _ _ _ Eu) as [-> Hc].
    destruct (Hc c eq_refl) as [-> _].
    unfold try_except, bind. cbn [store_records_loop]. unfold bind.
    rewrite (Hstale rp ru), (Hstale None None). reflexivity.
Qed.

End Standing.

Section StandingExamples.
#[local] Existing Instance toy_cipher.

(** Bob never asked for point 1. *)
Definition ex_unrequested : Session :=
  ex_session (ex_db [] []
    [ex_point 1 (Some ex_optimal) (Some "alice") None None None None 5 [] [] []] []).

Lemma store_comparison_open_request_gate_witness :
  _store_comparison default_config ex_randint ex_nonce
    (1, None, Some ex_optimal) "bob" ex_unrequested
  = (Raise not_requested, ex_unrequested).
Proof.
  apply (store_comparison_open_request_gate default_config
           ex_randint ex_nonce ex_unrequested 1 None (Some ex_optimal) "bob"
           (ex_point 1 (Some ex_optimal) (Some "alice") None None None None 5 [] [] [])
           (ex_map [])).
  - reflexivity.
  - exists []. reflexivity.
  - reflexivity.
Defined.

(** Bob asked for point 1, and carol's comparison has ended the epoch
    since. *)
Definition ex_stale : Session :=
  ex_session (ex_db ["bob"; "carol"] []
    [ex_point 1 (Some ex_optimal) (Some "alice") None None None None 5 ["bob"] [] []] []).

Lemma stale_request_accepted_unvalidated_witness :
  (forall rp ru,
     _store_comparison default_config ex_randint ex_nonce
       (1, rp, ru) "bob" ex_stale = (Ok 1, ex_stale))
  /\ (forall rp ru rest,
        get_points default_config ex_randint ex_nonce
          ((1, rp, ru) :: rest) "bob" ex_stale
        = get_points default_config ex_randint ex_nonce ((1, None, None) :: rest) "bob" ex_stale)
  /\ (forall rp ru fz usage rest,
        store_records default_config ex_randint ex_nonce
          ((1, rp, ru, fz, usage) :: rest) "bob" ex_stale
        = store_records default_config ex_randint ex_nonce
            ((1, None, None, fz, usage) :: rest) "bob" ex_stale).
Proof.
  apply (stale_request_accepted_unvalidated default_config
           ex_randint ex_nonce ex_stale 1 "bob"
           (ex_point 1 (Some ex_optimal) (Some "alice") None None None None 5 ["bob"] [] [])
           (ex_map ["bob"; "carol"])).
  - reflexivity.
  - exists []. reflexivity.
  - reflexivity.
  - reflexivity.
Defined.

End StandingExamples.

(** ** The active path of [_store_comparison] *)

Lemma resolve_pending_ok (p p1 : StoredPoint.t) (rp : option Z) :
  resolve_pending p rp = Ok p1 ->
  (p1 = p /\ truthy rp = false \/
   p1 = StoredPoint.set_pending None None p /\ truthy rp = true
   /\ truthy (StoredPoint.fz_pending p) = true
   /\ opt_Z_eqb rp (StoredPoint.fz_optimal p) = true)
  /\ truthy (StoredPoint.fz_pending p1) = false.
Proof.
  unfold resolve_pending.
  destruct (truthy rp) eqn:Erp.
  - destruct (truthy (StoredPoint.fz_pending p)) eqn:Efp; cbn; [| discriminate].
    destruct (opt_Z_eqb rp (StoredPoint.fz_optimal p)) eqn:Eeq; cbn; [| discriminate].
    intros H. injection H as <-. split; [right; auto | reflexivity].
  - destruct (truthy (StoredPoint.fz_pending p)) eqn:Efp; [discriminate |].
    intros H. injection H as <-. split; [left; auto | exact Efp].
Qed.

Section ActivePath.
Context {cipher : Cipher}.
Variable config : Config.
Variables randint nonce : nat -> Z.

Lemma resolve_unknown_ok (p1 p2 : StoredPoint.t) (ru : option Z) :
  EVAL config = false ->
  resolve_unknown config p1 ru = Ok p2 ->
  (promotes p1 ru = true /\
   p2 = StoredPoint.set_unknown None None
          (StoredPoint.set_point_vendees []
             (StoredPoint.set_optimal ru (StoredPoint.provider_unknown p1)
                (StoredPoint.set_pending (StoredPoint.fz_optimal p1)
                   (StoredPoint.provider_optimal p1) p1))))
  \/ (truthy ru = true /\ promotes p1 ru = false
      /\ opt_Z_eqb ru (StoredPoint.fz_optimal p1) = true
      /\ opt_producer_eqb (StoredPoint.provider_optimal p1)
           (StoredPoint.provider_unknown p1) = false
      /\ p2 = StoredPoint.set_unknown None None
                (StoredPoint.set_pending (StoredPoint.fz_unknown p1)
                   (StoredPoint.provider_unknown p1) p1))
  \/ (truthy ru = false /\ truthy (StoredPoint.fz_unknown p1) = false /\ p2 = p1).
Proof.
  intros HE. unfold resolve_unknown, promotes. rewrite HE. cbn [negb].
  destruct (truthy ru) eqn:Eru.
  - destruct (truthy (StoredPoint.fz_unknown p1)) eqn:Efu; cbn [negb]; [| discriminate].
    destruct (opt_Z_eqb ru (StoredPoint.fz_unknown p1)) eqn:Eeq.
    + intros H. injection H as <-. left. auto.
    + destruct (opt_Z_eqb ru (StoredPoint.fz_optimal p1)) eqn:Eopt; cbn [negb]; [| discriminate].
      destruct (opt_producer_eqb (StoredPoint.provider_optimal p1)
                  (StoredPoint.provider_unknown p1)) eqn:Eprov; [discriminate |].
      intros H. injection H as <-. right. left. auto.
  - destruct (truthy (StoredPoint.fz_unknown p1)) eqn:Efu; [discriminate |].
    intros H. injection H as <-. right. right. auto.
Qed.

(** The active path, step by step: the two checks, the rotation, the
    write and the commit; an exception rolls the session back. *)
Lemma store_comparison_active (s : Session) (point_id : Z) (rp ru : option Z)
  (producer : Producer) (p : StoredPoint.t) (m : MapKey.t) :
  point_at (pending s) point_id p ->
  map_at (pending s) (StoredPoint.map_id p) m ->
  mem producer (StoredPoint.open_requests p) = true ->
  mem producer (StoredPoint.current_comparators p) = true ->
  negb (opt_producer_eqb (StoredPoint.last_comparator p) (Some producer)) || EVAL config = true ->
  _store_comparison config randint nonce (point_id, rp, ru) producer s
  = match resolve_pending p rp with
    | Raise e => (Raise (ValueErrorFrom "" e), rolled_back s)
    | Ok p1 =>
        match resolve_unknown config p1 ru with
        | Raise e => (Raise (ValueErrorFrom "" e), rolled_back s)
        | Ok p2 =>
            match rotate_offset config randint nonce (MapKey.public_key_n m) producer p2 s with
            | (Raise e, s1) => (Raise (ValueErrorFrom "" e), rolled_back s1)
            | (Ok p3, s1) =>
                (Ok point_id,
                 {| stored := put_point point_id p3 (pending s1);
                    pending := put_point point_id p3 (pending s1);
                    draws := draws s1 |})
            end
        end
    end.
Proof.
  intros Hp Hm Hreq Hcc Hact.
  unfold _store_comparison, bind.
  rewrite (load_point_ok s point_id p m Hp Hm).
  rewrite Hreq, Hcc. cbn [negb].
  unfold try_except, bind. rewrite Hact.
  unfold lift.
  destruct (resolve_pending p rp) as [p1 | e]; [| reflexivity].
  destruct (resolve_unknown config p1 ru) as [p2 | e]; [| reflexivity].
  destruct (rotate_offset config randint nonce (MapKey.public_key_n m) producer p2 s)
    as [[p3 | e] s1]; reflexivity.
Qed.

(** Arithmetic on an encrypted number leaves the session alone; it
    returns when the operands are there and the scalar is in the range of
    [phe]. *)
Lemma enc_add_run (n c k : Z) (s : Session) :
  Z.abs k <= max_int n -> enc_add n (Some c) (Some k) s = (Ok (add_scalar n c k), s).
Proof.
  intros Hk. unfold enc_add, encode, bind.
  apply Z.leb_le in Hk. rewrite Hk. reflexivity.
Qed.

Lemma enc_add_inv (n : Z) (c k : option Z) (s s' : Session) (r : Res Z) :
  enc_add n c k s = (r, s') ->
  s' = s
  /\ forall x, r = Ok x ->
       exists c0 k0, c = Some c0 /\ k = Some k0 /\ Z.abs k0 <= max_int n
                     /\ x = add_scalar n c0 k0.
Proof.
  unfold enc_add, encode, bind.
  destruct k as [k0 |]; [| intros H; injection H as <- <-; split; [reflexivity | discriminate]].
  destruct (Z.abs k0 <=? max_int n) eqn:Ek;
    [| intros H; injection H as <- <-; split; [reflexivity | discriminate]].
  destruct c as [c0 |]; intros H; injection H as <- <-; (split; [reflexivity |]);
    intros x Hx; [| discriminate].
  injection Hx as <-. exists c0, k0. apply Z.leb_le in Ek. auto.
Qed.

Lemma enc_add_raises (n : Z) (c k : option Z) (s s' : Session) (e : Exn) :
  enc_add n c k s = (Raise e, s') ->
  e = TypeError
  \/ exists k0, k = Some k0 /\ max_int n < Z.abs k0 /\ e = out_of_range n k0.
Proof.
  unfold enc_add, encode, bind.
  destruct k as [k0 |]; [| intros H; injection H as <- _; left; reflexivity].
  destruct (Z.abs k0 <=? max_int n) eqn:Ek.
  - destruct c as [c0 |]; intros H; [discriminate H |].
    injection H as <- _. left. reflexivity.
  - intros H. injection H as <- _. right. exists k0. apply Z.leb_gt in Ek. auto.
Qed.

Lemma enc_sub_run (n c k : Z) (s : Session) :
  Z.abs k <= max_int n -> enc_sub n (Some c) (Some k) s = (Ok (add_scalar n c (- k)), s).
Proof.
  intros Hk. unfold enc_sub. apply enc_add_run. now rewrite Z.abs_opp.
Qed.

Lemma enc_sub_inv (n : Z) (c k : option Z) (s s' : Session) (r : Res Z) :
  enc_sub n c k s = (r, s') ->
  s' = s
  /\ forall x, r = Ok x ->
       exists c0 k0, c = Some c0 /\ k = Some k0 /\ Z.abs k0 <= max_int n
                     /\ x = add_scalar n c0 (- k0).
Proof.
  unfold enc_sub.
  destruct k as [k0 |]; [| intros H; injection H as <- <-; split; [reflexivity | discriminate]].
  intros H. apply enc_add_inv in H. destruct H as [-> H]. split; [reflexivity |].
  intros x Hx. destruct (H x Hx) as (c0 & k1 & -> & Hk1 & Habs & ->).
  injection Hk1 as <-. rewrite Z.abs_opp in Habs. exists c0, k0. auto.
Qed.

Lemma enc_sub_raises (n : Z) (c k : option Z) (s s' : Session) (e : Exn) :
  enc_sub n c k s = (Raise e, s') ->
  e = TypeError
  \/ exists k0, k = Some k0 /\ max_int n < Z.abs k0 /\ e = out_of_range n (- k0).
Proof.
  unfold enc_sub.
  destruct k as [k0 |]; [| intros H; injection H as <- _; left; reflexivity].
  intros H. apply enc_add_raises in H. destruct H as [-> | (k1 & Hk & Habs & ->)];
    [left; reflexivity |].
  injection Hk as <-. rewrite Z.abs_opp in Habs. right. exists k0. auto.
Qed.

(** Re-masking draws one nonce. *)
Lemma remask_run (n c o1 o2 : Z) (s : Session) :
  Z.abs o1 <= max_int n -> Z.abs o2 <= max_int n ->
  remask nonce n (Some c) (Some o1) o2 s
  = (Ok (remasked n (nonce (draws s)) c o1 o2),
     {| stored := stored s; pending := pending s; draws := S (draws s) |}).
Proof.
  intros H1 H2. unfold remask, bind.
  rewrite (enc_sub_run n c o1 s H1), (enc_add_run n _ o2 s H2). reflexivity.
Qed.

Lemma remask_inv (n : Z) (c o : option Z) (o2 : Z) (s s' : Session) (r : Res Z) :
  remask nonce n c o o2 s = (r, s') ->
  stored s' = stored s /\ pending s' = pending s
  /\ forall x, r = Ok x ->
       exists c0 o1, c = Some c0 /\ o = Some o1
                     /\ Z.abs o1 <= max_int n /\ Z.abs o2 <= max_int n
                     /\ x = remasked n (nonce (draws s)) c0 o1 o2
                     /\ draws s' = S (draws s).
Proof.
  unfold remask, bind.
  destruct (enc_sub n c o s) as [[c1 | e] s1] eqn:E1;
    apply enc_sub_inv in E1; destruct E1 as [-> H1];
    [| intros H; injection H as <- <-; repeat split; discriminate].
  destruct (enc_add n (Some c1) (Some o2) s) as [[c2 | e] s2] eqn:E2;
    apply enc_add_inv in E2; destruct E2 as [-> H2];
    [| intros H; injection H as <- <-; repeat split; discriminate].
  unfold ciphertext, bind, draw, ret. intros H; injection H as <- <-.
  cbn. repeat split. intros x Hx. injection Hx as <-.
  destruct (H1 c1 eq_refl) as (c0 & o1 & -> & -> & Ho1 & ->).
  destruct (H2 c2 eq_refl) as (c3 & k & Hc3 & Hk & Ho2 & ->).
  injection Hc3 as <-. injection Hk as <-.
  exists c0, o1. repeat split; assumption.
Qed.

(** The rotation outside of evaluation mode: it draws the new offset and
    stores the re-masked ciphertexts of the two slots that hold one. *)
Lemma rotate_offset_run (n : Z) (producer : Producer) (q q' : StoredPoint.t)
  (s s' : Session) (o1 : Z) :
  EVAL config = false ->
  StoredPoint.current_offset q = Some o1 ->
  rotate_offset config randint nonce n producer q s = (Ok q', s') ->
  let o2 := randint (draws s) in
  stored s' = stored s /\ pending s' = pending s
  /\ StoredPoint.id q' = StoredPoint.id q
  /\ StoredPoint.current_offset q' = Some o2
  /\ (forall c, StoredPoint.fz_optimal q = Some c -> c <> 0 ->
        exists i, StoredPoint.fz_optimal q' = Some (remasked n (nonce i) c o1 o2))
  /\ (forall c, StoredPoint.fz_pending q = Some c -> c <> 0 ->
        exists i, StoredPoint.fz_pending q' = Some (remasked n (nonce i) c o1 o2)).
Proof.
  intros HE Ho.
  unfold rotate_offset, bind, random_offset, draw, ret.
  destruct q as [qid qmap qap qae qusage fo po fp pp fu pu oreq off cc lc pv].
  cbn in Ho. subst off. cbn -[remask]. rewrite HE.
  destruct fo as [co |]; [destruct (co =? 0) eqn:Eco |];
    (destruct fp as [cp |]; [destruct (cp =? 0) eqn:Ecp |]);
    cbn -[remask]; rewrite ?Eco; cbn -[remask]; rewrite ?Ecp; cbn -[remask];
    repeat match goal with
      | |- context [remask nonce n ?c ?o ?o2 ?s0] =>
          let E := fresh "E" in
          let H := fresh "H" in
          destruct (remask nonce n c o o2 s0) as [[? | ?] ?] eqn:E;
          apply remask_inv in E; destruct E as (? & ? & H);
          [specialize (H _ eq_refl);
           destruct H as (? & ? & H); destruct H as (? & ? & ? & ? & ? & ?) |];
          cbn -[remask] in *; rewrite ?Ecp; cbn -[remask]
      end;
    intros Hrun; try discriminate; injection Hrun as <- <-; cbn;
    repeat split; try congruence;
    intros c Hc Hnz; try discriminate; injection Hc as <-;
    try (apply Z.eqb_eq in Eco; contradiction);
    try (apply Z.eqb_eq in Ecp; contradiction);
    eexists; f_equal; repeat match goal with
      | H : Some _ = Some _ |- _ => injection H as ?; subst
      end; eassumption || reflexivity.
Qed.

Lemma remasked_valid (n r c o1 o2 : Z) :
  valid_ct n c -> good_nonce n r -> valid_ct n (remasked n r c o1 o2).
Proof.
  intros Hv Hr. unfold remasked.
  apply valid_obfuscate; [| exact Hr].
  apply valid_add_scalar, valid_add_scalar, Hv.
Qed.

Lemma remasked_decrypt (n r c o1 o2 : Z) :
  valid_ct n c -> good_nonce n r ->
  - n < 2 * (decrypt n c - o1 + o2) <= n ->
  decrypt n (remasked n r c o1 o2) = decrypt n c - o1 + o2.
Proof.
  intros Hv Hr Hw.
  assert (Hv1 : valid_ct n (add_scalar n c (- o1))) by now apply valid_add_scalar.
  assert (Hv2 : valid_ct n (add_scalar n (add_scalar n c (- o1)) o2))
    by now apply valid_add_scalar.
  unfold remasked. rewrite decrypt_obfuscate by assumption.
  apply signed_window_eq with (n := n); [now apply decrypt_range | exact Hw |].
  assert (Hn : 0 < n) by (pose proof (decrypt_range n c Hv); lia).
  rewrite decrypt_add_scalar by exact Hv1.
  rewrite <- Z.add_mod_idemp_l by lia.
  rewrite decrypt_add_scalar by exact Hv.
  rewrite Z.add_mod_idemp_l by lia.
  f_equal; lia.
Qed.

End ActivePath.

(** ** Rotation of the offset *)

Section Rotation.
Context {cipher : Cipher}.
Variable config : Config.
Variables randint nonce : nat -> Z.

(** C2 (amended).  Outside of evaluation mode, let the optimal slot of a
    point hold a ciphertext of [v] masked with the current offset [o1],
    and let a producer other than [last_comparator] complete a
    comparison through the active path.  The call draws the new offset
    [o2] and stores re-masked ciphertexts: the ciphertext of [v] now
    unmasks to [v] with [o2].  It is still the optimal one unless the
    result names the unknown value as the winner; in that case the value
    [v] has moved to the pending slot, and the optimal slot unmasks to
    the promoted value.  A demoted unknown value is found in the pending
    slot in the same way.  (The plaintexts have to fit the signed window
    of the modulus.) *)
Theorem offset_rotation_round_trip
  (s s' : Session) (point_id : Z) (rp ru : option Z) (producer : Producer)
  (p : StoredPoint.t) (m : MapKey.t) (o1 v : Z) :
  let n := MapKey.public_key_n m in
  let o2 := randint (draws s) in
  EVAL config = false ->
  point_at (pending s) point_id p ->
  map_at (pending s) (StoredPoint.map_id p) m ->
  (forall i, good_nonce n (nonce i)) ->
  mem producer (StoredPoint.current_comparators p) = true ->
  opt_producer_eqb (StoredPoint.last_comparator p) (Some producer) = false ->
  StoredPoint.current_offset p = Some o1 ->
  slot_value n (StoredPoint.fz_optimal p) o1 v ->
  - n < 2 * (v + o2) <= n ->
  _store_comparison config randint nonce (point_id, rp, ru) producer s = (Ok point_id, s') ->
  exists p',
    point_at (stored s') point_id p'
    /\ StoredPoint.current_offset p' = Some o2
    /\ slot_value n (if promotes p ru then StoredPoint.fz_pending p'
                     else StoredPoint.fz_optimal p') o2 v
    /\ (forall u,
          truthy ru = true ->
          slot_value n (StoredPoint.fz_unknown p) o1 u ->
          - n < 2 * (u + o2) <= n ->
          slot_value n (if promotes p ru then StoredPoint.fz_optimal p'
                        else StoredPoint.fz_pending p') o2 u).
Proof.
  intros n o2 HE Hp Hm Hnonce Hcc Hlast Ho1 (c & Hc & Hvalid & Hdec) Hwin Hrun.
  assert (Hreq : mem producer (StoredPoint.open_requests p) = true).
  { destruct (mem producer (StoredPoint.open_requests p)) eqn:E; [reflexivity |].
    unfold _store_comparison, bind in Hrun.
    rewrite (load_point_ok s point_id p m Hp Hm), E in Hrun. discriminate. }
  rewrite (store_comparison_active config randint nonce s point_id rp ru producer p m
             Hp Hm Hreq Hcc) in Hrun by (rewrite Hlast; reflexivity).
  destruct (resolve_pending p rp) as [p1 | e] eqn:E1; [| discriminate].
  destruct (resolve_unknown config p1 ru) as [p2 | e] eqn:E2; [| discriminate].
  apply resolve_pending_ok in E1. destruct E1 as [E1 Hfp1].
  assert (Hsame : StoredPoint.fz_optimal p1 = StoredPoint.fz_optimal p
                  /\ StoredPoint.fz_unknown p1 = StoredPoint.fz_unknown p
                  /\ StoredPoint.current_offset p1 = StoredPoint.current_offset p
                  /\ StoredPoint.id p1 = StoredPoint.id p).
  { destruct E1 as [[-> _] | [-> _]]; repeat split; reflexivity. }
  destruct Hsame as (Hfo1 & Hfu1 & Hoff1 & Hid1).
  assert (Hprom : promotes p1 ru = promotes p ru) by (unfold promotes; now rewrite Hfu1).
  apply (resolve_unknown_ok config p1 p2 ru HE) in E2.
  assert (Hoff2 : StoredPoint.current_offset p2 = Some o1).
  { destruct E2 as [[_ ->] | [(_ & _ & _ & _ & ->) | (_ & _ & ->)]]; cbn; congruence. }
  assert (Hid2 : StoredPoint.id p2 = point_id).
  { rewrite <- (point_at_id _ _ _ Hp), <- Hid1.
    destruct E2 as [[_ ->] | [(_ & _ & _ & _ & ->) | (_ & _ & ->)]]; reflexivity. }
  fold n in Hrun.
  destruct (rotate_offset config randint nonce n producer p2 s) as [[p3 | e] s1] eqn:Hrot;
    [| discriminate].
  destruct (rotate_offset_run config randint nonce n producer p2 p3 s s1 o1 HE Hoff2 Hrot)
    as (_ & Hpend & Hid3 & Hoff3 & Hopt3 & Hpen3).
  injection Hrun as <-. rewrite Hpend.
  exists p3. cbn [stored pending].
  split. { apply point_at_put_point with (p := p); [exact Hp | congruence]. }
  split. { exact Hoff3. }
  assert (Hremask : forall i c0 w, valid_ct n c0 -> decrypt n c0 - o1 = w ->
            - n < 2 * (w + o2) <= n ->
            valid_ct n (remasked n (nonce i) c0 o1 o2)
            /\ decrypt n (remasked n (nonce i) c0 o1 o2) - o2 = w).
  { intros i c0 w Hv0 Hd0 Hw0. split; [now apply remasked_valid |].
    rewrite remasked_decrypt; [lia | exact Hv0 | apply Hnonce | ].
    replace (decrypt n c0 - o1 + o2) with (w + o2) by lia. exact Hw0. }
  assert (Hcnz : c <> 0) by (eapply valid_ct_nonzero; eassumption).
  destruct E2 as [[Hpr ->] | [(Hru & Hpr & Heq & _ & ->) | (Hru & _ & ->)]];
    rewrite <- Hprom, ?Hpr.
  - (* the unknown value is promoted *)
    split.
    + destruct (Hpen3 c) as [i Hi]; [cbn; congruence | exact Hcnz |].
      exists (remasked n (nonce i) c o1 o2). split; [exact Hi |]. now apply Hremask.
    + intros u _ (cu & Hcu & Hvu & Hdu) Hwu.
      assert (Hrueq : ru = Some cu).
      { unfold promotes in Hpr. apply andb_prop in Hpr. destruct Hpr as [_ Hpr].
        apply opt_Z_eqb_eq in Hpr. congruence. }
      destruct (Hopt3 cu) as [i Hi];
        [cbn; congruence | eapply valid_ct_nonzero; eassumption |].
      exists (remasked n (nonce i) cu o1 o2). split; [exact Hi |]. now apply Hremask.
  - (* the unknown value is demoted *)
    split.
    + destruct (Hopt3 c) as [i Hi]; [cbn; congruence | exact Hcnz |].
      exists (remasked n (nonce i) c o1 o2). split; [exact Hi |]. now apply Hremask.
    + intros u _ (cu & Hcu & Hvu & Hdu) Hwu.
      destruct (Hpen3 cu) as [i Hi];
        [cbn; congruence | eapply valid_ct_nonzero; eassumption |].
      exists (remasked n (nonce i) cu o1 o2). split; [exact Hi |]. now apply Hremask.
  - (* no unknown result *)
    assert (Hnp : promotes p1 ru = false) by (unfold promotes; now rewrite Hru).
    rewrite Hnp. split.
    + destruct (Hopt3 c) as [i Hi]; [congruence | exact Hcnz |].
      exists (remasked n (nonce i) c o1 o2). split; [exact Hi |]. now apply Hremask.
    + intros u Hru'. congruence.
Qed.

End Rotation.

Section RotationExamples.
#[local] Existing Instance toy_cipher.

(** The example ciphertexts and nonces are proper. *)
Lemma ex_nonce_good (i : nat) : good_nonce ex_n (ex_nonce i).
Proof. split; [reflexivity | vm_compute; reflexivity]. Qed.

Lemma ex_enc_valid (m : Z) : 0 <= m < ex_n -> valid_ct ex_n (ex_enc m).
Proof.
  intros Hm. split; [reflexivity |].
  assert (E : ex_enc m = 1 + ex_n * m).
  { unfold ex_enc, Paillier.raw_encrypt, Paillier.nsquare.
    rewrite Z.add_comm. apply Z.mod_small. unfold ex_n in *. nia. }
  unfold Paillier.valid. cbn [Paillier.n Paillier.lambda toy_key]. fold ex_n.
  split; [rewrite E; unfold Paillier.nsquare, ex_n in *; nia |].
  rewrite E. unfold Paillier.nsquare.
  rewrite pow_one_plus by (unfold ex_n; lia).
  rewrite one_plus_mod_sq by (unfold ex_n; lia).
  rewrite (Z.mul_comm ex_n), Z_mod_plus_full. reflexivity.
Qed.

(** Bob has asked for the comparison of point 1, which holds alice's
    value 20 and carol's unknown value 30, both masked with 5. *)
Definition ex_unknown_point : StoredPoint.t :=
  ex_point 1 (Some ex_optimal) (Some "alice") None None (Some ex_higher) (Some "carol")
    5 ["bob"] ["bob"] [].

Definition ex_contest : Session := ex_session (ex_db ["bob"] [] [ex_unknown_point] []).

(** The offset and the values the optimal and pending slots of the
    stored points unmask to. *)
Definition unmasked_slots (s : Session) : list (option Z * option Z * option Z) :=
  map (fun p => (StoredPoint.current_offset p,
                 unmask ex_n (StoredPoint.fz_optimal p) (StoredPoint.current_offset p),
                 unmask ex_n (StoredPoint.fz_pending p) (StoredPoint.current_offset p)))
    (points (stored s)).

(** C2, counterexample.  The optimal slot holds 20 masked with the offset
    5; bob's successful comparison names carol's value as the winner; the
    offset becomes 7, and the new optimal ciphertext unmasks to 30 with
    it, not to 20 (which is what the pending slot unmasks to). *)
Lemma offset_rotation_promotion_counterexample :
  unmasked_slots ex_contest = [(Some 5, Some 20, None)]
  /\ (let '(r, s') := _store_comparison default_config ex_randint ex_nonce
                        (1, None, Some ex_higher) "bob" ex_contest in
      r = Ok 1 /\ unmasked_slots s' = [(Some 7, Some 30, Some 20)]).
Proof. vm_compute. repeat split. Qed.

(** The session after bob has confirmed that alice's value wins. *)
Definition ex_contest_demoted : Session :=
  snd (_store_comparison default_config ex_randint ex_nonce
         (1, None, Some ex_optimal) "bob" ex_contest).

Lemma offset_rotation_round_trip_witness :
  exists p',
    point_at (stored ex_contest_demoted) 1 p'
    /\ StoredPoint.current_offset p' = Some 7
    /\ slot_value ex_n (StoredPoint.fz_optimal p') 7 20
    /\ (forall u,
          truthy (Some ex_optimal) = true ->
          slot_value ex_n (Some ex_higher) 5 u ->
          - ex_n < 2 * (u + 7) <= ex_n ->
          slot_value ex_n (StoredPoint.fz_pending p') 7 u).
Proof.
  apply (offset_rotation_round_trip default_config ex_randint ex_nonce
           ex_contest ex_contest_demoted 1 None (Some ex_optimal) "bob"
           ex_unknown_point (ex_map ["bob"]) 5 20).
  - reflexivity.
  - reflexivity.
  - exists []. reflexivity.
  - exact ex_nonce_good.
  - reflexivity.
  - reflexivity.
  - reflexivity.
  - exists ex_optimal. split; [reflexivity |].
    split; [apply ex_enc_valid; unfold ex_n; lia | vm_compute; reflexivity].
  - vm_compute. split; [reflexivity | discriminate].
  - vm_compute. reflexivity.
Defined.

End RotationExamples.

(** ** No downgrade *)

Section NoDowngrade.
Context {cipher : Cipher}.
Variable config : Config.
Variables randint nonce : nat -> Z.

(** C4 (amended).  On the active path, a submission whose
    [result_optimal_unknown] names the incumbent optimal value (and not
    the unknown one), for a point whose [provider_optimal] equals its
    [provider_unknown], is rejected whatever the pending slot holds:
    [_store_comparison] raises a [ValueError] and rolls the session back.
    The cause is the integrity violation "Last provider provided
    sub-optimal value" when the check of the pending result passes and
    the unknown slot holds a value; when the check of the pending result
    fails, the cause is the error of that check, which comes first. *)
Theorem no_downgrade
  (s : Session) (point_id : Z) (rp ru : option Z) (producer : Producer)
  (p : StoredPoint.t) (m : MapKey.t) :
  point_at (pending s) point_id p ->
  map_at (pending s) (StoredPoint.map_id p) m ->
  mem producer (StoredPoint.open_requests p) = true ->
  mem producer (StoredPoint.current_comparators p) = true ->
  negb (opt_producer_eqb (StoredPoint.last_comparator p) (Some producer)) || EVAL config = true ->
  truthy ru = true ->
  opt_Z_eqb ru (StoredPoint.fz_optimal p) = true ->
  opt_Z_eqb ru (StoredPoint.fz_unknown p) = false ->
  opt_producer_eqb (StoredPoint.provider_optimal p) (StoredPoint.provider_unknown p) = true ->
  exists e,
    _store_comparison config randint nonce (point_id, rp, ru) producer s
    = (Raise (ValueErrorFrom "" e), rolled_back s)
    /\ (pending_verified p rp -> truthy (StoredPoint.fz_unknown p) = true -> e = sub_optimal)
    /\ (forall e', resolve_pending p rp = Raise e' -> e = e').
Proof.
  intros Hp Hm Hreq Hcc Hact Hru Hopt Hunk Hprov.
  rewrite (store_comparison_active config randint nonce s point_id rp ru producer p m
             Hp Hm Hreq Hcc Hact).
  destruct (resolve_pending p rp) as [p1 | e] eqn:E1.
  - apply resolve_pending_ok in E1. destruct E1 as [E1 _].
    assert (Hsame : StoredPoint.fz_optimal p1 = StoredPoint.fz_optimal p
                    /\ StoredPoint.fz_unknown p1 = StoredPoint.fz_unknown p
                    /\ StoredPoint.provider_optimal p1 = StoredPoint.provider_optimal p
                    /\ StoredPoint.provider_unknown p1 = StoredPoint.provider_unknown p).
    { destruct E1 as [[-> _] | [-> _]]; repeat split; reflexivity. }
    destruct Hsame as (Hfo & Hfu & Hpo & Hpu).
    unfold resolve_unknown. rewrite Hru, Hfo, Hfu, Hpo, Hpu, Hunk, Hopt, Hprov. cbn [negb].
    destruct (truthy (StoredPoint.fz_unknown p)) eqn:Efu; cbn [negb].
    + exists sub_optimal. repeat split. intros e' He'. discriminate.
    + eexists. split; [reflexivity |]. split; intros; discriminate.
  - exists e. split; [reflexivity |]. split.
    + intros Hv _. exfalso. unfold resolve_pending in E1.
      destruct Hv as [[Hrp Hfp] | (Hrp & Hfp & Heq)]; rewrite Hrp, Hfp in E1;
        cbn [negb] in E1; [discriminate |].
      rewrite Heq in E1. discriminate.
    + intros e' He'. congruence.
Qed.

End NoDowngrade.

Section NoDowngradeExamples.
#[local] Existing Instance toy_cipher.

(** Alice holds the optimal value 20 and has submitted the lower value
    10, which waits in the unknown slot; bob has asked for the
    comparison. *)
Definition ex_own_lower_point (fz_pending : option Z) (provider_pending : option Producer)
  : StoredPoint.t :=
  ex_point 1 (Some ex_optimal) (Some "alice") fz_pending provider_pending
    (Some ex_lower) (Some "alice") 5 ["bob"] ["bob"] [].

Definition ex_own_lower (fz_pending : option Z) (provider_pending : option Producer)
  : Session :=
  ex_session (ex_db ["bob"] [] [ex_own_lower_point fz_pending provider_pending] []).

(** C4, counterexample.  The pending slot holds a value of carol that bob
    does not verify.  His result names the incumbent optimal value as the
    winner over alice's own unknown value; the call is rejected, and the
    cause is "Comparison was not verified.", not the integrity
    violation. *)
Lemma no_downgrade_reason_counterexample :
  let p := ex_own_lower_point (Some ex_lower) (Some "carol") in
  let ru := Some ex_optimal in
  (truthy ru = true
   /\ opt_Z_eqb ru (StoredPoint.fz_optimal p) = true
   /\ opt_Z_eqb ru (StoredPoint.fz_unknown p) = false
   /\ opt_producer_eqb (StoredPoint.provider_optimal p) (StoredPoint.provider_unknown p) = true
   /\ mem "bob" (StoredPoint.current_comparators p) = true
   /\ opt_producer_eqb (StoredPoint.last_comparator p) (Some "bob") = false)
  /\ _store_comparison default_config ex_randint ex_nonce (1, None, ru) "bob"
       (ex_own_lower (Some ex_lower) (Some "carol"))
     = (Raise (ValueErrorFrom "" not_verified),
        rolled_back (ex_own_lower (Some ex_lower) (Some "carol")))
  /\ not_verified <> sub_optimal.
Proof. vm_compute. repeat split. discriminate. Qed.

Lemma no_downgrade_witness :
  exists e,
    _store_comparison default_config ex_randint ex_nonce (1, None, Some ex_optimal) "bob"
      (ex_own_lower None None)
    = (Raise (ValueErrorFrom "" e), rolled_back (ex_own_lower None None))
    /\ (pending_verified (ex_own_lower_point None None) None ->
        truthy (Some ex_lower) = true -> e = sub_optimal)
    /\ (forall e', resolve_pending (ex_own_lower_point None None) None = Raise e' -> e = e').
Proof.
  apply (no_downgrade default_config ex_randint ex_nonce (ex_own_lower None None) 1 None
           (Some ex_optimal) "bob" (ex_own_lower_point None None) (ex_map ["bob"])).
  - reflexivity.
  - exists []. reflexivity.
  - reflexivity.
  - reflexivity.
  - reflexivity.
  - reflexivity.
  - vm_compute. reflexivity.
  - vm_compute. reflexivity.
  - reflexivity.
Defined.

End NoDowngradeExamples.

(** ** Previews and regular queries exclude each other *)

Lemma reverse_queried_true (s : Session) (map_key : MapKey.t) (client : Producer) :
  holds_voucher (pending s) (MapKey.map_id map_key) client ->
  reverse_queried map_key client s = (Ok true, s).
Proof.
  intros (q & Hin & Hmap & Hprod).
  unfold reverse_queried, map_reverse_querists, bind, get_db, ret. f_equal. f_equal.
  apply existsb_exists. exists q. split.
  - apply filter_In. split; [exact Hin |]. rewrite Hmap. apply Z.eqb_refl.
  - rewrite Hprod. apply String.eqb_refl.
Qed.

Lemma reverse_queried_state (s : Session) (map_key : MapKey.t) (client : Producer) :
  exists b, reverse_queried map_key client s = (Ok b, s).
Proof. eexists. reflexivity. Qed.

(** The map keys of the session's view stay as they are. *)
Definition keys_fixed (K : list MapKey.t) (s : Session) : Prop := map_keys (pending s) = K.

Section Exclusion.
Context {cipher : Cipher}.
Variable config : Config.
Variables randint nonce : nat -> Z.

Lemma get_comparisons_client_voucher (s : Session) (map_id : Z) (ap_ae : list (Z * Z))
  (producer : string) :
  holds_voucher (pending s) map_id producer ->
  exists e s', get_comparisons_client config map_id ap_ae producer s = (Raise e, s').
Proof.
  intros Hv. unfold get_comparisons_client, bind.
  destruct (get_user producer s) as [[client | e] s1] eqn:Eu; [| eauto].
  destruct (get_user_eq _ _ _ _ Eu) as [-> Hc]. destruct (Hc client eq_refl) as [-> _].
  unfold try_except, bind. rewrite query_map_key_run. unfold lift.
  destruct (filter (fun m => MapKey.map_id m =? map_id) (map_keys (pending s)))
    as [| mk [| mk2 rest]] eqn:Ef; cbn [one]; [cbn; solve [eauto] | | cbn; solve [eauto]].
  assert (Hid : MapKey.map_id mk = map_id).
  { assert (Hin : In mk (filter (fun m => MapKey.map_id m =? map_id) (map_keys (pending s))))
      by (rewrite Ef; left; reflexivity).
    apply filter_In in Hin. now apply Z.eqb_eq. }
  rewrite reverse_queried_true by (rewrite Hid; exact Hv).
  do 2 eexists. reflexivity.
Qed.

Lemma shift_points_keys (K : list MapKey.t) (public_key preview_offset : Z)
  (points : list StoredPoint.t) (offset : option Z) :
  preserves (keys_fixed K) (shift_points nonce public_key preview_offset points offset).
Proof.
  revert offset. induction points as [| point rest IH]; intros offset; cbn [shift_points].
  - apply preserves_ret.
  - apply preserves_bind.
    + destruct (StoredPoint.current_offset point); [apply preserves_ret | apply preserves_raise].
    + intros o. apply preserves_bind.
      * apply preserves_enc_add.
      * intros c. apply preserves_bind.
        { unfold ciphertext. apply preserves_bind; [| intros; apply preserves_ret].
          intros s r s' H E. injection E as _ <-. exact H. }
        intros ct. apply preserves_bind; [apply IH |].
        intros [l last]. apply preserves_ret.
Qed.

Lemma preview_map_keys (K : list MapKey.t) (map_id : Z) (client : Producer) :
  preserves (keys_fixed K) (preview_map config randint nonce map_id client).
Proof.
  unfold preview_map.
  apply preserves_bind; [unfold query_map_key; apply preserves_bind;
                         [apply preserves_get_db | intros; apply preserves_ret] |].
  intros rows. apply preserves_bind; [apply preserves_lift |].
  intros [map_key |]; [| apply preserves_raise].
  apply preserves_bind.
  { unfold reverse_queried, map_reverse_querists.
    repeat (apply preserves_bind; [| intros ?]);
      first [apply preserves_get_db | apply preserves_ret]. }
  intros queried. destruct queried; [apply preserves_raise |].
  destruct (mem client (MapKey.past_requests map_key)); [apply preserves_raise |].
  apply preserves_bind; [apply preserves_get_db |]. intros d.
  destruct (index_order _) as [| p0 ps]; [apply preserves_ret |].
  apply preserves_bind.
  { intros s r s' H E. injection E as _ <-. exact H. }
  intros preview_offset. apply preserves_bind; [apply shift_points_keys |].
  intros [preview_points [offset |]]; [| apply preserves_raise].
  apply preserves_bind; [| intros; apply preserves_ret].
  destruct (negb (EVAL config)); [| apply preserves_ret].
  intros s r s' H E. injection E as _ <-. exact H.
Qed.

Lemma preview_map_regular_queried (s : Session) (map_id : Z) (client : Producer) :
  regular_queried (pending s) map_id client ->
  exists e s', preview_map config randint nonce map_id client s = (Raise e, s').
Proof.
  intros (m & Hin & Hid & Hpast).
  unfold preview_map, bind. rewrite query_map_key_run. unfold lift.
  destruct (filter (fun m0 => MapKey.map_id m0 =? map_id) (map_keys (pending s)))
    as [| mk [| mk2 rest]] eqn:Ef; cbn [one_or_none]; [| | cbn; solve [eauto]].
  - exfalso.
    assert (Hin' : In m (filter (fun m0 => MapKey.map_id m0 =? map_id) (map_keys (pending s)))).
    { apply filter_In. split; [exact Hin |]. rewrite Hid. apply Z.eqb_refl. }
    rewrite Ef in Hin'. destruct Hin'.
  - assert (Hin' : In m (filter (fun m0 => MapKey.map_id m0 =? map_id) (map_keys (pending s)))).
    { apply filter_In. split; [exact Hin |]. rewrite Hid. apply Z.eqb_refl. }
    rewrite Ef in Hin'. destruct Hin' as [<- | []].
    destruct (reverse_queried_state s mk client) as [b ->].
    destruct b; [do 2 eexists; reflexivity |]. rewrite Hpast. do 2 eexists. reflexivity.
Qed.

Lemma get_previews_loop_regular_queried (map_ids : list Z) (map_id : Z) (client : Producer) :
  In map_id map_ids ->
  forall s, regular_queried (pending s) map_id client ->
  exists e s', get_previews_loop config randint nonce map_ids client s = (Raise e, s').
Proof.
  induction map_ids as [| a rest IH]; intros Hin s Hq; [destruct Hin |].
  cbn [get_previews_loop]. unfold bind.
  destruct (preview_map config randint nonce a client s) as [[entry | e] s1] eqn:Ea; [| eauto].
  destruct Hin as [-> | Hin].
  - destruct (preview_map_regular_queried s map_id client Hq) as (e & s' & E). congruence.
  - assert (Hk : map_keys (pending s1) = map_keys (pending s)).
    { exact (preview_map_keys (map_keys (pending s)) a client s _ s1 eq_refl Ea). }
    destruct (IH Hin s1) as (e & s' & ->); [| eauto].
    destruct Hq as (m & Hm). exists m. rewrite Hk. exact Hm.
Qed.

(** C8.  A producer recorded in the [past_requests] of a map is refused
    by [get_previews] on every list of map ids that contains the map; a
    producer who holds a [ReverseQuerist] voucher on a map is refused by
    [get_comparisons_client] for it. *)
Theorem preview_regular_query_exclusion (s : Session) (map_id : Z) (producer : string) :
  (forall map_ids, regular_queried (pending s) map_id producer -> In map_id map_ids ->
     exists e s', get_previews config randint nonce map_ids producer s = (Raise e, s'))
  /\ (forall ap_ae, holds_voucher (pending s) map_id producer ->
        exists e s', get_comparisons_client config map_id ap_ae producer s = (Raise e, s')).
Proof.
  split.
  - intros map_ids Hq Hin. unfold get_previews, bind.
    destruct (get_user producer s) as [[client | e] s1] eqn:Eu; [| eauto].
    destruct (get_user_eq _ _ _ _ Eu) as [-> Hc]. destruct (Hc client eq_refl) as [-> _].
    destruct (get_previews_loop_regular_queried map_ids map_id producer Hin s Hq)
      as (e & s' & ->). eauto.
  - intros ap_ae Hv. now apply get_comparisons_client_voucher.
Qed.

(** C6 (amended).  [get_comparisons_provider] does carry the exclusion: a
    registered provider who holds a voucher on the requested map, stored
    under the given name and modulus, is rejected with "Producer
    reverse-queried given map but never retrieved offset.", and nothing
    is changed. *)
Theorem provider_reverse_query_exclusion (s : Session) (map_id : Z)
  (map_name : string * string * string) (n : Z) (ap_ae : list (Z * Z))
  (producer : string) (m : MapKey.t) :
  In producer (producers (pending s)) ->
  query_map_key_named map_id map_name s = (Ok [m], s) ->
  MapKey.public_key_n m = n ->
  holds_voucher (pending s) (MapKey.map_id m) producer ->
  get_comparisons_provider config randint map_id map_name n ap_ae producer s
  = (Raise never_retrieved_offset, s).
Proof.
  intros Hu Hq Hn Hv.
  unfold get_comparisons_provider, bind.
  rewrite (get_user_ok producer s Hu).
  unfold try_except at 1. unfold bind. rewrite Hq. unfold lift. cbn [one_or_none].
  rewrite Hn, Z.eqb_refl. cbn [negb]. unfold ret at 1. cbv beta iota.
  rewrite (reverse_queried_true s m producer Hv). reflexivity.
Qed.

End Exclusion.

Section ExclusionExamples.
#[local] Existing Instance toy_cipher.

(** Bob's voucher on map 1. *)
Definition ex_voucher : ReverseQuerist.t :=
  {| ReverseQuerist.id := 1; ReverseQuerist.producer := "bob";
     ReverseQuerist.map_id := Some 1; ReverseQuerist.point_count := 1;
     ReverseQuerist.offset := 2; ReverseQuerist.tool := "end mill 4" |}.

Definition ex_plain_point : StoredPoint.t :=
  ex_point 1 (Some ex_optimal) (Some "alice") None None None None 5 [] [] [].

(** Bob has previewed map 1 and not retrieved the offset. *)
Definition ex_previewed : Session :=
  ex_session (ex_db [] [ex_voucher] [ex_plain_point] []).

(** Bob has retrieved points of map 1. *)
Definition ex_queried : Session :=
  ex_session (ex_db ["bob"] [] [ex_plain_point] []).

Lemma preview_regular_query_exclusion_witness :
  (exists e s', get_previews default_config ex_randint ex_nonce [1] "bob" ex_queried
                = (Raise e, s'))
  /\ (exists e s', get_comparisons_client default_config 1 [(1, 1)] "bob" ex_previewed
                   = (Raise e, s')).
Proof.
  split.
  - apply (proj1 (preview_regular_query_exclusion default_config ex_randint ex_nonce
                    ex_queried 1 "bob") [1]).
    + exists (ex_map ["bob"]). repeat split. left. reflexivity.
    + left. reflexivity.
  - apply (proj2 (preview_regular_query_exclusion default_config ex_randint ex_nonce
                    ex_previewed 1 "bob") [(1, 1)]).
    exists ex_voucher. repeat split. left. reflexivity.
Defined.

(** C6, counterexample.  Map 1 is stored under the name and modulus of
    the request.  With bob's voucher on it, [get_comparisons_provider] is
    rejected because of the voucher; without the voucher the same request
    is served. *)
Lemma provider_reverse_query_counterexample :
  holds_voucher (pending ex_previewed) 1 "bob"
  /\ get_comparisons_provider default_config ex_randint 1 ex_map_name ex_n [(1, 1)] "bob"
       ex_previewed
     = (Raise never_retrieved_offset, ex_previewed)
  /\ fst (get_comparisons_provider default_config ex_randint 1 ex_map_name ex_n [(1, 1)] "bob"
            (ex_session (ex_db [] [] [ex_plain_point] [])))
     = Ok [(1, Some ex_optimal, None, None)].
Proof.
  split; [exists ex_voucher; repeat split; left; reflexivity |].
  split; vm_compute; reflexivity.
Qed.

Lemma provider_reverse_query_exclusion_witness :
  get_comparisons_provider default_config ex_randint 1 ex_map_name ex_n [(1, 1)] "bob"
    ex_previewed
  = (Raise never_retrieved_offset, ex_previewed).
Proof.
  apply (provider_reverse_query_exclusion default_config ex_randint ex_previewed 1
           ex_map_name ex_n [(1, 1)] "bob" (ex_map [])).
  - right. left. reflexivity.
  - reflexivity.
  - reflexivity.
  - exists ex_voucher. repeat split. left. reflexivity.
Defined.

End ExclusionExamples.

(** ** The key modulus of a stored map *)

(** The rows matching a map id and a map name are among those matching
    the map id. *)
Lemma named_rows (d : DB) (map_id : Z) (machine material tool : string) (m : MapKey.t) :
  filter (fun q => MapKey.map_id q =? map_id) (map_keys d) = [m] ->
  let rows := filter (fun q => (MapKey.map_id q =? map_id)
                               && String.eqb (MapKey.machine q) machine
                               && String.eqb (MapKey.material q) material
                               && String.eqb (MapKey.tool q) tool) (map_keys d) in
  rows = [] \/ rows = [m].
Proof.
  intros H rows. subst rows.
  rewrite (filter_ext _ (fun q => (MapKey.map_id q =? map_id)
                                  && (String.eqb (MapKey.machine q) machine
                                      && String.eqb (MapKey.material q) material
                                      && String.eqb (MapKey.tool q) tool)))
    by (intros q; now rewrite !andb_assoc).
  rewrite filter_andb, H. cbn.
  destruct (_ && _); [right | left]; reflexivity.
Qed.

Lemma insert_map_key_taken (s : Session) (map_id : Z) (machine material tool : string)
  (n : Z) (provider : Producer) (m : MapKey.t) :
  In m (map_keys (pending s)) ->
  MapKey.map_id m = map_id ->
  insert_map_key map_id (machine, material, tool) n provider s = (Raise IntegrityError, s).
Proof.
  intros Hin Hid. unfold insert_map_key, bind, get_db. cbv beta iota.
  match goal with
  | |- context [existsb ?f ?l] => assert (Hex : existsb f l = true)
  end.
  { apply existsb_exists. exists m. split; [exact Hin |].
    rewrite Hid, Z.eqb_refl. reflexivity. }
  rewrite Hex. reflexivity.
Qed.

Section Keys.
Context {cipher : Cipher}.
Variable config : Config.
Variables randint nonce : nat -> Z.
Variables (kid kn : Z).

Let I := both (key_kept kid kn).

Lemma keys_modify_other (f : DB -> DB) :
  (forall d, map_keys (f d) = map_keys d) -> preserves I (modify_db f).
Proof.
  intros Hf. apply preserves_modify_db. intros d H.
  unfold key_kept. rewrite Hf. exact H.
Qed.

Lemma keys_update_map_key (map_id : Z) (f : MapKey.t -> MapKey.t) :
  (forall m, MapKey.map_id (f m) = MapKey.map_id m
             /\ MapKey.public_key_n (f m) = MapKey.public_key_n m) ->
  preserves I (update_map_key map_id f).
Proof.
  intros Hf. apply preserves_modify_db. intros d [[m [Hin Hid]] Hall]. split.
  - exists (if MapKey.map_id m =? map_id then f m else m). split.
    + cbn. apply in_map with (f := fun m0 => if MapKey.map_id m0 =? map_id then f m0 else m0).
      exact Hin.
    + destruct (MapKey.map_id m =? map_id); [rewrite (proj1 (Hf m)) |]; exact Hid.
  - cbn. intros m' Hin' Hid'. apply in_map_iff in Hin'. destruct Hin' as [m0 [E Hin0]].
    destruct (MapKey.map_id m0 =? map_id); subst m'.
    + rewrite (proj2 (Hf m0)). apply Hall; [exact Hin0 |]. now rewrite <- (proj1 (Hf m0)).
    + now apply Hall.
Qed.

Lemma keys_insert_map_key (map_id : Z) (map_name : string * string * string) (n : Z)
  (provider : Producer) : preserves I (insert_map_key map_id map_name n provider).
Proof.
  destruct map_name as [[machine material] tool].
  intros s r s' [Hs Hp] E.
  destruct Hp as [[m [Hin Hid]] Hall].
  destruct (Z.eq_dec map_id kid) as [-> | Hne].
  - rewrite (insert_map_key_taken s kid machine material tool n provider m Hin Hid) in E.
    injection E as _ <-. split; [exact Hs |]. split; [eauto | exact Hall].
  - unfold insert_map_key, bind, get_db in E. cbv beta iota in E.
    destruct (existsb _ (map_keys (pending s))).
    + injection E as _ <-. split; [exact Hs |]. split; [eauto | exact Hall].
    + cbn in E. injection E as _ <-. split; [exact Hs |]. cbn. split.
      * exists m. split; [apply in_or_app; left; exact Hin | exact Hid].
      * intros m' Hin' Hid'. apply in_app_or in Hin'. destruct Hin' as [Hin' | [<- | []]].
        -- now apply Hall.
        -- cbn in Hid'. contradiction.
Qed.

Ltac keys_leaf :=
  first [ apply keys_update_map_key; intros; split; reflexivity
        | apply keys_insert_map_key
        | apply keys_modify_other; intros; reflexivity ].

Ltac pres_keys :=
  repeat first [ pres_struct | keys_leaf | progress autounfold with mapserver
               | solve [auto with pres] ].

Lemma keys_prepare_comparisons_loop (points : list Z) (producer : Producer) :
  preserves I (_prepare_comparisons_loop config points producer).
Proof.
  induction points as [| point_id rest IH]; cbn [_prepare_comparisons_loop]; pres_keys.
Qed.

Lemma keys_prepare_comparisons (points : list Z) (producer : Producer) :
  preserves I (_prepare_comparisons config points producer).
Proof.
  unfold _prepare_comparisons. pres_keys; apply keys_prepare_comparisons_loop.
Qed.

Lemma keys_provider_points_loop (map_key : MapKey.t) (map_id : Z) (ap_ae : list (Z * Z)) :
  preserves I (provider_points_loop randint map_key map_id ap_ae).
Proof.
  induction ap_ae as [| [ap ae] rest IH]; cbn [provider_points_loop]; pres_keys.
Qed.

Lemma keys_get_comparisons_provider (map_id : Z) (map_name : string * string * string)
  (n : Z) (ap_ae : list (Z * Z)) (producer : string) :
  preserves I (get_comparisons_provider config randint map_id map_name n ap_ae producer).
Proof.
  unfold get_comparisons_provider. destruct map_name as [[machine material] tool].
  pres_keys; first [apply keys_provider_points_loop | apply keys_prepare_comparisons].
Qed.

Lemma keys_store_records_plaintext_loop (map_key : MapKey.t) (map_id usage_id : Z)
  (points : list (Z * Z * Z * Z)) (provider : Producer) :
  preserves I (store_records_plaintext_loop config nonce map_key map_id usage_id points provider).
Proof.
  induction points as [| [[[ap ae] fz] usage] rest IH]; cbn [store_records_plaintext_loop];
    pres_keys.
Qed.

Lemma keys_store_records_plaintext (map_id : Z) (map_name : string * string * string)
  (n : Z) (points : list (Z * Z * Z * Z)) (producer : string) :
  preserves I (store_records_plaintext config nonce map_id map_name n points producer).
Proof.
  unfold store_records_plaintext. destruct map_name as [[machine material] tool].
  pres_keys; apply keys_store_records_plaintext_loop.
Qed.

Lemma provider_key_mismatch (s : Session) (map_id : Z) (map_name : string * string * string)
  (n : Z) (ap_ae : list (Z * Z)) (producer : string) (m : MapKey.t) :
  In producer (producers (pending s)) ->
  filter (fun q => MapKey.map_id q =? map_id) (map_keys (pending s)) = [m] ->
  MapKey.public_key_n m <> n ->
  exists e s',
    get_comparisons_provider config randint map_id map_name n ap_ae producer s = (Raise e, s')
    /\ ((e = key_not_confirmed /\ s' = s) \/ (e = non_unique_map /\ s' = rolled_back s)).
Proof.
  intros Hu Hm Hn. destruct map_name as [[machine material] tool].
  unfold get_comparisons_provider, bind.
  rewrite (get_user_ok producer s Hu).
  unfold try_except at 1. unfold bind.
  rewrite query_map_key_named_run. unfold lift.
  destruct (named_rows (pending s) map_id machine material tool m Hm) as [-> | ->];
    cbn [one_or_none].
  - unfold try_except, bind.
    assert (Hin : In m (filter (fun q => MapKey.map_id q =? map_id) (map_keys (pending s))))
      by (rewrite Hm; left; reflexivity).
    apply filter_In in Hin. destruct Hin as [Hin E]. apply Z.eqb_eq in E.
    rewrite (insert_map_key_taken s map_id machine material tool n producer m Hin E).
    do 2 eexists. split; [reflexivity |]. right. split; reflexivity.
  - destruct (MapKey.public_key_n m =? n) eqn:E; [apply Z.eqb_eq in E; contradiction |].
    do 2 eexists. split; [reflexivity |]. left. split; reflexivity.
Qed.

Lemma store_records_plaintext_ignores_n (s : Session) (map_id : Z)
  (map_name : string * string * string) (n n' : Z) (points : list (Z * Z * Z * Z))
  (producer : string) (m : MapKey.t) :
  query_map_key_named map_id map_name s = (Ok [m], s) ->
  store_records_plaintext config nonce map_id map_name n points producer s
  = store_records_plaintext config nonce map_id map_name n' points producer s.
Proof.
  intros Hq. unfold store_records_plaintext.
  destruct (USE_PAILLIER config && VALID config); [reflexivity |].
  apply bind_ext_at. intros provider s1 Eu.
  destruct (get_user_eq _ _ _ _ Eu) as [-> _].
  apply bind_ext_at. intros [map_key map_usage] s2 Et.
  assert (Hk : map_key = Some m).
  { unfold try_except, bind in Et. rewrite Hq in Et. unfold lift at 1 in Et.
    cbn [one_or_none] in Et.
    destruct (query_map_usage map_id provider s) as [[rows | e] s3].
    - destruct (lift (one_or_none rows) s3) as [[mu | e] s4].
      + cbn in Et. congruence.
      + destruct e; cbn in Et; discriminate.
    - destruct e; cbn in Et; discriminate. }
  subst map_key. reflexivity.
Qed.

End Keys.

Section KeyImmutable.
Context {cipher : Cipher}.
Variable config : Config.
Variables randint nonce : nat -> Z.

(** C9 (amended).  The [public_key_n] of a stored map never changes.  A
    later [get_comparisons_provider] of a registered provider that names
    the [map_id] of a stored map and carries another modulus fails with
    an integrity error: "Public key could not be confirmed" under the
    stored name, "Non-unique combination of map id and map name" under
    another one.  [store_records_plaintext] does not compare the modulus:
    for a map stored under the given id and name it does what it does
    with the stored modulus.  After either call, whatever it returns, the
    map is stored with the modulus it had, in the committed rows and in
    the session. *)
Theorem public_key_immutable (s : Session) (map_id : Z) (m : MapKey.t) :
  filter (fun q => MapKey.map_id q =? map_id) (map_keys (pending s)) = [m] ->
  key_kept map_id (MapKey.public_key_n m) (stored s) ->
  (forall map_name n ap_ae producer,
     In producer (producers (pending s)) ->
     MapKey.public_key_n m <> n ->
     exists e s',
       get_comparisons_provider config randint map_id map_name n ap_ae producer s
       = (Raise e, s')
       /\ ((e = key_not_confirmed /\ s' = s) \/ (e = non_unique_map /\ s' = rolled_back s)))
  /\ (forall map_name n points producer,
        query_map_key_named map_id map_name s = (Ok [m], s) ->
        store_records_plaintext config nonce map_id map_name n points producer s
        = store_records_plaintext config nonce map_id map_name (MapKey.public_key_n m)
            points producer s)
  /\ (forall map_id' map_name n ap_ae producer r s',
        get_comparisons_provider config randint map_id' map_name n ap_ae producer s = (r, s') ->
        both (key_kept map_id (MapKey.public_key_n m)) s')
  /\ (forall map_id' map_name n points producer r s',
        store_records_plaintext config nonce map_id' map_name n points producer s = (r, s') ->
        both (key_kept map_id (MapKey.public_key_n m)) s').
Proof.
  intros Hm Hstored.
  assert (Hboth : both (key_kept map_id (MapKey.public_key_n m)) s).
  { split; [exact Hstored |]. split.
    - exists m.
      assert (Hin : In m (filter (fun q => MapKey.map_id q =? map_id) (map_keys (pending s))))
        by (rewrite Hm; left; reflexivity).
      apply filter_In in Hin. destruct Hin as [Hin E]. apply Z.eqb_eq in E. auto.
    - intros m' Hin' Hid'.
      assert (Hin : In m' (filter (fun q => MapKey.map_id q =? map_id) (map_keys (pending s)))).
      { apply filter_In. split; [exact Hin' |]. rewrite Hid'. apply Z.eqb_refl. }
      rewrite Hm in Hin. destruct Hin as [<- | []]. reflexivity. }
  split; [| split; [| split]].
  - intros map_name n ap_ae producer Hu Hn.
    now apply provider_key_mismatch with (m := m).
  - intros map_name n points producer Hq.
    now apply store_records_plaintext_ignores_n with (m := m).
  - intros map_id' map_name n ap_ae producer r s' E.
    exact (keys_get_comparisons_provider config randint map_id (MapKey.public_key_n m)
             map_id' map_name n ap_ae producer s r s' Hboth E).
  - intros map_id' map_name n points producer r s' E.
    exact (keys_store_records_plaintext config nonce map_id (MapKey.public_key_n m)
             map_id' map_name n points producer s r s' Hboth E).
Qed.

End KeyImmutable.

Section KeyExamples.
#[local] Existing Instance toy_cipher.

(** C9, counterexample.  Map 1 is stored with the modulus 143.  Bob's
    [store_records_plaintext] names it and carries the modulus 35: the
    call does not fail, it stores the point. *)
Lemma plaintext_registration_counterexample :
  let s := ex_session (ex_db [] [] [] []) in
  map MapKey.public_key_n (map_keys (stored s)) = [143]
  /\ (let '(r, s') := store_records_plaintext default_config ex_nonce 1 ex_map_name 35
                        [(1, 1, 50, 3)] "bob" s in
      r = Ok tt
      /\ map StoredPoint.fz_optimal (points (stored s')) = [Some 50]
      /\ map MapKey.public_key_n (map_keys (stored s')) = [143]).
Proof. vm_compute. repeat split. Qed.

Lemma public_key_immutable_witness :
  let s := ex_session (ex_db [] [] [ex_plain_point] []) in
  (exists e s',
     get_comparisons_provider default_config ex_randint 1 ex_map_name 35 [(1, 1)] "bob" s
     = (Raise e, s')
     /\ ((e = key_not_confirmed /\ s' = s) \/ (e = non_unique_map /\ s' = rolled_back s)))
  /\ store_records_plaintext default_config ex_nonce 1 ex_map_name 35 [(1, 1, 50, 3)] "bob" s
     = store_records_plaintext default_config ex_nonce 1 ex_map_name 143 [(1, 1, 50, 3)] "bob" s.
Proof.
  intros s.
  destruct (public_key_immutable default_config ex_randint ex_nonce s 1 (ex_map []))
    as (H1 & H2 & _).
  - reflexivity.
  - split.
    + exists (ex_map []). split; [left; reflexivity | reflexivity].
    + intros m' [<- | []] _. reflexivity.
  - split.
    + apply (H1 ex_map_name 35 [(1, 1)] "bob").
      * right. left. reflexivity.
      * discriminate.
    + apply (H2 ex_map_name 35 [(1, 1, 50, 3)] "bob"). reflexivity.
Defined.

End KeyExamples.

(** ** The offset of a preview *)

Section PreviewExamples.
#[local] Existing Instance toy_cipher.

(** A second point of map 1: alice's value 33, masked with the offset 3. *)
Definition ex_second_point : StoredPoint.t :=
  ex_point 2 (Some (ex_enc 36)) (Some "alice") None None None None 3 [] [] [].

Definition ex_two_points : Session :=
  ex_session (ex_db [] [] [ex_plain_point; ex_second_point] []).

(** Bob previews map 1 and then retrieves the offset of the preview: the
    plaintexts of the shifted ciphertexts, the offset returned by
    [get_preview_info], and what is left of the plaintexts once that
    offset is subtracted. *)
Definition preview_round (s : Session) : option (list Z * Z * list Z) :=
  match get_previews default_config ex_randint ex_nonce [1] "bob" s with
  | (Ok [(_, preview_points)], s1) =>
      match get_preview_info 1 "bob" s1 with
      | (Ok (offset, _), _) =>
          let shifted := map (fun '(_, _, c, _) => decrypt ex_n c) preview_points in
          Some (shifted, offset, map (fun v => v - offset) shifted)
      | _ => None
      end
  | _ => None
  end.

(** C1 (fails on the code).  Map 1 holds the values 20 and 33, masked
    with the offsets 5 and 3; the offset drawn for the preview is 7.  The
    shifted ciphertexts decrypt to 20 + 7 and 33 + 7, so 7 is the value
    that unmasks them.  The voucher holds what the loop variable [offset]
    held last, 7 - 3 = 4, and [get_preview_info] returns it: subtracting
    it leaves 23 and 36, not the optimal values. *)
Theorem preview_offset_mismatch :
  map (fun p => unmask ex_n (StoredPoint.fz_optimal p) (StoredPoint.current_offset p))
    (points (stored ex_two_points)) = [Some 20; Some 33]
  /\ ex_randint (draws ex_two_points) = 7
  /\ preview_round ex_two_points = Some ([27; 40], 4, [23; 36]).
Proof. vm_compute. repeat split. Qed.

End PreviewExamples.

(** ** A batch that fails half-way *)

Section BatchExamples.
#[local] Existing Instance toy_cipher.

(** Point 2 of map 1 holds alice's value 33 and carol's unknown value 40,
    masked with the offset 3. *)
Definition ex_contested_point : StoredPoint.t :=
  ex_point 2 (Some (ex_enc 36)) (Some "alice") None None (Some (ex_enc 43)) (Some "carol")
    3 [] [] [].

Definition ex_batch_map : Session :=
  ex_session (ex_db [] [] [ex_plain_point; ex_contested_point] []).

(** Bob has asked for the comparisons of both points, as a client and as
    a provider. *)
Definition ex_batch_client : Session :=
  snd (get_comparisons_client default_config 1 [(1, 1); (2, 2)] "bob" ex_batch_map).

Definition ex_batch_provider : Session :=
  snd (get_comparisons_provider default_config ex_randint 1 ex_map_name ex_n
         [(1, 1); (2, 2)] "bob" ex_batch_map).

(** What a comparison changes in a point: its last comparator, its
    current comparators and its offset. *)
Definition comparison_state (d : DB)
  : list (Z * option Producer * list Producer * option Z) :=
  map (fun p => (StoredPoint.id p, StoredPoint.last_comparator p,
                 StoredPoint.current_comparators p, StoredPoint.current_offset p))
    (points d).

(** C3 (fails on the code).  Bob's batch names point 1 and point 2 and
    withholds the comparison with the unknown value of point 2.  The
    second result raises "Comparison was not performed." and the batch
    fails; [_store_comparison] had committed the first one, and the
    rollback of the batch does not undo it: in the committed rows point 1
    has bob as last comparator, no current comparators and the offset 7.
    This holds for [get_points] and for [store_records]. *)
Theorem batch_failure_keeps_earlier_points :
  comparison_state (stored ex_batch_client)
  = [(1, None, ["bob"], Some 5); (2, None, ["bob"], Some 3)]
  /\ comparison_state (stored ex_batch_provider)
     = [(1, None, ["bob"], Some 5); (2, None, ["bob"], Some 3)]
  /\ (let '(r, s') := get_points default_config ex_randint ex_nonce
                        [(1, None, None); (2, None, None)] "bob" ex_batch_client in
      r = Raise (ValueErrorFrom ""
                   (ValueErrorFrom "" (ValueError "Comparison was not performed.")))
      /\ pending s' = stored s'
      /\ comparison_state (stored s')
         = [(1, Some "bob", [], Some 7); (2, None, ["bob"], Some 3)])
  /\ (let '(r, s') := store_records default_config ex_randint ex_nonce
                        [(1, None, None, ex_enc 50, 3); (2, None, None, ex_enc 50, 3)]
                        "bob" ex_batch_provider in
      r = Raise (ValueErrorFrom ""
                   (ValueErrorFrom "" (ValueError "Comparison was not performed.")))
      /\ pending s' = stored s'
      /\ comparison_state (stored s')
         = [(1, Some "bob", [], Some 7); (2, None, ["bob"], Some 3)]).
Proof. vm_compute. repeat split. Qed.

End BatchExamples.

(** ** Vendees of a point *)

Lemma mem_app_l (u : Producer) (l l' : list Producer) :
  mem u l = true -> mem u (l ++ l') = true.
Proof.
  unfold mem. intros H. apply existsb_exists in H. destruct H as (x & Hin & Hx).
  apply existsb_exists. exists x. split; [apply in_or_app; left; exact Hin | exact Hx].
Qed.

Lemma next_id_fresh (ids : list Z) (x : Z) : In x ids -> x < next_id ids.
Proof.
  unfold next_id. induction ids as [| y ids IH]; [intros [] |].
  cbn [fold_right]. intros [-> | H]; [lia |]. specialize (IH H). lia.
Qed.

(** Rows of one point under the changes of the session. *)
Lemma rows_sat_weaken (pid : Z) (P Q : StoredPoint.t -> Prop) (d : DB) :
  (forall p, P p -> Q p) -> rows_sat pid P d -> rows_sat pid Q d.
Proof. intros H [He Ha]. split; [exact He |]. intros p Hin Hid. apply H. now apply Ha. Qed.

Lemma rows_sat_other (pid : Z) (P : StoredPoint.t -> Prop) (f : DB -> DB) (d : DB) :
  points (f d) = points d -> rows_sat pid P d -> rows_sat pid P (f d).
Proof. unfold rows_sat. intros ->. auto. Qed.

Lemma rows_sat_update (pid : Z) (P : StoredPoint.t -> Prop) (pid' : Z)
  (f : StoredPoint.t -> StoredPoint.t) (d : DB) :
  (forall p, StoredPoint.id p = pid' -> StoredPoint.id (f p) = pid') ->
  (forall p, StoredPoint.id p = pid -> pid' = pid -> P p -> P (f p)) ->
  rows_sat pid P d ->
  rows_sat pid P
    (set_points (map (fun p => if StoredPoint.id p =? pid' then f p else p) (points d)) d).
Proof.
  intros Hid Hf [(p & Hin & Hp) Ha]. split; cbn.
  - exists (if StoredPoint.id p =? pid' then f p else p). split.
    + apply in_map with (f := fun p => if StoredPoint.id p =? pid' then f p else p). exact Hin.
    + destruct (StoredPoint.id p =? pid') eqn:E; [| exact Hp].
      apply Z.eqb_eq in E. rewrite (Hid p E). congruence.
  - intros q Hq Hqid. apply in_map_iff in Hq. destruct Hq as (q0 & Eq & Hin0).
    destruct (StoredPoint.id q0 =? pid') eqn:E; subst q.
    + apply Z.eqb_eq in E. rewrite (Hid q0 E) in Hqid.
      apply Hf; [congruence | exact Hqid |]. apply Ha; [exact Hin0 | congruence].
    + now apply Ha.
Qed.

Lemma rows_sat_insert (pid : Z) (P : StoredPoint.t -> Prop) (row : StoredPoint.t) (d : DB) :
  StoredPoint.id row = next_id (map StoredPoint.id (points d)) ->
  rows_sat pid P d -> rows_sat pid P (set_points (points d ++ [row]) d).
Proof.
  intros Hid [(p & Hin & Hp) Ha]. split; cbn.
  - exists p. split; [apply in_or_app; left; exact Hin | exact Hp].
  - intros q Hq Hqid. apply in_app_or in Hq. destruct Hq as [Hq | [<- | []]]; [now apply Ha |].
    exfalso. assert (H : pid < next_id (map StoredPoint.id (points d))).
    { apply next_id_fresh. rewrite <- Hp. now apply in_map. }
    lia.
Qed.

Lemma leads_bind {A B : Type} (P R Q : Session -> Prop) (m : M A) (k : A -> M B) :
  leads P R m -> (forall s, R s -> Q s) -> (forall a, leads R Q (k a)) -> leads P Q (bind m k).
Proof.
  intros Hm HRQ Hk s r s' H E. unfold bind in E.
  destruct (m s) as [[a | e] s1] eqn:Em.
  - eapply Hk; [eapply Hm; eassumption | exact E].
  - injection E as _ <-. apply HRQ. eapply Hm; eassumption.
Qed.

Lemma leads_weaken {A : Type} (P P' Q : Session -> Prop) (m : M A) :
  (forall s, P' s -> P s) -> leads P Q m -> leads P' Q m.
Proof. intros H Hm s r s' Hs E. eapply Hm; [apply H; exact Hs | exact E]. Qed.

Lemma split_modify_db (P Q : DB -> Prop) (f : DB -> DB) :
  (forall d, Q d -> Q (f d)) -> preserves (split_inv P Q) (modify_db f).
Proof.
  intros Hf s r s' [Hs Hp] E. injection E as _ <-. split; [exact Hs | apply Hf, Hp].
Qed.

Lemma split_draw (P Q : DB -> Prop) (oracle : nat -> Z) :
  preserves (split_inv P Q) (draw oracle).
Proof. intros s r s' H E. injection E as _ <-. exact H. Qed.

Lemma split_update_point (R : DB -> Prop) (pid : Z) (P : StoredPoint.t -> Prop) (pid' : Z)
  (f : StoredPoint.t -> StoredPoint.t) :
  (forall p, StoredPoint.id p = pid' -> StoredPoint.id (f p) = pid') ->
  (forall p, StoredPoint.id p = pid -> pid' = pid -> P p -> P (f p)) ->
  preserves (split_inv R (rows_sat pid P)) (update_point pid' f).
Proof. intros Hid Hf. apply split_modify_db. intros d. now apply rows_sat_update. Qed.

Lemma split_modify_other (R : DB -> Prop) (pid : Z) (P : StoredPoint.t -> Prop)
  (f : DB -> DB) :
  (forall d, points (f d) = points d) ->
  preserves (split_inv R (rows_sat pid P)) (modify_db f).
Proof. intros Hf. apply split_modify_db. intros d. apply rows_sat_other, Hf. Qed.

Lemma split_add_point {B : Type} (R : DB -> Prop) (pid : Z) (P : StoredPoint.t -> Prop)
  (row : Z -> StoredPoint.t) (k : Z -> M B) :
  (forall id, StoredPoint.id (row id) = id) ->
  (forall id, preserves (split_inv R (rows_sat pid P)) (k id)) ->
  preserves (split_inv R (rows_sat pid P))
    (bind next_point_id (fun id => bind (insert_point (row id)) (fun _ => k id))).
Proof.
  intros Hrow Hk s r s' [Hs Hp] E.
  unfold bind at 1 in E. unfold next_point_id, bind, get_db, ret in E. cbv beta iota in E.
  unfold insert_point, modify_db in E. cbv beta iota in E.
  eapply Hk; [| exact E]. split; [exact Hs |]. cbn.
  apply rows_sat_insert; [apply Hrow | exact Hp].
Qed.

Lemma split_add_point_last (R : DB -> Prop) (pid : Z) (P : StoredPoint.t -> Prop)
  (row : Z -> StoredPoint.t) :
  (forall id, StoredPoint.id (row id) = id) ->
  preserves (split_inv R (rows_sat pid P))
    (bind next_point_id (fun id => insert_point (row id))).
Proof.
  intros Hrow s r s' [Hs Hp] E.
  unfold bind, next_point_id, get_db, ret in E. cbv beta iota in E.
  unfold insert_point, modify_db in E. injection E as _ <-.
  split; [exact Hs |]. cbn. apply rows_sat_insert; [apply Hrow | exact Hp].
Qed.

(** *** Calls that leave the vendees alone *)

Create HintDb queries.
#[global] Hint Unfold get_user get_point update_map_usage update_map_key query_map_key
  point_map map_reverse_querists reverse_queried query_map_key_named query_map_usage
  query_point_at insert_map_usage insert_map_key random_offset ciphertext
  encode enc_add enc_sub enc_add_ct int_add remask insert_reverse_querist insert_preview_billing
  remove_open_request append_vendee load_point : queries.

Ltac rows_leaf side :=
  first [ apply split_add_point; [intros; reflexivity | intros ?]
        | apply split_add_point_last; intros; reflexivity
        | apply split_update_point; [intros ? Hid; exact Hid | side]
        | apply split_modify_other; intros; reflexivity
        | apply split_draw ].

Ltac pres_rows side :=
  repeat first [ rows_leaf side | pres_struct | progress autounfold with queries
               | solve [auto with pres] ].

Ltac vendee_side :=
  let H := fresh in
  intros ? ? ? H; unfold vendee in *; cbn;
  first [exact H | apply mem_app_l; exact H].

Section VendeeKept.
Context {cipher : Cipher}.
Variable config : Config.
Variables randint nonce : nat -> Z.
Variables (pid : Z) (u : Producer).

Let I := both (is_vendee pid u).

Ltac pres_vendee := unfold I, is_vendee; pres_rows vendee_side.

Lemma vendee_prepare_comparisons_loop (points : list Z) (producer : Producer) :
  preserves I (_prepare_comparisons_loop config points producer).
Proof.
  induction points as [| point_id rest IH]; cbn [_prepare_comparisons_loop]; pres_vendee.
Qed.

Lemma vendee_prepare_comparisons (points : list Z) (producer : Producer) :
  preserves I (_prepare_comparisons config points producer).
Proof.
  unfold _prepare_comparisons.
  apply preserves_bind; [apply vendee_prepare_comparisons_loop | intros ?]. pres_vendee.
Qed.

Lemma vendee_add_to_retrieval (points : list Z) (client : Producer) :
  preserves I (_add_to_retrieval_db_producer points client).
Proof. unfold _add_to_retrieval_db_producer. pres_vendee. Qed.

Lemma vendee_add_all_billing (providers : list (option Producer * Z)) (client : Producer)
  (retrieval : Z) : preserves I (add_all_billing providers client retrieval).
Proof.
  induction providers as [| [[provider |] count] rest IH]; cbn [add_all_billing]; pres_vendee.
Qed.

Lemma vendee_get_point_list (points : list Z) : preserves I (get_point_list points).
Proof. induction points as [| point_id rest IH]; cbn [get_point_list]; pres_vendee. Qed.

Lemma vendee_add_to_billing (points : list Z) (client : Producer) (retrieval : Z) :
  preserves I (_add_to_billing_db_producer points client retrieval).
Proof.
  unfold _add_to_billing_db_producer.
  apply preserves_bind; [apply vendee_get_point_list | intros rows].
  apply preserves_try; [| intros e; pres_vendee].
  apply preserves_bind; [apply vendee_add_all_billing | intros; pres_vendee].
Qed.

Lemma vendee_get_comparisons_client (map_id : Z) (ap_ae : list (Z * Z)) (producer : string) :
  preserves I (get_comparisons_client config map_id ap_ae producer).
Proof.
  unfold get_comparisons_client. pres_vendee. apply vendee_prepare_comparisons.
Qed.

Lemma vendee_append_vendees (points : list Z) (client : Producer) :
  preserves I (append_vendees config points client).
Proof. induction points as [| point_id rest IH]; cbn [append_vendees]; pres_vendee. Qed.

Lemma vendee_get_points_plaintext (map_id : Z) (ap_ae : list (Z * Z)) (producer : string) :
  preserves I (get_points_plaintext config map_id ap_ae producer).
Proof.
  unfold get_points_plaintext. pres_vendee;
    first [ apply vendee_append_vendees | apply vendee_add_to_retrieval
          | apply vendee_add_to_billing | apply vendee_get_point_list ].
Qed.

Lemma vendee_shift_points (public_key preview_offset : Z) (points : list StoredPoint.t)
  (offset : option Z) :
  preserves I (shift_points nonce public_key preview_offset points offset).
Proof.
  revert offset. induction points as [| point rest IH]; intros offset; cbn [shift_points];
    pres_vendee.
Qed.

Lemma vendee_preview_map (map_id : Z) (client : Producer) :
  preserves I (preview_map config randint nonce map_id client).
Proof. unfold preview_map. pres_vendee. apply vendee_shift_points. Qed.

Lemma vendee_get_previews_loop (map_ids : list Z) (client : Producer) :
  preserves I (get_previews_loop config randint nonce map_ids client).
Proof.
  induction map_ids as [| map_id rest IH]; cbn [get_previews_loop]; pres_vendee.
  apply vendee_preview_map.
Qed.

Lemma vendee_add_all_querists (querists : list NewQuerist) (client : Producer) :
  preserves I (add_all_querists config querists client).
Proof.
  induction querists as [| [[point_count offset] tool] rest IH]; cbn [add_all_querists];
    pres_vendee.
Qed.

Lemma vendee_add_all_preview_billing (billing : list Z) (client : Producer) :
  preserves I (add_all_preview_billing billing client).
Proof.
  induction billing as [| map_id rest IH]; cbn [add_all_preview_billing]; pres_vendee.
Qed.

Lemma vendee_get_previews (map_ids : list Z) (producer : string) :
  preserves I (get_previews config randint nonce map_ids producer).
Proof.
  unfold get_previews. pres_vendee;
    first [ apply vendee_get_previews_loop | apply vendee_add_all_querists
          | apply vendee_add_all_preview_billing ].
Qed.

Lemma vendee_shift_points_plaintext (offset : Z) (points : list StoredPoint.t) :
  preserves I (shift_points_plaintext offset points).
Proof.
  induction points as [| point rest IH]; cbn [shift_points_plaintext]; pres_vendee.
Qed.

Lemma vendee_preview_map_plaintext (map_id : Z) (client : Producer) :
  preserves I (preview_map_plaintext config randint map_id client).
Proof. unfold preview_map_plaintext. pres_vendee. apply vendee_shift_points_plaintext. Qed.

Lemma vendee_get_previews_plaintext_loop (map_ids : list Z) (client : Producer) :
  preserves I (get_previews_plaintext_loop config randint map_ids client).
Proof.
  induction map_ids as [| map_id rest IH]; cbn [get_previews_plaintext_loop]; pres_vendee.
  apply vendee_preview_map_plaintext.
Qed.

Lemma vendee_get_previews_plaintext (map_ids : list Z) (producer : string) :
  preserves I (get_previews_plaintext config randint map_ids producer).
Proof.
  unfold get_previews_plaintext. pres_vendee;
    first [ apply vendee_get_previews_plaintext_loop | apply vendee_add_all_querists
          | apply vendee_add_all_preview_billing ].
Qed.

Lemma vendee_get_preview_info (map_id : Z) (producer : string) :
  preserves I (get_preview_info map_id producer).
Proof. unfold get_preview_info. pres_vendee. Qed.

Lemma vendee_provider_points_loop (map_key : MapKey.t) (map_id : Z) (ap_ae : list (Z * Z)) :
  preserves I (provider_points_loop randint map_key map_id ap_ae).
Proof.
  induction ap_ae as [| [ap ae] rest IH]; cbn [provider_points_loop]; pres_vendee.
Qed.

Lemma vendee_get_comparisons_provider (map_id : Z) (map_name : string * string * string)
  (n : Z) (ap_ae : list (Z * Z)) (producer : string) :
  preserves I (get_comparisons_provider config randint map_id map_name n ap_ae producer).
Proof.
  unfold get_comparisons_provider. destruct map_name as [[machine material] tool].
  pres_vendee; first [apply vendee_provider_points_loop | apply vendee_prepare_comparisons].
Qed.

Lemma vendee_store_records_plaintext_loop (map_key : MapKey.t) (map_id usage_id : Z)
  (points : list (Z * Z * Z * Z)) (provider : Producer) :
  preserves I (store_records_plaintext_loop config nonce map_key map_id usage_id points provider).
Proof.
  induction points as [| [[[ap ae] fz] usage] rest IH]; cbn [store_records_plaintext_loop];
    pres_vendee.
Qed.

Lemma vendee_store_records_plaintext (map_id : Z) (map_name : string * string * string)
  (n : Z) (points : list (Z * Z * Z * Z)) (producer : string) :
  preserves I (store_records_plaintext config nonce map_id map_name n points producer).
Proof.
  unfold store_records_plaintext. destruct map_name as [[machine material] tool].
  pres_vendee; apply vendee_store_records_plaintext_loop.
Qed.

Lemma vendee_unmasked_points (public_key : Z) (points : list Z) :
  preserves I (unmasked_points nonce public_key points).
Proof.
  induction points as [| point_id rest IH]; cbn [unmasked_points]; unfold unmasked_point;
    pres_vendee.
Qed.

End VendeeKept.

(** *** The outcomes of [_store_comparison] *)

Lemma load_point_run (s : Session) (point_id : Z) (r : Res (StoredPoint.t * Z)) (s1 : Session) :
  load_point point_id s = (r, s1) ->
  s1 = s /\ (forall p n, r = Ok (p, n) -> point_at (pending s) point_id p).
Proof.
  unfold load_point, try_except, bind, get_db, lift, point_map, query_map_key, bind, get_db, ret.
  unfold point_at.
  destruct (filter (fun p => StoredPoint.id p =? point_id) (points (pending s)))
    as [| p [| p' rest]]; cbn [one]; cbv beta iota.
  - intros E. injection E as <- <-. split; [reflexivity | discriminate].
  - destruct (filter _ (map_keys (pending s))) as [| m ms]; cbv beta iota;
      intros E; injection E as <- <-; (split; [reflexivity |]); intros q n H;
      [discriminate | injection H as <- _; reflexivity].
  - intros E. injection E as <- <-. split; [reflexivity | discriminate].
Qed.

Lemma update_point_at (d : DB) (point_id : Z) (p : StoredPoint.t)
  (f : StoredPoint.t -> StoredPoint.t) :
  point_at d point_id p ->
  map (fun q => if StoredPoint.id q =? point_id then f q else q) (points d)
  = map (fun q => if StoredPoint.id q =? point_id then f p else q) (points d).
Proof.
  intros Hp. apply map_ext_in. intros q Hq.
  destruct (StoredPoint.id q =? point_id) eqn:E; [| reflexivity].
  assert (Hin : In q (filter (fun q => StoredPoint.id q =? point_id) (points d)))
    by (apply filter_In; auto).
  rewrite Hp in Hin. destruct Hin as [<- | []]. reflexivity.
Qed.

Section ComparisonCases.
Context {cipher : Cipher}.
Variable config : Config.
Variables randint nonce : nat -> Z.

Lemma resolve_pending_keeps (p p1 : StoredPoint.t) (rp : option Z) :
  resolve_pending p rp = Ok p1 ->
  StoredPoint.id p1 = StoredPoint.id p
  /\ StoredPoint.point_vendees p1 = StoredPoint.point_vendees p
  /\ StoredPoint.fz_unknown p1 = StoredPoint.fz_unknown p.
Proof.
  intros H. apply resolve_pending_ok in H.
  destruct H as [[[-> _] | [-> _]] _]; repeat split; reflexivity.
Qed.

Lemma resolve_unknown_vendees (p1 p2 : StoredPoint.t) (ru : option Z) :
  resolve_unknown config p1 ru = Ok p2 ->
  StoredPoint.id p2 = StoredPoint.id p1
  /\ StoredPoint.point_vendees p2
     = (if promotes p1 ru then [] else StoredPoint.point_vendees p1).
Proof.
  unfold resolve_unknown, promotes.
  destruct (truthy ru) eqn:Eru; cbn [andb].
  - destruct (truthy (StoredPoint.fz_unknown p1)); cbn [negb]; [| discriminate].
    destruct (opt_Z_eqb ru (StoredPoint.fz_unknown p1)).
    + intros H. injection H as <-. destruct (EVAL config); split; reflexivity.
    + destruct (opt_Z_eqb ru (StoredPoint.fz_optimal p1)); cbn [negb]; [| discriminate].
      destruct (opt_producer_eqb _ _); [discriminate |].
      intros H. injection H as <-. destruct (EVAL config); split; reflexivity.
  - destruct (truthy (StoredPoint.fz_unknown p1)); [discriminate |].
    intros H. injection H as <-. split; reflexivity.
Qed.

Lemma rotate_offset_shape (n : Z) (who : Producer) (q : StoredPoint.t) (s : Session)
  (r : Res StoredPoint.t) (s1 : Session) :
  rotate_offset config randint nonce n who q s = (r, s1) ->
  stored s1 = stored s /\ pending s1 = pending s
  /\ (forall p3, r = Ok p3 ->
        StoredPoint.id p3 = StoredPoint.id q
        /\ StoredPoint.point_vendees p3 = StoredPoint.point_vendees q
        /\ StoredPoint.current_comparators p3 = []
        /\ StoredPoint.last_comparator p3 = Some who).
Proof.
  unfold rotate_offset, bind, random_offset, draw, ret.
  destruct q as [qid qmap qap qae qusage fo po fp pp fu pu oreq off cc lc pv].
  cbn -[remask].
  destruct fo as [co |]; [destruct (co =? 0) eqn:Eco |];
    (destruct fp as [cp |]; [destruct (cp =? 0) eqn:Ecp |]);
    destruct (EVAL config);
    cbn -[remask]; rewrite ?Eco; cbn -[remask]; rewrite ?Ecp; cbn -[remask];
    repeat match goal with
      | |- context [remask nonce n ?c ?o ?o2 ?s0] =>
          let E := fresh "E" in
          destruct (remask nonce n c o o2 s0) as [[? | ?] ?] eqn:E;
          apply remask_inv in E; destruct E as (? & ? & _);
          cbn -[remask] in *; rewrite ?Ecp; cbn -[remask]
      end;
    intros E; injection E as <- <-; cbn;
    (split; [congruence | split; [congruence |]]);
    intros p3 Hp3; try discriminate; injection Hp3 as <-; cbn; repeat split; reflexivity.
Qed.

(** The three ways [_store_comparison] ends. *)
Lemma store_comparison_cases (s : Session) (point_id : Z) (rp ru : option Z)
  (who : Producer) (r : Res Z) (s' : Session) :
  _store_comparison config randint nonce (point_id, rp, ru) who s = (r, s') ->
  (stored s' = stored s /\ pending s' = pending s
   /\ (forall x, r = Ok x ->
         x = point_id
         /\ exists p, point_at (pending s) point_id p
                      /\ mem who (StoredPoint.current_comparators p) = false))
  \/ ((exists e, r = Raise e) /\ stored s' = stored s /\ pending s' = stored s)
  \/ (r = Ok point_id
      /\ exists p p',
           point_at (pending s) point_id p
           /\ mem who (StoredPoint.current_comparators p) = true
           /\ stored s' = put_point point_id p' (pending s)
           /\ pending s' = put_point point_id p' (pending s)
           /\ StoredPoint.id p' = point_id
           /\ ((negb (opt_producer_eqb (StoredPoint.last_comparator p) (Some who))
                || EVAL config = true
                /\ StoredPoint.point_vendees p'
                   = (if promotes p ru then [] else StoredPoint.point_vendees p)
                /\ StoredPoint.current_comparators p' = []
                /\ StoredPoint.last_comparator p' = Some who)
               \/ (negb (opt_producer_eqb (StoredPoint.last_comparator p) (Some who))
                   || EVAL config = false
                   /\ exists l, p' = StoredPoint.set_current_comparators l p))).
Proof.
  intros E. unfold _store_comparison, bind in E.
  destruct (load_point point_id s) as [[[p n] | e] s1] eqn:El.
  2:{ apply load_point_run in El. destruct El as [-> _]. injection E as <- <-.
      left. split; [reflexivity | split; [reflexivity | intros x H; discriminate H]]. }
  apply load_point_run in El. destruct El as [-> Hp]. specialize (Hp p n eq_refl).
  pose proof (point_at_id _ _ _ Hp) as Hpid.
  destruct (mem who (StoredPoint.open_requests p)); cbn [negb] in E.
  2:{ injection E as <- <-.
      left. split; [reflexivity | split; [reflexivity | intros x H; discriminate H]]. }
  destruct (mem who (StoredPoint.current_comparators p)) eqn:Ecc.
  2:{ injection E as <- <-.
      left. split; [reflexivity | split; [reflexivity |]].
      intros x H. injection H as <-. split; [reflexivity |]. exists p. auto. }
  unfold try_except, bind in E.
  destruct (negb (opt_producer_eqb (StoredPoint.last_comparator p) (Some who)) || EVAL config)
    eqn:Eact.
  - unfold lift in E.
    destruct (resolve_pending p rp) as [p1 | e] eqn:E1.
    2:{ injection E as <- <-. right. left. cbn. eauto. }
    destruct (resolve_unknown config p1 ru) as [p2 | e] eqn:E2.
    2:{ injection E as <- <-. right. left. cbn. eauto. }
    destruct (rotate_offset config randint nonce n who p2 s) as [[p3 | e] s1] eqn:E3.
    2:{ apply rotate_offset_shape in E3. destruct E3 as (Hs & Hpe & _).
        injection E as <- <-. right. left. cbn. eauto. }
    apply rotate_offset_shape in E3. destruct E3 as (Hs & Hpe & H3).
    destruct (H3 p3 eq_refl) as (Hid3 & Hv3 & Hcc3 & Hl3).
    destruct (resolve_pending_keeps _ _ _ E1) as (Hid1 & Hv1 & Hu1).
    destruct (resolve_unknown_vendees _ _ _ E2) as (Hid2 & Hv2).
    injection E as <- <-. right. right. split; [reflexivity |].
    exists p, p3. cbn. rewrite Hpe. unfold put_point.
    split; [exact Hp |]. split; [exact Ecc |]. split; [reflexivity |].
    split; [reflexivity |]. split; [congruence |].
    left. split; [exact Eact |]. split; [| split; assumption].
    rewrite Hv3, Hv2. unfold promotes. rewrite Hu1, Hv1. reflexivity.
  - destruct (truthy rp || truthy ru).
    { injection E as <- <-. right. left. cbn. eauto. }
    destruct (list_remove who (StoredPoint.current_comparators p)) as [l |].
    2:{ injection E as <- <-. right. left. cbn. eauto. }
    injection E as <- <-. right. right. split; [reflexivity |].
    exists p, (StoredPoint.set_current_comparators l p). cbn. unfold put_point.
    rewrite (update_point_at _ _ _ (StoredPoint.set_current_comparators l) Hp).
    split; [exact Hp |]. split; [exact Ecc |]. split; [reflexivity |].
    split; [reflexivity |]. split; [exact Hpid |].
    right. split; [exact Eact |]. exists l. reflexivity.
Qed.

End ComparisonCases.

(** *** Batches of comparison results *)

Lemma rows_sat_put (pid : Z) (P Q : StoredPoint.t -> Prop) (pid' : Z) (p' : StoredPoint.t)
  (d : DB) :
  StoredPoint.id p' = pid' ->
  (forall q, P q -> pid' <> pid -> Q q) ->
  (pid' = pid -> Q p') ->
  rows_sat pid P d -> rows_sat pid Q (put_point pid' p' d).
Proof.
  intros Hid HPQ Hp' [(p & Hin & Hp) Ha]. split; cbn.
  - exists (if StoredPoint.id p =? pid' then p' else p). split.
    + apply in_map with (f := fun q => if StoredPoint.id q =? pid' then p' else q). exact Hin.
    + destruct (StoredPoint.id p =? pid') eqn:E; [| exact Hp].
      apply Z.eqb_eq in E. congruence.
  - intros q Hq Hqid. apply in_map_iff in Hq. destruct Hq as (q0 & Eq & Hin0).
    destruct (StoredPoint.id q0 =? pid') eqn:E; subst q.
    + apply Hp'. congruence.
    + apply HPQ; [now apply Ha |]. apply Z.eqb_neq in E. congruence.
Qed.

Section Promotions.
Context {cipher : Cipher}.
Variable config : Config.
Variables randint nonce : nat -> Z.
Variables (pid : Z) (u : Producer).

Let I := both (is_vendee pid u).

(** A comparison result that commits no promotion of the point keeps its
    vendees, whether it is accepted, rejected or ignored. *)
Lemma store_comparison_keeps_vendee (s : Session) (result : ComparisonResult)
  (who : Producer) (r : Res Z) (s' : Session) :
  I s ->
  ~ commits_promotion config randint nonce pid result who s ->
  _store_comparison config randint nonce result who s = (r, s') ->
  I s'.
Proof.
  intros [Hs Hp] Hno E. destruct result as [[point_id rp] ru].
  destruct (store_comparison_cases config randint nonce s point_id rp ru who r s' E)
    as [(Es & Ep & _) | [(_ & Es & Ep) | (Hr & p & p' & Hat & Hcc & Es & Ep & Hid & Hsh)]].
  - split; [rewrite Es | rewrite Ep]; assumption.
  - split; [rewrite Es | rewrite Ep]; assumption.
  - assert (Hnew : point_id = pid -> vendee u p').
    { intros ->.
      assert (Hv : vendee u p).
      { destruct Hp as [_ Ha]. apply Ha; [| now apply point_at_id with (d := pending s)].
        assert (Hf : In p (filter (fun q => StoredPoint.id q =? pid) (points (pending s))))
          by (rewrite Hat; left; reflexivity).
        apply filter_In in Hf. tauto. }
      destruct Hsh as [(Eact & Hv' & _) | (_ & l & ->)]; [| exact Hv].
      unfold vendee. rewrite Hv'.
      destruct (promotes p ru) eqn:Eprom; [| exact Hv].
      exfalso. apply Hno. subst r. exists rp, ru, p, pid, s'. auto 10. }
    split; [rewrite Es | rewrite Ep];
      (apply rows_sat_put with (P := vendee u); [exact Hid | auto | exact Hnew | exact Hp]).
Qed.

(** One turn of the loop of [get_points], and of the loop of
    [store_records]. *)
Definition get_points_turn (result : ComparisonResult) (client : Producer) : M Z :=
  point <- _store_comparison config randint nonce result client;;
  remove_open_request point client;;
  (if negb (EVAL config) then append_vendee point client else ret tt);;
  ret point.

Lemma get_points_loop_cons (result : ComparisonResult) (rest : list ComparisonResult)
  (client : Producer) (s : Session) :
  get_points_loop config randint nonce (result :: rest) client s
  = (point <- get_points_turn result client;;
     points <- get_points_loop config randint nonce rest client;;
     ret (point :: points)) s.
Proof.
  cbn [get_points_loop]. unfold get_points_turn, bind, ret.
  repeat match goal with
    | |- context [let (_, _) := ?x in _] => destruct x as [[? | ?] ?]
    end; reflexivity.
Qed.

Lemma get_points_turn_keeps_vendee (s : Session) (result : ComparisonResult)
  (who : Producer) (r : Res Z) (s' : Session) :
  I s ->
  ~ commits_promotion config randint nonce pid result who s ->
  get_points_turn result who s = (r, s') ->
  I s'.
Proof.
  intros H Hno E. unfold get_points_turn in E. unfold bind at 1 in E.
  destruct (_store_comparison config randint nonce result who s) as [[x | e] s1] eqn:Ec;
    pose proof (store_comparison_keeps_vendee s result who _ s1 H Hno Ec) as H1;
    [| injection E as _ <-; exact H1].
  revert E.
  match goal with
  | |- ?m s1 = (r, s') -> _ => assert (Hl : preserves I m)
  end.
  { unfold I, is_vendee. pres_rows vendee_side. }
  intros E. exact (Hl s1 r s' H1 E).
Qed.

Lemma get_points_loop_keeps_vendee (results : list ComparisonResult) (who : Producer) :
  forall s r s',
    I s ->
    (forall before result after points s1,
        results = (before ++ result :: after)%list ->
        get_points_loop config randint nonce before who s = (Ok points, s1) ->
        ~ commits_promotion config randint nonce pid result who s1) ->
    get_points_loop config randint nonce results who s = (r, s') ->
    I s'.
Proof.
  induction results as [| result rest IH]; intros s r s' H Hno E.
  - injection E as _ <-. exact H.
  - rewrite get_points_loop_cons in E. unfold bind at 1 in E.
    assert (Hno0 : ~ commits_promotion config randint nonce pid result who s)
      by (apply (Hno [] result rest [] s); reflexivity).
    destruct (get_points_turn result who s) as [[x | e] s1] eqn:Et;
      pose proof (get_points_turn_keeps_vendee s result who _ s1 H Hno0 Et) as H1;
      [| injection E as _ <-; exact H1].
    unfold bind at 1 in E.
    destruct (get_points_loop config randint nonce rest who s1) as [[points | e] s2] eqn:El;
      injection E as _ <-; (eapply (IH s1 _ s2 H1); [| exact El]);
      intros before result' after points' s3 -> Eb;
      apply (Hno (result :: before) result' after (x :: points') s3); try reflexivity;
      rewrite get_points_loop_cons; unfold bind; rewrite Et, Eb; reflexivity.
Qed.

Definition store_records_turn (record : RecordWithResult) (provider : Producer) : M unit :=
  let '(point_id, result_optimal_pending, result_optimal_unknown, fz, usage) := record in
  point_id <- _store_comparison config randint nonce
                (point_id, result_optimal_pending, result_optimal_unknown) provider;;
  remove_open_request point_id provider;;
  point <- get_point point_id;;
  let map_id := StoredPoint.map_id point in
  rows <- query_map_key map_id;;
  map_key <- lift (one rows);;
  let public_key := MapKey.public_key_n map_key in
  rows <- query_map_usage map_id provider;;
  map_usage <- lift (one rows);;
  (if negb (fz =? 0) then
     c <- enc_add public_key (Some fz) (StoredPoint.current_offset point);;
     fz <- ciphertext nonce public_key c;;
     if truthy (StoredPoint.fz_optimal point)
     then update_point point_id (StoredPoint.set_unknown (Some fz) (Some provider))
     else update_point point_id (StoredPoint.set_optimal (Some fz) (Some provider))
   else ret tt);;
  (if negb (usage =? 0)
   then store_usage nonce public_key point_id (MapUsage.id map_usage) usage
   else ret tt).

Lemma store_records_loop_cons (record : RecordWithResult) (rest : list RecordWithResult)
  (provider : Producer) (s : Session) :
  store_records_loop config randint nonce (record :: rest) provider s
  = (store_records_turn record provider;;
     store_records_loop config randint nonce rest provider) s.
Proof.
  destruct record as [[[[point_id rp] ru] fz] usage].
  cbn [store_records_loop]. unfold store_records_turn, bind.
  repeat match goal with
    | |- context [let (_, _) := ?x in _] => destruct x as [[? | ?] ?]
    end; reflexivity.
Qed.

Lemma store_records_turn_keeps_vendee (s : Session) (record : RecordWithResult)
  (who : Producer) (r : Res unit) (s' : Session) :
  I s ->
  ~ commits_promotion config randint nonce pid (record_result record) who s ->
  store_records_turn record who s = (r, s') ->
  I s'.
Proof.
  intros H Hno E. destruct record as [[[[point_id rp] ru] fz] usage].
  cbn [record_result] in Hno. unfold store_records_turn in E. unfold bind at 1 in E.
  destruct (_store_comparison config randint nonce (point_id, rp, ru) who s)
    as [[x | e] s1] eqn:Ec;
    pose proof (store_comparison_keeps_vendee s _ who _ s1 H Hno Ec) as H1;
    [| injection E as _ <-; exact H1].
  revert E.
  match goal with
  | |- ?m s1 = (r, s') -> _ => assert (Hl : preserves I m)
  end.
  { unfold I, is_vendee, store_usage. pres_rows vendee_side. }
  intros E. exact (Hl s1 r s' H1 E).
Qed.

Lemma store_records_loop_keeps_vendee (records : list RecordWithResult) (who : Producer) :
  forall s r s',
    I s ->
    (forall before record after s1,
        records = (before ++ record :: after)%list ->
        store_records_loop config randint nonce before who s = (Ok tt, s1) ->
        ~ commits_promotion config randint nonce pid (record_result record) who s1) ->
    store_records_loop config randint nonce records who s = (r, s') ->
    I s'.
Proof.
  induction records as [| record rest IH]; intros s r s' H Hno E.
  - injection E as _ <-. exact H.
  - rewrite store_records_loop_cons in E. unfold bind at 1 in E.
    assert (Hno0 : ~ commits_promotion config randint nonce pid (record_result record) who s)
      by (apply (Hno [] record rest s); reflexivity).
    destruct (store_records_turn record who s) as [[[] | e] s1] eqn:Et;
      pose proof (store_records_turn_keeps_vendee s record who _ s1 H Hno0 Et) as H1;
      [| injection E as _ <-; exact H1].
    apply (IH s1 r s' H1); [| exact E].
    intros before record' after s3 -> Eb.
    apply (Hno (record :: before) record' after s3); [reflexivity |].
    rewrite store_records_loop_cons. unfold bind. rewrite Et. exact Eb.
Qed.

Lemma get_points_keeps_vendee (results : list ComparisonResult) (producer : string)
  (s : Session) (r : Res (list (Z * Z * Z * option Z))) (s' : Session) :
  I s ->
  ~ promotion_in config randint nonce pid (GetPoints results producer) s ->
  get_points config randint nonce results producer s = (r, s') ->
  I s'.
Proof.
  intros H Hno E. unfold get_points in E. unfold bind at 1 in E.
  destruct (get_user producer s) as [[client | e] s0] eqn:Eu.
  2:{ destruct (get_user_eq _ _ _ _ Eu) as [-> _]. injection E as _ <-. exact H. }
  pose proof (get_user_eq _ _ _ _ Eu) as [Hs0 _].
  assert (H0 : I s0) by (rewrite Hs0; exact H).
  unfold bind at 1 in E. unfold try_except in E. unfold bind at 1 in E.
  destruct (get_points_loop config randint nonce results client s0)
    as [[points | e] s1] eqn:El.
  - assert (H1 : I s1).
    { eapply (get_points_loop_keeps_vendee results client s0 _ s1 H0); [| exact El].
      intros before result after pts s2 Hres Eb Hc. apply Hno. cbn [promotion_in].
      exists client, s0, before, result, after, pts, s2. auto. }
    unfold bind at 1 in E. unfold commit, ret in E. cbv beta iota in E.
    match type of E with
    | ?m ?s2 = _ =>
        assert (Hl : preserves I m);
        [| assert (H2 : I s2) by (destruct H1 as [_ Hb]; split; exact Hb);
           exact (Hl s2 r s' H2 E)]
    end.
    unfold I, is_vendee. pres_rows vendee_side;
      first [ apply vendee_add_to_retrieval | apply vendee_add_to_billing
            | apply vendee_unmasked_points ].
  - assert (H1 : I s1).
    { eapply (get_points_loop_keeps_vendee results client s0 _ s1 H0); [| exact El].
      intros before result after pts s2 Hres Eb Hc. apply Hno. cbn [promotion_in].
      exists client, s0, before, result, after, pts, s2. auto. }
    cbn in E. injection E as _ <-. destruct H1 as [Ha _]. split; exact Ha.
Qed.

Lemma store_records_keeps_vendee (records : list RecordWithResult) (producer : string)
  (s : Session) (r : Res unit) (s' : Session) :
  I s ->
  ~ promotion_in config randint nonce pid (StoreRecords records producer) s ->
  store_records config randint nonce records producer s = (r, s') ->
  I s'.
Proof.
  intros H Hno E. unfold store_records in E. unfold bind at 1 in E.
  destruct (get_user producer s) as [[provider | e] s0] eqn:Eu.
  2:{ destruct (get_user_eq _ _ _ _ Eu) as [-> _]. injection E as _ <-. exact H. }
  pose proof (get_user_eq _ _ _ _ Eu) as [Hs0 _].
  assert (H0 : I s0) by (rewrite Hs0; exact H).
  unfold try_except in E. unfold bind at 1 in E.
  destruct (store_records_loop config randint nonce records provider s0)
    as [[[] | e] s1] eqn:El;
    (assert (H1 : I s1);
     [ eapply (store_records_loop_keeps_vendee records provider s0 _ s1 H0); [| exact El];
       intros before record after s2 Hres Eb Hc; apply Hno; cbn [promotion_in];
       exists provider, s0, before, record, after, s2; auto |]);
    cbn in E; injection E as _ <-; destruct H1 as [Ha Hb]; split; assumption.
Qed.

End Promotions.

(** *** The point query of the client and the promotion *)

Lemma mem_existsb_sym (u : Producer) (l : list Producer) :
  existsb (fun v => String.eqb v u) l = mem u l.
Proof.
  unfold mem. induction l as [| v l IH]; [reflexivity |].
  cbn. rewrite IH, String.eqb_sym. reflexivity.
Qed.

Section Vendees.
Context {cipher : Cipher}.
Variable config : Config.
Variables randint nonce : nat -> Z.

Lemma prepare_comparisons_points (points : list Z) (producer : Producer) :
  forall s comparisons s',
    _prepare_comparisons_loop config points producer s = (Ok comparisons, s') ->
    map comparison_point comparisons = points.
Proof.
  induction points as [| point_id rest IH]; intros s comparisons s' E;
    cbn [_prepare_comparisons_loop] in E.
  - injection E as <- _. reflexivity.
  - unfold bind at 1 in E. unfold get_point, bind, get_db in E. cbv beta iota in E.
    destruct (filter (fun p => StoredPoint.id p =? point_id) (points (pending s)))
      as [| p ps] eqn:Ef; [discriminate E |].
    assert (Hid : StoredPoint.id p = point_id).
    { assert (Hin : In p (filter (fun p => StoredPoint.id p =? point_id) (points (pending s))))
        by (rewrite Ef; left; reflexivity).
      apply filter_In in Hin. now apply Z.eqb_eq. }
    unfold ret at 1 in E. cbv beta iota zeta in E.
    destruct (negb (mem producer (StoredPoint.open_requests p)));
      destruct (negb (mem producer (StoredPoint.current_comparators p)));
      unfold update_point, modify_db, ret in E; cbv beta iota in E;
      match type of E with
      | context [_prepare_comparisons_loop config rest producer ?s2] =>
          destruct (_prepare_comparisons_loop config rest producer s2)
            as [[cs | e] s3] eqn:Er; [| discriminate E]
      end;
      injection E as <- _; cbn [map]; (f_equal; [| exact (IH _ _ _ Er)]);
      destruct (_ || _); cbn; exact Hid.
Qed.

Lemma client_excludes_vendee (s : Session) (pid map_id : Z) (ap_ae : list (Z * Z))
  (u : string) (comparisons : list Comparison) (s' : Session) :
  is_vendee pid u (pending s) ->
  get_comparisons_client config map_id ap_ae u s = (Ok comparisons, s') ->
  ~ In pid (map comparison_point comparisons).
Proof.
  intros [_ Hv] E. unfold get_comparisons_client in E. unfold bind at 1 in E.
  destruct (get_user u s) as [[client | e] s1] eqn:Eu; [| discriminate E].
  destruct (get_user_eq _ _ _ _ Eu) as [-> Hc]. destruct (Hc client eq_refl) as [-> _].
  unfold bind at 1 in E. unfold try_except, bind in E. rewrite query_map_key_run in E.
  unfold lift in E.
  destruct (filter (fun m => MapKey.map_id m =? map_id) (map_keys (pending s)))
    as [| mk [| mk2 rest]]; cbn [one] in E; [discriminate E | | discriminate E].
  destruct (reverse_queried_state s mk u) as [b Eb]. rewrite Eb in E.
  destruct b; [discriminate E |].
  unfold get_db at 1 in E. cbv beta iota in E.
  destruct (index_order (filter (client_filter map_id ap_ae u u) (points (pending s))))
    as [| p0 ps] eqn:Ef; [discriminate E |].
  match type of E with
  | match ?m ?s0 with _ => _ end = _ => destruct (m s0) as [[[] | e] s2]; [| discriminate E]
  end.
  unfold _prepare_comparisons in E. unfold bind at 1 in E.
  destruct (_prepare_comparisons_loop config (map StoredPoint.id (p0 :: ps)) u s2)
    as [[cs | e] s3] eqn:El; [| discriminate E].
  injection E as <- _.
  rewrite (prepare_comparisons_points _ _ _ _ _ El), <- Ef.
  intros Hin. apply in_map_iff in Hin. destruct Hin as (p & Hid & Hp).
  apply index_order_in, filter_In in Hp. destruct Hp as [Hp Hf].
  unfold client_filter in Hf. apply andb_true_iff in Hf. destruct Hf as [_ Hf].
  rewrite mem_existsb_sym in Hf. specialize (Hv p Hp Hid). unfold vendee in Hv.
  rewrite Hv in Hf. discriminate Hf.
Qed.

Lemma promotion_clears (s : Session) (pid : Z) (rp ru : option Z) (who : Producer)
  (p : StoredPoint.t) (x : Z) (s' : Session) :
  point_at (pending s) pid p ->
  mem who (StoredPoint.current_comparators p) = true ->
  negb (opt_producer_eqb (StoredPoint.last_comparator p) (Some who)) || EVAL config = true ->
  promotes p ru = true ->
  _store_comparison config randint nonce (pid, rp, ru) who s = (Ok x, s') ->
  exists p', point_at (stored s') pid p' /\ point_at (pending s') pid p'
             /\ StoredPoint.point_vendees p' = [].
Proof.
  intros Hp Hcc Hact Hprom E.
  destruct (store_comparison_cases config randint nonce s pid rp ru who _ s' E)
    as [(_ & _ & Hr) | [((e & He) & _) | (_ & q & p' & Hat & _ & Es & Ep & Hid & Hsh)]].
  - destruct (Hr x eq_refl) as (_ & q & Hq & Hqc).
    unfold point_at in Hp, Hq. rewrite Hp in Hq. injection Hq as <-. congruence.
  - discriminate He.
  - unfold point_at in Hp, Hat. pose proof Hat as Hat'. rewrite Hp in Hat'.
    injection Hat' as <-.
    exists p'. rewrite Es, Ep.
    split; [now apply point_at_put_point with (p := p) |].
    split; [now apply point_at_put_point with (p := p) |].
    destruct Hsh as [(_ & Hv & _) | (Eact & _)]; [| congruence].
    rewrite Hprom in Hv. exact Hv.
Qed.

End Vendees.

Lemma preserves_snd {A : Type} (I : Session -> Prop) (m : M A) (s : Session) :
  preserves I m -> I s -> I (snd (m s)).
Proof. intros H Hs. apply (H s (fst (m s)) (snd (m s)) Hs). apply surjective_pairing. Qed.

Section VendeeCalls.
Context {cipher : Cipher}.
Variable config : Config.
Variables randint nonce : nat -> Z.
Variables (pid : Z) (u : Producer).

Lemma call_keeps_vendee (c : Call) (s : Session) :
  both (is_vendee pid u) s ->
  ~ promotion_in config randint nonce pid c s ->
  both (is_vendee pid u) (call config randint nonce c s).
Proof.
  intros H Hq. destruct c; cbn [call] in *.
  - apply preserves_snd; [apply vendee_get_comparisons_client | exact H].
  - apply (get_points_keeps_vendee config randint nonce pid u comparison_results producer s
             (fst (get_points config randint nonce comparison_results producer s)));
      [exact H | exact Hq | apply surjective_pairing].
  - apply preserves_snd; [apply vendee_get_points_plaintext | exact H].
  - apply preserves_snd; [apply vendee_get_previews | exact H].
  - apply preserves_snd; [apply vendee_get_previews_plaintext | exact H].
  - apply preserves_snd; [apply vendee_get_preview_info | exact H].
  - apply preserves_snd; [apply vendee_get_comparisons_provider | exact H].
  - apply (store_records_keeps_vendee config randint nonce pid u
             comparison_results_with_values producer s
             (fst (store_records config randint nonce comparison_results_with_values
                     producer s)));
      [exact H | exact Hq | apply surjective_pairing].
  - apply preserves_snd; [apply vendee_store_records_plaintext | exact H].
  - destruct H as [Hs _]. split; exact Hs.
Qed.

Lemma calls_keep_vendee (cs : list Call) :
  forall s, both (is_vendee pid u) s ->
            no_promotion_committed config randint nonce pid cs s ->
            both (is_vendee pid u) (calls config randint nonce cs s).
Proof.
  induction cs as [| c rest IH]; intros s H Hq; cbn [calls no_promotion_committed] in *;
    [exact H |].
  destruct Hq as [Hc Hrest]. apply IH; [now apply call_keeps_vendee | exact Hrest].
Qed.

(** C7.  Let [u] be in the [point_vendees] of the stored point [pid].
    After any sequence of calls of the backend, by any producers, none
    of which commits a promotion of the unknown value of the point, [u]
    is still a vendee of the point, and no [get_comparisons_client] of
    [u] returns a comparison for it, whatever map and coordinates it
    names.  The calls may submit results that name the unknown value as
    the winner, as long as [_store_comparison] rejects or ignores them.
    A comparison that does promote the unknown value of the point, once
    stored, leaves the point with no vendees. *)
Theorem vendee_exclusion_until_promotion (s : Session) (cs : list Call) :
  both (is_vendee pid u) s ->
  no_promotion_committed config randint nonce pid cs s ->
  let s1 := calls config randint nonce cs s in
  both (is_vendee pid u) s1
  /\ (forall map_id ap_ae comparisons s',
        get_comparisons_client config map_id ap_ae u s1 = (Ok comparisons, s') ->
        ~ In pid (map comparison_point comparisons))
  /\ (forall who rp ru p x s',
        point_at (pending s1) pid p ->
        mem who (StoredPoint.current_comparators p) = true ->
        negb (opt_producer_eqb (StoredPoint.last_comparator p) (Some who)) || EVAL config = true ->
        promotes p ru = true ->
        _store_comparison config randint nonce (pid, rp, ru) who s1 = (Ok x, s') ->
        exists p', point_at (stored s') pid p' /\ point_at (pending s') pid p'
                   /\ StoredPoint.point_vendees p' = []).
Proof.
  intros H Hq s1.
  assert (H1 : both (is_vendee pid u) s1) by now apply calls_keep_vendee.
  split; [exact H1 |]. split.
  - intros map_id ap_ae comparisons s' E.
    exact (client_excludes_vendee config s1 pid map_id ap_ae u comparisons s' (proj2 H1) E).
  - intros who rp ru p x s'. apply promotion_clears.
Qed.

End VendeeCalls.

Section VendeeExamples.
#[local] Existing Instance toy_cipher.

(** Bob has bought point 1; point 2 is another point of the map. *)
Definition ex_bought_point : StoredPoint.t :=
  ex_point 1 (Some ex_optimal) (Some "alice") None None None None 5 [] [] ["bob"].

Definition ex_bought : Session :=
  ex_session (ex_db ["bob"] [] [ex_bought_point; ex_second_point] []).

(** Carol buys point 1. *)
Definition ex_purchase : list Call :=
  [GetComparisonsClient 1 [(1, 1)] "carol"; Teardown;
   GetPoints [(1, None, None)] "carol"; Teardown].

(** Bob has bought point 1 and, as a provider, has asked for its
    comparisons; the point holds carol's unknown value 30. *)
Definition ex_vendee_contest : Session :=
  ex_session
    (ex_db ["bob"] []
       [ex_point 1 (Some ex_optimal) (Some "alice") None None (Some ex_higher) (Some "carol")
          5 ["bob"] ["bob"] ["bob"]] []).

(** Carol, who has no open request for the point, submits a result that
    names the unknown value as the winner. *)
Definition ex_rejected : list Call :=
  [GetPoints [(1, None, Some ex_higher)] "carol"; Teardown].

Lemma vendee_exclusion_until_promotion_witness :
  (exists comparisons s',
     get_comparisons_client default_config 1 [(1, 1); (2, 2)] "bob"
       (calls default_config ex_randint ex_nonce ex_purchase ex_bought)
     = (Ok comparisons, s')
     /\ map comparison_point comparisons = [2]
     /\ ~ In 1 (map comparison_point comparisons))
  /\ both (is_vendee 1 "bob")
       (calls default_config ex_randint ex_nonce ex_rejected ex_vendee_contest)
  /\ (exists p',
        point_at (stored (snd (_store_comparison default_config ex_randint ex_nonce
                                 (1, None, Some ex_higher) "bob" ex_vendee_contest))) 1 p'
        /\ StoredPoint.point_vendees p' = []).
Proof.
  assert (Hv : both (is_vendee 1 "bob") ex_vendee_contest).
  { split; (split; [eexists; split; [left; reflexivity | reflexivity] |]);
      intros p [<- | []] Hid; reflexivity. }
  split; [| split].
  - destruct (get_comparisons_client default_config 1 [(1, 1); (2, 2)] "bob"
                (calls default_config ex_randint ex_nonce ex_purchase ex_bought))
      as [[comparisons | e] s'] eqn:E; [| vm_compute in E; discriminate E].
    exists comparisons, s'. split; [reflexivity |]. split.
    + vm_compute in E. injection E as <- _. reflexivity.
    + refine (proj1 (proj2 (vendee_exclusion_until_promotion default_config ex_randint
                              ex_nonce 1 "bob" ex_bought ex_purchase _ _))
                1 [(1, 1); (2, 2)] comparisons s' E).
      * split; (split; [exists ex_bought_point; split; [left; reflexivity | reflexivity] |]);
          intros p [<- | [<- | []]] Hid; first [reflexivity | discriminate Hid].
      * cbn [no_promotion_committed ex_purchase promotion_in].
        split; [intros [] |]. split; [intros [] |]. split; [| split; [intros [] | exact I]].
        intros (client & s0 & before & result & after & pts & s1 & _ & Hres & _
                & (rp & ru & p & x & s2 & Hr & _ & _ & _ & Hprom & _)).
        destruct before as [| b [| b' before]]; cbn in Hres; [| discriminate Hres ..].
        injection Hres as <- _. injection Hr as _ <-. discriminate Hprom.
  - refine (proj1 (vendee_exclusion_until_promotion default_config ex_randint ex_nonce
                     1 "bob" ex_vendee_contest ex_rejected Hv _)).
    cbn [no_promotion_committed ex_rejected promotion_in].
    split; [| split; [intros [] | exact I]].
    intros (client & s0 & before & result & after & pts & s1 & Eu & Hres & Eb
            & (rp & ru & p & x & s2 & _ & _ & _ & _ & _ & Ec)).
    destruct before as [| b [| b' before]]; cbn in Hres; [| discriminate Hres ..].
    injection Hres as <- _. vm_compute in Eu. injection Eu as <- <-.
    injection Eb as _ <-. vm_compute in Ec. discriminate Ec.
  - destruct (_store_comparison default_config ex_randint ex_nonce
                (1, None, Some ex_higher) "bob" ex_vendee_contest) as [r s'] eqn:E.
    destruct r as [x | e]; [| vm_compute in E; discriminate E].
    destruct (proj2 (proj2 (vendee_exclusion_until_promotion default_config ex_randint
                              ex_nonce 1 "bob" ex_vendee_contest [] Hv I))
                "bob" None (Some ex_higher) _ x s' eq_refl eq_refl eq_refl eq_refl E)
      as (p' & Hs & _ & Hc).
    exists p'. split; [exact Hs | exact Hc].
Defined.

End VendeeExamples.

(** * Further properties *)

(** ** Billing of a retrieval *)

Lemma opt_producer_eqb_eq (x y : option Producer) : opt_producer_eqb x y = true -> x = y.
Proof.
  destruct x, y; cbn; intros H; try discriminate; [| reflexivity].
  apply String.eqb_eq in H. now subst.
Qed.

Lemma opt_producer_eqb_refl (x : option Producer) : opt_producer_eqb x x = true.
Proof. destruct x; cbn; [apply String.eqb_refl | reflexivity]. Qed.

Lemma count_of_count_provider (q pr : option Producer) (l : list (option Producer * Z)) :
  count_of pr (count_provider q l)
  = count_of pr l + (if opt_producer_eqb q pr then 1 else 0).
Proof.
  unfold count_of. induction l as [| [p c] rest IH]; cbn [count_provider].
  - cbn. destruct (opt_producer_eqb q pr); cbn; lia.
  - destruct (opt_producer_eqb p q) eqn:Epq.
    + apply opt_producer_eqb_eq in Epq. subst q. cbn.
      destruct (opt_producer_eqb p pr); cbn; lia.
    + cbn. destruct (opt_producer_eqb p pr) eqn:Ep; cbn; rewrite IH; lia.
Qed.

Lemma count_provider_keys (q : option Producer) (l : list (option Producer * Z)) :
  map fst (count_provider q l) = map fst l
  \/ (~ In q (map fst l) /\ map fst (count_provider q l) = (map fst l ++ [q])%list).
Proof.
  induction l as [| [p c] rest IH]; cbn [count_provider].
  - right. split; [intros [] | reflexivity].
  - destruct (opt_producer_eqb p q) eqn:Epq; [left; reflexivity |].
    destruct IH as [IH | [Hn IH]]; cbn; [left; now rewrite IH | right].
    split; [| now rewrite IH].
    intros [<- | H]; [| contradiction]. cbn in Epq.
    now rewrite opt_producer_eqb_refl in Epq.
Qed.

Lemma count_provider_nodup (q : option Producer) (l : list (option Producer * Z)) :
  NoDup (map fst l) -> NoDup (map fst (count_provider q l)).
Proof.
  intros H. destruct (count_provider_keys q l) as [-> | [Hn ->]]; [exact H |].
  apply NoDup_app; [exact H | constructor; [intros [] | constructor] |].
  intros x Hx [<- | []]. contradiction.
Qed.

Lemma count_providers_count (rows : list StoredPoint.t) :
  forall (acc : list (option Producer * Z)) (pr : option Producer),
    count_of pr (count_providers rows acc)
    = count_of pr acc
      + Z.of_nat (List.length
                    (filter (fun p => opt_producer_eqb (StoredPoint.provider_optimal p) pr)
                       rows)).
Proof.
  induction rows as [| p rest IH]; intros acc pr; cbn [count_providers].
  - cbn. lia.
  - rewrite IH, count_of_count_provider. cbn [filter].
    destruct (opt_producer_eqb (StoredPoint.provider_optimal p) pr); cbn [List.length]; lia.
Qed.

Lemma count_providers_nodup (rows : list StoredPoint.t) :
  forall acc, NoDup (map fst acc) -> NoDup (map fst (count_providers rows acc)).
Proof.
  induction rows as [| p rest IH]; intros acc H; cbn [count_providers]; [exact H |].
  apply IH, count_provider_nodup, H.
Qed.

Lemma count_providers_total (rows : list StoredPoint.t) :
  forall acc,
    fold_right Z.add 0 (map snd (count_providers rows acc))
    = fold_right Z.add 0 (map snd acc) + Z.of_nat (List.length rows).
Proof.
  assert (Hone : forall q l, fold_right Z.add 0 (map snd (count_provider q l))
                             = fold_right Z.add 0 (map snd l) + 1).
  { intros q l. induction l as [| [p c] rest IH]; cbn [count_provider]; [reflexivity |].
    destruct (opt_producer_eqb p q); cbn; [lia |]. cbn in IH. rewrite IH. lia. }
  induction rows as [| p rest IH]; intros acc; cbn [count_providers].
  - cbn. lia.
  - rewrite IH, Hone. cbn [List.length]. lia.
Qed.

Lemma get_point_list_run (points : list Z) :
  forall s r s', get_point_list points s = (r, s') ->
                 s' = s /\ (forall rows, r = Ok rows -> List.length rows = List.length points).
Proof.
  induction points as [| point_id rest IH]; intros s r s' E; cbn [get_point_list] in E.
  - injection E as <- <-. split; [reflexivity |]. intros rows H. now injection H as <-.
  - unfold bind at 1 in E. unfold get_point, bind, get_db in E. cbv beta iota in E.
    destruct (filter (fun p => StoredPoint.id p =? point_id) (points (pending s)))
      as [| p ps].
    + injection E as <- <-. split; [reflexivity | discriminate].
    + unfold ret at 1 in E. cbv beta iota in E.
      destruct (get_point_list rest s) as [[l | e] s1] eqn:Er;
        destruct (IH _ _ _ Er) as [-> Hl]; injection E as <- <-;
        (split; [reflexivity |]); intros rows H; [| discriminate].
      injection H as <-. cbn [List.length]. f_equal. now apply Hl.
Qed.

Lemma add_all_billing_run (providers : list (option Producer * Z)) (client : Producer)
  (retrieval : Z) :
  Forall (fun x => fst x <> None) providers ->
  forall s,
  exists new s',
    add_all_billing providers client retrieval s = (Ok tt, s')
    /\ stored s' = stored s
    /\ pending s'
       = set_billing_information_producer
           (billing_information_producer (pending s) ++ new) (pending s)
    /\ map (fun b => (Some (BillingProducer.provider b), BillingProducer.count_provider b)) new
       = providers
    /\ Forall (fun b => BillingProducer.client b = client
                        /\ BillingProducer.retrieval_id b = retrieval) new.
Proof.
  induction providers as [| [[provider |] count] rest IH]; intros Hall s;
    cbn [add_all_billing].
  - exists [], s. rewrite app_nil_r. destruct s as [st [] dr]. cbn. repeat split. constructor.
  - inversion Hall as [| x l _ Hrest]; subst.
    unfold bind at 1. unfold get_db at 1. cbv beta iota.
    unfold bind at 1. unfold modify_db at 1. cbv beta iota.
    match goal with
    | |- exists new s', add_all_billing rest client retrieval ?s1 = _ /\ _ =>
        destruct (IH Hrest s1) as (new & s' & E & Hst & Hpe & Hmap & Hcl)
    end.
    eexists (_ :: new), s'. split; [exact E |]. split; [exact Hst |].
    split; [rewrite Hpe; cbn; rewrite <- app_assoc; reflexivity |].
    split; [cbn; f_equal; exact Hmap |].
    constructor; [split; reflexivity | exact Hcl].
  - inversion Hall as [| x l Hx _]; subst. cbn in Hx. contradiction.
Qed.

Lemma billed_count_of (provider : Producer) (new : list BillingProducer.t) :
  billed provider new
  = count_of (Some provider)
      (map (fun b => (Some (BillingProducer.provider b), BillingProducer.count_provider b))
         new).
Proof.
  unfold billed, count_of. induction new as [| b rest IH]; [reflexivity |].
  cbn. destruct (String.eqb (BillingProducer.provider b) provider); cbn; rewrite IH;
    reflexivity.
Qed.

Lemma count_providers_some (rows : list StoredPoint.t) :
  forall acc,
    Forall (fun p => StoredPoint.provider_optimal p <> None) rows ->
    Forall (fun x : option Producer * Z => fst x <> None) acc ->
    Forall (fun x : option Producer * Z => fst x <> None) (count_providers rows acc).
Proof.
  assert (Hone : forall q l, q <> None ->
            Forall (fun x : option Producer * Z => fst x <> None) l ->
            Forall (fun x : option Producer * Z => fst x <> None) (count_provider q l)).
  { intros q l Hq Hl. induction l as [| [p c] rest IH]; cbn [count_provider].
    - constructor; [exact Hq | constructor].
    - inversion Hl as [| x l' Hx Hrest]; subst.
      destruct (opt_producer_eqb p q); constructor; auto. }
  induction rows as [| p rest IH]; intros acc Hr Ha; cbn [count_providers]; [exact Ha |].
  inversion Hr as [| x l Hp Hrest]; subst. apply IH; [exact Hrest |]. now apply Hone.
Qed.

(** X1.  [_add_to_billing_db_producer] bills every point once: for points
    that all have a provider it commits one billing row per provider,
    each for the client and the retrieval given; the row of a provider
    counts the points this provider has the optimal value of, and the
    counts add up to the number of points retrieved. *)
Theorem billing_per_provider (s : Session) (points : list Z) (client : Producer)
  (retrieval : Z) (rows : list StoredPoint.t) :
  get_point_list points s = (Ok rows, s) ->
  Forall (fun p => StoredPoint.provider_optimal p <> None) rows ->
  exists new s',
    _add_to_billing_db_producer points client retrieval s = (Ok tt, s')
    /\ stored s' = pending s'
    /\ billing_information_producer (stored s')
       = (billing_information_producer (pending s) ++ new)%list
    /\ Forall (fun b => BillingProducer.client b = client
                        /\ BillingProducer.retrieval_id b = retrieval) new
    /\ NoDup (map BillingProducer.provider new)
    /\ (forall provider, billed provider new = provided_by provider rows)
    /\ fold_right Z.add 0 (map BillingProducer.count_provider new)
       = Z.of_nat (List.length points).
Proof.
  intros Hrows Hall.
  destruct (add_all_billing_run (count_providers rows []) client retrieval
              (count_providers_some rows [] Hall (Forall_nil _)) s)
    as (new & s1 & E & Hst & Hpe & Hmap & Hcl).
  exists new. eexists. split.
  { unfold _add_to_billing_db_producer, bind at 1. rewrite Hrows.
    unfold try_except, bind. rewrite E. unfold commit. reflexivity. }
  cbn [stored pending]. split; [reflexivity |].
  split; [rewrite Hpe; reflexivity |]. split; [exact Hcl |].
  assert (Hkeys : map (fun b => Some (BillingProducer.provider b)) new
                  = map fst (count_providers rows [])).
  { rewrite <- Hmap, map_map. reflexivity. }
  split; [| split].
  - assert (Hnd : NoDup (map (fun b => Some (BillingProducer.provider b)) new)).
    { rewrite Hkeys. apply count_providers_nodup. constructor. }
    rewrite <- map_map in Hnd. eapply NoDup_map_inv. exact Hnd.
  - intros provider. rewrite billed_count_of, Hmap, count_providers_count. reflexivity.
  - assert (Hs : map BillingProducer.count_provider new = map snd (count_providers rows [])).
    { rewrite <- Hmap, map_map. reflexivity. }
    rewrite Hs, count_providers_total.
    destruct (get_point_list_run points s _ _ Hrows) as [_ Hl].
    rewrite (Hl rows eq_refl). reflexivity.
Qed.

Lemma billing_per_provider_witness :
  let s := ex_session (ex_db [] [] [ex_plain_point; ex_second_point] []) in
  exists new s',
    _add_to_billing_db_producer [1; 2] "bob" 1 s = (Ok tt, s')
    /\ stored s' = pending s'
    /\ billing_information_producer (stored s')
       = (billing_information_producer (pending s) ++ new)%list
    /\ Forall (fun b => BillingProducer.client b = "bob"
                        /\ BillingProducer.retrieval_id b = 1) new
    /\ NoDup (map BillingProducer.provider new)
    /\ (forall provider,
          billed provider new = provided_by provider [ex_plain_point; ex_second_point])
    /\ fold_right Z.add 0 (map BillingProducer.count_provider new) = 2.
Proof.
  apply (billing_per_provider
           (ex_session (ex_db [] [] [ex_plain_point; ex_second_point] []))
           [1; 2] "bob" 1 [ex_plain_point; ex_second_point]).
  - reflexivity.
  - repeat constructor; discriminate.
Defined.

(** ** The voucher of a preview *)

Lemma filter_filter_comm {A : Type} (f g : A -> bool) (l : list A) :
  filter f (filter g l) = filter g (filter f l).
Proof.
  induction l as [| x l IH]; [reflexivity |]. cbn.
  destruct (f x) eqn:Ef, (g x) eqn:Eg; cbn; rewrite ?Ef, ?Eg, IH; reflexivity.
Qed.

Lemma filter_update_map_id (map_id : Z) (f : MapKey.t -> MapKey.t) (l : list MapKey.t) :
  (forall m, MapKey.map_id (f m) = MapKey.map_id m) ->
  filter (fun q => MapKey.map_id q =? map_id)
    (map (fun q => if MapKey.map_id q =? map_id then f q else q) l)
  = map f (filter (fun q => MapKey.map_id q =? map_id) l).
Proof.
  intros Hf. induction l as [| q l IH]; [reflexivity |].
  cbn. destruct (MapKey.map_id q =? map_id) eqn:E.
  - cbn. rewrite Hf, E. cbn. f_equal. exact IH.
  - cbn. rewrite E. exact IH.
Qed.

Lemma filter_singleton_in {A : Type} (f : A -> bool) (l : list A) (x : A) :
  filter f l = [x] -> In x l /\ f x = true.
Proof.
  intros H. apply filter_In. rewrite H. left. reflexivity.
Qed.

Section PreviewInfo.
Context {cipher : Cipher}.
Variable config : Config.
Variables randint nonce : nat -> Z.

(** X2.  The voucher of a preview is single-use.  For a stored map on
    which a registered producer holds one voucher, [get_preview_info]
    returns the offset and the tool of the voucher, deletes it, and
    records the producer in the [past_requests] of the map, all
    committed.  A second [get_preview_info] of the producer for the map
    fails with "Producer never reverse-queried given map." and changes
    nothing, and [get_previews] refuses the producer every list of maps
    that contains this one. *)
Theorem preview_info_single_use (s : Session) (map_id : Z) (who : string)
  (m : MapKey.t) (rq : ReverseQuerist.t) :
  In who (producers (pending s)) ->
  filter (fun q => MapKey.map_id q =? map_id) (map_keys (pending s)) = [m] ->
  voucher_rows (pending s) map_id who = [rq] ->
  exists s',
    get_preview_info map_id who s
    = (Ok (ReverseQuerist.offset rq, ReverseQuerist.tool rq), s')
    /\ stored s' = pending s'
    /\ voucher_rows (stored s') map_id who = []
    /\ regular_queried (stored s') map_id who
    /\ get_preview_info map_id who s' = (Raise never_reverse_queried, s')
    /\ (forall map_ids, In map_id map_ids ->
          exists e s'', get_previews config randint nonce map_ids who s' = (Raise e, s'')).
Proof.
  intros Hu Hm Hv.
  destruct (filter_singleton_in _ _ _ Hm) as [Hmin Hmid]. apply Z.eqb_eq in Hmid.
  eexists. split.
  { unfold get_preview_info, bind at 1. rewrite (get_user_ok who s Hu).
    unfold bind at 1. rewrite query_map_key_run, Hm.
    unfold bind at 1, lift at 1. cbn [one_or_none].
    unfold bind at 1, get_db at 1. unfold bind at 1, lift at 1.
    rewrite Hmid. fold (voucher_rows (pending s) map_id who). rewrite Hv.
    cbn [one_or_none]. reflexivity. }
  cbn [stored pending].
  set (d' := set_offset_billing _ _).
  assert (Hkeys : filter (fun q => MapKey.map_id q =? map_id) (map_keys d')
                  = [MapKey.set_past_requests (MapKey.past_requests m ++ [who]) m]).
  { subst d'. cbn. rewrite filter_update_map_id by reflexivity. rewrite Hm. reflexivity. }
  assert (Hgone : voucher_rows d' map_id who = []).
  { subst d'. unfold voucher_rows. cbn. rewrite filter_filter_comm.
    fold (voucher_rows (pending s) map_id who). rewrite Hv. cbn.
    rewrite Z.eqb_refl. reflexivity. }
  assert (Hreg : regular_queried d' map_id who).
  { exists (MapKey.set_past_requests (MapKey.past_requests m ++ [who]) m).
    destruct (filter_singleton_in _ _ _ Hkeys) as [Hin _].
    split; [exact Hin |]. split; [exact Hmid |]. cbn.
    unfold mem. rewrite existsb_app. cbn. rewrite String.eqb_refl.
    now rewrite orb_true_r. }
  assert (Hu' : In who (producers d')) by (subst d'; exact Hu).
  split; [reflexivity |]. split; [exact Hgone |]. split; [exact Hreg |]. split.
  - unfold get_preview_info, bind at 1.
    match goal with |- context [get_user who ?s1] => rewrite (get_user_ok who s1 Hu') end.
    unfold bind at 1. rewrite query_map_key_run. cbn [pending]. rewrite Hkeys.
    unfold bind at 1, lift at 1. cbn [one_or_none].
    unfold bind at 1, get_db at 1. unfold bind at 1, lift at 1.
    cbn [pending MapKey.map_id MapKey.set_past_requests]. rewrite Hmid.
    fold (voucher_rows d' map_id who). rewrite Hgone. reflexivity.
  - intros map_ids Hin. unfold get_previews, bind at 1.
    match goal with |- context [get_user who ?s1] => rewrite (get_user_ok who s1 Hu') end.
    unfold bind at 1.
    match goal with
    | |- context [get_previews_loop config randint nonce map_ids who ?s1] =>
        destruct (get_previews_loop_regular_queried config randint nonce map_ids map_id
                    who Hin s1 Hreg) as (e & s'' & ->)
    end.
    eauto.
Qed.

End PreviewInfo.

Section PreviewInfoExamples.
#[local] Existing Instance toy_cipher.

Lemma preview_info_single_use_witness :
  exists s',
    get_preview_info 1 "bob" ex_previewed = (Ok (2, "end mill 4"), s')
    /\ stored s' = pending s'
    /\ voucher_rows (stored s') 1 "bob" = []
    /\ regular_queried (stored s') 1 "bob"
    /\ get_preview_info 1 "bob" s' = (Raise never_reverse_queried, s')
    /\ (forall map_ids, In 1 map_ids ->
          exists e s'', get_previews default_config ex_randint ex_nonce map_ids "bob" s'
                        = (Raise e, s'')).
Proof.
  apply (preview_info_single_use default_config ex_randint ex_nonce ex_previewed 1 "bob"
           (ex_map []) ex_voucher).
  - right. left. reflexivity.
  - reflexivity.
  - reflexivity.
Defined.

End PreviewInfoExamples.

(** ** An empty batch of comparison results *)

Section EmptyBatch.
Context {cipher : Cipher}.
Variable config : Config.
Variables randint nonce : nat -> Z.

(** X3.  [get_points] with an empty list of comparison results, for a
    registered producer, does not fail with the [ValueError] the routes
    catch: it commits a retrieval record of zero points for the producer
    and then raises [IndexError] at [points[0]].  The points are left as
    they are. *)
Theorem get_points_empty_batch (s : Session) (who : string) :
  In who (producers (pending s)) ->
  exists s',
    get_points config randint nonce [] who s = (Raise IndexError, s')
    /\ stored s' = pending s'
    /\ retrievals_producer (stored s')
       = (retrievals_producer (pending s)
          ++ [{| RetrievalProducer.id :=
                   next_id (map RetrievalProducer.id (retrievals_producer (pending s)));
                 RetrievalProducer.client := who;
                 RetrievalProducer.point_count := 0 |}])%list
    /\ points (stored s') = points (pending s)
    /\ billing_information_producer (stored s') = billing_information_producer (pending s).
Proof.
  intros Hu. eexists. split.
  { unfold get_points, bind at 1. rewrite (get_user_ok who s Hu). reflexivity. }
  cbn. repeat split; reflexivity.
Qed.

End EmptyBatch.

Section EmptyBatchExamples.
#[local] Existing Instance toy_cipher.

Lemma get_points_empty_batch_witness :
  exists s',
    get_points default_config ex_randint ex_nonce [] "bob" ex_queried = (Raise IndexError, s')
    /\ stored s' = pending s'
    /\ retrievals_producer (stored s')
       = [{| RetrievalProducer.id := 1; RetrievalProducer.client := "bob";
             RetrievalProducer.point_count := 0 |}]
    /\ points (stored s') = points (pending ex_queried)
    /\ billing_information_producer (stored s') = [].
Proof.
  apply (get_points_empty_batch default_config ex_randint ex_nonce ex_queried "bob").
  right. left. reflexivity.
Defined.

End EmptyBatchExamples.

(** ** Plaintext previews *)

Lemma reverse_queried_false (s : Session) (map_key : MapKey.t) (client : Producer) :
  voucher_rows (pending s) (MapKey.map_id map_key) client = [] ->
  reverse_queried map_key client s = (Ok false, s).
Proof.
  intros H. unfold reverse_queried, map_reverse_querists, bind, get_db, ret.
  f_equal. f_equal. unfold voucher_rows in H.
  induction (reverse_querists (pending s)) as [| q l IH]; [reflexivity |].
  cbn in *. destruct (match ReverseQuerist.map_id q with
                      | Some i => i =? MapKey.map_id map_key
                      | None => false
                      end); cbn in *.
  - destruct (String.eqb (ReverseQuerist.producer q) client); [discriminate H |].
    cbn. now apply IH.
  - now apply IH.
Qed.

Lemma shift_points_plaintext_run (offset : Z) (pts : list StoredPoint.t) (s : Session) :
  Forall (fun p => truthy (StoredPoint.fz_optimal p) = true) pts ->
  exists preview,
    shift_points_plaintext offset pts s = (Ok preview, s)
    /\ Forall2 (unshifts offset) pts preview.
Proof.
  induction pts as [| p rest IH]; intros Hall; cbn [shift_points_plaintext].
  - exists []. split; [reflexivity | constructor].
  - inversion Hall as [| x l Hp Hrest]; subst.
    destruct (IH Hrest) as (preview & E & Hf).
    destruct (StoredPoint.fz_optimal p) as [fz |] eqn:Efz; [| discriminate Hp].
    eexists. split.
    + unfold bind at 1. unfold ret at 1. cbv beta iota. unfold bind at 1. rewrite E.
      reflexivity.
    + constructor; [| exact Hf]. cbn. repeat split; try reflexivity.
      rewrite Efz. f_equal. lia.
Qed.

Lemma priced_points_truthy (d : DB) (map_id : Z) :
  Forall (fun p => truthy (StoredPoint.fz_optimal p) = true) (priced_points d map_id).
Proof.
  apply Forall_forall. intros p Hp. apply index_order_in, filter_In in Hp.
  destruct Hp as [_ H]. apply andb_true_iff in H. tauto.
Qed.

Lemma get_preview_info_value (s : Session) (map_id : Z) (who : string)
  (m : MapKey.t) (rq : ReverseQuerist.t) :
  In who (producers (pending s)) ->
  filter (fun q => MapKey.map_id q =? map_id) (map_keys (pending s)) = [m] ->
  voucher_rows (pending s) map_id who = [rq] ->
  exists s', get_preview_info map_id who s
             = (Ok (ReverseQuerist.offset rq, ReverseQuerist.tool rq), s').
Proof.
  intros Hu Hm Hv.
  destruct (filter_singleton_in _ _ _ Hm) as [Hmin Hmid]. apply Z.eqb_eq in Hmid.
  eexists. unfold get_preview_info, bind at 1. rewrite (get_user_ok who s Hu).
  unfold bind at 1. rewrite query_map_key_run, Hm.
  unfold bind at 1, lift at 1. cbn [one_or_none].
  unfold bind at 1, get_db at 1. unfold bind at 1, lift at 1.
  rewrite Hmid. fold (voucher_rows (pending s) map_id who). rewrite Hv.
  cbn [one_or_none]. reflexivity.
Qed.

Section PlainPreview.
Variable config : Config.
Variable randint : nat -> Z.

(** X4.  The plaintext preview round trip.  Without Paillier and outside
    of evaluation mode, let a registered producer who has neither
    previewed nor queried a stored map ask [get_previews_plaintext] for
    it, no stored optimal value being negative.  The preview lists the
    points of the map that hold an optimal value, in the order of the
    index on (map_id, ap, ae), each shifted by the one offset drawn; the
    call commits one voucher for the producer, with that offset and the
    number of points; and [get_preview_info] afterwards returns the
    offset that takes every preview value back to the optimal value of
    its point. *)
Theorem plaintext_preview_round_trip (s : Session) (map_id : Z) (who : string)
  (m : MapKey.t) (p0 : StoredPoint.t) (rest : list StoredPoint.t) :
  USE_PAILLIER config = false ->
  EVAL config = false ->
  In who (producers (pending s)) ->
  filter (fun q => MapKey.map_id q =? map_id) (map_keys (pending s)) = [m] ->
  voucher_rows (pending s) map_id who = [] ->
  mem who (MapKey.past_requests m) = false ->
  nonnegative_values (pending s) ->
  priced_points (pending s) map_id = p0 :: rest ->
  let offset := randint (draws s) in
  exists preview s' rq,
    get_previews_plaintext config randint [map_id] who s = (Ok [(map_id, preview)], s')
    /\ Forall2 (unshifts offset) (p0 :: rest) preview
    /\ stored s' = pending s'
    /\ voucher_rows (stored s') map_id who = [rq]
    /\ ReverseQuerist.point_count rq = Z.of_nat (List.length (p0 :: rest))
    /\ exists s'', get_preview_info map_id who s' = (Ok (offset, MapKey.tool m), s'').
Proof.
  intros HP HE Hu Hm Hv Hpast _ Hpts offset.
  destruct (filter_singleton_in _ _ _ Hm) as [Hmin Hmid]. apply Z.eqb_eq in Hmid.
  pose proof (priced_points_truthy (pending s) map_id) as Htruthy. rewrite Hpts in Htruthy.
  set (s1 := {| stored := stored s; pending := pending s; draws := S (draws s) |}).
  destruct (shift_points_plaintext_run offset (p0 :: rest) s1 Htruthy) as (preview & Esh & Hf).
  assert (Hentry : exists s2,
    preview_map_plaintext config randint map_id who s
    = (Ok (Some ((map_id, preview),
                 (Z.of_nat (List.length (p0 :: rest)), offset, MapKey.tool m), map_id)), s2)
    /\ stored s2 = stored s
    /\ pending s2
       = set_reverse_querists
           (reverse_querists (pending s)
            ++ [{| ReverseQuerist.id :=
                     next_id (map ReverseQuerist.id (reverse_querists (pending s)));
                   ReverseQuerist.producer := who;
                   ReverseQuerist.map_id := Some map_id;
                   ReverseQuerist.point_count := Z.of_nat (List.length (p0 :: rest));
                   ReverseQuerist.offset := offset;
                   ReverseQuerist.tool := MapKey.tool m |}])%list (pending s)).
  { eexists. split.
    - unfold preview_map_plaintext, bind at 1. rewrite query_map_key_run, Hm.
      unfold bind at 1, lift at 1. cbn [one_or_none].
      unfold bind at 1. rewrite reverse_queried_false by (rewrite Hmid; exact Hv).
      rewrite Hpast. unfold bind at 1, get_db at 1.
      fold (priced_points (pending s) map_id). rewrite Hpts.
      unfold bind at 1, random_offset, draw. fold s1. fold offset.
      unfold bind at 1. rewrite Esh. rewrite HE. cbn [negb].
      rewrite Hmid. reflexivity.
    - cbn. split; reflexivity. }
  destruct Hentry as (s2 & Eentry & Hst2 & Hpe2).
  eexists preview, _, _. split.
  { unfold get_previews_plaintext. rewrite HP. unfold bind at 1.
    rewrite (get_user_ok who s Hu). unfold bind at 1.
    cbn [get_previews_plaintext_loop]. unfold bind at 1. rewrite Eentry.
    unfold bind at 1, ret at 1. cbv beta iota.
    unfold bind at 1. unfold try_except, bind.
    unfold ret at 1. cbv beta iota.
    cbn [add_all_querists add_all_preview_billing]. rewrite HE.
    unfold insert_preview_billing, modify_db, ret, commit, bind. cbv beta iota.
    reflexivity. }
  split; [exact Hf |]. cbn [stored pending]. split; [reflexivity |].
  assert (Hvr : voucher_rows
                  (set_preview_billing
                     (preview_billing (pending s2)
                      ++ [{| PreviewBilling.id :=
                               next_id (map PreviewBilling.id (preview_billing (pending s2)));
                             PreviewBilling.client := who;
                             PreviewBilling.map_id := map_id |}])%list (pending s2))
                  map_id who
                = [{| ReverseQuerist.id :=
                        next_id (map ReverseQuerist.id (reverse_querists (pending s)));
                      ReverseQuerist.producer := who;
                      ReverseQuerist.map_id := Some map_id;
                      ReverseQuerist.point_count := Z.of_nat (List.length (p0 :: rest));
                      ReverseQuerist.offset := offset;
                      ReverseQuerist.tool := MapKey.tool m |}]).
  { unfold voucher_rows. cbn [reverse_querists set_preview_billing]. rewrite Hpe2.
    cbn [reverse_querists set_reverse_querists]. rewrite filter_app.
    fold (voucher_rows (pending s) map_id who). rewrite Hv. cbn.
    rewrite Z.eqb_refl, String.eqb_refl. reflexivity. }
  split; [exact Hvr |]. split; [reflexivity |].
  match goal with
  | |- exists s'', get_preview_info map_id who ?s3 = _ =>
      destruct (get_preview_info_value s3 map_id who m
                  {| ReverseQuerist.id :=
                       next_id (map ReverseQuerist.id (reverse_querists (pending s)));
                     ReverseQuerist.producer := who;
                     ReverseQuerist.map_id := Some map_id;
                     ReverseQuerist.point_count := Z.of_nat (List.length (p0 :: rest));
                     ReverseQuerist.offset := offset;
                     ReverseQuerist.tool := MapKey.tool m |}) as (s'' & E)
  end.
  - cbn. rewrite Hpe2. exact Hu.
  - cbn. rewrite Hpe2. exact Hm.
  - exact Hvr.
  - exists s''. exact E.
Qed.

End PlainPreview.

Lemma plaintext_preview_round_trip_witness :
  exists preview s' rq,
    get_previews_plaintext default_config ex_randint [1] "bob" ex_plaintext_unordered
    = (Ok [(1, preview)], s')
    /\ Forall2 (unshifts 7) ex_plaintext_points preview
    /\ stored s' = pending s'
    /\ voucher_rows (stored s') 1 "bob" = [rq]
    /\ ReverseQuerist.point_count rq = 2
    /\ exists s'', get_preview_info 1 "bob" s' = (Ok (7, "end mill 4"), s'').
Proof.
  apply (plaintext_preview_round_trip default_config ex_randint ex_plaintext_unordered 1 "bob"
           (ex_map [])
           (ex_point 1 (Some 20) (Some "alice") None None None None 0 [] [] [])
           [ex_point 2 (Some 33) (Some "alice") None None None None 0 [] [] []]).
  - reflexivity.
  - reflexivity.
  - right. left. reflexivity.
  - reflexivity.
  - reflexivity.
  - reflexivity.
  - repeat constructor; intros v H; injection H as <-; lia.
  - reflexivity.
Defined.

(** ** Previews under the homomorphic scheme *)

Lemma last_shift_last (preview_offset : Z) (pts : list StoredPoint.t) :
  forall (acc : option Z) (p0 d : StoredPoint.t),
    last_shift preview_offset acc (p0 :: pts)
    = option_map (fun o => preview_offset - o)
        (StoredPoint.current_offset (last (p0 :: pts) d)).
Proof.
  unfold last_shift. induction pts as [| p rest IH]; intros acc p0 d; [reflexivity |].
  change (fold_left _ (p0 :: p :: rest) acc)
    with (fold_left (fun _ q => option_map (fun o => preview_offset - o)
                                  (StoredPoint.current_offset q)) (p :: rest)
            (option_map (fun o => preview_offset - o) (StoredPoint.current_offset p0))).
  rewrite (IH _ p d). reflexivity.
Qed.

Section Preview.
Context {cipher : Cipher}.
Variable config : Config.
Variables randint nonce : nat -> Z.

Lemma shifted_decrypt (n r c k : Z) :
  valid_ct n c -> good_nonce n r ->
  - n < 2 * (decrypt n c + k) <= n ->
  decrypt n (obfuscate n r (add_scalar n c k)) = decrypt n c + k.
Proof.
  intros Hv Hr Hw.
  assert (Hv1 : valid_ct n (add_scalar n c k)) by now apply valid_add_scalar.
  rewrite decrypt_obfuscate by assumption.
  apply signed_window_eq with (n := n); [now apply decrypt_range | exact Hw |].
  now apply decrypt_add_scalar.
Qed.

Lemma shift_points_run (n preview_offset : Z) (pts : list StoredPoint.t) :
  (forall i, good_nonce n (nonce i)) ->
  Forall (masked_slot n) pts ->
  Forall (shift_encodable n preview_offset) pts ->
  forall acc s,
  exists preview k,
    shift_points nonce n preview_offset pts acc s
    = (Ok (preview, last_shift preview_offset acc pts),
       {| stored := stored s; pending := pending s; draws := k |})
    /\ Forall2 (shifted_preview n preview_offset) pts preview.
Proof.
  intros Hnonce. induction pts as [| p rest IH]; intros Hall Hshift acc s; cbn [shift_points].
  - exists [], (draws s). destruct s. split; [reflexivity | constructor].
  - inversion Hall as [| x l (c & o & Hc & Ho & Hv) Hrest]; subst.
    inversion Hshift as [| x l Hsh Hshrest]; subst.
    set (s1 := {| stored := stored s; pending := pending s; draws := S (draws s) |}).
    destruct (IH Hrest Hshrest (Some (preview_offset - o)) s1) as (preview & k & E & Hf).
    eexists. exists k. split.
    + unfold bind at 1. rewrite Ho. unfold ret at 1. cbv beta iota.
      unfold bind at 1. rewrite Hc. rewrite enc_add_run by (apply Hsh; exact Ho).
      cbv beta iota.
      unfold bind at 1. unfold ciphertext, bind at 1, draw at 1. fold s1.
      unfold ret at 1. cbv beta iota.
      unfold bind at 1. rewrite E. unfold ret. cbn [stored pending].
      unfold last_shift. cbn [fold_left]. rewrite Ho. reflexivity.
    + constructor; [| exact Hf]. cbn.
      split; [reflexivity |]. split; [reflexivity |]. split; [reflexivity |].
      split; [apply valid_obfuscate; [now apply valid_add_scalar | apply Hnonce] |].
      intros v (o' & Ho' & c' & Hc' & Hv' & Hd) Hw.
      rewrite Ho in Ho'. injection Ho' as <-. rewrite Hc in Hc'. injection Hc' as <-.
      rewrite shifted_decrypt; [lia | exact Hv | apply Hnonce |].
      replace (decrypt n c + (preview_offset - o)) with (v + preview_offset) by lia.
      exact Hw.
Qed.

(** X5.  A preview under the homomorphic scheme shifts the whole map by
    one offset.  Outside of evaluation mode, for a registered producer
    who has neither previewed nor queried a stored map whose points have
    valid ciphertexts and offsets, [get_previews] returns one preview
    point per point with an optimal value, in the order of the index on
    (map_id, ap, ae), provided that the offset drawn for the call minus
    the current offset of each of these points is a scalar that [phe]
    encodes; its ciphertext is valid and decrypts to the optimal value of
    the point plus the offset drawn (when that sum fits the signed window
    of the modulus).  The voucher that is committed, and that
    [get_preview_info] returns, holds the drawn offset minus the current
    offset of the last point in that order. *)
Theorem preview_uniform_shift (s : Session) (map_id : Z) (who : string)
  (m : MapKey.t) (p0 : StoredPoint.t) (rest : list StoredPoint.t) :
  let n := MapKey.public_key_n m in
  let preview_offset := randint (draws s) in
  EVAL config = false ->
  In who (producers (pending s)) ->
  filter (fun q => MapKey.map_id q =? map_id) (map_keys (pending s)) = [m] ->
  voucher_rows (pending s) map_id who = [] ->
  mem who (MapKey.past_requests m) = false ->
  previewed_points (pending s) map_id = p0 :: rest ->
  Forall (masked_slot n) (p0 :: rest) ->
  Forall (shift_encodable n preview_offset) (p0 :: rest) ->
  (forall i, good_nonce n (nonce i)) ->
  exists preview s' o_last,
    get_previews config randint nonce [map_id] who s = (Ok [(map_id, preview)], s')
    /\ Forall2 (shifted_preview n preview_offset) (p0 :: rest) preview
    /\ stored s' = pending s'
    /\ StoredPoint.current_offset (last (p0 :: rest) p0) = Some o_last
    /\ exists s'',
         get_preview_info map_id who s' = (Ok (preview_offset - o_last, MapKey.tool m), s'').
Proof.
  intros n preview_offset HE Hu Hm Hv Hpast Hpts Hslots Hshift Hnonce.
  destruct (filter_singleton_in _ _ _ Hm) as [Hmin Hmid]. apply Z.eqb_eq in Hmid.
  set (s1 := {| stored := stored s; pending := pending s; draws := S (draws s) |}).
  destruct (shift_points_run n preview_offset (p0 :: rest) Hnonce Hslots Hshift None s1)
    as (preview & k & Esh & Hf).
  rewrite (last_shift_last _ _ _ _ p0) in Esh.
  assert (Hlast : exists o_last,
            StoredPoint.current_offset (last (p0 :: rest) p0) = Some o_last).
  { assert (Hin : In (last (p0 :: rest) p0) (p0 :: rest)).
    { destruct (exists_last (l := p0 :: rest)) as (l' & a & E); [discriminate |].
      rewrite E at 1. rewrite last_last. rewrite E. apply in_or_app. right. left.
      reflexivity. }
    rewrite Forall_forall in Hslots. destruct (Hslots _ Hin) as (c & o & _ & Ho & _).
    eauto. }
  destruct Hlast as (o_last & Hlast). rewrite Hlast in Esh. cbn [option_map] in Esh.
  set (rq := {| ReverseQuerist.id :=
                  next_id (map ReverseQuerist.id (reverse_querists (pending s)));
                ReverseQuerist.producer := who;
                ReverseQuerist.map_id := Some map_id;
                ReverseQuerist.point_count := Z.of_nat (List.length (p0 :: rest));
                ReverseQuerist.offset := preview_offset - o_last;
                ReverseQuerist.tool := MapKey.tool m |}).
  assert (Hentry : exists s2,
    preview_map config randint nonce map_id who s
    = (Ok (Some ((map_id, preview),
                 (Z.of_nat (List.length (p0 :: rest)), preview_offset - o_last,
                  MapKey.tool m), map_id)), s2)
    /\ stored s2 = stored s
    /\ pending s2
       = set_reverse_querists (reverse_querists (pending s) ++ [rq])%list (pending s)).
  { eexists. split.
    - unfold preview_map, bind at 1. rewrite query_map_key_run, Hm.
      unfold bind at 1, lift at 1. cbn [one_or_none].
      unfold bind at 1. rewrite reverse_queried_false by (rewrite Hmid; exact Hv).
      rewrite Hpast. unfold bind at 1, get_db at 1.
      fold (previewed_points (pending s) map_id). rewrite Hpts.
      unfold bind at 1, random_offset, draw. fold s1. fold preview_offset. fold n.
      unfold bind at 1. rewrite Esh. rewrite HE. cbn [negb].
      rewrite Hmid. reflexivity.
    - cbn. split; reflexivity. }
  destruct Hentry as (s2 & Eentry & Hst2 & Hpe2).
  eexists preview, _, o_last. split.
  { unfold get_previews. unfold bind at 1.
    rewrite (get_user_ok who s Hu). unfold bind at 1.
    cbn [get_previews_loop]. unfold bind at 1. rewrite Eentry.
    unfold bind at 1, ret at 1. cbv beta iota.
    unfold ret at 1. cbv beta iota.
    unfold bind at 1. unfold try_except, bind.
    cbn [add_all_querists add_all_preview_billing]. rewrite HE.
    unfold insert_preview_billing, modify_db, ret, commit, bind. cbv beta iota.
    reflexivity. }
  split; [exact Hf |]. cbn [stored pending]. split; [reflexivity |].
  split; [exact Hlast |].
  match goal with
  | |- exists s'', get_preview_info map_id who ?s3 = _ =>
      destruct (get_preview_info_value s3 map_id who m rq) as (s'' & E)
  end.
  - cbn. rewrite Hpe2. exact Hu.
  - cbn. rewrite Hpe2. exact Hm.
  - unfold voucher_rows. cbn [pending reverse_querists set_preview_billing]. rewrite Hpe2.
    cbn [reverse_querists set_reverse_querists]. rewrite filter_app.
    fold (voucher_rows (pending s) map_id who). rewrite Hv. cbn.
    rewrite Z.eqb_refl, String.eqb_refl. reflexivity.
  - exists s''. exact E.
Qed.

End Preview.

Section PreviewShiftExamples.
#[local] Existing Instance toy_cipher.

(** The two points of the map, the point at (2, 2) having been stored
    before the point at (1, 1): the point at (2, 2) is the last one of
    the preview. *)
Definition ex_two_points_unordered : Session :=
  ex_session (ex_db [] [] [ex_second_point; ex_plain_point] []).

Lemma preview_uniform_shift_witness :
  exists preview s' o_last,
    get_previews default_config ex_randint ex_nonce [1] "bob" ex_two_points_unordered
    = (Ok [(1, preview)], s')
    /\ Forall2 (shifted_preview ex_n 7) [ex_plain_point; ex_second_point] preview
    /\ stored s' = pending s'
    /\ StoredPoint.current_offset ex_second_point = Some o_last
    /\ exists s'', get_preview_info 1 "bob" s' = (Ok (7 - o_last, "end mill 4"), s'').
Proof.
  apply (preview_uniform_shift default_config ex_randint ex_nonce ex_two_points_unordered 1
           "bob"
           (ex_map []) ex_plain_point [ex_second_point]).
  - reflexivity.
  - right. left. reflexivity.
  - reflexivity.
  - reflexivity.
  - reflexivity.
  - reflexivity.
  - constructor; [| constructor; [| constructor]].
    + exists ex_optimal, 5.
      split; [reflexivity |]. split; [reflexivity |]. apply (ex_enc_valid 25). unfold ex_n. lia.
    + exists (ex_enc 36), 3.
      split; [reflexivity |]. split; [reflexivity |]. apply (ex_enc_valid 36). unfold ex_n. lia.
  - constructor; [| constructor; [| constructor]];
      intros o H; injection H as <-; vm_compute; intros Hgt; discriminate Hgt.
  - exact ex_nonce_good.
Defined.

End PreviewShiftExamples.

(** ** What a retrieval returns *)

Section Retrieval.
Context {cipher : Cipher}.
Variable config : Config.
Variables randint nonce : nat -> Z.

Lemma get_point_run (point_id : Z) (s : Session) (r : Res StoredPoint.t) (s' : Session) :
  get_point point_id s = (r, s') ->
  s' = s /\ (forall p, r = Ok p -> first_row (pending s) point_id = Some p).
Proof.
  unfold get_point, bind, get_db, first_row. cbv beta iota.
  destruct (filter (fun p => StoredPoint.id p =? point_id) (points (pending s))) as [| q l];
    intros E; injection E as <- <-; (split; [reflexivity |]); intros p H;
    [discriminate H | injection H as <-; reflexivity].
Qed.

Lemma unmasked_point_run (n point_id : Z) (s : Session) (out : Z * Z * Z * option Z)
  (s' : Session) :
  unmasked_point nonce n point_id s = (Ok out, s') ->
  stored s' = stored s /\ pending s' = pending s
  /\ retrieved nonce n (pending s) point_id out.
Proof.
  unfold unmasked_point. unfold bind at 1.
  destruct (get_point point_id s) as [[p | e] s1] eqn:Eg; [| discriminate].
  destruct (get_point_run _ _ _ _ Eg) as [-> Hp]. specialize (Hp p eq_refl).
  unfold bind at 1.
  destruct (enc_sub n (StoredPoint.fz_optimal p) (StoredPoint.current_offset p) s)
    as [[c1 | e] s1] eqn:Es; [| discriminate].
  apply enc_sub_inv in Es. destruct Es as [-> Hs].
  destruct (Hs c1 eq_refl) as (c & o & Ec & Eo & _ & ->).
  unfold bind at 1, ciphertext, bind at 1, draw at 1, ret at 1. cbv beta iota.
  unfold ret. cbv beta. intros E. injection E as <- <-. cbn [stored pending].
  split; [reflexivity |]. split; [reflexivity |].
  exists p. split; [exact Hp |]. cbn.
  split; [reflexivity |]. split; [reflexivity |]. split; [reflexivity |]. split.
  - exists c, o, (draws s). rewrite Ec. auto.
  - intros v Hnonce (o' & Ho' & c' & Hc' & Hv & Hd) Hw.
    rewrite Ec in Hc'. injection Hc' as <-. rewrite Eo in Ho'. injection Ho' as <-.
    split; [apply valid_obfuscate; [now apply valid_add_scalar | apply Hnonce] |].
    rewrite (shifted_decrypt n (nonce (draws s)) c (- o)); [lia | exact Hv | apply Hnonce |].
    replace (decrypt n c + - o) with v by lia. exact Hw.
Qed.

Lemma unmasked_points_run (n : Z) (pts : list Z) :
  forall s l s',
    unmasked_points nonce n pts s = (Ok l, s') ->
    stored s' = stored s /\ pending s' = pending s
    /\ Forall2 (retrieved nonce n (pending s)) pts l.
Proof.
  induction pts as [| point_id rest IH]; intros s l s' E; cbn [unmasked_points] in E.
  - injection E as <- <-. repeat split. constructor.
  - unfold bind at 1 in E.
    destruct (unmasked_point nonce n point_id s) as [[out | e] s1] eqn:E1; [| discriminate].
    destruct (unmasked_point_run _ _ _ _ _ E1) as (Hs1 & Hp1 & Hr).
    unfold bind at 1 in E.
    destruct (unmasked_points nonce n rest s1) as [[l' | e] s2] eqn:E2; [| discriminate].
    destruct (IH _ _ _ E2) as (Hs2 & Hp2 & Hf).
    injection E as <- <-.
    split; [congruence |]. split; [congruence |].
    constructor; [exact Hr |]. rewrite <- Hp1. exact Hf.
Qed.

Lemma store_comparison_returns (s : Session) (r : ComparisonResult) (who : Producer)
  (x : Z) (s' : Session) :
  _store_comparison config randint nonce r who s = (Ok x, s') -> x = result_point r.
Proof.
  destruct r as [[point_id rp] ru]. intros E.
  destruct (store_comparison_cases config randint nonce s point_id rp ru who _ s' E)
    as [(_ & _ & Hr) | [((e & He) & _) | (He & _)]].
  - destruct (Hr x eq_refl) as [-> _]. reflexivity.
  - discriminate He.
  - injection He as ->. reflexivity.
Qed.

Lemma get_points_loop_points (results : list ComparisonResult) (who : Producer) :
  forall s pts s',
    get_points_loop config randint nonce results who s = (Ok pts, s') ->
    pts = map result_point results.
Proof.
  induction results as [| r rest IH]; intros s pts s' E; cbn [get_points_loop] in E.
  - injection E as <- _. reflexivity.
  - unfold bind at 1 in E.
    destruct (_store_comparison config randint nonce r who s) as [[x | e] s1] eqn:E1;
      [| discriminate].
    apply store_comparison_returns in E1. subst x.
    unfold bind at 1 in E.
    destruct (remove_open_request (result_point r) who s1) as [[[] | e] s2];
      [| discriminate].
    unfold bind at 1 in E.
    match type of E with
    | match ?m s2 with _ => _ end = _ => destruct (m s2) as [[[] | e] s3]; [| discriminate]
    end.
    unfold bind at 1 in E.
    destruct (get_points_loop config randint nonce rest who s3) as [[l | e] s4] eqn:E4;
      [| discriminate].
    injection E as <- _. cbn [map]. f_equal. exact (IH _ _ _ E4).
Qed.

Lemma add_to_billing_committed (points : list Z) (client : Producer) (retrieval : Z)
  (s s' : Session) :
  _add_to_billing_db_producer points client retrieval s = (Ok tt, s') ->
  stored s' = pending s'.
Proof.
  unfold _add_to_billing_db_producer. unfold bind at 1.
  destruct (get_point_list points s) as [[rows | e] s1]; [| discriminate].
  unfold try_except, bind.
  destruct (add_all_billing _ client retrieval s1) as [[[] | e] s2].
  - unfold commit. intros E. injection E as <-. reflexivity.
  - unfold rollback, raise. discriminate.
Qed.

(** X6.  Whenever [get_points] returns, it has committed, and it returns
    one entry per comparison result, in order: the coordinates and the
    usage of the point the result names, as committed, and an obfuscated
    ciphertext of its optimal slot with the current offset of the point
    taken out, which decrypts to the optimal value of the point.  The key
    used for every entry is the one of the map of the first point. *)
Theorem get_points_returns_optimal (s : Session) (results : list ComparisonResult)
  (who : string) (l : list (Z * Z * Z * option Z)) (s' : Session) :
  get_points config randint nonce results who s = (Ok l, s') ->
  stored s' = pending s'
  /\ exists p0 m,
       first_row (stored s') (hd 0 (map result_point results)) = Some p0
       /\ map_at (stored s') (StoredPoint.map_id p0) m
       /\ Forall2 (retrieved nonce (MapKey.public_key_n m) (stored s'))
            (map result_point results) l.
Proof.
  intros E. unfold get_points in E. unfold bind at 1 in E.
  destruct (get_user who s) as [[client | e] s0] eqn:Eu; [| discriminate].
  unfold bind at 1 in E.
  match type of E with
  | match ?m s0 with _ => _ end = _ => destruct (m s0) as [[pts | e] s1] eqn:Etry;
                                         [| discriminate]
  end.
  assert (Hpts : pts = map result_point results).
  { unfold try_except in Etry. unfold bind at 1 in Etry.
    destruct (get_points_loop config randint nonce results client s0)
      as [[pts' | e] s1'] eqn:El.
    - cbn in Etry. injection Etry as <- _. exact (get_points_loop_points _ _ _ _ _ El).
    - cbn in Etry. discriminate. }
  unfold bind at 1 in E.
  destruct (_add_to_retrieval_db_producer pts client s1) as [[t | e] s2]; [| discriminate].
  unfold bind at 1 in E.
  destruct (_add_to_billing_db_producer pts client t s2) as [[[] | e] s3] eqn:Eb;
    [| discriminate].
  apply add_to_billing_committed in Eb.
  destruct pts as [| point0 rest]; [discriminate |].
  unfold bind at 1 in E.
  destruct (get_point point0 s3) as [[p0 | e] s4] eqn:Eg; [| discriminate].
  destruct (get_point_run _ _ _ _ Eg) as [-> Hp0]. specialize (Hp0 p0 eq_refl).
  unfold bind at 1 in E. unfold point_map, bind at 1 in E.
  rewrite query_map_key_run in E.
  destruct (filter (fun q => MapKey.map_id q =? StoredPoint.map_id p0) (map_keys (pending s3)))
    as [| m ms] eqn:Em; [discriminate |].
  unfold ret at 1 in E. cbv beta iota in E.
  destruct (unmasked_points_run _ _ _ _ _ E) as (Hst & Hpe & Hf).
  rewrite Hst, Hpe, Eb. split; [reflexivity |].
  exists p0, m. rewrite <- Hpts. cbn [hd].
  split; [exact Hp0 |]. split; [exists ms; exact Em | exact Hf].
Qed.

End Retrieval.

Section RetrievalExamples.
#[local] Existing Instance toy_cipher.

Lemma get_points_returns_optimal_witness :
  exists l s',
    get_points default_config ex_randint ex_nonce [(1, None, None)] "bob" ex_batch_client
    = (Ok l, s')
    /\ stored s' = pending s'
    /\ exists p0 m,
         first_row (stored s') 1 = Some p0
         /\ map_at (stored s') (StoredPoint.map_id p0) m
         /\ Forall2 (retrieved ex_nonce (MapKey.public_key_n m) (stored s')) [1] l.
Proof.
  destruct (get_points default_config ex_randint ex_nonce [(1, None, None)] "bob"
              ex_batch_client) as [[l | e] s'] eqn:E; [| vm_compute in E; discriminate E].
  exists l, s'. split; [reflexivity |].
  exact (get_points_returns_optimal default_config ex_randint ex_nonce ex_batch_client
           [(1, None, None)] "bob" l s' E).
Defined.

End RetrievalExamples.

(** ** Comparisons handed out *)

Lemma first_row_update (d : DB) (pid pid' : Z) (f : StoredPoint.t -> StoredPoint.t) :
  (forall p, StoredPoint.id (f p) = StoredPoint.id p) ->
  first_row
    (set_points (map (fun p => if StoredPoint.id p =? pid' then f p else p) (points d)) d)
    pid
  = option_map (fun p => if StoredPoint.id p =? pid' then f p else p) (first_row d pid).
Proof.
  intros Hf. unfold first_row. cbn [points set_points].
  induction (points d) as [| q l IH]; [reflexivity |]. cbn [map filter].
  assert (Hid : StoredPoint.id (if StoredPoint.id q =? pid' then f q else q)
                = StoredPoint.id q) by (destruct (_ =? pid'); [apply Hf | reflexivity]).
  rewrite Hid. destruct (StoredPoint.id q =? pid); [reflexivity | exact IH].
Qed.

Lemma first_row_id (d : DB) (pid : Z) (p : StoredPoint.t) :
  first_row d pid = Some p -> StoredPoint.id p = pid /\ In p (points d).
Proof.
  unfold first_row. intros H.
  destruct (filter (fun q => StoredPoint.id q =? pid) (points d)) as [| q l] eqn:E;
    [discriminate |].
  injection H as ->.
  assert (Hin : In p (filter (fun q => StoredPoint.id q =? pid) (points d)))
    by (rewrite E; left; reflexivity).
  apply filter_In in Hin. destruct Hin as [Hin Hid]. apply Z.eqb_eq in Hid. auto.
Qed.

Lemma first_row_unique (d : DB) (p : StoredPoint.t) :
  unique_point_ids d -> In p (points d) -> first_row d (StoredPoint.id p) = Some p.
Proof.
  unfold unique_point_ids, first_row. induction (points d) as [| q l IH]; intros Hnd Hin;
    [destruct Hin |].
  cbn [map] in Hnd. inversion Hnd as [| x l' Hnot Hnd']; subst. cbn [filter].
  destruct Hin as [-> | Hin].
  - rewrite Z.eqb_refl. reflexivity.
  - destruct (StoredPoint.id q =? StoredPoint.id p) eqn:E; [| now apply IH].
    exfalso. apply Z.eqb_eq in E. apply Hnot. rewrite E. now apply in_map.
Qed.

Lemma mem_app_r (u : Producer) (l : list Producer) : mem u (l ++ [u]) = true.
Proof.
  unfold mem. rewrite existsb_app. cbn. rewrite String.eqb_refl. apply orb_true_r.
Qed.

Lemma mem_app_mono (u x : Producer) (l : list Producer) :
  mem x l = true -> mem x (l ++ [u]) = true.
Proof.
  unfold mem. intros H. apply existsb_exists in H. destruct H as (y & Hin & Hy).
  apply existsb_exists. exists y. split; [apply in_or_app; left; exact Hin | exact Hy].
Qed.

Lemma shown_without_requests (config : Config) (who : Producer) (p p' : StoredPoint.t) :
  without_requests p' = without_requests p -> shown config who p' = shown config who p.
Proof.
  intros H.
  change (shown config who (without_requests p') = shown config who (without_requests p)).
  now rewrite H.
Qed.

Lemma more_requests_refl (p : StoredPoint.t) : more_requests p p.
Proof. repeat split; auto. Qed.

Lemma more_requests_trans (p q r : StoredPoint.t) :
  more_requests p q -> more_requests q r -> more_requests p r.
Proof.
  intros (H1 & H2 & H3) (K1 & K2 & K3). split; [congruence |]. split; auto.
Qed.

Lemma requests_added_refl (s : Session) : requests_added s s.
Proof.
  split; [reflexivity |]. split; [reflexivity |]. split; [| auto].
  intros pid p Hp. exists p. split; [exact Hp | apply more_requests_refl].
Qed.

Lemma requests_added_trans (s1 s2 s3 : Session) :
  requests_added s1 s2 -> requests_added s2 s3 -> requests_added s1 s3.
Proof.
  intros (H1 & H2 & H3 & H4) (K1 & K2 & K3 & K4).
  split; [congruence |]. split; [congruence |]. split; [| auto].
  intros pid p Hp. destruct (H3 pid p Hp) as (p' & Hp' & Hm).
  destruct (K3 pid p' Hp') as (p'' & Hp'' & Hm').
  exists p''. split; [exact Hp'' | eapply more_requests_trans; eassumption].
Qed.

(** A request added to the rows of one point. *)
Lemma add_request_run (s : Session) (point_id : Z) (g : StoredPoint.t -> StoredPoint.t) :
  (forall p, StoredPoint.id (g p) = StoredPoint.id p) ->
  (forall p, more_requests p (g p)) ->
  exists s1,
    update_point point_id g s = (Ok tt, s1)
    /\ requests_added s s1
    /\ (forall p, first_row (pending s) point_id = Some p ->
                  first_row (pending s1) point_id = Some (g p)).
Proof.
  intros Hid Hg.
  exists {| stored := stored s;
            pending := set_points
                         (map (fun p => if StoredPoint.id p =? point_id then g p else p)
                            (points (pending s))) (pending s);
            draws := draws s |}.
  split; [reflexivity |]. cbn [stored pending].
  split; [| intros p Hp; rewrite (first_row_update (pending s) _ point_id g Hid), Hp; cbn;
            destruct (first_row_id _ _ _ Hp) as [-> _]; rewrite Z.eqb_refl; reflexivity].
  split; [reflexivity |]. split; [reflexivity |]. split.
  - intros pid p Hp. rewrite (first_row_update (pending s) _ point_id g Hid), Hp. cbn.
    eexists. split; [reflexivity |].
    destruct (StoredPoint.id p =? point_id); [apply Hg | apply more_requests_refl].
  - intros pid Hp. rewrite (first_row_update (pending s) _ point_id g Hid), Hp.
    reflexivity.
Qed.

Section Prepare.
Variable config : Config.

(** What the loop of [_prepare_comparisons] does to the rows. *)
Lemma prepare_comparisons_loop_run (l : list Z) (who : Producer) :
  forall s cs s',
    _prepare_comparisons_loop config l who s = (Ok cs, s') ->
    requests_added s s'
    /\ (forall pid p p',
          In pid l -> first_row (pending s) pid = Some p ->
          first_row (pending s') pid = Some p' -> standing who p')
    /\ Forall2 (fun pid c => exists p, first_row (pending s) pid = Some p
                                       /\ c = shown config who p) l cs.
Proof.
  induction l as [| point_id rest IH]; intros s cs s' E; cbn [_prepare_comparisons_loop] in E.
  - injection E as <- <-. split; [apply requests_added_refl |].
    split; [intros pid p p' [] | constructor].
  - unfold bind at 1 in E.
    destruct (get_point point_id s) as [[q | e] s0] eqn:Eg; [| discriminate].
    destruct (get_point_run _ _ _ _ Eg) as [-> Hq]. specialize (Hq q eq_refl).
    assert (H1 : exists s1 q1,
              (if negb (mem who (StoredPoint.open_requests q))
               then update_point point_id
                      (fun p => StoredPoint.set_open_requests
                                  (StoredPoint.open_requests p ++ [who]) p)
               else ret tt) s = (Ok tt, s1)
              /\ requests_added s s1
              /\ first_row (pending s1) point_id = Some q1
              /\ more_requests q q1
              /\ mem who (StoredPoint.open_requests q1) = true).
    { destruct (mem who (StoredPoint.open_requests q)) eqn:Eo; cbn [negb].
      - exists s, q. split; [reflexivity |]. split; [apply requests_added_refl |].
        split; [exact Hq |]. split; [apply more_requests_refl | exact Eo].
      - destruct (add_request_run s point_id
                    (fun p => StoredPoint.set_open_requests
                                (StoredPoint.open_requests p ++ [who]) p))
          as (s1 & E1 & Hr & Hf).
        + reflexivity.
        + intros p. split; [reflexivity |]. split; [| auto].
          intros x Hx. cbn. now apply mem_app_mono.
        + exists s1. eexists. split; [exact E1 |]. split; [exact Hr |].
          split; [apply Hf, Hq |]. split.
          * split; [reflexivity |]. split; [| auto].
            intros x Hx. cbn. now apply mem_app_mono.
          * cbn. apply mem_app_r. }
    destruct H1 as (s1 & q1 & E1 & Hr1 & Hq1 & Hm1 & Ho1).
    assert (H2 : exists s2 q2,
              (if negb (mem who (StoredPoint.current_comparators q))
               then update_point point_id
                      (fun p => StoredPoint.set_current_comparators
                                  (StoredPoint.current_comparators p ++ [who]) p)
               else ret tt) s1 = (Ok tt, s2)
              /\ requests_added s1 s2
              /\ first_row (pending s2) point_id = Some q2
              /\ more_requests q1 q2
              /\ mem who (StoredPoint.current_comparators q2) = true).
    { destruct (mem who (StoredPoint.current_comparators q)) eqn:Ec; cbn [negb].
      - exists s1, q1. split; [reflexivity |]. split; [apply requests_added_refl |].
        split; [exact Hq1 |]. split; [apply more_requests_refl |].
        destruct Hm1 as (_ & _ & Hcc). now apply Hcc.
      - destruct (add_request_run s1 point_id
                    (fun p => StoredPoint.set_current_comparators
                                (StoredPoint.current_comparators p ++ [who]) p))
          as (s2 & E2 & Hr & Hf).
        + reflexivity.
        + intros p. split; [reflexivity |]. split; [auto |].
          intros x Hx. cbn. now apply mem_app_mono.
        + exists s2. eexists. split; [exact E2 |]. split; [exact Hr |].
          split; [apply Hf, Hq1 |]. split.
          * split; [reflexivity |]. split; [auto |].
            intros x Hx. cbn. now apply mem_app_mono.
          * cbn. apply mem_app_r. }
    destruct H2 as (s2 & q2 & E2 & Hr2 & Hq2 & Hm2 & Hc2).
    unfold bind at 1 in E. rewrite E1 in E. unfold bind at 1 in E. rewrite E2 in E.
    unfold bind at 1 in E.
    destruct (_prepare_comparisons_loop config rest who s2) as [[cs' | e] s3] eqn:Er;
      [| discriminate].
    injection E as <- <-.
    destruct (IH _ _ _ Er) as (Hr3 & Hst3 & Hcs).
    assert (Hr12 : requests_added s s2) by (eapply requests_added_trans; eassumption).
    split; [eapply requests_added_trans; eassumption |]. split.
    + intros pid p p' Hin Hp Hp'.
      destruct (proj1 (proj2 (proj2 Hr12)) pid p Hp) as (p2 & Hp2 & Hm).
      destruct Hin as [<- | Hin]; [| exact (Hst3 pid p2 p' Hin Hp2 Hp')].
      rewrite Hq2 in Hp2. injection Hp2 as <-.
      destruct (proj1 (proj2 (proj2 Hr3)) point_id q2 Hq2) as (p3 & Hp3 & (_ & Ho3 & Hc3)).
      rewrite Hp' in Hp3. injection Hp3 as <-.
      split; [apply Ho3 | apply Hc3; exact Hc2].
      destruct Hm2 as (_ & Ho2 & _). apply Ho2. exact Ho1.
    + constructor.
      * exists q. auto.
      * eapply Forall2_impl; [| exact Hcs].
        intros pid c (p & Hp & ->).
        destruct (first_row (pending s) pid) as [p1 |] eqn:E0.
        -- destruct (proj1 (proj2 (proj2 Hr12)) pid p1 E0) as (p2 & Hp2 & (Hw & _)).
           rewrite Hp in Hp2. injection Hp2 as <-.
           exists p1. split; [reflexivity |]. now apply shown_without_requests.
        -- rewrite (proj2 (proj2 (proj2 Hr12)) pid E0) in Hp. discriminate Hp.
Qed.

End Prepare.

Lemma Forall2_map_in {A B C : Type} (f : A -> B) (R : B -> C -> Prop)
  (Q : A -> C -> Prop) (l : list A) (l' : list C) :
  (forall x y, In x l -> R (f x) y -> Q x y) -> Forall2 R (map f l) l' -> Forall2 Q l l'.
Proof.
  revert l'. induction l as [| x l IH]; intros l' H HF; cbn [map] in HF;
    inversion HF as [| b c bs cs Hb Htl]; subst; constructor.
  - apply H; [left; reflexivity | exact Hb].
  - apply IH; [| exact Htl]. intros x' y Hin. apply H. right. exact Hin.
Qed.

Section ComparisonsClient.
Variable config : Config.

(** X7.  What [get_comparisons_client] hands out.  Whenever it returns,
    for points with pairwise different primary keys, it returns one
    comparison for every point that passes the filter of the query (of
    the map, at the coordinates asked for, with an optimal value, not
    provided by the client, not bought by the client), in the order of
    the index on (map_id, ap, ae): the three slots of the point, or
    nothing when the client was its last comparator.  The client is then recorded, committed, in the
    [open_requests] and the [current_comparators] of each of these
    points, whose other columns are unchanged, and in the
    [past_requests] of the map. *)
Theorem comparisons_for_client (s : Session) (map_id : Z) (ap_ae : list (Z * Z))
  (who : string) (cs : list Comparison) (s' : Session) :
  unique_point_ids (pending s) ->
  get_comparisons_client config map_id ap_ae who s = (Ok cs, s') ->
  stored s' = pending s'
  /\ regular_queried (stored s') map_id who
  /\ Forall2 (fun p0 c =>
                c = shown config who p0
                /\ exists p, first_row (stored s') (StoredPoint.id p0) = Some p
                             /\ more_requests p0 p /\ standing who p)
       (index_order (filter (client_filter map_id ap_ae who who) (points (pending s)))) cs.
Proof.
  intros Hnd E. unfold get_comparisons_client in E. unfold bind at 1 in E.
  destruct (get_user who s) as [[client | e] s1] eqn:Eu; [| discriminate E].
  destruct (get_user_eq _ _ _ _ Eu) as [-> Hc]. destruct (Hc client eq_refl) as [-> _].
  unfold bind at 1 in E. unfold try_except, bind in E. rewrite query_map_key_run in E.
  unfold lift in E.
  destruct (filter (fun m => MapKey.map_id m =? map_id) (map_keys (pending s)))
    as [| mk [| mk2 rest]] eqn:Em; cbn [one] in E; [discriminate E | | discriminate E].
  destruct (filter_singleton_in _ _ _ Em) as [Hmkin Hmkid]. apply Z.eqb_eq in Hmkid.
  destruct (reverse_queried_state s mk who) as [b Eb]. rewrite Eb in E.
  destruct b; [discriminate E |].
  unfold get_db at 1 in E. cbv beta iota in E.
  destruct (index_order (filter (client_filter map_id ap_ae who who) (points (pending s))))
    as [| p0 ps] eqn:Ef; [discriminate E |].
  cbv beta iota in E.
  match type of E with
  | (let (r, s') := ?m s in _) = _ =>
      assert (H2 : exists s2,
                m s = (Ok tt, s2)
                /\ stored s2 = stored s /\ points (pending s2) = points (pending s)
                /\ regular_queried (pending s2) map_id who)
  end.
  { destruct (mem who (MapKey.past_requests mk)) eqn:Ep; cbn [negb].
    - exists s. split; [reflexivity |]. split; [reflexivity |]. split; [reflexivity |].
      exists mk. auto.
    - eexists. split; [reflexivity |]. cbn. split; [reflexivity |]. split; [reflexivity |].
      exists (MapKey.set_past_requests (MapKey.past_requests mk ++ [who]) mk).
      split; [| split; [exact Hmkid | apply mem_app_r]].
      apply in_map_iff. exists mk. rewrite Z.eqb_refl. auto. }
  destruct H2 as (s2 & E2 & Hst2 & Hpts2 & Hreg2).
  rewrite E2 in E. unfold _prepare_comparisons in E. unfold bind at 1 in E.
  destruct (_prepare_comparisons_loop config (map StoredPoint.id (p0 :: ps)) who s2)
    as [[cs' | e] s3] eqn:El; [| discriminate E].
  unfold bind, commit, ret in E. injection E as <- <-. cbn [stored pending].
  destruct (prepare_comparisons_loop_run config _ _ _ _ _ El)
    as ((Hst3 & Htab3 & Hrows3 & _) & Hstand & Hcs).
  split; [reflexivity |]. split.
  - destruct Hreg2 as (m & Hin & Hid & Hpast). exists m.
    assert (Hk : map_keys (pending s3) = map_keys (pending s2))
      by (apply (f_equal map_keys) in Htab3; exact Htab3).
    rewrite Hk. auto.
  - assert (Hfirst : forall q, In q (p0 :: ps) ->
                       first_row (pending s2) (StoredPoint.id q) = Some q).
    { intros q Hq. unfold first_row. rewrite Hpts2.
      apply (first_row_unique (pending s) q Hnd).
      rewrite <- Ef in Hq. apply index_order_in, filter_In in Hq. tauto. }
    eapply Forall2_map_in; [| exact Hcs].
    intros q c Hq (p & Hp & ->). cbv beta.
    rewrite (Hfirst q Hq) in Hp. injection Hp as <-.
    split; [reflexivity |].
    destruct (Hrows3 _ _ (Hfirst q Hq)) as (p' & Hp' & Hm).
    exists p'. split; [exact Hp' |]. split; [exact Hm |].
    apply (Hstand (StoredPoint.id q) q p'); [now apply in_map | now apply Hfirst | exact Hp'].
Qed.

End ComparisonsClient.

(** The two points of the map, the point at (2, 2) having been stored
    before the point at (1, 1). *)
Definition ex_batch_unordered : Session :=
  ex_session (ex_db [] [] [ex_contested_point; ex_plain_point] []).

Lemma comparisons_for_client_witness :
  exists cs s',
    get_comparisons_client default_config 1 [(1, 1); (2, 2)] "bob" ex_batch_unordered
    = (Ok cs, s')
    /\ stored s' = pending s'
    /\ regular_queried (stored s') 1 "bob"
    /\ Forall2 (fun p0 c =>
                  c = shown default_config "bob" p0
                  /\ exists p, first_row (stored s') (StoredPoint.id p0) = Some p
                               /\ more_requests p0 p /\ standing "bob" p)
         [ex_plain_point; ex_contested_point] cs.
Proof.
  destruct (get_comparisons_client default_config 1 [(1, 1); (2, 2)] "bob"
              ex_batch_unordered) as [[cs | e] s'] eqn:E; [| vm_compute in E; discriminate E].
  exists cs, s'. split; [reflexivity |].
  apply (comparisons_for_client default_config ex_batch_unordered 1 [(1, 1); (2, 2)] "bob"
           cs s'); [| exact E].
  unfold unique_point_ids. cbn.
  constructor; [intros [H | []]; discriminate H |].
  constructor; [intros [] | constructor].
Defined.

(** ** Provision of a value *)

Section Provision.
Context {cipher : Cipher}.
Variable config : Config.
Variables randint nonce : nat -> Z.

Lemma get_point_at (s : Session) (point_id : Z) (p : StoredPoint.t) :
  point_at (pending s) point_id p -> get_point point_id s = (Ok p, s).
Proof.
  unfold point_at, get_point, bind, get_db. cbv beta iota. intros ->. reflexivity.
Qed.

Lemma update_point_run (s : Session) (point_id : Z) (p : StoredPoint.t)
  (f : StoredPoint.t -> StoredPoint.t) :
  point_at (pending s) point_id p ->
  update_point point_id f s
  = (Ok tt, {| stored := stored s; pending := put_point point_id (f p) (pending s);
               draws := draws s |}).
Proof.
  intros H. unfold update_point, modify_db, put_point.
  rewrite (update_point_at _ _ _ f H). reflexivity.
Qed.

Lemma put_point_twice (d : DB) (point_id : Z) (a b : StoredPoint.t) :
  StoredPoint.id a = point_id ->
  put_point point_id b (put_point point_id a d) = put_point point_id b d.
Proof.
  intros Ha. unfold put_point, set_points. destruct d; cbn. f_equal.
  rewrite map_map. apply map_ext. intros q.
  destruct (StoredPoint.id q =? point_id) eqn:E; [| rewrite E; reflexivity].
  rewrite Ha, Z.eqb_refl. reflexivity.
Qed.

Lemma mem_list_remove (who : Producer) (l : list Producer) :
  mem who l = true -> exists l', list_remove who l = Some l'.
Proof.
  induction l as [| x r IH]; [discriminate |]. cbn [list_remove].
  destruct (String.eqb x who) eqn:E; [eauto |].
  intros H. unfold mem in H. cbn [existsb] in H. rewrite String.eqb_sym, E in H.
  destruct (IH H) as [l' ->]. eauto.
Qed.

(** The rotation outside of evaluation mode, with the whole point; the
    two offsets are scalars that [phe] encodes. *)
Lemma rotate_offset_rotated (n : Z) (who : Producer) (q : StoredPoint.t) (s : Session)
  (o1 : Z) :
  EVAL config = false ->
  StoredPoint.current_offset q = Some o1 ->
  let o2 := randint (draws s) in
  Z.abs o1 <= max_int n ->
  Z.abs o2 <= max_int n ->
  exists fo fp k,
    rotate_offset config randint nonce n who q s
    = (Ok (rotated who o2 fo fp q),
       {| stored := stored s; pending := pending s; draws := k |})
    /\ (truthy (StoredPoint.fz_optimal q) = false -> fo = StoredPoint.fz_optimal q)
    /\ (forall c, StoredPoint.fz_optimal q = Some c -> c <> 0 ->
          exists i, fo = Some (remasked n (nonce i) c o1 o2))
    /\ (truthy (StoredPoint.fz_pending q) = false -> fp = StoredPoint.fz_pending q)
    /\ (forall c, StoredPoint.fz_pending q = Some c -> c <> 0 ->
          exists i, fp = Some (remasked n (nonce i) c o1 o2)).
Proof.
  intros HE Ho o2 Hr1 Hr2. subst o2.
  unfold rotate_offset, bind, random_offset, draw, ret.
  destruct q as [qid qmap qap qae qusage fo po fp pp fu pu oreq off cc lc pv].
  cbn in Ho. subst off. unfold rotated. cbn -[remask]. rewrite HE.
  destruct fo as [co |]; [destruct (co =? 0) eqn:Eco |];
    (destruct fp as [cp |]; [destruct (cp =? 0) eqn:Ecp |]);
    cbn -[remask]; rewrite ?Eco; cbn -[remask];
    rewrite ?(remask_run nonce n _ o1 _ _ Hr1 Hr2); cbn -[remask];
    rewrite ?Ecp; cbn -[remask];
    rewrite ?(remask_run nonce n _ o1 _ _ Hr1 Hr2); cbn -[remask];
    cbv beta iota delta [StoredPoint.set_pending StoredPoint.set_optimal
      StoredPoint.set_current_offset StoredPoint.set_current_comparators
      StoredPoint.set_last_comparator StoredPoint.id StoredPoint.map_id StoredPoint.ap
      StoredPoint.ae StoredPoint.usage_total StoredPoint.fz_optimal
      StoredPoint.provider_optimal StoredPoint.fz_pending StoredPoint.provider_pending
      StoredPoint.fz_unknown StoredPoint.provider_unknown StoredPoint.open_requests
      StoredPoint.current_offset StoredPoint.current_comparators
      StoredPoint.last_comparator StoredPoint.point_vendees];
    do 3 eexists; (split; [reflexivity |]); cbn;
    (split; [intros H; cbn in H; rewrite ?Eco in H; try discriminate H; reflexivity |]);
    (split; [intros c Hc Hnz; try discriminate; injection Hc as <-;
             try (apply Z.eqb_eq in Eco; contradiction); eexists; reflexivity |]);
    (split; [intros H; cbn in H; rewrite ?Ecp in H; try discriminate H; reflexivity |]);
    intros c Hc Hnz; try discriminate; injection Hc as <-;
    try (apply Z.eqb_eq in Ecp; contradiction);
    eexists; reflexivity.
Qed.

Lemma set_usage_total_same (p : StoredPoint.t) :
  StoredPoint.set_usage_total (StoredPoint.usage_total p) p = p.
Proof. destruct p; reflexivity. Qed.

Lemma point_at_points (d d' : DB) (point_id : Z) (p : StoredPoint.t) :
  points d' = points d -> point_at d point_id p -> point_at d' point_id p.
Proof. unfold point_at. intros ->. exact (fun H => H). Qed.

(** The usage part of a record succeeds on a point and a usage row that
    exist, and changes nothing of the point but its usage. *)
Lemma store_usage_run (n point_id usage_id usage : Z) (s : Session) (q : StoredPoint.t)
  (u : MapUsage.t) :
  point_at (pending s) point_id q ->
  usage_at (pending s) usage_id = [u] ->
  exists ut s',
    store_usage nonce n point_id usage_id usage s = (Ok tt, s')
    /\ stored s' = stored s
    /\ map_keys (pending s') = map_keys (pending s)
    /\ point_at (pending s') point_id (StoredPoint.set_usage_total ut q).
Proof.
  intros Hp Hu. unfold store_usage. unfold bind at 1. rewrite (get_point_at _ _ _ Hp).
  cbv beta iota. unfold bind at 1, get_db at 1. cbv beta iota.
  unfold bind at 1, lift at 1. unfold usage_at in Hu. rewrite Hu. cbn [one].
  assert (Hid : StoredPoint.id q = point_id) by exact (point_at_id _ _ _ Hp).
  assert (Hput : forall ut d1,
            points d1
            = map (fun p => if StoredPoint.id p =? point_id
                            then StoredPoint.set_usage_total ut p else p) (points (pending s)) ->
            point_at d1 point_id (StoredPoint.set_usage_total ut q)).
  { intros ut d1 E. unfold point_at. rewrite E.
    rewrite (update_point_at _ _ _ (StoredPoint.set_usage_total ut) Hp).
    apply (point_at_put_point _ _ _ _ Hp). exact Hid. }
  destruct (StoredPoint.usage_total q) as [c |] eqn:Ec;
    [destruct (c =? 0) eqn:Ez |];
    destruct (MapUsage.usage_provider u) as [cu |];
    try destruct (cu =? 0) eqn:Ezu;
    unfold truthy, enc_add_ct, ciphertext, update_point, update_map_usage, modify_db,
      bind, ret, draw;
    cbn; rewrite ?Ez, ?Ezu; cbn;
    do 2 eexists; (split; [reflexivity |]); cbn;
    (split; [reflexivity |]); (split; [reflexivity |]);
    apply Hput; reflexivity.
Qed.

(** One record of [store_records] whose comparison result was accepted:
    the request is closed, the value is masked with the offset of the
    point and placed, and the usage is added. *)
Lemma store_record_run (s s1 : Session) (point_id : Z) (rp ru : option Z) (fz usage : Z)
  (who : Producer) (q : StoredPoint.t) (l : list Producer) (m : MapKey.t) (u : MapUsage.t)
  (o : Z) :
  _store_comparison config randint nonce (point_id, rp, ru) who s = (Ok point_id, s1) ->
  point_at (pending s1) point_id q ->
  list_remove who (StoredPoint.open_requests q) = Some l ->
  filter (fun k => MapKey.map_id k =? StoredPoint.map_id q) (map_keys (pending s1)) = [m] ->
  usage_rows (pending s1) (StoredPoint.map_id q) who = [u] ->
  usage_at (pending s1) (MapUsage.id u) = [u] ->
  StoredPoint.current_offset q = Some o ->
  Z.abs o <= max_int (MapKey.public_key_n m) ->
  fz <> 0 ->
  exists ut i s2,
    store_records_loop config randint nonce [(point_id, rp, ru, fz, usage)] who s
    = (Ok tt, s2)
    /\ stored s2 = stored s1
    /\ point_at (pending s2) point_id
         (StoredPoint.set_usage_total ut
            (placed who (obfuscate (MapKey.public_key_n m) (nonce i)
                           (add_scalar (MapKey.public_key_n m) fz o))
               (StoredPoint.set_open_requests l q))).
Proof.
  intros E Hp Hl Hm Hu Hid Ho Hrange Hfz.
  assert (Hq : StoredPoint.id q = point_id) by exact (point_at_id _ _ _ Hp).
  cbn [store_records_loop]. unfold bind at 1. rewrite E. cbv beta iota.
  unfold bind at 1, remove_open_request, bind at 1. rewrite (get_point_at _ _ _ Hp).
  cbv beta iota. rewrite Hl. rewrite (update_point_run _ _ _ _ Hp).
  set (q1 := StoredPoint.set_open_requests l q).
  set (s2 := {| stored := stored s1; pending := put_point point_id q1 (pending s1);
                draws := draws s1 |}).
  assert (Hp2 : point_at (pending s2) point_id q1)
    by (apply (point_at_put_point _ _ _ _ Hp); exact Hq).
  cbv beta iota. unfold bind at 1. rewrite (get_point_at _ _ _ Hp2). cbv beta iota zeta.
  unfold bind at 1. rewrite query_map_key_run. cbv beta iota.
  change (map_keys (pending s2)) with (map_keys (pending s1)).
  change (StoredPoint.map_id q1) with (StoredPoint.map_id q).
  rewrite Hm. unfold bind at 1, lift at 1. cbn [one].
  unfold bind at 1, query_map_usage, bind at 1, get_db at 1, ret at 1. cbv beta iota.
  change (map_usage (pending s2)) with (map_usage (pending s1)).
  unfold usage_rows in Hu. rewrite Hu. unfold bind at 1, lift at 1. cbn [one].
  assert (Ez : (fz =? 0) = false) by (apply Z.eqb_neq; exact Hfz).
  rewrite Ez. cbn [negb].
  change (StoredPoint.current_offset q1) with (StoredPoint.current_offset q). rewrite Ho.
  unfold bind at 1, bind at 1. rewrite enc_add_run by exact Hrange. cbv beta iota.
  unfold bind at 1, ciphertext, bind at 1, draw at 1, ret at 1. cbv beta iota.
  set (c := obfuscate (MapKey.public_key_n m) (nonce (draws s2))
              (add_scalar (MapKey.public_key_n m) fz o)).
  set (s3 := {| stored := stored s2; pending := pending s2; draws := S (draws s2) |}).
  assert (Hp3 : point_at (pending s3) point_id q1) by exact Hp2.
  assert (E3 : exists s4,
            (if truthy (StoredPoint.fz_optimal q1)
             then update_point point_id (StoredPoint.set_unknown (Some c) (Some who))
             else update_point point_id (StoredPoint.set_optimal (Some c) (Some who))) s3
            = (Ok tt, s4)
            /\ stored s4 = stored s1 /\ map_keys (pending s4) = map_keys (pending s1)
            /\ map_usage (pending s4) = map_usage (pending s1)
            /\ point_at (pending s4) point_id (placed who c q1)).
  { unfold placed. destruct (truthy (StoredPoint.fz_optimal q1));
      rewrite (update_point_run _ _ _ _ Hp3); eexists; (split; [reflexivity |]);
      (split; [reflexivity |]); (split; [reflexivity |]); (split; [reflexivity |]);
      apply (point_at_put_point _ _ _ _ Hp3); exact Hq. }
  destruct E3 as (s4 & E4 & Hs4 & Hk4 & Hu4 & Hp4).
  unfold ret at 1. cbv beta iota. rewrite E4. cbv beta iota.
  destruct (usage =? 0) eqn:Eu; cbn [negb].
  - unfold bind at 1, ret at 1. cbv beta iota. cbn [store_records_loop]. unfold ret.
    exists (StoredPoint.usage_total (placed who c q1)), (draws s2), s4.
    split; [reflexivity |]. split; [exact Hs4 |].
    rewrite set_usage_total_same. exact Hp4.
  - unfold bind at 1.
    assert (Hid4 : usage_at (pending s4) (MapUsage.id u) = [u])
      by (unfold usage_at; rewrite Hu4; exact Hid).
    destruct (store_usage_run (MapKey.public_key_n m) point_id (MapUsage.id u) usage s4 _ u
                Hp4 Hid4) as (ut & s5 & E5 & Hs5 & _ & Hp5).
    rewrite E5. cbv beta iota. cbn [store_records_loop]. unfold ret.
    exists ut, (draws s2), s5.
    split; [reflexivity |]. split; [congruence |]. exact Hp5.
Qed.

(** X8. A provider with a standing request submits one record for a
    settled point (nothing pending, no unknown value) outside of
    evaluation mode, the offset of the point and the offset drawn for the
    rotation being scalars that [phe] encodes (at most [n // 3 - 1] in
    absolute value): [store_records] succeeds and commits; the request is
    closed, the point is masked with the offset drawn for the rotation,
    and the provided value is stored under that new offset, in the
    optimal slot with the provider as its owner when the point had no
    value, and else in the unknown slot, the optimal value being kept
    under the new offset with its owner. *)
Theorem provision_masks_value (s : Session) (point_id : Z) (fz usage : Z) (who : string)
  (p : StoredPoint.t) (m : MapKey.t) (u : MapUsage.t) (o1 : Z) :
  let n := MapKey.public_key_n m in
  let o2 := randint (draws s) in
  EVAL config = false ->
  In who (producers (pending s)) ->
  point_at (pending s) point_id p ->
  filter (fun k => MapKey.map_id k =? StoredPoint.map_id p) (map_keys (pending s)) = [m] ->
  usage_rows (pending s) (StoredPoint.map_id p) who = [u] ->
  usage_at (pending s) (MapUsage.id u) = [u] ->
  standing who p ->
  opt_producer_eqb (StoredPoint.last_comparator p) (Some who) = false ->
  truthy (StoredPoint.fz_pending p) = false ->
  truthy (StoredPoint.fz_unknown p) = false ->
  StoredPoint.current_offset p = Some o1 ->
  Z.abs o1 <= max_int n ->
  Z.abs o2 <= max_int n ->
  (forall i, good_nonce n (nonce i)) ->
  valid_ct n fz ->
  - n < 2 * (decrypt n fz + o2) <= n ->
  (forall c, StoredPoint.fz_optimal p = Some c ->
             valid_ct n c /\ - n < 2 * (decrypt n c - o1 + o2) <= n) ->
  exists p' l s',
    store_records config randint nonce [(point_id, None, None, fz, usage)] who s
    = (Ok tt, s')
    /\ stored s' = pending s'
    /\ point_at (stored s') point_id p'
    /\ list_remove who (StoredPoint.open_requests p) = Some l
    /\ StoredPoint.open_requests p' = l
    /\ StoredPoint.current_offset p' = Some o2
    /\ StoredPoint.last_comparator p' = Some who
    /\ match StoredPoint.fz_optimal p with
       | None =>
           slot_value n (StoredPoint.fz_optimal p') o2 (decrypt n fz)
           /\ StoredPoint.provider_optimal p' = Some who
       | Some c =>
           slot_value n (StoredPoint.fz_unknown p') o2 (decrypt n fz)
           /\ StoredPoint.provider_unknown p' = Some who
           /\ slot_value n (StoredPoint.fz_optimal p') o2 (decrypt n c - o1)
           /\ StoredPoint.provider_optimal p' = StoredPoint.provider_optimal p
       end.
Proof.
  intros n o2 HE Hwho Hp Hm Hu Hid [Hreq Hcur] Hlast Hpend Hunk Ho Hr1 Hr2 Hnonce Hfz Hw
    Hold.
  assert (Hmap : map_at (pending s) (StoredPoint.map_id p) m) by (exists []; exact Hm).
  assert (Hgo : negb (opt_producer_eqb (StoredPoint.last_comparator p) (Some who))
                || EVAL config = true) by (rewrite Hlast; reflexivity).
  pose proof (store_comparison_active config randint nonce s point_id None None who p m
                Hp Hmap Hreq Hcur Hgo) as E.
  unfold resolve_pending in E. cbn [truthy] in E. rewrite Hpend in E.
  unfold resolve_unknown in E. cbn [truthy] in E. rewrite Hunk in E.
  destruct (rotate_offset_rotated (MapKey.public_key_n m) who p s o1 HE Ho Hr1 Hr2)
    as (fo & fp & k & Er & Hfo0 & Hfo1 & _).
  rewrite Er in E. cbn [pending stored draws] in E.
  fold n o2 in E, Hfo1.
  set (p3 := rotated who o2 fo fp p) in E.
  set (s1 := {| stored := put_point point_id p3 (pending s);
                pending := put_point point_id p3 (pending s); draws := k |}) in E.
  assert (Hq : StoredPoint.id p = point_id) by exact (point_at_id _ _ _ Hp).
  assert (Hp3 : point_at (pending s1) point_id p3)
    by (apply (point_at_put_point _ _ _ _ Hp); exact Hq).
  destruct (mem_list_remove _ _ Hreq) as [l Hl].
  assert (Hfz0 : fz <> 0) by exact (valid_ct_nonzero _ _ Hfz).
  destruct (store_record_run s s1 point_id None None fz usage who p3 l m u o2
              E Hp3 Hl Hm Hu Hid eq_refl Hr2 Hfz0) as (ut & i & s2 & E2 & Hs2 & Hp2).
  fold n in Hp2.
  set (c := obfuscate n (nonce i) (add_scalar n fz o2)) in Hp2.
  assert (Hc : valid_ct n c /\ decrypt n c - o2 = decrypt n fz).
  { split; [apply valid_obfuscate; [apply valid_add_scalar; exact Hfz | apply Hnonce] |].
    unfold c. rewrite (shifted_decrypt n (nonce i) fz o2 Hfz (Hnonce i) Hw). lia. }
  eexists. exists l. eexists.
  split.
  { unfold store_records, bind at 1. rewrite (get_user_ok who s Hwho). cbv beta iota.
    unfold try_except, bind at 1. rewrite E2. cbv beta iota. unfold commit. reflexivity. }
  cbn [stored pending].
  split; [reflexivity |]. split; [exact Hp2 |]. split; [exact Hl |].
  unfold placed. change (StoredPoint.fz_optimal (StoredPoint.set_open_requests l p3)) with fo.
  destruct (StoredPoint.fz_optimal p) as [c0 |] eqn:Ec0.
  - destruct (Hold c0 eq_refl) as [Hv0 Hw0].
    destruct (Hfo1 c0 eq_refl (valid_ct_nonzero _ _ Hv0)) as [j ->].
    assert (Hvr : valid_ct n (remasked n (nonce j) c0 o1 o2))
      by (apply remasked_valid; [exact Hv0 | apply Hnonce]).
    assert (Et : truthy (Some (remasked n (nonce j) c0 o1 o2)) = true).
    { cbn [truthy]. apply negb_true_iff, Z.eqb_neq. exact (valid_ct_nonzero _ _ Hvr). }
    rewrite Et.
    split; [reflexivity |]. split; [reflexivity |]. split; [reflexivity |].
    split; [exists c; split; [reflexivity | exact Hc] |].
    split; [reflexivity |].
    split; [| reflexivity].
    exists (remasked n (nonce j) c0 o1 o2). split; [reflexivity |]. split; [exact Hvr |].
    rewrite (remasked_decrypt n (nonce j) c0 o1 o2 Hv0 (Hnonce j) Hw0). lia.
  - rewrite (Hfo0 eq_refl). cbn [truthy].
    split; [reflexivity |]. split; [reflexivity |]. split; [reflexivity |].
    split; [exists c; split; [reflexivity | exact Hc] |].
    reflexivity.
Qed.

End Provision.

Section ProvisionExamples.
#[local] Existing Instance toy_cipher.

(** Bob provides the value 30 for point 1, which holds alice's optimal
    value: the value is stored as the unknown value of bob under the new
    offset 7. *)
Lemma provision_masks_value_witness :
  exists p' l s',
    store_records default_config ex_randint ex_nonce
      [(1, None, None, ex_enc 30, ex_enc 4)] "bob" ex_batch_provider
    = (Ok tt, s')
    /\ stored s' = pending s'
    /\ point_at (stored s') 1 p'
    /\ list_remove "bob" ["bob"] = Some l
    /\ StoredPoint.open_requests p' = l
    /\ StoredPoint.current_offset p' = Some 7
    /\ StoredPoint.last_comparator p' = Some "bob"
    /\ slot_value ex_n (StoredPoint.fz_unknown p') 7 (decrypt ex_n (ex_enc 30))
    /\ StoredPoint.provider_unknown p' = Some "bob"
    /\ slot_value ex_n (StoredPoint.fz_optimal p') 7 (decrypt ex_n ex_optimal - 5)
    /\ StoredPoint.provider_optimal p' = Some "alice".
Proof.
  apply (provision_masks_value default_config ex_randint ex_nonce ex_batch_provider 1
           (ex_enc 30) (ex_enc 4) "bob"
           (ex_point 1 (Some ex_optimal) (Some "alice") None None None None 5
              ["bob"] ["bob"] [])
           (ex_map ["bob"])
           {| MapUsage.id := 1; MapUsage.map_id := 1; MapUsage.provider := "bob";
              MapUsage.usage_provider := None |}
           5).
  - reflexivity.
  - vm_compute. auto.
  - reflexivity.
  - reflexivity.
  - reflexivity.
  - reflexivity.
  - split; reflexivity.
  - reflexivity.
  - reflexivity.
  - reflexivity.
  - reflexivity.
  - vm_compute. discriminate.
  - vm_compute. discriminate.
  - exact ex_nonce_good.
  - apply ex_enc_valid. unfold ex_n. lia.
  - vm_compute. split; [reflexivity | discriminate].
  - intros c H. injection H as <-.
    split; [apply ex_enc_valid; unfold ex_n; lia |].
    vm_compute. split; [reflexivity | discriminate].
Defined.

End ProvisionExamples.

(** ** Honest comparisons *)

Section HonestComparison.
Context {cipher : Cipher}.
Variable config : Config.
Variables randint nonce : nat -> Z.

(** A comparison result that passes both checks is stored with a
    rotation of the offset. *)
Lemma store_comparison_resolved (s : Session) (point_id : Z) (rp ru : option Z)
  (who : Producer) (p p1 p2 : StoredPoint.t) (m : MapKey.t) (o1 : Z) :
  EVAL config = false ->
  point_at (pending s) point_id p ->
  map_at (pending s) (StoredPoint.map_id p) m ->
  standing who p ->
  opt_producer_eqb (StoredPoint.last_comparator p) (Some who) = false ->
  resolve_pending p rp = Ok p1 ->
  resolve_unknown config p1 ru = Ok p2 ->
  StoredPoint.current_offset p2 = Some o1 ->
  let n := MapKey.public_key_n m in
  let o2 := randint (draws s) in
  Z.abs o1 <= max_int n ->
  Z.abs o2 <= max_int n ->
  exists fo fp k,
    _store_comparison config randint nonce (point_id, rp, ru) who s
    = (Ok point_id,
       {| stored := put_point point_id (rotated who o2 fo fp p2) (pending s);
          pending := put_point point_id (rotated who o2 fo fp p2) (pending s);
          draws := k |})
    /\ (truthy (StoredPoint.fz_optimal p2) = false -> fo = StoredPoint.fz_optimal p2)
    /\ (forall c, StoredPoint.fz_optimal p2 = Some c -> c <> 0 ->
          exists i, fo = Some (remasked n (nonce i) c o1 o2))
    /\ (truthy (StoredPoint.fz_pending p2) = false -> fp = StoredPoint.fz_pending p2)
    /\ (forall c, StoredPoint.fz_pending p2 = Some c -> c <> 0 ->
          exists i, fp = Some (remasked n (nonce i) c o1 o2)).
Proof.
  intros HE Hp Hmap [Hreq Hcur] Hlast E1 E2 Ho n o2 Hr1 Hr2.
  assert (Hgo : negb (opt_producer_eqb (StoredPoint.last_comparator p) (Some who))
                || EVAL config = true) by (rewrite Hlast; reflexivity).
  rewrite (store_comparison_active config randint nonce s point_id rp ru who p m
             Hp Hmap Hreq Hcur Hgo).
  rewrite E1, E2.
  destruct (rotate_offset_rotated config randint nonce (MapKey.public_key_n m) who p2 s o1
              HE Ho Hr1 Hr2) as (fo & fp & k & Er & H1 & H2 & H3 & H4).
  rewrite Er. exists fo, fp, k. cbn [pending stored draws].
  split; [reflexivity |]. split; [exact H1 |]. split; [exact H2 |].
  split; [exact H3 | exact H4].
Qed.

Lemma private_decrypt_decodable (n c : Z) :
  decodable n (decrypt n c) -> private_decrypt n c = inr (decrypt n c).
Proof.
  unfold decodable, private_decrypt. intros H. cbv zeta.
  apply Z.leb_le in H. rewrite H. reflexivity.
Qed.

Lemma truthy_valid (n c : Z) : valid_ct n c -> truthy (Some c) = true.
Proof.
  intros H. cbn [truthy]. apply negb_true_iff, Z.eqb_neq. exact (valid_ct_nonzero _ _ H).
Qed.

Lemma remasked_slot (n r c o1 o2 : Z) :
  valid_ct n c -> good_nonce n r ->
  - n < 2 * (decrypt n c - o1 + o2) <= n ->
  slot_value n (Some (remasked n r c o1 o2)) o2 (decrypt n c - o1).
Proof.
  intros Hv Hr Hw. exists (remasked n r c o1 o2). split; [reflexivity |].
  split; [apply remasked_valid; assumption |].
  rewrite (remasked_decrypt n r c o1 o2 Hv Hr Hw). lia.
Qed.

(** X9. The comparison of an honest producer keeps the maximum.  For a
    point with an optimal and an unknown value and nothing pending, the
    result [_perform_comparisons] computes from the comparison handed out
    is accepted by [_store_comparison] (unless the unknown value is not
    higher and comes from the provider of the optimal one), the offset of
    the point and the offset drawn for the rotation being scalars that
    [phe] encodes (at most [n // 3 - 1] in absolute value): afterwards
    the optimal slot holds the higher of the two values and the pending
    slot the lower one, under the new offset, the unknown slot is empty,
    and when the unknown value is strictly higher its provider owns the
    optimal value and the vendees are cleared. *)
Theorem honest_comparison_keeps_maximum (s : Session) (point_id : Z) (who : Producer)
  (p : StoredPoint.t) (m : MapKey.t) (o1 co cu : Z) :
  let n := MapKey.public_key_n m in
  let o2 := randint (draws s) in
  EVAL config = false ->
  point_at (pending s) point_id p ->
  map_at (pending s) (StoredPoint.map_id p) m ->
  standing who p ->
  opt_producer_eqb (StoredPoint.last_comparator p) (Some who) = false ->
  StoredPoint.current_offset p = Some o1 ->
  Z.abs o1 <= max_int n ->
  Z.abs o2 <= max_int n ->
  StoredPoint.fz_optimal p = Some co ->
  StoredPoint.fz_unknown p = Some cu ->
  truthy (StoredPoint.fz_pending p) = false ->
  valid_ct n co -> valid_ct n cu ->
  decodable n (decrypt n co) -> decodable n (decrypt n cu) ->
  (forall i, good_nonce n (nonce i)) ->
  - n < 2 * (decrypt n co - o1 + o2) <= n ->
  - n < 2 * (decrypt n cu - o1 + o2) <= n ->
  (decrypt n co < decrypt n cu
   \/ opt_producer_eqb (StoredPoint.provider_optimal p) (StoredPoint.provider_unknown p)
      = false) ->
  exists rp ru p' s',
    _perform_comparisons n [shown config who p] = inr [(point_id, rp, ru)]
    /\ _store_comparison config randint nonce (point_id, rp, ru) who s = (Ok point_id, s')
    /\ stored s' = pending s'
    /\ point_at (stored s') point_id p'
    /\ StoredPoint.current_offset p' = Some o2
    /\ slot_value n (StoredPoint.fz_optimal p') o2
         (Z.max (decrypt n co - o1) (decrypt n cu - o1))
    /\ slot_value n (StoredPoint.fz_pending p') o2
         (Z.min (decrypt n co - o1) (decrypt n cu - o1))
    /\ StoredPoint.fz_unknown p' = None
    /\ (decrypt n co < decrypt n cu ->
        StoredPoint.provider_optimal p' = StoredPoint.provider_unknown p
        /\ StoredPoint.provider_pending p' = StoredPoint.provider_optimal p
        /\ StoredPoint.point_vendees p' = [])
    /\ (decrypt n cu < decrypt n co ->
        StoredPoint.provider_optimal p' = StoredPoint.provider_optimal p
        /\ StoredPoint.provider_pending p' = StoredPoint.provider_unknown p
        /\ StoredPoint.point_vendees p' = StoredPoint.point_vendees p).
Proof.
  intros n o2 HE Hp Hmap Hst Hlast Ho Hr1 Hr2 Hco Hcu Hpend Hvo Hvu Hdo Hdu Hnonce Hwo Hwu
    Hor.
  assert (Hq : StoredPoint.id p = point_id) by exact (point_at_id _ _ _ Hp).
  assert (Hshown : shown config who p = (point_id, Some co, StoredPoint.fz_pending p, Some cu)).
  { unfold shown. rewrite Hlast, Hq, Hco, Hcu. reflexivity. }
  assert (Hclient : _perform_comparisons n [shown config who p]
                    = inr [(point_id, None,
                            if decrypt n co <? decrypt n cu then Some cu else Some co)]).
  { rewrite Hshown. unfold _perform_comparisons. cbn [_perform_comparisons_loop].
    rewrite (truthy_valid n co Hvo), (private_decrypt_decodable n co Hdo).
    unfold compare_optimal. rewrite Hpend, (truthy_valid n cu Hvu).
    rewrite (private_decrypt_decodable n cu Hdu). reflexivity. }
  assert (Hrp : resolve_pending p None = Ok p).
  { unfold resolve_pending. cbn [truthy]. rewrite Hpend. reflexivity. }
  assert (Hpromote : forall c, c = cu ->
            resolve_unknown config p (Some c)
            = Ok (StoredPoint.set_unknown None None
                    (StoredPoint.set_point_vendees []
                       (StoredPoint.set_optimal (Some c) (StoredPoint.provider_unknown p)
                          (StoredPoint.set_pending (Some co) (StoredPoint.provider_optimal p)
                             p))))).
  { intros c ->. unfold resolve_unknown. rewrite (truthy_valid n cu Hvu), Hcu.
    rewrite (truthy_valid n cu Hvu). cbn [negb opt_Z_eqb]. rewrite Z.eqb_refl, HE, Hco.
    reflexivity. }
  destruct (decrypt n co <? decrypt n cu) eqn:Elt.
  - apply Z.ltb_lt in Elt.
    destruct (store_comparison_resolved s point_id None (Some cu) who p p _ m o1
                HE Hp Hmap Hst Hlast Hrp (Hpromote cu eq_refl) Ho Hr1 Hr2)
      as (fo & fp & k & E & _ & Hfo & _ & Hfp).
    destruct (Hfo cu eq_refl (valid_ct_nonzero _ _ Hvu)) as [i ->].
    destruct (Hfp co eq_refl (valid_ct_nonzero _ _ Hvo)) as [j ->].
    exists None, (Some cu). eexists. eexists.
    split; [exact Hclient |]. split; [exact E |]. cbn [stored pending].
    split; [reflexivity |].
    split; [apply (point_at_put_point _ _ _ _ Hp); exact Hq |].
    split; [reflexivity |].
    split; [rewrite Z.max_r by lia; apply remasked_slot; [exact Hvu | apply Hnonce | exact Hwu] |].
    split; [rewrite Z.min_l by lia; apply remasked_slot; [exact Hvo | apply Hnonce | exact Hwo] |].
    split; [reflexivity |].
    split; [intros _; split; [reflexivity |]; split; reflexivity | intros H; lia].
  - apply Z.ltb_ge in Elt.
    destruct (co =? cu) eqn:Eq.
    + apply Z.eqb_eq in Eq.
      destruct (store_comparison_resolved s point_id None (Some co) who p p _ m o1
                  HE Hp Hmap Hst Hlast Hrp (Hpromote co Eq) Ho Hr1 Hr2)
        as (fo & fp & k & E & _ & Hfo & _ & Hfp).
      destruct (Hfo co eq_refl (valid_ct_nonzero _ _ Hvo)) as [i ->].
      destruct (Hfp co eq_refl (valid_ct_nonzero _ _ Hvo)) as [j ->].
      exists None, (Some co). eexists. eexists.
      split; [exact Hclient |]. split; [exact E |]. cbn [stored pending].
      split; [reflexivity |].
      split; [apply (point_at_put_point _ _ _ _ Hp); exact Hq |].
      split; [reflexivity |]. subst cu.
      split; [rewrite Z.max_l by lia; apply remasked_slot;
              [exact Hvo | apply Hnonce | exact Hwo] |].
      split; [rewrite Z.min_l by lia; apply remasked_slot;
              [exact Hvo | apply Hnonce | exact Hwo] |].
      split; [reflexivity |].
      split; intros H; lia.
    + destruct Hor as [Hlt | Hprov]; [lia |].
      assert (Hkeep : resolve_unknown config p (Some co)
                      = Ok (StoredPoint.set_unknown None None
                              (StoredPoint.set_pending (Some cu)
                                 (StoredPoint.provider_unknown p) p))).
      { unfold resolve_unknown. rewrite (truthy_valid n co Hvo), Hcu.
        rewrite (truthy_valid n cu Hvu). cbn [negb opt_Z_eqb]. rewrite Eq, Hco.
        cbn [opt_Z_eqb]. rewrite Z.eqb_refl. cbn [negb]. rewrite Hprov, HE. reflexivity. }
      destruct (store_comparison_resolved s point_id None (Some co) who p p _ m o1
                  HE Hp Hmap Hst Hlast Hrp Hkeep Ho Hr1 Hr2)
        as (fo & fp & k & E & _ & Hfo & _ & Hfp).
      destruct (Hfo co Hco (valid_ct_nonzero _ _ Hvo)) as [i ->].
      destruct (Hfp cu eq_refl (valid_ct_nonzero _ _ Hvu)) as [j ->].
      exists None, (Some co). eexists. eexists.
      split; [exact Hclient |]. split; [exact E |]. cbn [stored pending].
      split; [reflexivity |].
      split; [apply (point_at_put_point _ _ _ _ Hp); exact Hq |].
      split; [reflexivity |].
      split; [rewrite Z.max_l by lia; apply remasked_slot;
              [exact Hvo | apply Hnonce | exact Hwo] |].
      split; [rewrite Z.min_r by lia; apply remasked_slot;
              [exact Hvu | apply Hnonce | exact Hwu] |].
      split; [reflexivity |].
      split; [intros H; lia | intros _; split; [reflexivity |]; split; reflexivity].
Qed.

End HonestComparison.

Section HonestComparisonExamples.
#[local] Existing Instance toy_cipher.

(** Point 2 as bob is asked to compare it. *)
Definition ex_contested_requested : StoredPoint.t :=
  ex_point 2 (Some (ex_enc 36)) (Some "alice") None None (Some (ex_enc 43)) (Some "carol")
    3 ["bob"] ["bob"] [].

(** Bob compares alice's value 33 with carol's value 40 of point 2: the
    higher value of carol becomes the optimal one. *)
Lemma honest_comparison_keeps_maximum_witness :
  exists rp ru p' s',
    _perform_comparisons ex_n [shown default_config "bob" ex_contested_requested]
    = inr [(2, rp, ru)]
    /\ _store_comparison default_config ex_randint ex_nonce (2, rp, ru) "bob" ex_batch_client
       = (Ok 2, s')
    /\ stored s' = pending s'
    /\ point_at (stored s') 2 p'
    /\ StoredPoint.current_offset p' = Some 7
    /\ slot_value ex_n (StoredPoint.fz_optimal p') 7
         (Z.max (decrypt ex_n (ex_enc 36) - 3) (decrypt ex_n (ex_enc 43) - 3))
    /\ slot_value ex_n (StoredPoint.fz_pending p') 7
         (Z.min (decrypt ex_n (ex_enc 36) - 3) (decrypt ex_n (ex_enc 43) - 3))
    /\ StoredPoint.fz_unknown p' = None
    /\ (decrypt ex_n (ex_enc 36) < decrypt ex_n (ex_enc 43) ->
        StoredPoint.provider_optimal p' = Some "carol"
        /\ StoredPoint.provider_pending p' = Some "alice"
        /\ StoredPoint.point_vendees p' = [])
    /\ (decrypt ex_n (ex_enc 43) < decrypt ex_n (ex_enc 36) ->
        StoredPoint.provider_optimal p' = Some "alice"
        /\ StoredPoint.provider_pending p' = Some "carol"
        /\ StoredPoint.point_vendees p' = []).
Proof.
  apply (honest_comparison_keeps_maximum default_config ex_randint ex_nonce ex_batch_client
           2 "bob" ex_contested_requested (ex_map ["bob"]) 3 (ex_enc 36) (ex_enc 43)).
  - reflexivity.
  - reflexivity.
  - exists []. reflexivity.
  - split; reflexivity.
  - reflexivity.
  - reflexivity.
  - vm_compute. discriminate.
  - vm_compute. discriminate.
  - reflexivity.
  - reflexivity.
  - reflexivity.
  - apply ex_enc_valid. unfold ex_n. lia.
  - apply ex_enc_valid. unfold ex_n. lia.
  - vm_compute. discriminate.
  - vm_compute. discriminate.
  - exact ex_nonce_good.
  - vm_compute. split; [reflexivity | discriminate].
  - vm_compute. split; [reflexivity | discriminate].
  - left. vm_compute. reflexivity.
Defined.

End HonestComparisonExamples.

(** ** Verification of the latest comparison *)

Section HonestVerification.
Context {cipher : Cipher}.
Variable config : Config.
Variables randint nonce : nat -> Z.

(** X10. The next honest producer verifies the latest comparison.  For a
    point with an optimal and a pending value and no unknown one, the
    result [_perform_comparisons] computes is accepted by
    [_store_comparison] when the pending value is not higher than the
    optimal one and the offset of the point and the offset drawn are
    scalars that [phe] encodes (at most [n // 3 - 1] in absolute value):
    the pending slot is cleared and the optimal value kept under the new
    offset.  When the pending value is higher, the result is refused as a
    comparison that could not be verified, and the session is rolled
    back. *)
Theorem honest_verification (s : Session) (point_id : Z) (who : Producer)
  (p : StoredPoint.t) (m : MapKey.t) (o1 co cp : Z) :
  let n := MapKey.public_key_n m in
  let o2 := randint (draws s) in
  EVAL config = false ->
  point_at (pending s) point_id p ->
  map_at (pending s) (StoredPoint.map_id p) m ->
  standing who p ->
  opt_producer_eqb (StoredPoint.last_comparator p) (Some who) = false ->
  StoredPoint.current_offset p = Some o1 ->
  StoredPoint.fz_optimal p = Some co ->
  StoredPoint.fz_pending p = Some cp ->
  truthy (StoredPoint.fz_unknown p) = false ->
  valid_ct n co -> valid_ct n cp ->
  decodable n (decrypt n co) -> decodable n (decrypt n cp) ->
  (forall i, good_nonce n (nonce i)) ->
  - n < 2 * (decrypt n co - o1 + o2) <= n ->
  exists rp,
    _perform_comparisons n [shown config who p] = inr [(point_id, rp, None)]
    /\ (decrypt n co < decrypt n cp ->
        _store_comparison config randint nonce (point_id, rp, None) who s
        = (Raise (ValueErrorFrom ""
                    (ValueError
                       "Latest comparison could not be verified, please contact platform operators.")),
           rolled_back s))
    /\ (decrypt n cp <= decrypt n co ->
        Z.abs o1 <= max_int n ->
        Z.abs o2 <= max_int n ->
        exists p' s',
          _store_comparison config randint nonce (point_id, rp, None) who s
          = (Ok point_id, s')
          /\ stored s' = pending s'
          /\ point_at (stored s') point_id p'
          /\ StoredPoint.current_offset p' = Some o2
          /\ slot_value n (StoredPoint.fz_optimal p') o2 (decrypt n co - o1)
          /\ StoredPoint.provider_optimal p' = StoredPoint.provider_optimal p
          /\ StoredPoint.fz_pending p' = None
          /\ StoredPoint.provider_pending p' = None
          /\ StoredPoint.point_vendees p' = StoredPoint.point_vendees p).
Proof.
  intros n o2 HE Hp Hmap Hst Hlast Ho Hco Hcp Hunk Hvo Hvp Hdo Hdp Hnonce Hwo.
  assert (Hq : StoredPoint.id p = point_id) by exact (point_at_id _ _ _ Hp).
  assert (Hshown : shown config who p = (point_id, Some co, Some cp, StoredPoint.fz_unknown p)).
  { unfold shown. rewrite Hlast, Hq, Hco, Hcp. reflexivity. }
  exists (if decrypt n co <? decrypt n cp then Some cp else Some co).
  split.
  { rewrite Hshown. unfold _perform_comparisons. cbn [_perform_comparisons_loop].
    rewrite (truthy_valid n co Hvo), (private_decrypt_decodable n co Hdo).
    unfold compare_optimal. rewrite Hunk, (truthy_valid n cp Hvp).
    rewrite (private_decrypt_decodable n cp Hdp). reflexivity. }
  split.
  - intros Hlt. destruct Hst as [Hreq Hcur].
    assert (Hgo : negb (opt_producer_eqb (StoredPoint.last_comparator p) (Some who))
                  || EVAL config = true) by (rewrite Hlast; reflexivity).
    rewrite (store_comparison_active config randint nonce s point_id _ None who p m
               Hp Hmap Hreq Hcur Hgo).
    apply Z.ltb_lt in Hlt. rewrite Hlt.
    unfold resolve_pending. rewrite (truthy_valid n cp Hvp), Hcp, (truthy_valid n cp Hvp), Hco.
    cbn [negb opt_Z_eqb].
    assert (Hne : (cp =? co) = false).
    { apply Z.eqb_neq. intros ->. apply Z.ltb_lt in Hlt. lia. }
    rewrite Hne. reflexivity.
  - intros Hle Hr1 Hr2. apply Z.ltb_ge in Hle. rewrite Hle.
    assert (Hrp : resolve_pending p (Some co) = Ok (StoredPoint.set_pending None None p)).
    { unfold resolve_pending. rewrite (truthy_valid n co Hvo), Hcp, (truthy_valid n cp Hvp), Hco.
      cbn [negb opt_Z_eqb]. rewrite Z.eqb_refl. reflexivity. }
    assert (Hru : resolve_unknown config (StoredPoint.set_pending None None p) None
                  = Ok (StoredPoint.set_pending None None p)).
    { unfold resolve_unknown. cbn [truthy].
      change (StoredPoint.fz_unknown (StoredPoint.set_pending None None p))
        with (StoredPoint.fz_unknown p).
      rewrite Hunk. reflexivity. }
    destruct (store_comparison_resolved config randint nonce s point_id (Some co) None who
                p _ _ m o1 HE Hp Hmap Hst Hlast Hrp Hru Ho Hr1 Hr2)
      as (fo & fp & k & E & _ & Hfo & Hfp & _).
    destruct (Hfo co Hco (valid_ct_nonzero _ _ Hvo)) as [i ->].
    rewrite (Hfp eq_refl) in E.
    eexists. eexists.
    split; [exact E |]. cbn [stored pending].
    split; [reflexivity |].
    split; [apply (point_at_put_point _ _ _ _ Hp); exact Hq |].
    split; [reflexivity |].
    split; [apply remasked_slot; [exact Hvo | apply Hnonce | exact Hwo] |].
    split; [reflexivity |]. split; [reflexivity |]. split; reflexivity.
Qed.

End HonestVerification.

Section HonestVerificationExamples.
#[local] Existing Instance toy_cipher.

(** Point 1 holds carol's value 30 as the optimal one and alice's value
    20 as the pending one, masked with the offset 5; bob is asked to
    compare. *)
Definition ex_unverified_point : StoredPoint.t :=
  ex_point 1 (Some ex_higher) (Some "carol") (Some ex_optimal) (Some "alice") None None
    5 ["bob"] ["bob"] [].

Definition ex_unverified : Session :=
  ex_session (ex_db ["bob"] [] [ex_unverified_point] []).

Lemma honest_verification_witness :
  exists rp,
    _perform_comparisons ex_n [shown default_config "bob" ex_unverified_point]
    = inr [(1, rp, None)]
    /\ (decrypt ex_n ex_higher < decrypt ex_n ex_optimal ->
        _store_comparison default_config ex_randint ex_nonce (1, rp, None) "bob" ex_unverified
        = (Raise (ValueErrorFrom ""
                    (ValueError
                       "Latest comparison could not be verified, please contact platform operators.")),
           rolled_back ex_unverified))
    /\ (decrypt ex_n ex_optimal <= decrypt ex_n ex_higher ->
        Z.abs 5 <= max_int ex_n ->
        Z.abs 7 <= max_int ex_n ->
        exists p' s',
          _store_comparison default_config ex_randint ex_nonce (1, rp, None) "bob" ex_unverified
          = (Ok 1, s')
          /\ stored s' = pending s'
          /\ point_at (stored s') 1 p'
          /\ StoredPoint.current_offset p' = Some 7
          /\ slot_value ex_n (StoredPoint.fz_optimal p') 7 (decrypt ex_n ex_higher - 5)
          /\ StoredPoint.provider_optimal p' = Some "carol"
          /\ StoredPoint.fz_pending p' = None
          /\ StoredPoint.provider_pending p' = None
          /\ StoredPoint.point_vendees p' = []).
Proof.
  apply (honest_verification default_config ex_randint ex_nonce ex_unverified 1 "bob"
           ex_unverified_point (ex_map ["bob"]) 5 ex_higher ex_optimal).
  - reflexivity.
  - reflexivity.
  - exists []. reflexivity.
  - split; reflexivity.
  - reflexivity.
  - reflexivity.
  - reflexivity.
  - reflexivity.
  - reflexivity.
  - apply ex_enc_valid. unfold ex_n. lia.
  - apply ex_enc_valid. unfold ex_n. lia.
  - vm_compute. discriminate.
  - vm_compute. discriminate.
  - exact ex_nonce_good.
  - vm_compute. split; [reflexivity | discriminate].
Defined.

End HonestVerificationExamples.

(** ** Plaintext retrieval *)

Section PlaintextRetrieval.
Variable config : Config.

Lemma add_vendees_frame (client : Producer) (ids : list Z) :
  forall p,
    StoredPoint.set_point_vendees [] (add_vendees client ids p)
    = StoredPoint.set_point_vendees [] p.
Proof.
  induction ids as [| i rest IH]; intros p; [reflexivity |]. cbn [add_vendees].
  rewrite IH. destruct (StoredPoint.id p =? i); reflexivity.
Qed.

Lemma add_vendees_keeps (client : Producer) (ids : list Z) (x : Producer) :
  forall p,
    existsb (fun v => String.eqb v x) (StoredPoint.point_vendees p) = true ->
    existsb (fun v => String.eqb v x) (StoredPoint.point_vendees (add_vendees client ids p))
    = true.
Proof.
  induction ids as [| i rest IH]; intros p H; [exact H |]. cbn [add_vendees].
  apply IH. destruct (StoredPoint.id p =? i); [| exact H].
  change (StoredPoint.point_vendees
              (StoredPoint.set_point_vendees (StoredPoint.point_vendees p ++ [client])%list p))
      with (StoredPoint.point_vendees p ++ [client])%list.
  rewrite existsb_app. apply orb_true_iff. left. exact H.
Qed.

Lemma add_vendees_adds (client : Producer) (ids : list Z) :
  forall p,
    In (StoredPoint.id p) ids ->
    existsb (fun v => String.eqb v client)
      (StoredPoint.point_vendees (add_vendees client ids p)) = true.
Proof.
  induction ids as [| i rest IH]; intros p H; [destruct H |]. cbn [add_vendees].
  destruct (StoredPoint.id p =? i) eqn:E.
  - apply add_vendees_keeps.
    change (StoredPoint.point_vendees
                (StoredPoint.set_point_vendees (StoredPoint.point_vendees p ++ [client])%list p))
        with (StoredPoint.point_vendees p ++ [client])%list.
    rewrite existsb_app. cbn [existsb].
    rewrite String.eqb_refl. apply orb_true_iff. right. reflexivity.
  - apply IH. destruct H as [H | H]; [| exact H].
    apply Z.eqb_neq in E. congruence.
Qed.

Lemma append_vendees_run (client : Producer) (ids : list Z) :
  EVAL config = false ->
  forall s,
    append_vendees config ids client s
    = (Ok tt,
       {| stored := stored s;
          pending := set_points (map (add_vendees client ids) (points (pending s))) (pending s);
          draws := draws s |}).
Proof.
  intros HE. induction ids as [| i rest IH]; intros s.
  - cbn [append_vendees add_vendees]. unfold ret. rewrite map_id.
    destruct s as [st pe dr]. destruct pe. reflexivity.
  - cbn [append_vendees]. rewrite HE. cbn [negb]. unfold bind at 1.
    unfold append_vendee, update_point, modify_db. cbv beta iota. rewrite IH.
    cbn [stored pending draws]. f_equal. f_equal.
    destruct (pending s). cbn. rewrite map_map. reflexivity.
Qed.

Lemma add_all_billing_points (providers : list (option Producer * Z)) (client : Producer)
  (retrieval : Z) :
  forall s r s',
    add_all_billing providers client retrieval s = (r, s') ->
    points (pending s') = points (pending s)
    /\ producers (pending s') = producers (pending s).
Proof.
  induction providers as [| [[provider |] count] rest IH]; intros s r s' E;
    cbn [add_all_billing] in E.
  - injection E as <- <-. split; reflexivity.
  - unfold bind at 1, get_db at 1 in E. cbv beta iota in E.
    unfold bind at 1, modify_db at 1 in E. cbv beta iota in E.
    apply IH in E. cbn [pending] in E. destruct E as [E1 E2].
    rewrite E1, E2. destruct (pending s). split; reflexivity.
  - injection E as <- <-. split; reflexivity.
Qed.

Lemma add_to_billing_points (ids : list Z) (client : Producer) (retrieval : Z)
  (s s' : Session) :
  _add_to_billing_db_producer ids client retrieval s = (Ok tt, s') ->
  points (pending s') = points (pending s)
  /\ producers (pending s') = producers (pending s).
Proof.
  unfold _add_to_billing_db_producer. unfold bind at 1.
  destruct (get_point_list ids s) as [[rows | e] s1] eqn:Eg; [| discriminate].
  destruct (get_point_list_run _ _ _ _ Eg) as [-> _].
  unfold try_except, bind.
  destruct (add_all_billing _ client retrieval s) as [[[] | e] s2] eqn:Ea.
  - apply add_all_billing_points in Ea. unfold commit. intros E. injection E as <-.
    exact Ea.
  - unfold rollback, raise. discriminate.
Qed.

Lemma add_to_retrieval_points (ids : list Z) (client : Producer) (s : Session)
  (r : Res Z) (s' : Session) :
  _add_to_retrieval_db_producer ids client s = (r, s') ->
  points (pending s') = points (pending s)
  /\ producers (pending s') = producers (pending s).
Proof.
  unfold _add_to_retrieval_db_producer, try_except, bind, get_db, modify_db, commit, ret.
  cbv beta iota. intros E. injection E as _ <-. cbn [pending].
  destruct (pending s). split; reflexivity.
Qed.

Lemma filter_none {A : Type} (f : A -> bool) (l : list A) :
  (forall x, In x l -> f x = false) -> filter f l = [].
Proof.
  induction l as [| a r IH]; intros H; [reflexivity |]. cbn [filter].
  rewrite (H a (or_introl eq_refl)). apply IH. intros x Hx. apply H. right. exact Hx.
Qed.

(** X11. A plaintext purchase is made once.  Outside of evaluation mode,
    when [get_points_plaintext] returns, it has committed, it returns one
    entry for every point the query selects, and the client is a vendee
    of each of them: a further call of the client for the same map and
    any of the coordinates requested finds no point and raises
    "No relevant points stored.", leaving the session as it is. *)
Theorem plaintext_purchase_once (s s' : Session) (map_id : Z) (ap_ae : list (Z * Z))
  (who : string) (l : list (Z * Z * option Z * option Z)) :
  EVAL config = false ->
  nonnegative_values (pending s) ->
  get_points_plaintext config map_id ap_ae who s = (Ok l, s') ->
  stored s' = pending s'
  /\ List.length l
     = List.length (filter (plaintext_filter map_id ap_ae who who) (points (pending s)))
  /\ l <> []
  /\ forall ap_ae',
       covered ap_ae' ap_ae ->
       get_points_plaintext config map_id ap_ae' who s'
       = (Raise (ValueError "No relevant points stored."), s').
Proof.
  intros HE _ E. unfold get_points_plaintext in E |- *.
  destruct (USE_PAILLIER config && VALID config) eqn:EP; [discriminate E |].
  unfold bind at 1 in E.
  destruct (get_user who s) as [[c | e] s0] eqn:Eu; [| discriminate E].
  destruct (get_user_eq _ _ _ _ Eu) as [-> Hc]. destruct (Hc c eq_refl) as [-> Hin]. clear Hc.
  unfold bind at 1, get_db at 1 in E. cbv beta iota zeta in E.
  set (sel := index_order
                (filter (plaintext_filter map_id ap_ae who who) (points (pending s)))) in *.
  destruct (map StoredPoint.id sel) as [| i0 ids0] eqn:Eids; [discriminate E |].
  rewrite <- Eids in E. set (ids := map StoredPoint.id sel) in *.
  unfold bind at 1 in E. rewrite (append_vendees_run who ids HE s) in E.
  set (s1 := {| stored := stored s;
                pending := set_points (map (add_vendees who ids) (points (pending s)))
                             (pending s);
                draws := draws s |}) in E.
  unfold bind at 1 in E.
  destruct (_add_to_retrieval_db_producer ids who s1) as [[t | e] s2] eqn:Er;
    [| discriminate E].
  destruct (add_to_retrieval_points _ _ _ _ _ Er) as [Hp2 Hu2].
  unfold bind at 1 in E.
  destruct (_add_to_billing_db_producer ids who t s2) as [[[] | e] s3] eqn:Eb;
    [| discriminate E].
  destruct (add_to_billing_points _ _ _ _ _ Eb) as [Hp3 Hu3].
  pose proof (add_to_billing_committed _ _ _ _ _ Eb) as Hc3.
  unfold bind at 1 in E.
  destruct (get_point_list ids s3) as [[rows | e] s4] eqn:Eg; [| discriminate E].
  destruct (get_point_list_run _ _ _ _ Eg) as [-> Hlen]. specialize (Hlen rows eq_refl).
  unfold ret in E. injection E as <- <-.
  assert (Hll : List.length (map (fun point => (StoredPoint.ap point, StoredPoint.ae point,
                                  StoredPoint.fz_optimal point,
                                  StoredPoint.usage_total point)) rows)
                = List.length sel).
  { rewrite length_map, Hlen. unfold ids. apply length_map. }
  split; [exact Hc3 |]. split; [rewrite Hll; unfold sel; apply index_order_length |].
  split.
  { intros H. rewrite H in Hll. cbn in Hll.
    assert (Hn : List.length ids = 0%nat) by (unfold ids; rewrite length_map; congruence).
    rewrite Eids in Hn. discriminate Hn. }
  intros ap_ae' Hcov.
  assert (Hpts : points (pending s3) = map (add_vendees who ids) (points (pending s))).
  { rewrite Hp3, Hp2. unfold s1. cbn [pending]. destruct (pending s). reflexivity. }
  assert (Hin3 : In who (producers (pending s3))).
  { rewrite Hu3, Hu2. unfold s1. cbn [pending]. destruct (pending s). exact Hin. }
  unfold bind at 1. rewrite (get_user_ok who s3 Hin3). cbv beta iota.
  unfold bind at 1, get_db at 1. cbv beta iota zeta.
  assert (Hnone : filter (plaintext_filter map_id ap_ae' who who) (points (pending s3)) = []).
  { rewrite Hpts. apply filter_none.
    intros q Hq. apply in_map_iff in Hq. destruct Hq as (p & <- & Hp).
    destruct (plaintext_filter map_id ap_ae' who who
                                     (add_vendees who ids p)) eqn:EF; [| reflexivity].
    exfalso. unfold plaintext_filter in EF.
    pose proof (add_vendees_frame who ids p) as Hfr.
    assert (Hm : StoredPoint.map_id (add_vendees who ids p) = StoredPoint.map_id p)
      by exact (f_equal StoredPoint.map_id Hfr).
    assert (Hap : StoredPoint.ap (add_vendees who ids p) = StoredPoint.ap p)
      by exact (f_equal StoredPoint.ap Hfr).
    assert (Hae : StoredPoint.ae (add_vendees who ids p) = StoredPoint.ae p)
      by exact (f_equal StoredPoint.ae Hfr).
    assert (Hfz : StoredPoint.fz_optimal (add_vendees who ids p) = StoredPoint.fz_optimal p)
      by exact (f_equal StoredPoint.fz_optimal Hfr).
    assert (Hpo : StoredPoint.provider_optimal (add_vendees who ids p)
                  = StoredPoint.provider_optimal p)
      by exact (f_equal StoredPoint.provider_optimal Hfr).
    assert (Hpu : StoredPoint.provider_unknown (add_vendees who ids p)
                  = StoredPoint.provider_unknown p)
      by exact (f_equal StoredPoint.provider_unknown Hfr).
    rewrite Hm, Hap, Hae, Hfz, Hpo, Hpu in EF.
    repeat (apply andb_true_iff in EF; destruct EF as [EF ?]).
    match goal with H : negb (existsb _ _) = true |- _ => apply negb_true_iff in H; rename H into Hv end.
    assert (Hv0 : existsb (fun v => String.eqb v who) (StoredPoint.point_vendees p) = false).
    { destruct (existsb (fun v => String.eqb v who) (StoredPoint.point_vendees p)) eqn:Ev;
        [| reflexivity].
      rewrite (add_vendees_keeps who ids who p Ev) in Hv. discriminate Hv. }
    assert (Hsel : In p sel).
    { unfold sel. apply index_order_in, filter_In. split; [exact Hp |].
      unfold plaintext_filter.
      rewrite EF, Hv0.
      match goal with H : in_ap_ae _ _ ap_ae' = true |- _ => rewrite (Hcov _ _ H) end.
      repeat match goal with H : _ = true |- _ => rewrite H; clear H end. reflexivity. }
    assert (Hid : In (StoredPoint.id p) ids) by (unfold ids; apply in_map; exact Hsel).
    rewrite (add_vendees_adds who ids p Hid) in Hv. discriminate Hv. }
  rewrite Hnone. reflexivity.
Qed.

End PlaintextRetrieval.

Section PlaintextRetrievalExamples.

Lemma plaintext_purchase_once_witness :
  exists l s',
    get_points_plaintext default_config 1 [(1, 1); (2, 2)] "bob" ex_plaintext_map = (Ok l, s')
    /\ stored s' = pending s'
    /\ List.length l
       = List.length (filter (plaintext_filter 1 [(1, 1); (2, 2)] "bob" "bob")
                        (points (pending ex_plaintext_map)))
    /\ l <> []
    /\ forall ap_ae',
         covered ap_ae' [(1, 1); (2, 2)] ->
         get_points_plaintext default_config 1 ap_ae' "bob" s'
         = (Raise (ValueError "No relevant points stored."), s').
Proof.
  destruct (get_points_plaintext default_config 1 [(1, 1); (2, 2)] "bob" ex_plaintext_map)
    as [[l | e] s'] eqn:E; [| vm_compute in E; discriminate E].
  exists l, s'. split; [reflexivity |].
  apply (plaintext_purchase_once default_config ex_plaintext_map s' 1 [(1, 1); (2, 2)] "bob" l).
  - reflexivity.
  - repeat constructor; intros v H; injection H as <-; lia.
  - exact E.
Defined.

End PlaintextRetrievalExamples.

(** ** Plaintext provision *)

Lemma not_lowered_refl (p : StoredPoint.t) : not_lowered p p.
Proof.
  unfold not_lowered. repeat (split; [reflexivity |]). intros v H. exists v. split; [exact H | lia].
Qed.

Lemma not_lowered_trans (p q r : StoredPoint.t) :
  not_lowered p q -> not_lowered q r -> not_lowered p r.
Proof.
  intros (H1 & H2 & H3 & H4 & H5) (K1 & K2 & K3 & K4 & K5).
  split; [congruence |]. split; [congruence |]. split; [congruence |]. split; [congruence |].
  intros v Hv. destruct (H5 v Hv) as (v1 & Hv1 & Hle1).
  destruct (K5 v1 Hv1) as (v2 & Hv2 & Hle2). exists v2. split; [exact Hv2 | lia].
Qed.

Lemma never_lowered_refl (d : DB) : never_lowered d d.
Proof. intros p H. exists p. split; [exact H | apply not_lowered_refl]. Qed.

Lemma never_lowered_trans (d1 d2 d3 : DB) :
  never_lowered d1 d2 -> never_lowered d2 d3 -> never_lowered d1 d3.
Proof.
  intros H1 H2 p Hp. destruct (H1 p Hp) as (q & Hq & Hpq).
  destruct (H2 q Hq) as (r & Hr & Hqr). exists r. split; [exact Hr |].
  exact (not_lowered_trans _ _ _ Hpq Hqr).
Qed.

Lemma dominated_later (d d' : DB) (map_id ap ae fz : Z) :
  never_lowered d d' -> dominated d map_id ap ae fz -> dominated d' map_id ap ae fz.
Proof.
  intros H (p & v & Hp & Hm & Hap & Hae & Hv & Hle).
  destruct (H p Hp) as (p' & Hp' & (_ & K2 & K3 & K4 & K5)).
  destruct (K5 v Hv) as (v' & Hv' & Hle').
  exists p', v'. split; [exact Hp' |]. split; [congruence |]. split; [congruence |].
  split; [congruence |]. split; [exact Hv' | lia].
Qed.

Lemma NoDup_snoc (l : list Z) (x : Z) : NoDup l -> ~ In x l -> NoDup (l ++ [x]).
Proof.
  induction l as [| a r IH]; intros Hnd Hx; cbn [app].
  - constructor; [intros [] | constructor].
  - inversion Hnd as [| y ys Hnot Hnd']; subst. constructor.
    + intros H. apply in_app_or in H. destruct H as [H | [H | []]]; [exact (Hnot H) |].
      apply Hx. left. symmetry. exact H.
    + apply IH; [exact Hnd' |]. intros H. apply Hx. right. exact H.
Qed.

Lemma unique_id_eq (l : list StoredPoint.t) (p q : StoredPoint.t) :
  NoDup (map StoredPoint.id l) -> In p l -> In q l ->
  StoredPoint.id q = StoredPoint.id p -> q = p.
Proof.
  induction l as [| a r IH]; intros Hnd Hp Hq Hid; [destruct Hp |].
  cbn [map] in Hnd. inversion Hnd as [| x xs Hnot Hnd']; subst.
  destruct Hp as [-> | Hp]; destruct Hq as [-> | Hq].
  - reflexivity.
  - exfalso. apply Hnot. rewrite <- Hid. apply in_map. exact Hq.
  - exfalso. apply Hnot. rewrite Hid. apply in_map. exact Hp.
  - exact (IH Hnd' Hp Hq Hid).
Qed.

(** The change of the rows with the primary key of a point keeps the ids,
    and lowers no value when it does not lower the value of the point. *)
Lemma update_never_lowered (d d' : DB) (point : StoredPoint.t)
  (f : StoredPoint.t -> StoredPoint.t) :
  unique_point_ids d ->
  In point (points d) ->
  points d'
  = map (fun q => if StoredPoint.id q =? StoredPoint.id point then f q else q) (points d) ->
  not_lowered point (f point) ->
  unique_point_ids d' /\ never_lowered d d' /\ In (f point) (points d').
Proof.
  intros Hu Hin Hpts Hnl. unfold unique_point_ids in *.
  assert (Hone : forall q, In q (points d) ->
            StoredPoint.id (if StoredPoint.id q =? StoredPoint.id point then f q else q)
            = StoredPoint.id q).
  { intros q Hq. destruct (StoredPoint.id q =? StoredPoint.id point) eqn:E; [| reflexivity].
    apply Z.eqb_eq in E. rewrite (unique_id_eq _ _ _ Hu Hin Hq E).
    destruct Hnl as [H _]. exact H. }
  split; [| split].
  - rewrite Hpts, map_map.
    rewrite (map_ext_in _ StoredPoint.id (points d)); [exact Hu | exact Hone].
  - intros p Hp. exists (if StoredPoint.id p =? StoredPoint.id point then f p else p).
    split; [rewrite Hpts; apply in_map_iff; exists p; split; [reflexivity | exact Hp] |].
    destruct (StoredPoint.id p =? StoredPoint.id point) eqn:E; [| apply not_lowered_refl].
    apply Z.eqb_eq in E. rewrite (unique_id_eq _ _ _ Hu Hin Hp E). exact Hnl.
  - rewrite Hpts. apply in_map_iff. exists point. rewrite Z.eqb_refl. split; [reflexivity | exact Hin].
Qed.

Section PlaintextProvision.
Context {cipher : Cipher}.
Variable config : Config.
Variable nonce : nat -> Z.

Lemma one_or_none_in {A : Type} (f : A -> bool) (l : list A) (x : A) :
  one_or_none (filter f l) = Ok (Some x) -> In x l /\ f x = true.
Proof.
  intros H. assert (Hin : In x (filter f l)).
  { destruct (filter f l) as [| a [| b r]]; cbn in H; try discriminate H.
    injection H as ->. left. reflexivity. }
  apply filter_In in Hin. exact Hin.
Qed.

Lemma one_or_none_none {A : Type} (l : list A) : one_or_none l = Ok None -> l = [].
Proof. destruct l as [| a [| b r]]; cbn; intros H; [reflexivity | discriminate H | discriminate H]. Qed.

(** The records of a batch, one after the other, outside of the
    homomorphic scheme. *)
Lemma store_records_plaintext_loop_run (map_key : MapKey.t) (map_id usage_id : Z)
  (who : Producer) (batch : list (Z * Z * Z * Z)) :
  USE_PAILLIER config = false ->
  MapKey.map_id map_key = map_id ->
  forall s s',
    unique_point_ids (pending s) ->
    store_records_plaintext_loop config nonce map_key map_id usage_id batch who s
    = (Ok tt, s') ->
    unique_point_ids (pending s')
    /\ never_lowered (pending s) (pending s')
    /\ forall ap ae fz usage,
         In (ap, ae, fz, usage) batch -> fz <> 0 -> dominated (pending s') map_id ap ae fz.
Proof.
  intros HP Hmk. induction batch as [| [[[ap ae] fz] usage] rest IH]; intros s s' Hu E.
  - cbn [store_records_plaintext_loop] in E. injection E as <-.
    split; [exact Hu |]. split; [apply never_lowered_refl |]. intros ap ae fz usage [].
  - cbn [store_records_plaintext_loop] in E. rewrite HP in E.
    unfold bind at 1, query_point_at, bind at 1, get_db at 1, ret at 1 in E.
    cbv beta iota in E. unfold bind at 1, lift at 1 in E.
    destruct (one_or_none
                (filter (fun p => (StoredPoint.map_id p =? map_id) && (StoredPoint.ap p =? ap)
                                  && (StoredPoint.ae p =? ae)) (points (pending s))))
      as [[point |] | e] eqn:Eone; [| | discriminate E].
    + (* the point exists *)
      destruct (one_or_none_in _ _ _ Eone) as [Hin Hsel].
      apply andb_true_iff in Hsel. destruct Hsel as [Hsel Hae].
      apply andb_true_iff in Hsel. destruct Hsel as [Hmap Hap].
      apply Z.eqb_eq in Hmap, Hap, Hae.
      unfold bind at 1 in E.
      match type of E with
      | match ?m s with _ => _ end = _ => destruct (m s) as [[[] | e] s1] eqn:E1;
                                            [| discriminate E]
      end.
      assert (Hstep : exists f,
                points (pending s1)
                = map (fun q => if StoredPoint.id q =? StoredPoint.id point then f q else q)
                    (points (pending s))
                /\ not_lowered point (f point)
                /\ (fz <> 0 -> exists v, StoredPoint.fz_optimal (f point) = Some v /\ fz <= v)).
      { unfold bind at 1 in E1.
        match type of E1 with
        | match ?m s with _ => _ end = _ => destruct (m s) as [[[] | e] sa] eqn:Ea;
                                              [| discriminate E1]
        end.
        assert (Hfz : exists f1,
                  pending sa
                  = set_points
                      (map (fun q => if StoredPoint.id q =? StoredPoint.id point
                                     then f1 q else q) (points (pending s))) (pending s)
                  /\ (forall q, StoredPoint.id (f1 q) = StoredPoint.id q)
                  /\ StoredPoint.usage_total (f1 point) = StoredPoint.usage_total point
                  /\ not_lowered point (f1 point)
                  /\ (fz <> 0 ->
                      exists v, StoredPoint.fz_optimal (f1 point) = Some v /\ fz <= v)).
        { destruct (fz =? 0) eqn:Ez; cbn [negb] in Ea.
          - injection Ea as <-. exists (fun q => q).
            split; [ | split; [reflexivity | split; [reflexivity | split;
                       [apply not_lowered_refl | apply Z.eqb_eq in Ez; intros H; contradiction]]]].
            rewrite (map_ext _ (fun q => q)); [| intros q; destruct (StoredPoint.id q =? StoredPoint.id point); reflexivity].
            rewrite List.map_id. destruct (pending s); reflexivity.
          - destruct (StoredPoint.fz_optimal point) as [v0 |] eqn:Ev0; [| discriminate Ea].
            destruct (fz >? v0) eqn:Egt.
            + unfold update_point, modify_db in Ea. injection Ea as <-.
              exists (StoredPoint.set_optimal (Some fz) (Some who)).
              split; [reflexivity |]. split; [reflexivity |]. split; [reflexivity |].
              apply Z.gtb_lt in Egt.
              split.
              * unfold not_lowered. repeat (split; [reflexivity |]).
                intros v Hv. rewrite Ev0 in Hv. injection Hv as <-.
                exists fz. split; [reflexivity | lia].
              * intros _. exists fz. split; [reflexivity | lia].
            + injection Ea as <-. exists (fun q => q).
              assert (Hle : fz <= v0).
              { destruct (Z.gtb_spec fz v0); [discriminate Egt | assumption]. }
              split; [ | split; [reflexivity | split; [reflexivity | split;
                         [apply not_lowered_refl | intros _; exists v0; split;
                                                     [exact Ev0 | exact Hle]]]]].
              rewrite (map_ext _ (fun q => q)); [| intros q; destruct (StoredPoint.id q =? StoredPoint.id point); reflexivity].
              rewrite List.map_id. destruct (pending s); reflexivity. }
        destruct Hfz as (f1 & Hsa & Hid1 & Hus1 & Hnl1 & Hdom1).
        destruct (usage =? 0) eqn:Ezu; cbn [negb] in E1.
        - injection E1 as <-. exists f1. rewrite Hsa.
          split; [destruct (pending s); reflexivity |]. split; [exact Hnl1 | exact Hdom1].
        - unfold bind at 1, get_db at 1 in E1. cbv beta iota in E1.
          unfold bind at 1, lift at 1 in E1.
          destruct (one (filter (fun u => MapUsage.id u =? usage_id) (map_usage (pending sa))))
            as [mu | e]; [| discriminate E1].
          cbv beta iota zeta in E1.
          unfold bind at 1, int_add at 1 in E1.
          destruct (StoredPoint.usage_total point) as [t0 |]; [| discriminate E1].
          unfold ret at 1 in E1. cbv beta iota in E1.
          unfold bind at 1, update_point at 1, modify_db at 1 in E1. cbv beta iota in E1.
          unfold bind at 1, int_add at 1 in E1.
          destruct (MapUsage.usage_provider mu) as [u0 |]; [| discriminate E1].
          unfold ret at 1 in E1. cbv beta iota in E1.
          unfold update_map_usage, modify_db in E1. injection E1 as <-.
          cbn [pending]. rewrite Hsa.
          exists (fun q => StoredPoint.set_usage_total (Some (t0 + usage)) (f1 q)).
          split.
          { destruct (pending s); cbn. rewrite map_map. apply map_ext. intros q.
            destruct (StoredPoint.id q =? StoredPoint.id point) eqn:Eq; [| rewrite Eq; reflexivity].
            change (StoredPoint.id (f1 q) =? StoredPoint.id point)
              with (StoredPoint.id (f1 q) =? StoredPoint.id point).
            rewrite Hid1, Eq. reflexivity. }
          split.
          { destruct Hnl1 as (K1 & K2 & K3 & K4 & K5).
            unfold not_lowered. split; [exact K1 |]. split; [exact K2 |].
            split; [exact K3 |]. split; [exact K4 | exact K5]. }
          exact Hdom1. }
      destruct Hstep as (f & Hpts & Hnl & Hdom).
      destruct (update_never_lowered (pending s) (pending s1) point f Hu Hin Hpts Hnl)
        as (Hu1 & Hnl1 & Hin1).
      destruct (IH s1 s' Hu1 E) as (Hu' & Hnl' & Hdom').
      split; [exact Hu' |]. split; [exact (never_lowered_trans _ _ _ Hnl1 Hnl') |].
      intros ap' ae' fz' usage' [Heq | Hrest] Hnz; [| exact (Hdom' _ _ _ _ Hrest Hnz)].
      injection Heq as <- <- <- <-.
      apply (dominated_later _ _ _ _ _ _ Hnl').
      destruct (Hdom Hnz) as (v & Hv & Hle).
      destruct Hnl as (_ & K2 & K3 & K4 & _).
      exists (f point), v. split; [exact Hin1 |].
      split; [congruence |]. split; [congruence |]. split; [congruence |].
      split; [exact Hv | exact Hle].
    + (* the point is new *)
      apply one_or_none_none in Eone.
      unfold bind at 1 in E. unfold bind at 1, next_point_id, bind at 1, get_db at 1, ret at 1 in E.
      cbv beta iota in E. unfold insert_point, modify_db in E. cbv beta iota in E.
      set (np := new_point (next_id (map StoredPoint.id (points (pending s))))
                   (MapKey.map_id map_key) ap ae (Some usage) (Some fz) (Some who) (Some 0))
        in E.
      set (s1 := {| stored := stored s;
                    pending := set_points (points (pending s) ++ [np]) (pending s);
                    draws := draws s |}) in E.
      assert (Hpts : points (pending s1) = (points (pending s) ++ [np])%list)
        by (unfold s1; cbn [pending]; destruct (pending s); reflexivity).
      assert (Hu1 : unique_point_ids (pending s1)).
      { unfold unique_point_ids in *. rewrite Hpts, map_app. cbn [map].
        apply NoDup_snoc; [exact Hu |]. intros H. apply next_id_fresh in H.
        unfold np in H. cbn in H. lia. }
      destruct (IH s1 s' Hu1 E) as (Hu' & Hnl' & Hdom').
      assert (Hnl1 : never_lowered (pending s) (pending s1)).
      { intros p Hp. exists p. split; [rewrite Hpts; apply in_or_app; left; exact Hp |].
        apply not_lowered_refl. }
      split; [exact Hu' |]. split; [exact (never_lowered_trans _ _ _ Hnl1 Hnl') |].
      intros ap' ae' fz' usage' [Heq | Hrest] Hnz; [| exact (Hdom' _ _ _ _ Hrest Hnz)].
      injection Heq as <- <- <- <-.
      apply (dominated_later _ _ _ _ _ _ Hnl').
      exists np, fz. split; [rewrite Hpts; apply in_or_app; right; left; reflexivity |].
      split; [exact Hmk |]. split; [reflexivity |]. split; [reflexivity |].
      split; [reflexivity | lia].
Qed.

(** X12. A plaintext provision lowers no value.  Outside of the
    homomorphic scheme, on points with pairwise different primary keys,
    when [store_records_plaintext] returns it has committed; every point
    there was is still there, with its coordinates and an optimal value
    that is not lower; and for every record of the batch with a value
    other than zero the map holds a point at the coordinates of the
    record whose optimal value is at least the value provided. *)
Theorem plaintext_provision_keeps_maximum (s s' : Session) (map_id : Z)
  (map_name : string * string * string) (n : Z) (batch : list (Z * Z * Z * Z))
  (who : string) :
  USE_PAILLIER config = false ->
  unique_point_ids (pending s) ->
  store_records_plaintext config nonce map_id map_name n batch who s = (Ok tt, s') ->
  stored s' = pending s'
  /\ unique_point_ids (stored s')
  /\ never_lowered (pending s) (stored s')
  /\ forall ap ae fz usage,
       In (ap, ae, fz, usage) batch -> fz <> 0 -> dominated (stored s') map_id ap ae fz.
Proof.
  intros HP Hu E. unfold store_records_plaintext in E. rewrite HP in E. cbn [andb] in E.
  unfold bind at 1 in E.
  destruct (get_user who s) as [[c | e] s0] eqn:Eu; [| discriminate E].
  destruct (get_user_eq _ _ _ _ Eu) as [-> Hc]. destruct (Hc c eq_refl) as [-> _]. clear Hc.
  destruct map_name as [[machine material] tool].
  unfold bind at 1 in E.
  match type of E with
  | match ?m s with _ => _ end = _ =>
      assert (H1 : exists mk mu, m s = (Ok (mk, mu), s)
                   /\ (forall k, mk = Some k -> MapKey.map_id k = map_id)
                   \/ exists e, m s = (Raise e, s))
  end.
  { unfold try_except, bind, query_map_key_named, query_map_usage, bind, get_db, ret, lift, raise.
    cbv beta iota.
    destruct (one_or_none
                (filter (fun m => (MapKey.map_id m =? map_id)
                                  && String.eqb (MapKey.machine m) machine
                                  && String.eqb (MapKey.material m) material
                                  && String.eqb (MapKey.tool m) tool) (map_keys (pending s))))
      as [mk | e] eqn:Ek.
    - destruct (one_or_none
                  (filter (fun u => (MapUsage.map_id u =? map_id)
                                    && String.eqb (MapUsage.provider u) who)
                     (map_usage (pending s)))) as [mu | e] eqn:Em.
      + exists mk, mu. left. split; [reflexivity |]. intros k ->.
        destruct (one_or_none_in _ _ _ Ek) as [_ Hk].
        repeat (apply andb_true_iff in Hk; destruct Hk as [Hk _]).
        apply Z.eqb_eq in Hk. exact Hk.
      + exists None, None. right. destruct e; eexists; reflexivity.
    - exists None, None. right. destruct e; eexists; reflexivity. }
  destruct H1 as (mk & mu & [[E1 Hmk] | [e E1]]); rewrite E1 in E; [| discriminate E].
  cbv beta iota in E. unfold bind at 1 in E.
  match type of E with
  | match ?m s with _ => _ end = _ =>
      destruct (m s) as [[map_key | e] s2] eqn:E2; [| discriminate E]
  end.
  assert (H2 : points (pending s2) = points (pending s) /\ MapKey.map_id map_key = map_id).
  { destruct mk as [k |].
    - injection E2 as <- <-. split; [reflexivity | exact (Hmk k eq_refl)].
    - unfold try_except, bind at 1, insert_map_key, bind at 1, get_db at 1 in E2.
      cbv beta iota in E2.
      destruct (existsb _ (map_keys (pending s))); [discriminate E2 |].
      unfold bind, modify_db, commit, ret in E2. cbv beta iota in E2.
      injection E2 as <- <-. cbn [pending]. split; [| reflexivity].
      destruct (pending s); reflexivity. }
  destruct H2 as [Hp2 Hmid].
  unfold bind at 1 in E.
  match type of E with
  | match ?m s2 with _ => _ end = _ =>
      destruct (m s2) as [[map_usage | e] s3] eqn:E3; [| discriminate E]
  end.
  assert (Hp3 : points (pending s3) = points (pending s2)).
  { destruct mu as [u |].
    - injection E3 as _ <-. reflexivity.
    - unfold bind, insert_map_usage, bind, get_db, modify_db, commit, ret in E3.
      cbv beta iota in E3. injection E3 as _ <-. cbn [pending].
      destruct (pending s2); reflexivity. }
  unfold try_except, bind at 1 in E.
  destruct (store_records_plaintext_loop config nonce map_key map_id (MapUsage.id map_usage)
              batch who s3) as [[[] | e] s4] eqn:E4.
  - unfold commit in E. injection E as <-. cbn [stored pending].
    assert (Hu3 : unique_point_ids (pending s3))
      by (unfold unique_point_ids; rewrite Hp3, Hp2; exact Hu).
    destruct (store_records_plaintext_loop_run map_key map_id (MapUsage.id map_usage) who batch
                HP Hmid s3 s4 Hu3 E4) as (Hu4 & Hnl & Hdom).
    split; [reflexivity |]. split; [exact Hu4 |]. split; [| exact Hdom].
    intros p Hp. apply Hnl. rewrite Hp3, Hp2. exact Hp.
  - destruct e; discriminate E.
Qed.

End PlaintextProvision.

Section PlaintextProvisionExamples.
#[local] Existing Instance toy_cipher.

(** Bob provides the value 25 for point 1, which holds 20, and the value
    12 for a new point at (3, 3). *)
Lemma plaintext_provision_keeps_maximum_witness :
  exists s',
    store_records_plaintext default_config ex_nonce 1 ex_map_name ex_n
      [(1, 1, 25, 0); (3, 3, 12, 4)] "bob" ex_plaintext_map
    = (Ok tt, s')
    /\ stored s' = pending s'
    /\ unique_point_ids (stored s')
    /\ never_lowered (pending ex_plaintext_map) (stored s')
    /\ forall ap ae fz usage,
         In (ap, ae, fz, usage) [(1, 1, 25, 0); (3, 3, 12, 4)] -> fz <> 0 ->
         dominated (stored s') 1 ap ae fz.
Proof.
  destruct (store_records_plaintext default_config ex_nonce 1 ex_map_name ex_n
              [(1, 1, 25, 0); (3, 3, 12, 4)] "bob" ex_plaintext_map)
    as [[[] | e] s'] eqn:E; [| vm_compute in E; discriminate E].
  exists s'. split; [reflexivity |].
  apply (plaintext_provision_keeps_maximum default_config ex_nonce ex_plaintext_map s' 1
           ex_map_name ex_n [(1, 1, 25, 0); (3, 3, 12, 4)] "bob").
  - reflexivity.
  - unfold unique_point_ids. cbn. repeat constructor; cbn; intuition discriminate.
  - exact E.
Defined.

End PlaintextProvisionExamples.

(** ** The regular query of one point *)

Section RegularQuery.
Context {cipher : Cipher}.
Variable config : Config.
Variables randint nonce : nat -> Z.


End RegularQuery.

Section RegularQueryExamples.
#[local] Existing Instance toy_cipher.


End RegularQueryExamples.

(** ** Comparisons for a provider *)

Lemma first_row_app (d d' : DB) (new : list StoredPoint.t) (pid : Z) (p : StoredPoint.t) :
  points d' = (points d ++ new)%list ->
  first_row d pid = Some p -> first_row d' pid = Some p.
Proof.
  unfold first_row. intros ->. rewrite filter_app.
  destruct (filter (fun q => StoredPoint.id q =? pid) (points d)); [discriminate |].
  exact (fun H => H).
Qed.

Lemma located_more_requests (map_id : Z) (c : Z * Z) (p p' : StoredPoint.t) :
  more_requests p p' -> located map_id c p -> located map_id c p'.
Proof.
  intros [H _] (H1 & H2 & H3). unfold located.
  pose proof (f_equal StoredPoint.map_id H) as K1.
  pose proof (f_equal StoredPoint.ap H) as K2.
  pose proof (f_equal StoredPoint.ae H) as K3.
  cbn in K1, K2, K3. split; [congruence |]. split; congruence.
Qed.

Section ProviderComparisons.
Variable config : Config.
Variable randint : nat -> Z.

(** The loop over the coordinates (lines 571-585): it finds or appends
    one point for every coordinate. *)
Lemma provider_points_loop_run (map_key : MapKey.t) (map_id : Z) (ap_ae : list (Z * Z)) :
  MapKey.map_id map_key = map_id ->
  forall s ids s',
    unique_point_ids (pending s) ->
    provider_points_loop randint map_key map_id ap_ae s = (Ok ids, s') ->
    unique_point_ids (pending s')
    /\ stored s' = stored s
    /\ set_points [] (pending s') = set_points [] (pending s)
    /\ (exists new, points (pending s') = (points (pending s) ++ new)%list)
    /\ Forall2 (fun pid c => exists p, In p (points (pending s'))
                                       /\ StoredPoint.id p = pid /\ located map_id c p)
         ids ap_ae.
Proof.
  intros Hmk. induction ap_ae as [| [ap ae] rest IH]; intros s ids s' Hu E;
    cbn [provider_points_loop] in E.
  - injection E as <- <-. split; [exact Hu |]. split; [reflexivity |].
    split; [reflexivity |]. split; [exists []; rewrite app_nil_r; reflexivity |]. constructor.
  - unfold bind at 1, query_point_at, bind at 1, get_db at 1, ret at 1 in E.
    cbv beta iota in E. unfold bind at 1, lift at 1 in E.
    destruct (one_or_none
                (filter (fun p => (StoredPoint.map_id p =? map_id) && (StoredPoint.ap p =? ap)
                                  && (StoredPoint.ae p =? ae)) (points (pending s))))
      as [[point |] | e] eqn:Eone; [| | discriminate E].
    + destruct (one_or_none_in _ _ _ Eone) as [Hin Hsel].
      apply andb_true_iff in Hsel. destruct Hsel as [Hsel Hae].
      apply andb_true_iff in Hsel. destruct Hsel as [Hmap Hap].
      apply Z.eqb_eq in Hmap, Hap, Hae.
      unfold bind at 1, ret at 1 in E. cbv beta iota in E. unfold bind at 1 in E.
      destruct (provider_points_loop randint map_key map_id rest s) as [[l | e] s1] eqn:E1;
        [| discriminate E].
      unfold ret in E. injection E as <- <-.
      destruct (IH s l s1 Hu E1) as (Hu1 & Hs1 & Hd1 & [new Hnew] & Hf).
      split; [exact Hu1 |]. split; [exact Hs1 |]. split; [exact Hd1 |].
      split; [exists new; exact Hnew |].
      constructor; [| exact Hf].
      exists point. split; [rewrite Hnew; apply in_or_app; left; exact Hin |].
      split; [reflexivity |]. split; [exact Hmap |]. split; [exact Hap | exact Hae].
    + unfold bind at 1, bind at 1, random_offset, draw at 1 in E. cbv beta iota in E.
      unfold bind at 1, next_point_id, bind at 1, get_db at 1, ret at 1 in E.
      cbv beta iota in E. unfold bind at 1, insert_point, modify_db at 1 in E.
      cbv beta iota in E. unfold ret at 1 in E. cbv beta iota in E.
      cbn [pending stored draws] in E.
      set (np := new_point (next_id (map StoredPoint.id (points (pending s))))
                   (MapKey.map_id map_key) ap ae None None None (Some (randint (draws s))))
        in E.
      set (s0 := {| stored := stored s;
                    pending := set_points (points (pending s) ++ [np]) (pending s);
                    draws := S (draws s) |}) in E.
      unfold bind at 1 in E.
      destruct (provider_points_loop randint map_key map_id rest s0) as [[l | e] s1] eqn:E1;
        [| discriminate E].
      unfold ret in E. injection E as <- <-.
      assert (Hpts : points (pending s0) = (points (pending s) ++ [np])%list)
        by (unfold s0; cbn [pending]; destruct (pending s); reflexivity).
      assert (Hu0 : unique_point_ids (pending s0)).
      { unfold unique_point_ids in *. rewrite Hpts, map_app. cbn [map].
        apply NoDup_snoc; [exact Hu |]. intros H. apply next_id_fresh in H.
        unfold np in H. cbn in H. lia. }
      destruct (IH s0 l s1 Hu0 E1) as (Hu1 & Hs1 & Hd1 & [new Hnew] & Hf).
      split; [exact Hu1 |]. split; [exact Hs1 |].
      split; [rewrite Hd1; unfold s0; cbn [pending]; destruct (pending s); reflexivity |].
      split; [exists ([np] ++ new)%list; rewrite Hnew, Hpts, <- app_assoc; reflexivity |].
      constructor; [| exact Hf].
      exists np. split; [rewrite Hnew, Hpts; apply in_or_app; left; apply in_or_app; right;
                         left; reflexivity |].
      split; [reflexivity |]. split; [exact Hmk |]. split; reflexivity.
Qed.

(** X14. What [get_comparisons_provider] ensures.  On points with
    pairwise different primary keys, when the call returns it has
    committed; the map is stored with the modulus given and the provider
    among its past requests; and it hands out one comparison for every
    coordinate requested, in order, each for a stored point of the map at
    that coordinate, created if there was none, for which the provider
    may now submit a result. *)
Theorem provider_comparisons_give_standing (s s' : Session) (map_id : Z)
  (map_name : string * string * string) (n : Z) (ap_ae : list (Z * Z)) (who : Producer)
  (cs : list Comparison) :
  unique_point_ids (pending s) ->
  get_comparisons_provider config randint map_id map_name n ap_ae who s = (Ok cs, s') ->
  stored s' = pending s'
  /\ (exists m, In m (map_keys (stored s'))
                /\ MapKey.map_id m = map_id /\ MapKey.public_key_n m = n
                /\ mem who (MapKey.past_requests m) = true)
  /\ Forall2 (fun c coordinate =>
                exists p, first_row (stored s') (comparison_point c) = Some p
                          /\ located map_id coordinate p /\ standing who p)
       cs ap_ae.
Proof.
  intros Hu E. unfold get_comparisons_provider in E.
  unfold bind at 1 in E.
  destruct (get_user who s) as [[c | e] s0] eqn:Eu; [| discriminate E].
  destruct (get_user_eq _ _ _ _ Eu) as [-> Hc]. destruct (Hc c eq_refl) as [-> _]. clear Hc.
  destruct map_name as [[machine material] tool].
  unfold bind at 1 in E.
  match type of E with
  | match ?m s with _ => _ end = _ =>
      assert (H1 : (exists mk, m s = (Ok mk, s)
                     /\ (forall k, mk = Some k ->
                           In k (map_keys (pending s)) /\ MapKey.map_id k = map_id))
                   \/ exists e, m s = (Raise e, s))
  end.
  { unfold try_except, bind, query_map_key_named, bind, get_db, ret, lift, raise.
    cbv beta iota.
    destruct (one_or_none
                (filter (fun m => (MapKey.map_id m =? map_id)
                                  && String.eqb (MapKey.machine m) machine
                                  && String.eqb (MapKey.material m) material
                                  && String.eqb (MapKey.tool m) tool) (map_keys (pending s))))
      as [mk | e] eqn:Ek.
    - left. exists mk. split; [reflexivity |]. intros k ->.
      destruct (one_or_none_in _ _ _ Ek) as [Hin Hk]. split; [exact Hin |].
      repeat (apply andb_true_iff in Hk; destruct Hk as [Hk _]).
      apply Z.eqb_eq in Hk. exact Hk.
    - right. destruct e; eexists; reflexivity. }
  destruct H1 as [(mk & E1 & Hmk) | [e E1]]; rewrite E1 in E; [| discriminate E].
  cbv beta iota in E. unfold bind at 1 in E.
  match type of E with
  | match ?m s with _ => _ end = _ =>
      destruct (m s) as [[map_key | e] s2] eqn:E2; [| discriminate E]
  end.
  assert (H2 : points (pending s2) = points (pending s)
               /\ In map_key (map_keys (pending s2))
               /\ MapKey.map_id map_key = map_id /\ MapKey.public_key_n map_key = n).
  { destruct mk as [k |].
    - destruct (negb (MapKey.public_key_n k =? n)) eqn:En; [discriminate E2 |].
      injection E2 as <- <-. destruct (Hmk k eq_refl) as [Hin Hid].
      apply negb_false_iff, Z.eqb_eq in En.
      split; [reflexivity |]. split; [exact Hin |]. split; [exact Hid | exact En].
    - unfold try_except, bind at 1, insert_map_key, bind at 1, get_db at 1 in E2.
      cbv beta iota in E2.
      destruct (existsb _ (map_keys (pending s))); [discriminate E2 |].
      unfold bind, modify_db, commit, ret in E2. cbv beta iota in E2.
      injection E2 as <- <-. cbn [pending].
      split; [destruct (pending s); reflexivity |].
      split; [destruct (pending s); cbn; apply in_or_app; right; left; reflexivity |].
      split; reflexivity. }
  destruct H2 as (Hp2 & Hin2 & Hmid & Hn).
  unfold bind at 1 in E.
  destruct (reverse_queried_state s2 map_key who) as [b Erq]. rewrite Erq in E.
  cbv beta iota in E. destruct b; [discriminate E |].
  unfold bind at 1 in E.
  match type of E with
  | match ?m s2 with _ => _ end = _ =>
      destruct (m s2) as [[ids | e] s4] eqn:E4; [| discriminate E]
  end.
  assert (H4 : stored s4 = pending s4
               /\ unique_point_ids (pending s4)
               /\ map_keys (pending s4) = map_keys (pending s2)
               /\ Forall2 (fun pid c => exists p, In p (points (pending s4))
                                                  /\ StoredPoint.id p = pid
                                                  /\ located map_id c p) ids ap_ae).
  { unfold try_except in E4. unfold bind at 1, query_map_usage, bind at 1, get_db at 1,
      ret at 1 in E4. cbv beta iota in E4. unfold bind at 1, lift at 1 in E4.
    destruct (one_or_none _) as [mu | e] in E4; [| discriminate E4].
    unfold bind at 1 in E4.
    match type of E4 with
    | match (match ?m s2 with _ => _ end) with _ => _ end = _ =>
        assert (H3 : exists s3, m s2 = (Ok tt, s3)
                       /\ points (pending s3) = points (pending s2)
                       /\ map_keys (pending s3) = map_keys (pending s2))
    end.
    { destruct mu as [u |].
      - exists s2. split; [reflexivity |]. split; reflexivity.
      - unfold bind, insert_map_usage, bind, get_db, modify_db, ret. cbv beta iota.
        eexists. split; [reflexivity |]. cbn [pending].
        destruct (pending s2); split; reflexivity. }
    destruct H3 as (s3 & E3 & Hp3 & Hk3). rewrite E3 in E4. cbv beta iota in E4.
    unfold bind at 1 in E4.
    destruct (provider_points_loop randint map_key map_id ap_ae s3) as [[l | e] s3'] eqn:El;
      [| discriminate E4].
    unfold bind, commit, ret in E4. cbv beta iota in E4. injection E4 as <- <-.
    cbn [stored pending].
    assert (Hu3 : unique_point_ids (pending s3))
      by (unfold unique_point_ids; rewrite Hp3, Hp2; exact Hu).
    destruct (provider_points_loop_run map_key map_id ap_ae Hmid s3 l s3' Hu3 El)
      as (Hu' & _ & Hd' & _ & Hf).
    split; [reflexivity |]. split; [exact Hu' |]. split; [| exact Hf].
    rewrite <- Hk3. exact (f_equal map_keys Hd'). }
  destruct H4 as (Hc4 & Hu4 & Hk4 & Hf4).
  unfold bind at 1 in E.
  match type of E with
  | match ?m s4 with _ => _ end = _ =>
      assert (H5 : exists s5 m', m s4 = (Ok tt, s5)
                     /\ stored s5 = stored s4
                     /\ points (pending s5) = points (pending s4)
                     /\ In m' (map_keys (pending s5))
                     /\ MapKey.map_id m' = map_id /\ MapKey.public_key_n m' = n
                     /\ mem who (MapKey.past_requests m') = true)
  end.
  { destruct (mem who (MapKey.past_requests map_key)) eqn:Epast; cbn [negb].
    - exists s4, map_key. split; [reflexivity |]. split; [reflexivity |].
      split; [reflexivity |]. split; [rewrite Hk4; exact Hin2 |].
      split; [exact Hmid |]. split; [exact Hn | exact Epast].
    - unfold update_map_key, modify_db. eexists.
      exists (MapKey.set_past_requests (MapKey.past_requests map_key ++ [who])%list map_key).
      split; [reflexivity |]. cbn [stored pending].
      split; [reflexivity |]. split; [destruct (pending s4); reflexivity |].
      split.
      { destruct (pending s4) eqn:Ed. cbn. cbn in Hk4. rewrite Hk4.
        apply in_map_iff. exists map_key. rewrite Z.eqb_refl. split; [reflexivity | exact Hin2]. }
      split; [exact Hmid |]. split; [exact Hn |]. apply mem_app_r. }
  destruct H5 as (s5 & m' & E5 & Hs5 & Hp5 & Hin5 & Hmid5 & Hn5 & Hpast5).
  rewrite E5 in E. cbv beta iota in E.
  unfold _prepare_comparisons in E. unfold bind at 1 in E.
  destruct (_prepare_comparisons_loop config ids who s5) as [[cs' | e] s6] eqn:E6;
    [| discriminate E].
  unfold bind, commit, ret in E. cbv beta iota in E. injection E as <- <-.
  cbn [stored pending].
  destruct (prepare_comparisons_loop_run config ids who s5 cs' s6 E6)
    as ((_ & Hd6 & Hrows & _) & Hstanding & Hshown).
  split; [reflexivity |].
  split.
  { exists m'. split; [| split; [exact Hmid5 | split; [exact Hn5 | exact Hpast5]]].
    rewrite (f_equal map_keys Hd6 : map_keys (pending s6) = map_keys (pending s5)).
    exact Hin5. }
  assert (Hu5 : unique_point_ids (pending s5))
    by (unfold unique_point_ids; rewrite Hp5; exact Hu4).
  clear E6 E5 E4 E2 E1 Erq.
  revert cs' Hshown. induction Hf4 as [| pid coordinate ids' rest (p & Hp & Hid & Hloc) Hf IH];
    intros cs' Hshown; inversion Hshown as [| pid' c ids'' cs'' (p0 & Hp0 & Hc) Hrest]; subst.
  - constructor.
  - constructor.
    + assert (Hfirst : first_row (pending s5) (StoredPoint.id p) = Some p).
      { apply first_row_unique; [exact Hu5 | rewrite Hp5; exact Hp]. }
      rewrite Hfirst in Hp0. injection Hp0 as <-.
      destruct (Hrows _ _ Hfirst) as (p' & Hp' & Hmore).
      exists p'.
      assert (Hcp : comparison_point (shown config who p) = StoredPoint.id p)
        by (unfold shown; destruct (_ || _); reflexivity).
      rewrite Hcp. split; [exact Hp' |].
      split; [exact (located_more_requests _ _ _ _ Hmore Hloc) |].
      apply (Hstanding (StoredPoint.id p) p p'); [left; reflexivity | exact Hfirst | exact Hp'].
    + apply IH; [| exact Hrest].
      intros pid0 q q' Hin. apply Hstanding. right. exact Hin.
Qed.

End ProviderComparisons.

Section ProviderComparisonsExamples.
#[local] Existing Instance toy_cipher.

(** Bob asks for the comparisons of point 1 and of the coordinate (3, 3),
    where map 1 has no point yet. *)
Lemma provider_comparisons_give_standing_witness :
  exists cs s',
    get_comparisons_provider default_config ex_randint 1 ex_map_name ex_n
      [(1, 1); (3, 3)] "bob" ex_batch_map
    = (Ok cs, s')
    /\ stored s' = pending s'
    /\ (exists m, In m (map_keys (stored s'))
                  /\ MapKey.map_id m = 1 /\ MapKey.public_key_n m = ex_n
                  /\ mem "bob" (MapKey.past_requests m) = true)
    /\ Forall2 (fun c coordinate =>
                  exists p, first_row (stored s') (comparison_point c) = Some p
                            /\ located 1 coordinate p /\ standing "bob" p)
         cs [(1, 1); (3, 3)].
Proof.
  destruct (get_comparisons_provider default_config ex_randint 1 ex_map_name ex_n
              [(1, 1); (3, 3)] "bob" ex_batch_map) as [[cs | e] s'] eqn:E;
    [| vm_compute in E; discriminate E].
  exists cs, s'. split; [reflexivity |].
  apply (provider_comparisons_give_standing default_config ex_randint ex_batch_map s' 1
           ex_map_name ex_n [(1, 1); (3, 3)] "bob" cs).
  - unfold unique_point_ids. cbn. repeat constructor; cbn; intuition discriminate.
  - exact E.
Defined.

End ProviderComparisonsExamples.

(** ** The last comparator *)

Section LastComparator.
Context {cipher : Cipher}.
Variable config : Config.
Variables randint nonce : nat -> Z.

(** X15. The last comparator of a point compares nothing.  Outside of
    evaluation mode, a producer with a standing request who made the
    latest comparison of the point is shown no ciphertext, so that its
    [_perform_comparisons] computes the empty result; [_store_comparison]
    accepts that result, commits, and changes nothing of the point but
    [current_comparators], from which it removes the producer: the slots
    and the offset stay as they are.  Any other result of that producer
    is refused as unasked for, and the session is rolled back. *)
Theorem last_comparator_changes_nothing (s : Session) (point_id : Z) (who : Producer)
  (p : StoredPoint.t) (m : MapKey.t) (n : Z) :
  EVAL config = false ->
  point_at (pending s) point_id p ->
  map_at (pending s) (StoredPoint.map_id p) m ->
  standing who p ->
  StoredPoint.last_comparator p = Some who ->
  exists l,
    list_remove who (StoredPoint.current_comparators p) = Some l
    /\ _perform_comparisons n [shown config who p] = inr [(point_id, None, None)]
    /\ _store_comparison config randint nonce (point_id, None, None) who s
       = (Ok point_id,
          {| stored := put_point point_id (StoredPoint.set_current_comparators l p) (pending s);
             pending := put_point point_id (StoredPoint.set_current_comparators l p)
                          (pending s);
             draws := draws s |})
    /\ forall rp ru,
         truthy rp || truthy ru = true ->
         _store_comparison config randint nonce (point_id, rp, ru) who s
         = (Raise (ValueErrorFrom "" (ValueError "Comparison was unasked for.")),
            rolled_back s).
Proof.
  intros HE Hp Hmap [Hreq Hcur] Hlast.
  assert (Hq : StoredPoint.id p = point_id) by exact (point_at_id _ _ _ Hp).
  destruct (mem_list_remove _ _ Hcur) as [l Hl]. exists l.
  assert (Hlc : opt_producer_eqb (StoredPoint.last_comparator p) (Some who) = true)
    by (rewrite Hlast; cbn [opt_producer_eqb]; apply String.eqb_refl).
  assert (Hrun : forall rp ru,
            _store_comparison config randint nonce (point_id, rp, ru) who s
            = if truthy rp || truthy ru
              then (Raise (ValueErrorFrom "" (ValueError "Comparison was unasked for.")),
                    rolled_back s)
              else (Ok point_id,
                    {| stored := put_point point_id (StoredPoint.set_current_comparators l p)
                                   (pending s);
                       pending := put_point point_id (StoredPoint.set_current_comparators l p)
                                    (pending s);
                       draws := draws s |})).
  { intros rp ru. unfold _store_comparison. unfold bind at 1.
    rewrite (load_point_ok s point_id p m Hp Hmap). cbv beta iota.
    rewrite Hreq. cbn [negb]. rewrite Hcur. unfold bind at 1, try_except.
    rewrite Hlc, HE. cbn [negb orb]. unfold bind at 1.
    destruct (truthy rp || truthy ru).
    - unfold raise, bind, rollback. reflexivity.
    - rewrite Hl. rewrite (update_point_run _ _ _ _ Hp). cbv beta iota.
      unfold commit, bind, ret. reflexivity. }
  split; [exact Hl |].
  split.
  { unfold shown. rewrite Hlc, HE, Hq. cbn [negb orb].
    unfold _perform_comparisons. reflexivity. }
  split; [exact (Hrun None None) |].
  intros rp ru H. rewrite Hrun, H. reflexivity.
Qed.

End LastComparator.

Section LastComparatorExamples.
#[local] Existing Instance toy_cipher.

(** Bob made the latest comparison of point 1 and asks again. *)
Definition ex_compared_point : StoredPoint.t :=
  StoredPoint.set_last_comparator (Some "bob")
    (ex_point 1 (Some ex_optimal) (Some "alice") None None None None 5 ["bob"] ["bob"] []).

Definition ex_compared : Session := ex_session (ex_db ["bob"] [] [ex_compared_point] []).

Lemma last_comparator_changes_nothing_witness :
  exists l,
    list_remove "bob" ["bob"] = Some l
    /\ _perform_comparisons ex_n [shown default_config "bob" ex_compared_point]
       = inr [(1, None, None)]
    /\ _store_comparison default_config ex_randint ex_nonce (1, None, None) "bob" ex_compared
       = (Ok 1,
          {| stored := put_point 1 (StoredPoint.set_current_comparators l ex_compared_point)
                         (pending ex_compared);
             pending := put_point 1 (StoredPoint.set_current_comparators l ex_compared_point)
                          (pending ex_compared);
             draws := draws ex_compared |})
    /\ forall rp ru,
         truthy rp || truthy ru = true ->
         _store_comparison default_config ex_randint ex_nonce (1, rp, ru) "bob" ex_compared
         = (Raise (ValueErrorFrom "" (ValueError "Comparison was unasked for.")),
            rolled_back ex_compared).
Proof.
  apply (last_comparator_changes_nothing default_config ex_randint ex_nonce ex_compared 1 "bob"
           ex_compared_point (ex_map ["bob"]) ex_n).
  - reflexivity.
  - reflexivity.
  - exists []. reflexivity.
  - split; reflexivity.
  - reflexivity.
Defined.

End LastComparatorExamples.

(** ** Answers of the routes *)

Section RouteAnswers.
Context {cipher : Cipher}.
Variable config : Config.
Variables randint nonce : nat -> Z.

Lemma get_point_list_raises (ids : list Z) :
  forall s e s', get_point_list ids s = (Raise e, s') -> e = InvalidRequestError.
Proof.
  induction ids as [| i rest IH]; intros s e s' E; cbn [get_point_list] in E;
    [discriminate E |].
  unfold bind at 1 in E.
  destruct (get_point i s) as [[p | e0] s1] eqn:Eg.
  - unfold bind at 1 in E.
    destruct (get_point_list rest s1) as [[l | e1] s2] eqn:El; [discriminate E |].
    injection E as <- _. exact (IH _ _ _ El).
  - injection E as <- _. unfold get_point, bind, get_db in Eg. cbv beta iota in Eg.
    destruct (filter _ _) in Eg; [| discriminate Eg]. injection Eg as <- _. reflexivity.
Qed.

Lemma unmasked_point_raises (n i : Z) (s : Session) (e : Exn) (s' : Session) :
  unmasked_point nonce n i s = (Raise e, s') ->
  (stored s' = stored s /\ pending s' = pending s)
  /\ (uncaught e \/ range_error e).
Proof.
  intros Ex. unfold unmasked_point in Ex. unfold bind at 1 in Ex.
  destruct (get_point i s) as [[p | e1] s2] eqn:Eg.
  - destruct (get_point_run _ _ _ _ Eg) as [-> _].
    unfold bind at 1 in Ex.
    destruct (enc_sub n (StoredPoint.fz_optimal p) (StoredPoint.current_offset p) s)
      as [[c | e2] s3] eqn:Es.
    + unfold bind at 1, ciphertext, bind at 1, draw at 1, ret at 1 in Ex.
      cbv beta iota in Ex. discriminate Ex.
    + injection Ex as <- <-.
      pose proof (proj1 (enc_sub_inv _ _ _ _ _ _ Es)) as ->.
      split; [split; reflexivity |].
      destruct (enc_sub_raises _ _ _ _ _ _ Es) as [-> | (k0 & _ & Hk & ->)];
        [left; exact I | right; exists n, (- k0)].
      rewrite Z.abs_opp. auto.
  - injection Ex as <- <-. destruct (get_point_run _ _ _ _ Eg) as [-> _].
    split; [split; reflexivity |]. left.
    unfold get_point, bind, get_db in Eg. cbv beta iota in Eg.
    destruct (filter _ _) in Eg; [| discriminate Eg]. injection Eg as <-. exact I.
Qed.

Lemma unmasked_points_raises (n : Z) (ids : list Z) :
  forall s e s',
    unmasked_points nonce n ids s = (Raise e, s') ->
    (stored s' = stored s /\ pending s' = pending s)
    /\ (uncaught e \/ range_error e).
Proof.
  induction ids as [| i rest IH]; intros s e s' E; cbn [unmasked_points] in E;
    [discriminate E |].
  unfold bind at 1 in E.
  destruct (unmasked_point nonce n i s) as [[x | e0] s1] eqn:Ex.
  - destruct (unmasked_point_run _ _ _ _ _ _ Ex) as (Hs1 & Hp1 & _).
    unfold bind at 1 in E.
    destruct (unmasked_points nonce n rest s1) as [[l | e1] s2] eqn:El; [discriminate E |].
    injection E as <- <-. destruct (IH _ _ _ El) as [[Hs2 Hp2] He].
    split; [split; congruence | exact He].
  - injection E as <- <-. exact (unmasked_point_raises _ _ _ _ _ Ex).
Qed.

(** The exceptions of [get_points] for a registered producer: the error
    of a batch that was rolled back, an exception the route does not
    catch, or the error of [phe] for the offset of a point that is to be
    returned, raised when the batch, the retrieval and its billing are
    committed. *)
Lemma get_points_raises (results : list ComparisonResult) (who : string) (s : Session)
  (e : Exn) (s' : Session) :
  In who (producers (pending s)) ->
  get_points config randint nonce results who s = (Raise e, s') ->
  rolled_back_error e s' \/ uncaught e
  \/ (range_error e /\ stored s' = pending s'
       /\ exists pts s1, get_points_loop config randint nonce results who s = (Ok pts, s1)).
Proof.
  intros Hwho E. unfold get_points in E. unfold bind at 1 in E.
  rewrite (get_user_ok who s Hwho) in E. cbv beta iota in E.
  unfold bind at 1, try_except in E. unfold bind at 1 in E.
  destruct (get_points_loop config randint nonce results who s) as [[pts | e0] s1] eqn:E1.
  2:{ unfold bind, rollback, raise in E. cbv beta iota in E. injection E as <- <-.
      left. split; [eexists; reflexivity | reflexivity]. }
  unfold bind at 1, commit at 1 in E. cbv beta iota in E. unfold ret at 1 in E.
  unfold bind at 1 in E.
  match type of E with
  | context [_add_to_retrieval_db_producer pts who ?s0] =>
      assert (Hret : exists t s2, _add_to_retrieval_db_producer pts who s0 = (Ok t, s2))
        by (do 2 eexists; reflexivity)
  end.
  destruct Hret as (t & s2 & Eret). rewrite Eret in E. cbv beta iota in E.
  unfold bind at 1 in E.
  destruct (_add_to_billing_db_producer pts who t s2) as [[[] | e0] s3] eqn:Eb.
  - pose proof (add_to_billing_committed _ _ _ _ _ Eb) as Hc3.
    destruct pts as [| point0 rest]; [injection E as <- _; right; left; exact I |].
    unfold bind at 1 in E.
    destruct (get_point point0 s3) as [[p | e1] s4] eqn:Eg.
    + unfold bind at 1, point_map, bind at 1 in E. rewrite query_map_key_run in E.
      unfold get_point, bind, get_db in Eg. cbv beta iota in Eg.
      destruct (filter _ (points (pending s3))) in Eg; [discriminate Eg |].
      injection Eg as _ <-.
      destruct (filter _ (map_keys (pending s3))) in E.
      * injection E as <- _. right. left. exact I.
      * unfold ret at 1 in E. cbv beta iota in E. right.
        destruct (unmasked_points_raises _ _ _ _ _ E) as [[Hs Hp] [Hu | Hr]];
          [left; exact Hu | right].
        split; [exact Hr |]. split; [congruence | eauto].
    + injection E as <- _. right. left.
      unfold get_point, bind, get_db in Eg. cbv beta iota in Eg.
      destruct (filter _ _) in Eg; [| discriminate Eg]. injection Eg as <- _. exact I.
  - injection E as <- <-. unfold _add_to_billing_db_producer in Eb. unfold bind at 1 in Eb.
    destruct (get_point_list pts s2) as [[rows | e1] s4] eqn:Eg.
    + unfold try_except, bind at 1 in Eb.
      destruct (add_all_billing _ who t s4) as [[[] | e2] s5]; [discriminate Eb |].
      unfold bind, rollback, raise in Eb. cbv beta iota in Eb. injection Eb as <- <-.
      left. split; [eexists; reflexivity | reflexivity].
    + injection Eb as <- _. rewrite (get_point_list_raises _ _ _ _ Eg). right. left. exact I.
Qed.

(** X16. The answers of a failed batch carry no reason of the backend.
    For a registered producer, an answer of [provide_records] with
    ['success': False] has the empty message, whatever the backend found
    wrong with the batch.  So has an answer of [retrieve_points], with
    one exception: the message of [phe] for a scalar beyond
    [n // 3 - 1], raised when the offset of a point is taken out of the
    value to return; the batch has been accepted by then.  In each case
    nothing is left uncommitted in the session. *)
Theorem batch_failure_gives_no_reason (s : Session) (who : string) :
  In who (producers (pending s)) ->
  (forall results msg s',
     retrieve_points config randint nonce results who s = (Failure msg, s') ->
     (msg = ""
      \/ (exists n k, max_int n < Z.abs k /\ msg = range_message n k)
          /\ exists pts s1,
               get_points_loop config randint nonce results who s = (Ok pts, s1))
     /\ stored s' = pending s')
  /\ (forall records msg s',
        provide_records config randint nonce records who s = (Failure msg, s') ->
        msg = "" /\ stored s' = pending s').
Proof.
  intros Hwho. split.
  - intros results msg s'. unfold retrieve_points, answer.
    destruct (get_points config randint nonce results who s) as [[l | e] s1] eqn:E;
      [discriminate |].
    destruct (get_points_raises results who s e s1 Hwho E)
      as [[[cause ->] Hc] | [Hu | ((n & k & Hk & ->) & Hc & Hloop)]].
    + intros H. injection H as <- <-. split; [left; reflexivity | exact Hc].
    + destruct e; try discriminate; destruct Hu.
    + unfold out_of_range. intros H. injection H as <- <-.
      split; [right; split; [exists n, k; auto | exact Hloop] | exact Hc].
  - intros records msg s'. unfold provide_records, answer, store_records.
    unfold bind at 1. rewrite (get_user_ok who s Hwho). cbv beta iota.
    unfold try_except, bind at 1.
    destruct (store_records_loop config randint nonce records who s) as [[[] | e] s1].
    + unfold commit. discriminate.
    + unfold bind, rollback, raise. cbv beta iota. intros H. injection H as <- <-.
      split; reflexivity.
Qed.

End RouteAnswers.

Section RouteAnswersExamples.
#[local] Existing Instance toy_cipher.

(** Point 1 is masked with the offset 50, beyond the 46 that [phe]
    encodes for the modulus 143; bob has a request for it that is not
    current. *)
Definition ex_wide_offset : Session :=
  ex_session
    (ex_db ["bob"] []
       [ex_point 1 (Some ex_optimal) (Some "alice") None None None None 50 ["bob"] [] []] []).

(** Bob submits an empty result for point 2, whose unknown value he was
    asked to compare: "Comparison was not performed." does not reach
    him.  His retrieval of the point with the wide offset is accepted and
    billed, and fails with the message of [phe]. *)
Lemma batch_failure_gives_no_reason_witness :
  (exists s',
     retrieve_points default_config ex_randint ex_nonce [(2, None, None)] "bob"
       ex_batch_client
     = (Failure "", s')
     /\ stored s' = pending s')
  /\ (exists s',
        retrieve_points default_config ex_randint ex_nonce [(1, None, None)] "bob"
          ex_wide_offset
        = (Failure "Integer needs to be within +/- 46 but got -50", s')
        /\ stored s' = pending s'
        /\ List.length (billing_information_producer (stored s')) = 1%nat).
Proof.
  split.
  - destruct (retrieve_points default_config ex_randint ex_nonce [(2, None, None)] "bob"
                ex_batch_client) as [r s'] eqn:E.
    pose proof E as E'. vm_compute in E'. injection E' as <- _.
    exists s'. split; [reflexivity |].
    refine (proj2 (proj1 (batch_failure_gives_no_reason default_config ex_randint ex_nonce
                            ex_batch_client "bob" _) [(2, None, None)] "" s' E)).
    vm_compute. auto.
  - destruct (retrieve_points default_config ex_randint ex_nonce [(1, None, None)] "bob"
                ex_wide_offset) as [r s'] eqn:E.
    pose proof E as E'. vm_compute in E'.
    assert (Hr : r = Failure "Integer needs to be within +/- 46 but got -50")
      by (injection E' as <- _; reflexivity).
    subst r. exists s'. split; [reflexivity |]. split.
    + refine (proj2 (proj1 (batch_failure_gives_no_reason default_config ex_randint ex_nonce
                              ex_wide_offset "bob" _) [(1, None, None)] _ s' E)).
      vm_compute. auto.
    + injection E' as <-. reflexivity.
Defined.

End RouteAnswersExamples.
